(* ===== verification/_CoqProject ===== *)
-Q . S2P
Prelude.v
Temporal.v
JsString.v
Range.v
Tokenizer.v
LineExtractor.v
Excerpt.v
Configuration.v
ParamCollection.v
PlainText.v
InlineTag.v
MemberSymbol.v
React.v
Start.v
HtmlView.v
Comment.v
Transforms.v
HtmlTotal.v
HtmlTyping.v
Pipeline.v
ParserContext.v
NodeParser.v
Markup.v
Fence.v
Log.v
Parser.v
