(* ===== verification/Prelude.v ===== *)
(** * A verification development for the TSDoc comment parser's node model

    ** The program

    The repository is a fragment of the TSDoc library (a parser of
    documentation comments) and of its playground:

    - [src/tsdoc/src/nodes/DocMemberSymbol.ts] holds the [DocMemberSymbol]
      node and, after it, the [ITextLocation] interface and the [TextRange]
      class: an immutable view [(buffer, pos, end)] into a text buffer with
      bounds validation, sub-ranging, [toString], a debugging dump and the
      offset-to-line/column walk [getLocation];
    - [src/tsdoc/src/nodes/DocPlainText.ts] holds the [DocPlainText] node: a
      node that is either parsed (backed by an excerpt, its text computed
      once and cached) or constructed from a literal (rejected when it
      contains a newline);
    - [src/tsdoc/src/nodes/DocParamCollection.ts] holds [DocParamCollection]
      (an ordered array of parameter blocks with a lazily allocated
      name-to-block [Map] in which the first block of a name wins),
      [DocParagraph] and [DocInlineTag] (lazily cached tag content);
    - [src/playground/src/DocHtmlView.tsx] renders a [DocComment] by kind
      dispatch; [src/playground/src/start.tsx] styles the root element of
      the page and mounts the application into it;
    - [src/tsdoc/src/parser/__tests__/Tokenizer.test.ts] is a test of the
      tokenizer, whose implementation is not part of the sources.

    The tokenizer, the line extractor, the node parser, the configuration,
    the parser context, the comment, the node transforms and the
    [DocNode]/[DocExcerpt]/[TokenSequence] base classes are named by the
    specification but their code is not under [src/]. Where a modelled
    class needs one of them it is used through an interface (a type class)
    stated from the specification's words. The stages of a parse (line
    extractor, tokenizer, code fences, block grammar of the node parser,
    grammar of the text of a line, configuration, assembly of the comment,
    context with its log) and the whitespace normalization of a paragraph
    are modelled from the specification, and composed with the code of the
    sources: the ranges of the lines are made by [TextRange.getNewRange],
    the parameter blocks go through [DocParamCollection.add], the inline
    tags are made by the constructor of [DocInlineTag], the comment is
    rendered by [DocHtmlView], and the test of the tokenizer runs on the
    parser. The specification is what
    the theorems about these stages are about; what it leaves open and the
    model decides is named in the header of each file.

    ** Layout

    - [Prelude] (this file): the [result] type that models a constructor or
      call that may [throw], with its bind notation in [result_scope]; the
      [while_fuel] combinator that models a [while] loop with fuel and its
      termination, exit and invariant rules; the [tsdoc] hint database and
      the tactics [destruct_guards] and [solve_result].
    - [Temporal]: progress over a step relation: [eventually] (every run
      reaches), [always] (every reachable state satisfies), [leads_to],
      their rules, and the steps of a [while] loop with the rule that a
      loop with a decreasing measure reaches its exit.
    - [JsString]: the JavaScript string primitives the sources call
      ([length], [substring] with its clamping and swapping, indexing, [+],
      the regular-expression test for a newline, truthiness and [||]) over
      Rocq's [string], with a transfer to stdpp's list lemmas.
    - [Range]: [Module TextRange], the [TextRange] class of
      [DocMemberSymbol.ts]: the validating constructor, the factories, the
      observers and [getLocation] with its loop.
    - [Tokenizer]: [Module Tokenizer], the tokenizer of the specification
      as a single pass over the characters of a line, an automaton that
      returns lexemes, and the ranges of the tokens; [Module
      TokenizerTest], the helper [matchSnapshot] and the inputs of
      [Tokenizer.test.ts].
    - [LineExtractor]: [Module LineExtractor], the line extractor of the
      specification: the rows of a comment between its delimiters and the
      range of each row without its decoration.
    - [Configuration]: the tag definitions, the normalization of a tag
      name, [Module StandardTags] and [Module TSDocConfiguration], the
      registry with its lookup and its registration.
    - [Excerpt]: what the node classes use of classes that are not under
      [src/]: the node kinds, the excerpt roles, the token sequence as the
      interface [TokenSequence], the excerpt record, and the union [Params]
      of parsed and constructed parameters.
    - [ParamCollection]: [Module DocParamCollection], the parameter
      collection as a state machine over [add] and [clear], its invariant
      and its refinement of a linear search; the interface [ParamBlock] of
      what it reads of a block.
    - [PlainText]: [Module DocPlainText], the node of [DocPlainText.ts]:
      the constructor with its newline check, and the getter [text] as a
      function to the text and the node after the call.
    - [InlineTag]: [Module DocInlineTag], the inline tag of
      [DocParamCollection.ts], over the interface [InlineTagBase] of its
      base class.
    - [MemberSymbol]: [Module DocMemberSymbol], the node of
      [DocMemberSymbol.ts] and its children, and [Module DocParagraph],
      over the interface [NodeContainer] of its base class.
    - [React]: the tree of React nodes that JSX denotes, the keys of an
      array, the text and the headings of a tree, and the loop that pushes
      onto an array and keys by its length.
    - [Start]: [Module Start], the script of [start.tsx] as a computation
      in a monad of the page (console, elements with their style, mounted
      containers) and of errors.
    - [HtmlView]: [Module DocHtmlView], the view of [DocHtmlView.tsx]:
      [render] section by section, [_renderContainer] and [_renderDocNode],
      over records of what the view reads of a comment and the interface
      [NodeTransforms] of [trimSpacesInParagraph].
    - [Transforms]: [Module DocNodeTransforms], the whitespace
      normalization of a paragraph from the specification, an instance of
      [NodeTransforms].
    - [HtmlTotal]: [Module DocHtmlViewTotal], the view without fuel:
      [_renderDocNode] by recursion on the depth of the node (a definition
      by well-founded recursion that computes) and the sections of [render]
      in closed form; the view on fuel computes it.
    - [HtmlTyping]: [Module Html], the content model of the HTML elements
      of the view, and [Module DocHtmlViewTyping], the comments whose view
      is valid HTML.
    - [Comment]: [Module DocBlockTag], [Module ModifierTagSet] and [Module
      DocComment]: the empty comment and the operations that fill its
      sections, from the specification.
    - [Pipeline]: [Module Pipeline], the components composed: from ranges
      and tokens to plain text nodes, from the nodes to what the view reads
      of them, from the operations on the parameter collection to the rows
      of the table.
    - [ParserContext]: the diagnostics and [Module ParserContext], the
      record of a parse.
    - [NodeParser]: the interface [InlineGrammar] of the grammar of the
      text of a line and [Module NodeParser], the grammar of the blocks as
      a step on a state, folded over the lines, with its invariant.
    - [Markup]: [Module Markup], the grammar of the text of a line as an
      instance of [InlineGrammar]: the scanner of escapes, code spans and
      inline tags, the same grammar as inference rules, the links with a
      URL or a path of members as target, and the inline tag of the
      scanner as a [DocInlineTag] of the sources. A backslash is an
      escape before punctuation only, as test 03 of the sources says.
    - [Fence]: [Module FencedCode], the code fences: the lines of a
      comment cut into lines of text and fences, the step of the parser on
      such a segment, and [parse_comment], the parser of a comment.
    - [Log]: [Module ParserLog], where the diagnostics of a parse point:
      the ranges inside a part of a buffer, the class [RangedGrammar] of
      the grammars of the text of a line whose diagnostics lie within the
      tokens they are given, and the invariant of the log over the steps
      of the node parser and of the fences.
    - [Parser]: [Module TSDocParser], [parseString] as the composition of
      the stages; [Module TokenizerRun], [matchSnapshot] and the six tests
      of [Tokenizer.test.ts] on that parser; the theorems about a parse
      from the buffer to the view.

    A file requires the files above it that it uses: [Range] is used by
    [Tokenizer], [LineExtractor], [Excerpt] and the nodes, [Temporal] by
    [Range], [PlainText] and [InlineTag], [ParamCollection] and [React] by
    [HtmlView], [HtmlView] by [Comment], [Transforms], [HtmlTotal] and
    [HtmlTyping], [Pipeline] requires the files of the nodes and of the
    view, [NodeParser] the tokenizer, the configuration, the comment and
    the typing of the view, [Markup] and [Fence] require [NodeParser],
    [Markup] the inline tag as well, [Log] requires [Markup] and [Fence],
    and [Parser] requires the stages of a parse.

    ** What the theorems show

    - [TextRange]: the constructor fails with the message of the first
      bound it finds broken and succeeds exactly on
      [0 <= pos <= end <= buffer.length]; every range a client can obtain
      satisfies that; [toString] is the slice, adjacent ranges concatenate
      to the slice they cover; [getDebugDump] loses no character;
      [getLocation] terminates and returns one plus the line feeds before
      the index and one plus the characters other than carriage returns
      after the last of them, or [{0, 0}] outside the buffer.
    - [DocParamCollection]: in every reachable state the map is allocated
      exactly when a block was added since the last [clear] and maps each
      name to the first block of that name; lookup refines the linear
      search of the blocks.
    - [DocPlainText], [DocInlineTag]: the getter returns what the
      parameters stand for, never fails on a node the constructor made, and
      the stored text is not observable; the constructor refuses exactly
      the literals with a line feed.
    - Progress: the reads of [text] from a new node reach a node that
      stores the text and stays as it is ([text_eventually_stored]); the
      same for [tagContent], where a parsed tag without content never
      stores its empty content; the turns of the loop of [getLocation]
      reach the index and stop there ([getLocation_reaches_index]).
    - [DocMemberSymbol]: the children, their order and roles; the texts of
      the children of a parsed node concatenate to the text it covers.
    - [DocHtmlView]: [render] terminates; its headings are those of the
      outline of the comment; its arrays have unique keys exactly when at
      most one section is keyed [seeAlso]; a container renders one element
      per node keyed by position; a link text is never empty; the table of
      parameters has a row per block. The view on fuel is equivalent to the
      total view ([render_total_equiv]), on which the rest is proved: the
      tree is valid HTML exactly when no paragraph holds a paragraph or a
      fenced code block ([render_valid]).
    - [Start]: without an element [root] the script throws the
      [TypeError] of its first assignment after it has logged; with it,
      the four properties are set over the style the element had, nothing
      else changes and the application is mounted; a second run changes
      the console only.
    - [Tokenizer]: the tokens of a line are adjacent valid ranges that
      cover the line, their texts concatenate to its text, each token has
      the characters of its kind and runs are maximal; the tokens end with
      the only end of input; the loop of [matchSnapshot] makes an item of
      every token.
    - [DocNodeTransforms]: the normalization keeps the content, returns a
      normal form, is idempotent and does not deepen the paragraph; the
      view of a paragraph is the view of the normalized paragraph.
    - [LineExtractor]: on a valid range the extractor never throws; its
      lines are valid ranges of the original buffer, between the
      delimiters, in order and apart, without a line feed; their texts are
      the rows of the text without their decoration.
    - [TSDocConfiguration]: normalization is idempotent and keeps the
      length; a lookup returns the first definition of the normalized
      name; the normalized names of a reachable registry are distinct, a
      registration of a taken name throws and leaves the registry, another
      one adds the definition and changes no other lookup.
    - [ModifierTagSet]: after any insertions the set holds the normalized
      names in the order of their first insertion, each once.
    - [NodeParser]: the invariant of the pass (every section holds
      paragraphs of inline nodes, the names of the modifiers are distinct,
      the parameter collection is reachable, a singleton block that is
      there is not open again) holds in every state; the log only grows;
      the summary is the content before the first line that opens a
      section; the blocks of a kind are those that the lines open, in the
      order of the lines, and of a singleton the first alone.
    - [Markup]: the scanner computes the one derivation of a line in the
      rules of the grammar; its elements hold the tokens of the line, each
      once and in order ([markup_round_trip]); the view shows of a line
      the texts of its elements ([markup_view_text]); the content that
      [DocInlineTag.tagContent] returns for a tag of the scanner is the
      text between the spacing after the name and the brace, and its
      excerpt is a range of the line ([inline_tag_content]); a link shows
      its text, else its URL, else the last member of its path, and not
      the placeholder of the view ([link_shown]); every diagnostic is an
      error about a valid range within the line, whose text is an error
      text among the nodes ([diagnostics_located]); a link that is
      malformed, the link without a target among them, is such an error
      text where it stands, and the scan goes on behind it
      ([malformed_link_reported]); an element that is not closed is the
      last diagnostic of its line, about a range that ends with the line,
      and its error text ends the nodes ([unclosed_reported]).
    - [FencedCode]: the segments hold the lines of the comment, each once
      and in order; a fence holds no line that closes it, and only the
      last segment is open; the steps of the parser respect the
      similarity of states (the comments have the same blocks by name
      and tag, whatever their content, and the same section is open),
      they are [Proper] for it, and a fence leaves a similar state: so a
      comment with fences has the outline, the parameters and the
      modifiers that the grammar of the blocks builds from the lines
      outside the fences; the invariant of the node parser is
      kept; a closed fence adds one fenced code block with the lines of
      the code, which the view shows as they are ([fenced_code_shown]); a
      fence that is open at the end is reported from its opening to the
      end of its last line.
    - [ParserLog]: a step of the node parser on a line, or on a fence,
      keeps every diagnostic of the log a valid range of the buffer of
      the comment between its delimiters, for every grammar of the text
      of a line that is a [RangedGrammar]; the grammar without markup and
      the grammar of [Markup] are instances.
    - [TSDocParser]: [parseString] returns a context for every buffer
      (the one call that can throw, the validating constructor behind the
      ranges of the lines, does not; the ranges of tokens and of
      diagnostics are made without it); every diagnostic of its log is
      about a valid range of the buffer that was parsed
      ([parsed_log_valid]); the lines and tokens of its context give the
      text of the comment back; the view renders its
      comment, with fuel 2, to valid HTML, under the headings that the
      lines outside the fences call for ([parsed_headings]); the parameter
      collection holds a block for every [@param] line outside the fences
      and finds the first of a name; a second [@returns] is reported at
      the range of its tag; an open fence is the last diagnostic of the
      log, about a range within the delimiters of the comment
      ([unclosed_fence_reported]); [matchSnapshot] of the test makes an
      item of every token of the lines and ends with the end of input.
    - [Pipeline]: the text of the view of a section is the concatenation
      of the texts of its plain text nodes, which for nodes parsed from
      adjacent ranges, and for the tokens of a line, is the text of the
      source they cover; the rows of the table of parameters are the
      blocks that the abstract collection holds after the same operations.

    ** Conventions

    - A JavaScript [number] that holds an offset or a counter is a [Z]:
      the numbers of the model are integers, and an offset that is [NaN]
      or has a fraction, which the constructor of [TextRange] would
      accept or refuse by its comparisons, is not modelled. The
      sources only add one to such numbers and compare them, and theorem
      [getLocation_bounds] shows the counters stay below the buffer length
      plus one, far inside the range where doubles are exact. The length of
      an array that names a key is a [nat].
    - A JavaScript string is a [string] of 8-bit characters. The sources
      only compare characters with carriage return and line feed, measure,
      index and slice strings, so the width of a code unit is not observed.
    - A [throw new Error(msg)] is the value [Err msg]; a normal return is
      [Ok v].
    - A getter that stores what it computes returns the value and the
      object after the call.
    - The field [end] is spelled [end_] because [end] is a keyword.

    ** Fuel

    - The loop of [getLocation] runs on [index] units of fuel: each turn
      advances [currentIndex] by one up to [index]
      ([getLocation_loop_terminates]).
    - [_renderDocNode] and [_renderContainer] run on fuel because a
      paragraph is rendered after [trimSpacesInParagraph]. The interface
      asks of the transformation that it does not deepen a paragraph; then
      the depth of the deepest container of a comment is enough, and more
      fuel changes nothing ([render_terminates]). [HtmlTotal] defines the
      same function without fuel, by recursion on that depth, and shows
      that every result of the view on fuel is its value.
    - The pass of the tokenizer, the line extractor and the pass of the
      whitespace normalization are structural recursions on the list of
      characters, of rows and of nodes; the scanner of the text of a line
      and the cut into segments are structural recursions on the tokens
      and on the lines, with what is open as an accumulator; the node
      parser is a fold over the lines or the segments: they need no fuel.
    - A parsed comment holds, under a section, paragraphs of inline nodes
      and fenced code blocks, of depth 1: the view needs fuel 2 for it
      ([parsed_view_valid]).

    ** Not modelled

    - Of the grammar of the text of a line: the declaration references
      of a link beyond a path of members (packages, import paths,
      selectors, symbols in brackets), [{@inheritDoc}] as a tag of its
      own, the HTML elements, and the check of the name of an inline tag
      against the configuration. The specification names them without
      their grammar, and their code is not under [src/]. A link whose
      target is such a reference is reported by the model as malformed;
      [{@inheritDoc}] is kept as a generic inline tag, which the view
      does not show. The theorems of the node parser and of the
      composition hold for every instance of [InlineGrammar].
    - What the specification leaves open in the stages that are modelled
      from it: the rows of a comment without content, spacing at the end
      of a row, the boundary of a paragraph, the text after a modifier
      tag, the severities, the content of a code span and of a tag, the
      length of a closing fence and the text after an opening one. The
      model decides each of them, and the header of the file says how.
    - The emitter, and the blocks of a comment that the view does not
      read.
    - The tokenizer's code: the model follows the specification, which
      gives each punctuation character a kind of its own and leaves open
      what a character of no class becomes; the test names a kind
      [OtherPunctuation] that the model never produces. The snapshots the
      test compares with are not under [src/].
    - The application [App] that [start.tsx] mounts: an opaque element.
    - Aliasing: the nodes are values. The one mutation the sources make to
      a shared node, the store of a getter, is shown not to be observable.
    - React's reconciliation and the DOM: the view is modelled up to the
      tree it returns. *)

From Stdlib Require Import ZArith Lia Bool.
From stdpp Require Import base tactics option list.

(* stdpp's [naive_solver] clears hypotheses by name; the notice it prints
   when one is already gone is of no interest here. *)
#[export] Set Warnings "-clear-no-such-hyp".

(** ** Results: a call that returns or throws *)

Inductive result (E A : Type) : Type :=
| Ok (a : A)
| Err (e : E).
Arguments Ok {E A} a.
Arguments Err {E A} e.

#[export] Instance result_eq_dec {E A} `{EqDecision E, EqDecision A} :
  EqDecision (result E A).
Proof. solve_decision. Defined.

Definition res_bind {E A B} (r : result E A) (k : A -> result E B) : result E B :=
  match r with
  | Ok a => k a
  | Err e => Err e
  end.

Definition res_map {E A B} (f : A -> B) (r : result E A) : result E B :=
  match r with
  | Ok a => Ok (f a)
  | Err e => Err e
  end.

Definition is_Ok {E A} (r : result E A) : bool :=
  match r with
  | Ok _ => true
  | Err _ => false
  end.

Definition res_to_option {E A} (r : result E A) : option A :=
  match r with
  | Ok a => Some a
  | Err _ => None
  end.

Declare Scope result_scope.
Delimit Scope result_scope with result.
Notation "x <- r ;; k" := (res_bind r (fun x => k))
  (at level 100, r at next level, right associativity) : result_scope.
Notation "r ;;; k" := (res_bind r (fun _ => k))
  (at level 100, right associativity) : result_scope.

(** A guard of the source: [if (c) throw new Error(msg)]. *)
Definition throw_if {E} (c : bool) (msg : E) : result E unit :=
  if c then Err msg else Ok tt.

(** ** Loops on fuel *)

Section while.
Context {S : Type} (cond : S -> bool) (body : S -> S).

(** [while (cond s) s = body s], giving up when the fuel runs out. *)
Fixpoint while_fuel (fuel : nat) (s : S) : option S :=
  if cond s then
    match fuel with
    | O => None
    | Datatypes.S fuel' => while_fuel fuel' (body s)
    end
  else Some s.

(** The iterations a loop makes before its guard fails, when it does so
    within the fuel. *)
Fixpoint while_steps (fuel : nat) (s : S) : option nat :=
  if cond s then
    match fuel with
    | O => None
    | Datatypes.S fuel' => Datatypes.S <$> while_steps fuel' (body s)
    end
  else Some 0.

End while.

(** ** Automation *)

Create HintDb tsdoc discriminated.
Create Rewrite HintDb tsdoc_rw.

(** Case analysis on the boolean comparisons a guard of the source makes,
    turning each into the arithmetic fact it decides. *)
Ltac destruct_guard :=
  match goal with
  | |- context [Z.ltb ?a ?b] => destruct (Z.ltb_spec a b)
  | |- context [Z.leb ?a ?b] => destruct (Z.leb_spec a b)
  | |- context [Z.gtb ?a ?b] => rewrite (Z.gtb_ltb a b)
  | |- context [Z.geb ?a ?b] => rewrite (Z.geb_leb a b)
  | |- context [Z.eqb ?a ?b] => destruct (Z.eqb_spec a b)
  | H : context [Z.ltb ?a ?b] |- _ => destruct (Z.ltb_spec a b)
  | H : context [Z.leb ?a ?b] |- _ => destruct (Z.leb_spec a b)
  | H : context [Z.gtb ?a ?b] |- _ => rewrite (Z.gtb_ltb a b) in H
  | H : context [Z.geb ?a ?b] |- _ => rewrite (Z.geb_leb a b) in H
  | H : context [Z.eqb ?a ?b] |- _ => destruct (Z.eqb_spec a b)
  end.
Ltac destruct_guards := repeat (destruct_guard; simpl in *); try lia.

(** Closes goals about results that follow by computation and arithmetic. *)
Ltac solve_result :=
  unfold throw_if, res_bind, res_map, is_Ok in *; destruct_guards;
  simplify_eq/=; try done; try lia.

(** ** Laws of [result] *)

Section result_laws.
Context {E A B C : Type}.
Implicit Types (r : result E A) (k : A -> result E B) (h : B -> result E C).

Lemma res_bind_Ok a k : res_bind (Ok a) k = k a.
Proof. done. Qed.

Lemma res_bind_Err (e : E) k : res_bind (Err e) k = Err e.
Proof. done. Qed.

Lemma res_bind_ret r : res_bind r Ok = r.
Proof. by destruct r. Qed.

Lemma res_bind_assoc r k h :
  res_bind (res_bind r k) h = res_bind r (fun a => res_bind (k a) h).
Proof. by destruct r. Qed.

Lemma res_bind_inv_Ok r k b :
  res_bind r k = Ok b <-> exists a, r = Ok a /\ k a = Ok b.
Proof. destruct r; naive_solver. Qed.

Lemma is_Ok_true r : is_Ok r = true <-> exists a, r = Ok a.
Proof. destruct r; naive_solver. Qed.

Lemma is_Ok_false r : is_Ok r = false <-> exists e, r = Err e.
Proof. destruct r; naive_solver. Qed.

Lemma throw_if_Ok (c : bool) (msg : E) : throw_if c msg = Ok tt <-> c = false.
Proof. destruct c; naive_solver. Qed.

Lemma throw_if_Err (c : bool) (msg e : E) :
  throw_if c msg = Err e <-> c = true /\ e = msg.
Proof. destruct c; naive_solver. Qed.

End result_laws.

#[export] Hint Rewrite @res_bind_Ok @res_bind_Err @res_bind_ret : tsdoc_rw.

(** ** Rules of [while_fuel] *)

Section while_rules.
Context {S : Type} (cond : S -> bool) (body : S -> S).
Implicit Types (s : S) (fuel : nat).

(** Termination: a measure that every iteration decreases bounds the fuel
    the loop needs. *)
Lemma while_fuel_terminates (m : S -> nat) :
  (forall s, cond s = true -> m (body s) < m s) ->
  forall fuel s, m s <= fuel -> is_Some (while_fuel cond body fuel s).
Proof.
  intros Hdec fuel. induction fuel as [|fuel IH]; intros s Hm; simpl.
  - destruct (cond s) eqn:Hc; [|by eexists].
    specialize (Hdec s Hc). lia.
  - destruct (cond s) eqn:Hc; [|by eexists].
    apply IH. specialize (Hdec s Hc). lia.
Qed.

(** At the exit the guard is false. *)
Lemma while_fuel_exit fuel s s' :
  while_fuel cond body fuel s = Some s' -> cond s' = false.
Proof.
  revert s. induction fuel as [|fuel IH]; intros s; simpl;
    destruct (cond s) eqn:Hc; naive_solver.
Qed.

(** Loop invariants carry from entry to exit. *)
Lemma while_fuel_invariant (I : S -> Prop) fuel s s' :
  (forall s, I s -> cond s = true -> I (body s)) ->
  I s -> while_fuel cond body fuel s = Some s' -> I s'.
Proof.
  intros Hstep. revert s. induction fuel as [|fuel IH]; intros s; simpl;
    destruct (cond s) eqn:Hc; naive_solver.
Qed.

(** More fuel does not change a result. *)
Lemma while_fuel_mono fuel fuel' s s' :
  while_fuel cond body fuel s = Some s' -> fuel <= fuel' ->
  while_fuel cond body fuel' s = Some s'.
Proof.
  revert fuel' s. induction fuel as [|fuel IH]; intros [|fuel'] s; simpl;
    destruct (cond s) eqn:Hc; naive_solver lia.
Qed.

(** A loop that is not entered returns its state. *)
Lemma while_fuel_skip fuel s :
  cond s = false -> while_fuel cond body fuel s = Some s.
Proof. intros Hc. destruct fuel; simpl; by rewrite Hc. Qed.

(** One unrolling of an entered loop. *)
Lemma while_fuel_unroll fuel s :
  cond s = true ->
  while_fuel cond body (Datatypes.S fuel) s = while_fuel cond body fuel (body s).
Proof. intros Hc. simpl. by rewrite Hc. Qed.

(** The loop is the iteration of its body as many times as it steps. *)
Lemma while_fuel_steps fuel s s' :
  while_fuel cond body fuel s = Some s' ->
  exists n, while_steps cond body fuel s = Some n /\ n <= fuel /\
            s' = Nat.iter n body s.
Proof.
  revert s. induction fuel as [|fuel IH]; intros s; simpl;
    destruct (cond s) eqn:Hc; try naive_solver lia.
  intros (n & -> & Hn & ->)%IH. exists (Datatypes.S n). split_and!; [done|lia|].
  by rewrite Nat.iter_succ_r.
Qed.

End while_rules.

(** ** Lists and options *)

Section lists.
Context {A : Type}.

Lemma elem_of_option_list (x : A) (mx : option A) :
  x ∈ option_list mx <-> mx = Some x.
Proof.
  destruct mx as [y|]; cbn.
  - rewrite list_elem_of_singleton. split; [by intros ->|by intros [= ->]].
  - split; [by intros ?%elem_of_nil|done].
Qed.

(** A bound of the elements of a list bounds its maximum. *)
(** The last element after a first one, whatever the default. *)
Lemma last_cons_default (x d : A) (l : list A) :
  List.last (x :: l) d = List.last l x.
Proof.
  revert x d. induction l as [|y l IH]; intros x d; [done|].
  change (List.last (x :: y :: l) d) with (List.last (y :: l) d).
  by rewrite !IH.
Qed.

Lemma last_elem_of_cons (x : A) (l : list A) : List.last l x ∈ x :: l.
Proof.
  revert x. induction l as [|y l IH]; intros x; [by left|].
  rewrite (last_cons_default y x). right. apply IH.
Qed.

Lemma max_list_le (ns : list nat) (k : nat) :
  Forall (fun n => n <= k) ns -> max_list ns <= k.
Proof. induction 1 as [|n ns Hn _ IH]; cbn; lia. Qed.

End lists.
