(* ===== verification/Temporal.v ===== *)
(** * Progress and stability over a step relation

    The getters of the nodes store what they compute and the loop of
    [getLocation] advances an index: both are steps on a state, and what
    they promise is that something happens (the text is stored, the index
    is reached) and that it then stays so. This file holds the two
    combinators that say it, for any step relation:

    - [eventually step P s]: every run from [s] reaches a state of [P],
      and until then a step is always possible;
    - [always step P s]: every state that is reachable from [s] is in
      [P];

    with their rules (monotonicity, chaining, the invariant rule), and the
    step relation of a [while] loop, for which a measure that every
    iteration decreases gives [eventually] the exit, in the state that
    [while_fuel] returns. *)

From Stdlib Require Import Lia.
From stdpp Require Import base tactics option relations.
From S2P Require Import Prelude.

Section temporal.
Context {State : Type} (step : State -> State -> Prop).
Implicit Types (s : State) (P Q : State -> Prop).

(** Every run from [s] reaches [P]: [P] holds now, or a step is possible
    and every step leads to a state from which [P] is reached. *)
Inductive eventually P : State -> Prop :=
| eventually_now s : P s -> eventually P s
| eventually_next s :
    (exists s', step s s') ->
    (forall s', step s s' -> eventually P s') ->
    eventually P s.

(** [P] holds in every state reachable from [s]. *)
Definition always P s : Prop := forall s', rtc step s s' -> P s'.

(** Every state of [P] leads to a state of [Q]. *)
Definition leads_to P Q : Prop := forall s, P s -> eventually Q s.

Lemma eventually_mono P Q s :
  (forall s, P s -> Q s) -> eventually P s -> eventually Q s.
Proof.
  intros HPQ. induction 1 as [s HP|s Hex _ IH];
    [by apply eventually_now, HPQ|by apply eventually_next].
Qed.

Lemma eventually_idem P s : eventually (eventually P) s -> eventually P s.
Proof. induction 1 as [s HP|s Hex _ IH]; [done|by apply eventually_next]. Qed.

Lemma leads_to_trans P Q R : leads_to P Q -> leads_to Q R -> leads_to P R.
Proof.
  intros HPQ HQR s HP. apply eventually_idem.
  by apply (eventually_mono Q), HPQ.
Qed.

Lemma always_now P s : always P s -> P s.
Proof. intros Hal. by apply Hal. Qed.

Lemma always_step P s s' : always P s -> step s s' -> always P s'.
Proof. intros Hal Hstep s'' Hrtc. apply Hal. by eapply rtc_l. Qed.

Lemma always_mono P Q s : (forall s, P s -> Q s) -> always P s -> always Q s.
Proof. intros HPQ Hal s' Hrtc. by apply HPQ, Hal. Qed.

(** The invariant rule: a property that holds now and that every step
    keeps holds always. *)
Lemma always_invariant (I : State -> Prop) P s :
  I s -> (forall s s', I s -> step s s' -> I s') -> (forall s, I s -> P s) ->
  always P s.
Proof.
  intros HI Hkeep HIP s' Hrtc. apply HIP.
  induction Hrtc as [|s1 s2 s3 Hstep _ IH]; [done|]. by eapply IH, Hkeep.
Qed.

(** A state without steps stays as it is. *)
Lemma always_stuck P s : P s -> (forall s', ~ step s s') -> always P s.
Proof.
  intros HP Hstuck. apply (always_invariant (eq s)); [done| |by intros ? <-].
  intros ? s' <- Hstep. by destruct (Hstuck s').
Qed.

End temporal.

(** ** The steps of a loop *)

Section while_steps.
Context {S : Type} (cond : S -> bool) (body : S -> S).
Implicit Types (s : S) (fuel : nat).

(** One iteration of [while (cond s) s = body s]. *)
Definition while_step s s' : Prop := cond s = true /\ s' = body s.

Lemma while_step_det s s1 s2 : while_step s s1 -> while_step s s2 -> s1 = s2.
Proof. by intros [_ ->] [_ ->]. Qed.

Lemma while_step_exit s s' : cond s = false -> ~ while_step s s'.
Proof. intros Hc [Hc' _]. congruence. Qed.

(** The state that the loop on fuel returns is reached by its steps. *)
Lemma while_fuel_eventually fuel s s' :
  while_fuel cond body fuel s = Some s' -> eventually while_step (eq s') s.
Proof.
  revert s. induction fuel as [|fuel IH]; intros s; cbn;
    destruct (cond s) eqn:Hc; intros Hs; simplify_eq;
    try by apply eventually_now.
  apply eventually_next; [by exists (body s)|]. intros ? [_ ->]. by apply IH.
Qed.

(** A loop with a measure that every iteration decreases reaches its
    exit, and an invariant of the body holds there. *)
Lemma while_eventually (m : S -> nat) (I : S -> Prop) s :
  (forall s, cond s = true -> m (body s) < m s) ->
  (forall s, I s -> cond s = true -> I (body s)) ->
  I s -> eventually while_step (fun s' => cond s' = false /\ I s') s.
Proof.
  intros Hdec Hkeep HI.
  destruct (while_fuel_terminates cond body m Hdec (m s) s) as [s' Hs']; [done|].
  apply (eventually_mono _ (eq s')), (while_fuel_eventually _ _ _ Hs').
  intros ? <-. split; [by eapply while_fuel_exit|by eapply while_fuel_invariant].
Qed.

End while_steps.
