(* ===== verification/JsString.v ===== *)
(** * JavaScript string primitives

    The operations on strings that the modelled sources call: [s.length],
    [s.substring(start, end)] and [s.substring(start)] with the clamping
    and swapping of their arguments, [s[i]], [a + b], the test of the
    regular expression [/[\n]/], truthiness of a string and [a || b].

    Strings are Rocq's [string]; a [number] argument is a [Z]. Facts about
    slices are proved once on lists, through [chars], and carried back with
    [chars_inj]; the rewriting database [chars] pushes [chars] inwards. *)

From Stdlib Require Import ZArith Lia String Ascii.
From stdpp Require Import base tactics option list strings.
From S2P Require Import Prelude.

#[local] Open Scope Z_scope.

(** Line feed and carriage return. *)
Definition LF : ascii := "010"%char.
Definition CR : ascii := "013"%char.

(** ** Slices of a string *)

Fixpoint str_take (n : nat) (s : string) : string :=
  match n, s with
  | S n', String c s' => String c (str_take n' s')
  | _, _ => EmptyString
  end.

Fixpoint str_drop (n : nat) (s : string) : string :=
  match n, s with
  | S n', String c s' => str_drop n' s'
  | _, _ => s
  end.

(** The characters at offsets [from], ..., [to - 1]. *)
Definition str_slice (from to : nat) (s : string) : string :=
  str_take (to - from) (str_drop from s).

(** The characters of a string, as a list. *)
Abbreviation chars := list_ascii_of_string.
Abbreviation of_chars := string_of_list_ascii.

Module Js.

(** [s.length] *)
Definition length (s : string) : Z := Z.of_nat (String.length s).

(** The clamping [min(max(n, 0), len)] that [substring] applies to an
    argument. *)
Definition clamp (len n : Z) : Z := Z.min (Z.max n 0) len.

(** [s.substring(start, end)]: both arguments are clamped to [0..length]
    and swapped when [start] is the larger. *)
Definition substring (s : string) (start end_ : Z) : string :=
  let len := length s in
  let finalStart := clamp len start in
  let finalEnd := clamp len end_ in
  let from := Z.min finalStart finalEnd in
  let to := Z.max finalStart finalEnd in
  str_slice (Z.to_nat from) (Z.to_nat to) s.

(** [s.substring(start)]: [end] defaults to the length. *)
Definition substring_from (s : string) (start : Z) : string :=
  substring s start (length s).

(** [s[i]]: [undefined] ([None]) outside [0..length-1]. *)
Definition index (s : string) (i : Z) : option ascii :=
  if i <? 0 then None else String.get (Z.to_nat i) s.

(** [s[i] === c] for a character [c]: [undefined] equals no character. *)
Definition index_is (s : string) (i : Z) (c : ascii) : bool :=
  match index s i with
  | Some c' => Ascii.eqb c' c
  | None => false
  end.

(** [/[\n]/.test(s)]: whether a line feed occurs in [s]. *)
Fixpoint test_newline (s : string) : bool :=
  match s with
  | EmptyString => false
  | String c s' => Ascii.eqb c LF || test_newline s'
  end.

(** Truthiness of a string: every string but the empty one. *)
Definition truthy (s : string) : bool :=
  match s with
  | EmptyString => false
  | String _ _ => true
  end.

(** Truthiness of [string | undefined]. *)
Definition truthy_opt (o : option string) : bool :=
  match o with
  | Some s => truthy s
  | None => false
  end.

(** [a || b] on strings. *)
Definition or (a b : string) : string := if truthy a then a else b.

(** [a || b] where [a] may be [undefined]. *)
Definition or_opt (a : option string) (b : string) : string :=
  match a with
  | Some s => or s b
  | None => b
  end.

(** The concatenation of a list of strings, [l.join('')]. *)
Definition join (l : list string) : string := foldr String.append "" l.

End Js.

(** ** Transfer to lists *)

Lemma chars_nil : chars "" = [].
Proof. done. Qed.

Lemma chars_cons c s : chars (String c s) = c :: chars s.
Proof. done. Qed.

Lemma chars_app s1 s2 : chars (s1 +:+ s2) = chars s1 ++ chars s2.
Proof.
  induction s1 as [|c s1 IH]; [done|].
  change (c :: chars (s1 +:+ s2) = c :: chars s1 ++ chars s2). by rewrite IH.
Qed.

Lemma chars_length s : List.length (chars s) = String.length s.
Proof. induction s as [|c s IH]; [done|]. cbn. by rewrite IH. Qed.

Lemma chars_take n s : chars (str_take n s) = take n (chars s).
Proof.
  revert s. induction n as [|n IH]; intros [|c s]; try done.
  cbn. by rewrite IH.
Qed.

Lemma chars_drop n s : chars (str_drop n s) = drop n (chars s).
Proof. revert s. induction n as [|n IH]; intros [|c s]; try done. apply IH. Qed.

Lemma chars_slice from to s :
  chars (str_slice from to s) = take (to - from) (drop from (chars s)).
Proof. unfold str_slice. by rewrite chars_take, chars_drop. Qed.

#[export] Instance chars_inj : Inj (=) (=) list_ascii_of_string.
Proof.
  intros s1 s2 Heq.
  rewrite <- (string_of_list_ascii_of_string s1), <- (string_of_list_ascii_of_string s2).
  by rewrite Heq.
Qed.

Lemma chars_get n s : String.get n s = chars s !! n.
Proof.
  revert n. induction s as [|c s IH]; intros [|n]; try done. apply IH.
Qed.

Create Rewrite HintDb chars.
#[export] Hint Rewrite chars_nil chars_cons chars_app chars_take chars_drop
  chars_slice chars_length : chars.

(** Proves an equation between strings from the equation of their
    characters. *)
Ltac by_chars := apply (inj list_ascii_of_string); autorewrite with chars.

(** ** Slices *)

Lemma str_length_chars s : String.length s = List.length (chars s).
Proof. by rewrite chars_length. Qed.

Lemma str_app_length s1 s2 :
  String.length (s1 +:+ s2) = (String.length s1 + String.length s2)%nat.
Proof. rewrite !str_length_chars, chars_app. apply length_app. Qed.

Lemma str_take_length n s :
  String.length (str_take n s) = (n `min` String.length s)%nat.
Proof. rewrite !str_length_chars, chars_take. apply length_take. Qed.

Lemma str_drop_length n s :
  String.length (str_drop n s) = (String.length s - n)%nat.
Proof. rewrite !str_length_chars, chars_drop. apply length_drop. Qed.

Lemma str_slice_length from to s :
  String.length (str_slice from to s) =
  ((to - from) `min` (String.length s - from))%nat.
Proof. unfold str_slice. by rewrite str_take_length, str_drop_length. Qed.

Lemma str_take_drop n s : str_take n s +:+ str_drop n s = s.
Proof. by_chars. apply take_drop. Qed.

Lemma str_take_all n s : (String.length s <= n)%nat -> str_take n s = s.
Proof. intros Hn. by_chars. apply take_ge. by rewrite chars_length. Qed.

Lemma str_drop_all n s : (String.length s <= n)%nat -> str_drop n s = "".
Proof. intros Hn. by_chars. apply drop_ge. by rewrite chars_length. Qed.

Lemma str_app_nil_r s : s +:+ "" = s.
Proof. by_chars. apply app_nil_r. Qed.

Lemma str_app_assoc s1 s2 s3 : (s1 +:+ s2) +:+ s3 = s1 +:+ s2 +:+ s3.
Proof. by_chars. by rewrite <- app_assoc. Qed.

Lemma str_slice_full s : str_slice 0 (String.length s) s = s.
Proof.
  by_chars. rewrite drop_0, Nat.sub_0_r. apply take_ge. by rewrite chars_length.
Qed.

Lemma str_slice_empty n s : str_slice n n s = "".
Proof. by_chars. by rewrite Nat.sub_diag, take_0. Qed.

(** Adjacent slices concatenate. *)
Lemma str_slice_app a b c s :
  (a <= b <= c)%nat -> str_slice a b s +:+ str_slice b c s = str_slice a c s.
Proof.
  intros Habc. by_chars.
  replace (c - a)%nat with ((b - a) + (c - b))%nat by lia.
  rewrite <- take_take_drop, drop_drop. do 3 f_equal. lia.
Qed.

(** A slice is cut from the prefix that ends where it ends. *)
Lemma str_slice_take from to s :
  str_slice from to (str_take to s) = str_slice from to s.
Proof.
  by_chars. destruct (decide (from <= to)%nat) as [Hle|Hgt].
  - rewrite !(take_drop_commute _ _ from), take_take. do 2 f_equal. lia.
  - replace (to - from)%nat with 0%nat by lia. by rewrite !take_0.
Qed.

Lemma str_slice_0 to s : str_slice 0 to s = str_take to s.
Proof. by_chars. by rewrite drop_0, Nat.sub_0_r. Qed.

Lemma str_slice_to_end from to s :
  (String.length s <= to)%nat -> str_slice from to s = str_drop from s.
Proof.
  intros Hto. by_chars. apply take_ge. rewrite length_drop, chars_length. lia.
Qed.

(** ** The primitives *)

Section js.
Implicit Types (s : string) (a b c i : Z).

Lemma length_nonneg s : 0 <= Js.length s.
Proof. unfold Js.length. lia. Qed.

Lemma length_app s1 s2 : Js.length (s1 +:+ s2) = Js.length s1 + Js.length s2.
Proof. unfold Js.length. rewrite str_app_length. lia. Qed.

Lemma length_empty s : Js.length s = 0 <-> s = "".
Proof. unfold Js.length. destruct s; naive_solver lia. Qed.

Lemma clamp_id len n : 0 <= n <= len -> Js.clamp len n = n.
Proof. unfold Js.clamp. lia. Qed.

Lemma clamp_range len n : 0 <= len -> 0 <= Js.clamp len n <= len.
Proof. unfold Js.clamp. lia. Qed.

(** Within bounds and in order, [substring] is the slice. *)
Lemma substring_slice s a b :
  0 <= a <= b -> b <= Js.length s ->
  Js.substring s a b = str_slice (Z.to_nat a) (Z.to_nat b) s.
Proof.
  intros Ha Hb. unfold Js.substring. cbv zeta.
  rewrite !clamp_id by lia. by rewrite Z.min_l, Z.max_r by lia.
Qed.

(** [substring] does not depend on the order of its arguments. *)
Lemma substring_swap s a b : Js.substring s a b = Js.substring s b a.
Proof. unfold Js.substring. cbv zeta. by rewrite Z.min_comm, Z.max_comm. Qed.

(** [substring] only sees its arguments clamped. *)
Lemma substring_clamp s a b :
  Js.substring s a b =
  Js.substring s (Js.clamp (Js.length s) a) (Js.clamp (Js.length s) b).
Proof.
  pose proof (length_nonneg s). unfold Js.substring. cbv zeta.
  by rewrite !(clamp_id _ (Js.clamp _ _)) by (by apply clamp_range).
Qed.

Lemma substring_length s a b :
  Js.length (Js.substring s a b) =
  Z.abs (Js.clamp (Js.length s) b - Js.clamp (Js.length s) a).
Proof.
  unfold Js.substring, Js.length, Js.clamp. cbv zeta.
  rewrite str_slice_length. lia.
Qed.

Lemma substring_length_valid s a b :
  0 <= a <= b -> b <= Js.length s -> Js.length (Js.substring s a b) = b - a.
Proof. intros. rewrite substring_length, !clamp_id; lia. Qed.

Lemma substring_full s : Js.substring s 0 (Js.length s) = s.
Proof.
  pose proof (length_nonneg s). rewrite substring_slice by lia.
  unfold Js.length. rewrite Nat2Z.id. apply str_slice_full.
Qed.

Lemma substring_empty s a : Js.substring s a a = "".
Proof.
  unfold Js.substring. cbv zeta. rewrite Z.min_id, Z.max_id.
  apply str_slice_empty.
Qed.

(** Adjacent substrings concatenate. *)
Lemma substring_app s a b c :
  0 <= a <= b -> b <= c <= Js.length s ->
  Js.substring s a b +:+ Js.substring s b c = Js.substring s a c.
Proof.
  intros Hab Hbc. rewrite !substring_slice by lia. apply str_slice_app. lia.
Qed.

Lemma substring_from_slice s a :
  0 <= a <= Js.length s -> Js.substring_from s a = str_drop (Z.to_nat a) s.
Proof.
  intros Ha. unfold Js.substring_from. rewrite substring_slice by lia.
  apply str_slice_to_end. unfold Js.length. lia.
Qed.

(** A string is its prefix, any substring and the rest. *)
Lemma substring_split s a b :
  0 <= a <= b -> b <= Js.length s ->
  Js.substring s 0 a +:+ Js.substring s a b +:+ Js.substring_from s b = s.
Proof.
  intros Ha Hb. unfold Js.substring_from.
  rewrite !substring_app by lia. apply substring_full.
Qed.

(** [s[i]] is defined exactly inside the string. *)
Lemma index_Some s i : is_Some (Js.index s i) <-> 0 <= i < Js.length s.
Proof.
  unfold Js.index, Js.length. destruct_guards.
  - split; [by intros [? ?] | lia].
  - rewrite chars_get, lookup_lt_is_Some, chars_length. lia.
Qed.

Lemma index_lookup s i :
  0 <= i -> Js.index s i = chars s !! Z.to_nat i.
Proof. intros Hi. unfold Js.index. destruct_guards. apply chars_get. Qed.

Lemma index_is_lookup s i (ch : ascii) :
  Js.index_is s i ch = true <-> 0 <= i /\ chars s !! Z.to_nat i = Some ch.
Proof.
  unfold Js.index_is, Js.index. destruct (Z.ltb_spec i 0); [naive_solver lia|].
  rewrite chars_get. destruct (chars s !! Z.to_nat i) as [c'|]; [|naive_solver].
  rewrite Ascii.eqb_eq. naive_solver.
Qed.

Lemma index_is_decide s i (ch ch' : ascii) :
  0 <= i -> chars s !! Z.to_nat i = Some ch ->
  Js.index_is s i ch' = bool_decide (ch = ch').
Proof.
  intros Hi Hl. unfold Js.index_is. rewrite index_lookup, Hl by done.
  apply eq_true_iff_eq. by rewrite Ascii.eqb_eq, bool_decide_eq_true.
Qed.

Lemma index_None s i : Js.index s i = None <-> i < 0 \/ Js.length s <= i.
Proof.
  rewrite eq_None_not_Some, index_Some. lia.
Qed.

(** The regular expression [/[\n]/] matches the strings with a line feed
    among their characters. *)
Lemma test_newline_spec s : Js.test_newline s = true <-> LF ∈ chars s.
Proof.
  induction s as [|c s IH]; cbn.
  - split; [done | by intros ?%elem_of_nil].
  - rewrite elem_of_cons, orb_true_iff, IH, Ascii.eqb_eq. naive_solver.
Qed.

Lemma test_newline_app s1 s2 :
  Js.test_newline (s1 +:+ s2) = Js.test_newline s1 || Js.test_newline s2.
Proof.
  apply eq_true_iff_eq.
  rewrite orb_true_iff, !test_newline_spec, chars_app, elem_of_app. done.
Qed.

Lemma join_app (l1 l2 : list string) :
  Js.join (l1 ++ l2) = Js.join l1 +:+ Js.join l2.
Proof.
  induction l1 as [|x l1 IH]; [done|].
  change (x +:+ Js.join (l1 ++ l2) = (x +:+ Js.join l1) +:+ Js.join l2).
  by rewrite IH, str_app_assoc.
Qed.

Lemma truthy_spec s : Js.truthy s = true <-> s <> "".
Proof. by destruct s. Qed.

Lemma truthy_length s : Js.truthy s = true <-> 0 < Js.length s.
Proof. unfold Js.length. destruct s; cbn; naive_solver lia. Qed.

Lemma or_truthy s1 s2 :
  Js.truthy (Js.or s1 s2) = Js.truthy s1 || Js.truthy s2.
Proof. unfold Js.or. by destruct (Js.truthy s1) eqn:Ha; rewrite ?Ha. Qed.

Lemma or_assoc s1 s2 s3 : Js.or (Js.or s1 s2) s3 = Js.or s1 (Js.or s2 s3).
Proof.
  unfold Js.or. destruct (Js.truthy s1) eqn:Ha; [by rewrite Ha|done].
Qed.

End js.

#[export] Hint Resolve length_nonneg : tsdoc.
#[export] Hint Rewrite substring_full substring_empty str_app_nil_r : tsdoc_rw.
