(* ===== verification/Range.v ===== *)
(** * TextRange

    [Module TextRange] models the class [TextRange] and the interface
    [ITextLocation] of [src/tsdoc/src/nodes/DocMemberSymbol.ts]: the record
    of a buffer and two offsets, the private constructor with
    [_validateBounds] (a [result]: the constructor throws), the factories
    [fromString], [fromStringRange] and [getNewRange], the observers
    [length], [isEmpty], [toString] and [getDebugDump], and [getLocation],
    whose [while] loop is [while_fuel] run on [index] units of fuel.

    The theorems: the constructor succeeds exactly on [wf] arguments and
    says which bound failed otherwise; every range a factory returns is
    [wf]; [toString] is the slice [pos..end] of the buffer and turns
    [fromString] back; [getDebugDump] is the buffer with the two delimiters
    inserted; the loop of [getLocation] terminates on the fuel it is given
    and computes the line and column that [loc_spec] defines from the
    prefix of the buffer, within the bounds [1..index+1]; as a step
    relation ([getLocation_step]) the loop reaches the index from the
    start of the buffer and stops there. *)

From Stdlib Require Import ZArith Lia String Ascii.
From stdpp Require Import base tactics option list strings.
From S2P Require Import Prelude Temporal JsString.

#[local] Open Scope Z_scope.

Module TextRange.

(** ** Data *)

(** [ITextLocation]: a line and a column, both 1-based; [{0, 0}] stands for
    an unknown location. *)
Record ITextLocation : Type := { line : Z; column : Z }.

(** The fields of a [TextRange]. *)
Record t : Type := Build { buffer : string; pos : Z; end_ : Z }.

#[export] Instance ITextLocation_eq_dec : EqDecision ITextLocation.
Proof. solve_decision. Defined.

#[export] Instance t_eq_dec : EqDecision t.
Proof. solve_decision. Defined.

(** ** Construction *)

(** [_validateBounds]: the five checks, in the order of the source. *)
Definition _validateBounds (r : t) : result string unit :=
  (throw_if (pos r <? 0) "TextRange.pos cannot be negative" ;;;
   throw_if (end_ r <? 0) "TextRange.end cannot be negative" ;;;
   throw_if (end_ r <? pos r)
     "TextRange.end cannot be smaller than TextRange.pos" ;;;
   throw_if (pos r >? Js.length (buffer r))
     "TextRange.pos cannot exceed the associated text buffer length" ;;;
   throw_if (end_ r >? Js.length (buffer r))
     "TextRange.end cannot exceed the associated text buffer length")%result.

(** The private constructor: the fields are set, then validated. *)
Definition new (buffer : string) (pos end_ : Z) : result string t :=
  let this := Build buffer pos end_ in
  (_validateBounds this ;;; Ok this)%result.

(** [TextRange.empty], the value of [new TextRange('', 0, 0)]. *)
Definition empty : t := Build "" 0 0.

Definition fromString (buffer : string) : result string t :=
  new buffer 0 (Js.length buffer).

Definition fromStringRange (buffer : string) (pos end_ : Z) : result string t :=
  new buffer pos end_.

Definition getNewRange (this : t) (pos end_ : Z) : result string t :=
  new (buffer this) pos end_.

(** ** Observers *)

Definition length (this : t) : Z := end_ this - pos this.

Definition isEmpty (this : t) : bool := pos this =? end_ this.

Definition toString (this : t) : string :=
  Js.substring (buffer this) (pos this) (end_ this).

Definition getDebugDump (this : t) (posDelimiter endDelimiter : string) : string :=
  (((Js.substring (buffer this) 0 (pos this) +:+ posDelimiter) +:+
    Js.substring (buffer this) (pos this) (end_ this)) +:+ endDelimiter) +:+
  Js.substring_from (buffer this) (end_ this).

(** ** getLocation *)

(** The variables of the loop. *)
Record LocState : Type :=
  { cur_line : Z; cur_column : Z; currentIndex : Z }.

(** The guard [currentIndex < index]. *)
Definition getLocation_cond (index : Z) (st : LocState) : bool :=
  currentIndex st <? index.

(** The body: read a character, advance the index, then skip a carriage
    return, start a new line on a line feed, and count a column for
    anything else. *)
Definition getLocation_body (buffer : string) (st : LocState) : LocState :=
  let i := currentIndex st in
  let currentIndex' := i + 1 in
  if Js.index_is buffer i CR then
    {| cur_line := cur_line st; cur_column := cur_column st;
       currentIndex := currentIndex' |}
  else if Js.index_is buffer i LF then
    {| cur_line := cur_line st + 1; cur_column := 1;
       currentIndex := currentIndex' |}
  else
    {| cur_line := cur_line st; cur_column := cur_column st + 1;
       currentIndex := currentIndex' |}.

Definition getLocation_init : LocState :=
  {| cur_line := 1; cur_column := 1; currentIndex := 0 |}.

Definition getLocation_loop (buffer : string) (index : Z) : option LocState :=
  while_fuel (getLocation_cond index) (getLocation_body buffer)
    (Z.to_nat index) getLocation_init.

(** [getLocation]: the sentinel outside [0..buffer.length], the loop's
    final line and column inside. The loop runs on [index] units of fuel;
    [getLocation_loop_terminates] shows it never runs out. *)
Definition getLocation (this : t) (index : Z) : ITextLocation :=
  if (index <? 0) || (index >? Js.length (buffer this)) then
    {| line := 0; column := 0 |}
  else
    match getLocation_loop (buffer this) index with
    | Some st => {| line := cur_line st; column := cur_column st |}
    | None => {| line := 0; column := 0 |}
    end.

(** ** Specification *)

(** The invariant of the class: [0 <= pos <= end <= buffer.length]. *)
Definition wf (r : t) : Prop :=
  0 <= pos r /\ pos r <= end_ r /\ end_ r <= Js.length (buffer r).

Definition wfb (r : t) : bool :=
  (0 <=? pos r) && (pos r <=? end_ r) && (end_ r <=? Js.length (buffer r)).

(** The ranges a client can hold: [empty] and whatever the factories
    return. *)
Inductive constructed : t -> Prop :=
| constructed_empty : constructed empty
| constructed_fromString b r : fromString b = Ok r -> constructed r
| constructed_fromStringRange b p e r :
    fromStringRange b p e = Ok r -> constructed r
| constructed_getNewRange r0 p e r :
    constructed r0 -> getNewRange r0 p e = Ok r -> constructed r.

(** A chain of ranges of the buffer [b] that covers the offsets from
    [from] to [to] without gap or overlap. *)
Fixpoint adjacent (b : string) (from : Z) (rs : list t) (to : Z) : Prop :=
  match rs with
  | [] => from = to
  | r :: rs' =>
      buffer r = b /\ pos r = from /\ wf r /\ adjacent b (end_ r) rs' to
  end.

(** The text after the last line feed of [l]. *)
Fixpoint last_segment (l : list ascii) : list ascii :=
  match l with
  | [] => []
  | c :: l' =>
      if decide (LF ∈ l') then last_segment l'
      else if decide (c = LF) then l' else c :: l'
  end.

(** The number of line feeds of [l]. *)
Definition count_lf (l : list ascii) : nat :=
  List.length (filter (λ c, c = LF) l).

(** The number of characters of [l] that advance the column. *)
Definition count_cols (l : list ascii) : nat :=
  List.length (filter (λ c, c ≠ CR) l).

(** The location after a prefix of the buffer: one more than the line
    feeds read, and one more than the characters other than carriage
    returns read since the last of them. *)
Definition loc_spec (prefix : list ascii) : ITextLocation :=
  {| line := 1 + Z.of_nat (count_lf prefix);
     column := 1 + Z.of_nat (count_cols (last_segment prefix)) |}.

(** One character of the walk, on the pair of a line and a column. *)
Definition advance (lc : Z * Z) (c : ascii) : Z * Z :=
  if decide (c = CR) then lc
  else if decide (c = LF) then (lc.1 + 1, 1)
  else (lc.1, lc.2 + 1).

(** The walk over a prefix, as a fold. *)
Definition walk (prefix : list ascii) (lc : Z * Z) : Z * Z :=
  fold_left advance prefix lc.

(** The invariant of the loop of [getLocation]: the index is within
    [0..index] and the line and column are those of the walk over the
    characters before it. *)
Definition loc_inv (b : string) (index : Z) (st : LocState) : Prop :=
  0 <= currentIndex st <= index /\
  (cur_line st, cur_column st) =
  walk (take (Z.to_nat (currentIndex st)) (chars b)) (1, 1).

(** One iteration of the loop of [getLocation], as a step on the state
    of the loop. *)
Definition getLocation_step (buffer : string) (index : Z) :
    LocState -> LocState -> Prop :=
  while_step (getLocation_cond index) (getLocation_body buffer).

(** The exit of the loop: the index is reached, with the line and the
    column of the walk over the characters before it. *)
Definition at_index (b : string) (index : Z) (st : LocState) : Prop :=
  currentIndex st = index /\
  (cur_line st, cur_column st) = walk (take (Z.to_nat index) (chars b)) (1, 1).

(** ** The constructor *)

Section construction.
Implicit Types (r : t) (b : string) (p e : Z).

Lemma wfb_spec r : wfb r = true <-> wf r.
Proof. unfold wfb, wf. rewrite !andb_true_iff, !Z.leb_le. tauto. Qed.

#[export] Instance wf_dec r : Decision (wf r).
Proof. unfold wf. apply _. Defined.

Lemma validateBounds_Ok r : _validateBounds r = Ok tt <-> wf r.
Proof. unfold _validateBounds, wf. solve_result; naive_solver lia. Qed.

Lemma new_Ok b p e r : new b p e = Ok r <-> r = Build b p e /\ wf r.
Proof.
  unfold new. cbv zeta. rewrite res_bind_inv_Ok. split.
  - intros ([] & Hv%validateBounds_Ok & [= <-]). done.
  - intros [-> Hwf%validateBounds_Ok]. eauto.
Qed.

Lemma new_wf b p e : wf (Build b p e) -> new b p e = Ok (Build b p e).
Proof. intros. by apply new_Ok. Qed.

(** C4: the constructor behind [fromStringRange] rejects exactly the
    arguments that break [0 <= pos <= end <= buffer.length], and the
    message of the error names the first check, in the order of
    [_validateBounds], that the arguments fail. *)
Theorem fromStringRange_errors b p e :
  (fromStringRange b p e = Err "TextRange.pos cannot be negative" <-> p < 0) /\
  (fromStringRange b p e = Err "TextRange.end cannot be negative" <->
     0 <= p /\ e < 0) /\
  (fromStringRange b p e =
     Err "TextRange.end cannot be smaller than TextRange.pos" <->
     0 <= p /\ 0 <= e < p) /\
  (fromStringRange b p e =
     Err "TextRange.pos cannot exceed the associated text buffer length" <->
     0 <= p <= e /\ Js.length b < p) /\
  (fromStringRange b p e =
     Err "TextRange.end cannot exceed the associated text buffer length" <->
     0 <= p <= e /\ p <= Js.length b < e).
Proof.
  unfold fromStringRange, new, _validateBounds. cbv zeta. cbn [pos end_ buffer].
  pose proof (length_nonneg b).
  split_and!; solve_result; split; (done || lia).
Qed.

(** [fromStringRange] returns a range exactly when the offsets satisfy
    the invariant [wf], and the range then holds the buffer and the offsets
    it was given. *)
Theorem fromStringRange_Ok b p e r :
  fromStringRange b p e = Ok r <-> r = Build b p e /\ wf r.
Proof. apply new_Ok. Qed.

Lemma full_wf b : wf (Build b 0 (Js.length b)).
Proof. pose proof (length_nonneg b). unfold wf. cbn. lia. Qed.

Lemma fromString_Ok b : fromString b = Ok (Build b 0 (Js.length b)).
Proof. apply new_wf, full_wf. Qed.

Lemma getNewRange_Ok r p e r' :
  getNewRange r p e = Ok r' <-> r' = Build (buffer r) p e /\ wf r'.
Proof. apply new_Ok. Qed.

Lemma empty_Ok : new "" 0 0 = Ok empty.
Proof. done. Qed.

(** C8: every range a client can obtain, from [empty] and the factories
    [fromString], [fromStringRange] and [getNewRange], satisfies the
    invariant [0 <= pos <= end <= buffer.length]. *)
Theorem constructed_wf r : constructed r -> wf r.
Proof.
  induction 1 as [|b r Hr|b p e r Hr|r0 p e r _ _ Hr].
  - by apply wfb_spec.
  - rewrite fromString_Ok in Hr. simplify_eq. apply full_wf.
  - by apply (new_Ok b p e) in Hr as [_ ?].
  - by apply getNewRange_Ok in Hr as [_ ?].
Qed.

Lemma constructed_wf_witness :
  constructed (Build "1234567" 3 5) /\ wf (Build "1234567" 3 5).
Proof.
  assert (Hc : constructed (Build "1234567" 3 5))
    by (by apply (constructed_fromStringRange "1234567" 3 5)).
  split; [exact Hc | exact (constructed_wf _ Hc)].
Defined.

End construction.

(** ** toString, length, isEmpty and getDebugDump *)

Section observers.
Implicit Types (r : t) (b s : string) (p e : Z).

Lemma length_nonneg_wf r : wf r -> 0 <= length r.
Proof. unfold wf, length. lia. Qed.

Lemma toString_slice r :
  wf r -> toString r = str_slice (Z.to_nat (pos r)) (Z.to_nat (end_ r)) (buffer r).
Proof. intros (? & ? & ?). unfold toString. by apply substring_slice. Qed.

(** On a valid range [toString] is the slice of the buffer between
    [pos] and [end]: [length] characters taken after dropping [pos]. *)
Theorem toString_chars r :
  wf r ->
  chars (toString r) =
  take (Z.to_nat (length r)) (drop (Z.to_nat (pos r)) (chars (buffer r))).
Proof.
  intros Hwf. rewrite toString_slice, chars_slice by done.
  destruct Hwf as (? & ? & ?). unfold length. do 2 f_equal. lia.
Qed.

Lemma toString_chars_witness :
  wf (Build "1234567" 3 5) /\
  chars (toString (Build "1234567" 3 5)) =
  take (Z.to_nat (length (Build "1234567" 3 5)))
    (drop (Z.to_nat (pos (Build "1234567" 3 5)))
       (chars (buffer (Build "1234567" 3 5)))).
Proof.
  assert (Hwf : wf (Build "1234567" 3 5)) by (by apply wfb_spec).
  split; [exact Hwf | exact (toString_chars _ Hwf)].
Defined.

(** The text of a valid range has [length] characters. *)
Theorem toString_length r : wf r -> Js.length (toString r) = length r.
Proof.
  intros (? & ? & ?). unfold toString, length.
  by apply substring_length_valid.
Qed.

Lemma toString_length_witness :
  wf (Build "1234567" 3 5) /\
  Js.length (toString (Build "1234567" 3 5)) = length (Build "1234567" 3 5).
Proof.
  assert (Hwf : wf (Build "1234567" 3 5)) by (by apply wfb_spec).
  split; [exact Hwf | exact (toString_length _ Hwf)].
Defined.

(** [fromString] followed by [toString] gives the buffer back. *)
Theorem fromString_toString s : res_map toString (fromString s) = Ok s.
Proof.
  rewrite fromString_Ok. cbn. unfold toString. cbn. by rewrite substring_full.
Qed.

Lemma isEmpty_length r : isEmpty r = true <-> length r = 0.
Proof. unfold isEmpty, length. rewrite Z.eqb_eq. lia. Qed.

(** A valid range is empty exactly when its text is the empty
    string. *)
Theorem isEmpty_toString r : wf r -> (isEmpty r = true <-> toString r = "").
Proof.
  intros Hwf. rewrite isEmpty_length, <- (toString_length r Hwf).
  apply length_empty.
Qed.

Lemma isEmpty_toString_witness :
  wf (Build "1234567" 3 3) /\
  (isEmpty (Build "1234567" 3 3) = true <-> toString (Build "1234567" 3 3) = "").
Proof.
  assert (Hwf : wf (Build "1234567" 3 3)) by (by apply wfb_spec).
  split; [exact Hwf | exact (isEmpty_toString _ Hwf)].
Defined.

(** C38: a range made by [getNewRange] views the same buffer at the
    offsets given, which are offsets into the buffer and not into the range
    it is made from: its text is the slice [pos..end] of the buffer, even
    where that lies outside the original range. *)
Theorem getNewRange_toString r p e r' :
  getNewRange r p e = Ok r' ->
  buffer r' = buffer r /\ length r' = e - p /\
  toString r' = str_slice (Z.to_nat p) (Z.to_nat e) (buffer r).
Proof.
  intros [-> Hwf]%getNewRange_Ok. by rewrite toString_slice.
Qed.

Lemma getNewRange_toString_witness :
  buffer (Build "1234567" 0 2) = buffer (Build "1234567" 3 5) /\
  length (Build "1234567" 0 2) = 2 - 0 /\
  toString (Build "1234567" 0 2) =
  str_slice (Z.to_nat 0) (Z.to_nat 2) (buffer (Build "1234567" 3 5)).
Proof.
  by apply (getNewRange_toString (Build "1234567" 3 5) 0 2 (Build "1234567" 0 2)).
Defined.

(** The example of the comment of [getDebugDump], the range 3..5 of
    ["1234567"] with the delimiters ["["] and ["]"]: the dump is
    ["123[45]67"], the offsets being 0-based and [end] exclusive. *)
Example getDebugDump_example :
  res_map (fun r => getDebugDump r "[" "]") (fromStringRange "1234567" 3 5) =
  Ok "123[45]67".
Proof. done. Qed.

Lemma adjacent_le b from rs to : adjacent b from rs to -> from <= to.
Proof.
  revert from. induction rs as [|r rs IH]; intros from; cbn; [lia|].
  intros (_ & <- & (? & ? & ?) & Hrs%IH). lia.
Qed.

Lemma adjacent_app b from rs1 rs2 to :
  adjacent b from (rs1 ++ rs2) to <->
  exists mid, adjacent b from rs1 mid /\ adjacent b mid rs2 to.
Proof.
  revert from. induction rs1 as [|r rs1 IH]; intros from; cbn.
  { split; [by exists from|by intros (mid & -> & ?)]. }
  rewrite IH. naive_solver.
Qed.

Lemma join_adjacent b from rs to :
  0 <= from -> to <= Js.length b -> adjacent b from rs to ->
  Js.join (toString <$> rs) = toString (Build b from to).
Proof.
  intros Hfrom Hto. revert from Hfrom.
  induction rs as [|r rs IH]; intros from Hfrom Hadj.
  { cbn in Hadj. subst to. unfold toString. cbn [buffer pos end_].
    by rewrite substring_empty. }
  destruct Hadj as (Hb & Hp & (? & ? & ?) & Hrs).
  pose proof (adjacent_le _ _ _ _ Hrs).
  change (toString r +:+ Js.join (toString <$> rs) = toString (Build b from to)).
  rewrite (IH (end_ r)) by (done || lia). unfold toString. cbn [buffer pos end_].
  rewrite Hb, Hp. apply substring_app; lia.
Qed.

(** The texts of a chain of adjacent valid ranges, concatenated in
    order, are the text of the range from the start of the first to the
    end of the last. *)
Theorem toString_adjacent b from rs to :
  0 <= from -> to <= Js.length b -> adjacent b from rs to ->
  Js.join (toString <$> rs) = toString (Build b from to).
Proof. apply join_adjacent. Qed.

Lemma toString_adjacent_witness :
  Js.join (toString <$> [Build "[ a.b ]" 0 1; Build "[ a.b ]" 1 2;
                         Build "[ a.b ]" 2 5]) =
  toString (Build "[ a.b ]" 0 5).
Proof.
  apply (toString_adjacent "[ a.b ]" 0); [done | by compute |].
  cbn. unfold wf. cbn. by compute.
Defined.

Lemma getDebugDump_assoc r pd ed :
  getDebugDump r pd ed =
  Js.substring (buffer r) 0 (pos r) +:+ pd +:+ toString r +:+ ed +:+
  Js.substring_from (buffer r) (end_ r).
Proof. unfold getDebugDump, toString. by rewrite !str_app_assoc. Qed.

Lemma getDebugDump_pieces r : wf r -> getDebugDump r "" "" = buffer r.
Proof.
  intros (? & ? & ?). rewrite getDebugDump_assoc. unfold toString.
  change ("" +:+ ?x) with x. by apply substring_split.
Qed.

(** C40: with empty delimiters the dump of a valid range is the whole
    buffer: the three pieces that [getDebugDump] cuts the buffer into, at
    [pos] and at [end], lose no character and repeat none. *)
Theorem getDebugDump_erase r : wf r -> getDebugDump r "" "" = buffer r.
Proof. apply getDebugDump_pieces. Qed.

Lemma getDebugDump_erase_witness :
  wf (Build "1234567" 3 5) /\
  getDebugDump (Build "1234567" 3 5) "" "" = buffer (Build "1234567" 3 5).
Proof.
  assert (Hwf : wf (Build "1234567" 3 5)) by (by apply wfb_spec).
  split; [exact Hwf | exact (getDebugDump_erase _ Hwf)].
Defined.

(** The dump of a valid range is as long as the buffer and the two
    delimiters together. *)
Theorem getDebugDump_length r pd ed :
  wf r ->
  Js.length (getDebugDump r pd ed) =
  Js.length (buffer r) + Js.length pd + Js.length ed.
Proof.
  intros Hwf. pose proof (getDebugDump_pieces r Hwf) as He.
  apply (f_equal Js.length) in He. revert He.
  rewrite !getDebugDump_assoc, !length_app. change (Js.length "") with 0. lia.
Qed.

Lemma getDebugDump_length_witness :
  wf (Build "1234567" 3 5) /\
  Js.length (getDebugDump (Build "1234567" 3 5) "[" "]") =
  Js.length (buffer (Build "1234567" 3 5)) + Js.length "[" + Js.length "]".
Proof.
  assert (Hwf : wf (Build "1234567" 3 5)) by (by apply wfb_spec).
  split; [exact Hwf | exact (getDebugDump_length _ "[" "]" Hwf)].
Defined.

End observers.

(** ** getLocation *)

Section location.
Context (b : string).
Implicit Types (st : LocState) (index : Z) (l : list ascii) (c : ascii).

(** *** The specification's functions *)

Lemma count_lf_cons c l :
  count_lf (c :: l) = ((if decide (c = LF) then 1 else 0) + count_lf l)%nat.
Proof. unfold count_lf. rewrite filter_cons. by case_decide. Qed.

Lemma count_cols_cons c l :
  count_cols (c :: l) = ((if decide (c = CR) then 0 else 1) + count_cols l)%nat.
Proof. unfold count_cols. rewrite filter_cons. by repeat case_decide. Qed.

Lemma count_lf_0 l : LF ∉ l -> count_lf l = 0%nat.
Proof.
  induction l as [|c l IH]; [done|]. rewrite not_elem_of_cons, count_lf_cons.
  intros [? ?]. rewrite IH by done. by case_decide.
Qed.

Lemma count_cols_le l : (count_cols l <= List.length l)%nat.
Proof. apply length_filter. Qed.

Lemma last_segment_no_lf l : LF ∉ l -> last_segment l = l.
Proof.
  destruct l as [|c l]; [done|]. rewrite not_elem_of_cons. intros [? ?].
  cbn. by rewrite !decide_False.
Qed.

Lemma last_segment_cons_lf l : LF ∉ l -> last_segment (LF :: l) = l.
Proof. intros. cbn. by rewrite decide_False, decide_True. Qed.

Lemma last_segment_cons_in c l : LF ∈ l -> last_segment (c :: l) = last_segment l.
Proof. intros. cbn. by rewrite decide_True. Qed.

(** The last segment holds no line feed and is what follows the last
    one. *)
Lemma last_segment_spec l :
  (LF ∉ last_segment l) /\
  (exists pre, l = pre ++ last_segment l /\ (pre = [] \/ last pre = Some LF)).
Proof.
  induction l as [|c l (IHn & pre & IHe & IHp)].
  { split; [by intros ?%elem_of_nil | exists []; auto]. }
  destruct (decide (LF ∈ l)) as [Hin|Hnin].
  - rewrite last_segment_cons_in by done. split; [done|].
    exists (c :: pre). split; [by rewrite <- app_comm_cons, <- IHe|].
    right. destruct IHp as [->|Hl]; [|by rewrite last_cons, Hl].
    exfalso. apply IHn. cbn in IHe. by rewrite <- IHe.
  - destruct (decide (c = LF)) as [->|Hc].
    + rewrite last_segment_cons_lf by done. split; [done|]. exists [LF]. auto.
    + rewrite last_segment_no_lf by (rewrite not_elem_of_cons; auto).
      split; [rewrite not_elem_of_cons; auto | exists []; auto].
Qed.

(** Line feeds and the characters after the last of them are disjoint
    parts of a text. *)
Lemma count_lf_last_segment l :
  (count_lf l + List.length (last_segment l) <= List.length l)%nat.
Proof.
  induction l as [|c l IH]; [done|]. rewrite count_lf_cons.
  destruct (decide (LF ∈ l)) as [Hin|Hnin].
  - rewrite last_segment_cons_in by done. case_decide; cbn; lia.
  - rewrite (count_lf_0 l) by done. case_decide as Hc.
    + subst c. rewrite last_segment_cons_lf by done. cbn. lia.
    + rewrite last_segment_no_lf by (rewrite not_elem_of_cons; auto). cbn. lia.
Qed.

Lemma walk_snoc l c lc : walk (l ++ [c]) lc = advance (walk l lc) c.
Proof. unfold walk. by rewrite fold_left_app. Qed.

Lemma walk_cons c l lc : walk (c :: l) lc = walk l (advance lc c).
Proof. done. Qed.

Lemma advance_line c ln col :
  (advance (ln, col) c).1 = ln + Z.of_nat (if decide (c = LF) then 1 else 0).
Proof. unfold advance. repeat case_decide; simplify_eq/=; lia. Qed.

Lemma advance_column c ln col :
  c <> LF ->
  (advance (ln, col) c).2 = col + Z.of_nat (if decide (c = CR) then 0 else 1).
Proof. intros. unfold advance. repeat case_decide; simplify_eq/=; lia. Qed.

(** Without a line feed the walk stays on its line and counts columns. *)
Lemma walk_no_lf l ln col :
  LF ∉ l -> walk l (ln, col) = (ln, col + Z.of_nat (count_cols l)).
Proof.
  revert ln col. induction l as [|c l IH]; intros ln col.
  { intros _. cbn. f_equal. lia. }
  rewrite not_elem_of_cons. intros [Hc Hl].
  rewrite walk_cons, (surjective_pairing (advance _ _)), IH by done.
  rewrite advance_line, advance_column, count_cols_cons by done.
  rewrite decide_False by done. f_equal; lia.
Qed.

(** With a line feed the walk ends on the line and column of the
    specification. *)
Lemma walk_lf l ln col :
  LF ∈ l ->
  walk l (ln, col) =
  (ln + Z.of_nat (count_lf l), 1 + Z.of_nat (count_cols (last_segment l))).
Proof.
  revert ln col. induction l as [|c l IH]; intros ln col Hin.
  { by apply elem_of_nil in Hin. }
  rewrite walk_cons, (surjective_pairing (advance _ _)), count_lf_cons.
  destruct (decide (LF ∈ l)) as [Hl|Hl].
  - rewrite IH, advance_line, last_segment_cons_in by done. f_equal. lia.
  - apply elem_of_cons in Hin as [<-|?]; [|done].
    rewrite walk_no_lf, last_segment_cons_lf, count_lf_0 by done.
    rewrite decide_True by done. cbn. f_equal; lia.
Qed.

Lemma walk_loc_spec l :
  walk l (1, 1) = (line (loc_spec l), column (loc_spec l)).
Proof.
  destruct (decide (LF ∈ l)) as [Hl|Hl]; [by rewrite walk_lf|].
  rewrite walk_no_lf by done. cbn.
  by rewrite last_segment_no_lf, count_lf_0 by done.
Qed.

(** *** The loop *)

Lemma body_index st :
  currentIndex (getLocation_body b st) = currentIndex st + 1.
Proof. unfold getLocation_body. by repeat case_match. Qed.

Lemma body_advance st c :
  0 <= currentIndex st -> chars b !! Z.to_nat (currentIndex st) = Some c ->
  (cur_line (getLocation_body b st), cur_column (getLocation_body b st)) =
  advance (cur_line st, cur_column st) c.
Proof.
  intros Hi Hc. unfold getLocation_body, advance. cbv zeta.
  rewrite !(index_is_decide _ _ c) by done.
  repeat case_bool_decide; repeat case_decide; by simplify_eq/=.
Qed.

Lemma loc_inv_init index : 0 <= index -> loc_inv b index getLocation_init.
Proof. by split. Qed.

Lemma loc_inv_body index st :
  index <= Js.length b -> loc_inv b index st ->
  getLocation_cond index st = true -> loc_inv b index (getLocation_body b st).
Proof.
  intros Hlen [Hi Hw] Hc%Z.ltb_lt. unfold loc_inv. rewrite body_index.
  split; [lia|].
  destruct (lookup_lt_is_Some_2 (chars b) (Z.to_nat (currentIndex st)))
    as [c Hlk]; [rewrite chars_length; unfold Js.length in Hlen; lia|].
  rewrite (body_advance st c), Hw by (done || lia).
  replace (Z.to_nat (currentIndex st + 1)) with (S (Z.to_nat (currentIndex st)))
    by lia.
  by rewrite (take_S_r _ _ c), walk_snoc.
Qed.

Lemma getLocation_loop_is_Some index :
  is_Some (getLocation_loop b index).
Proof.
  apply (while_fuel_terminates _ _
           (fun st => Z.to_nat (index - currentIndex st))); [|cbn; lia].
  intros st Hc%Z.ltb_lt. rewrite body_index. lia.
Qed.

(** C13: the loop of [getLocation] terminates within the fuel it is
    given, [index] iterations, for every buffer and every index. *)
Theorem getLocation_loop_terminates index :
  is_Some (getLocation_loop b index).
Proof. apply getLocation_loop_is_Some. Qed.

Lemma getLocation_loop_spec index :
  0 <= index <= Js.length b ->
  exists st, getLocation_loop b index = Some st /\
    (cur_line st, cur_column st) =
    walk (take (Z.to_nat index) (chars b)) (1, 1).
Proof.
  intros [H0 Hlen]. destruct (getLocation_loop_is_Some index) as [st Hst].
  exists st. split; [done|].
  pose proof (while_fuel_exit _ _ _ _ _ Hst) as Hexit%Z.ltb_ge.
  destruct (while_fuel_invariant _ _ (loc_inv b index) _ _ _
              (fun s => loc_inv_body index s Hlen) (loc_inv_init index H0) Hst)
    as [Hi ->].
  do 3 f_equal. lia.
Qed.

Lemma loc_inv_exit index st :
  getLocation_cond index st = false -> loc_inv b index st -> at_index b index st.
Proof.
  intros Hc%Z.ltb_ge [Hi Hw]. assert (currentIndex st = index) as <- by lia.
  by split.
Qed.

Lemma getLocation_eventually index :
  0 <= index <= Js.length b ->
  eventually (getLocation_step b index)
    (fun st => at_index b index st /\ always (getLocation_step b index) (eq st) st)
    getLocation_init.
Proof.
  intros [H0 Hlen].
  eapply eventually_mono,
    (while_eventually _ _ (fun st => Z.to_nat (index - currentIndex st))
       (loc_inv b index)).
  - intros st [Hc Hinv]. split; [by apply loc_inv_exit|].
    apply always_stuck; [done|]. intros st'. by apply while_step_exit.
  - intros st Hc%Z.ltb_lt. rewrite body_index. lia.
  - intros st. by apply loc_inv_body.
  - by apply loc_inv_init.
Qed.

(** The walk of [getLocation] makes progress: from the start of the
    buffer, whatever the buffer holds, the iterations of the loop reach
    the index, with the line and the column of the characters before it,
    and the loop stays there. *)
Theorem getLocation_reaches_index index :
  0 <= index <= Js.length b ->
  eventually (getLocation_step b index)
    (fun st => at_index b index st /\ always (getLocation_step b index) (eq st) st)
    getLocation_init.
Proof. apply getLocation_eventually. Qed.

End location.

Lemma getLocation_reaches_index_witness :
  eventually (getLocation_step ("a" +:+ String LF "bc") 3)
    (fun st => at_index ("a" +:+ String LF "bc") 3 st /\
       always (getLocation_step ("a" +:+ String LF "bc") 3) (eq st) st)
    getLocation_init.
Proof. apply (getLocation_reaches_index ("a" +:+ String LF "bc") 3). by compute. Defined.

Section getLocation.
Implicit Types (r : t) (index : Z).

Lemma getLocation_loc_spec r index :
  0 <= index <= Js.length (buffer r) ->
  getLocation r index = loc_spec (take (Z.to_nat index) (chars (buffer r))).
Proof.
  intros Hi. unfold getLocation.
  destruct (getLocation_loop_spec (buffer r) index Hi) as (st & -> & Hw).
  rewrite walk_loc_spec in Hw. injection Hw as -> ->.
  by destruct_guards.
Qed.

(** C2: inside [0..buffer.length], [getLocation] returns the location
    that [loc_spec] defines from the characters before the index: the line
    is one more than the line feeds among them and the column one more than
    the characters other than carriage returns after the last line feed. *)
Theorem getLocation_spec r index :
  0 <= index <= Js.length (buffer r) ->
  getLocation r index = loc_spec (take (Z.to_nat index) (chars (buffer r))).
Proof. apply getLocation_loc_spec. Qed.

Lemma getLocation_spec_witness :
  getLocation (Build ("a" +:+ String LF "bc") 0 0) 3 =
  loc_spec (take (Z.to_nat 3) (chars (buffer (Build ("a" +:+ String LF "bc") 0 0)))).
Proof. apply (getLocation_spec (Build ("a" +:+ String LF "bc") 0 0) 3). by compute. Defined.

(** Outside [0..buffer.length], [getLocation] returns the unknown
    location [{line: 0, column: 0}]. *)
Theorem getLocation_out_of_range r index :
  index < 0 \/ Js.length (buffer r) < index ->
  getLocation r index = {| line := 0; column := 0 |}.
Proof. intros Hi. unfold getLocation. by destruct_guards. Qed.

Lemma getLocation_out_of_range_witness :
  getLocation (Build "ab" 0 0) 3 = {| line := 0; column := 0 |}.
Proof. apply (getLocation_out_of_range (Build "ab" 0 0) 3). right. by compute. Defined.

(** C37: inside the buffer the line and the column are at least one, and
    together they exceed two by at most the index: the counters never
    pass [index + 1], so they stay exact as JavaScript numbers whenever the
    index is. *)
Theorem getLocation_bounds r index :
  0 <= index <= Js.length (buffer r) ->
  1 <= line (getLocation r index) /\ 1 <= column (getLocation r index) /\
  line (getLocation r index) + column (getLocation r index) <= index + 2.
Proof.
  intros Hi. rewrite getLocation_loc_spec by done. cbn.
  set (l := take _ _).
  pose proof (count_lf_last_segment l). pose proof (count_cols_le (last_segment l)).
  assert (List.length l <= Z.to_nat index)%nat
    by (subst l; rewrite length_take; lia).
  lia.
Qed.

Lemma getLocation_bounds_witness :
  1 <= line (getLocation (Build "ab" 0 0) 2) /\
  1 <= column (getLocation (Build "ab" 0 0) 2) /\
  line (getLocation (Build "ab" 0 0) 2) + column (getLocation (Build "ab" 0 0) 2)
  <= 2 + 2.
Proof. apply (getLocation_bounds (Build "ab" 0 0) 2). by compute. Defined.

(** C39: the location of offset 0 is line 1, column 1 in every buffer,
    the empty buffer included. *)
Theorem getLocation_start r : getLocation r 0 = {| line := 1; column := 1 |}.
Proof.
  pose proof (length_nonneg (buffer r)).
  rewrite getLocation_loc_spec by lia. done.
Qed.

(** The line of a location does not decrease with the offset. *)
Theorem getLocation_line_mono r i j :
  0 <= i <= j -> j <= Js.length (buffer r) ->
  line (getLocation r i) <= line (getLocation r j).
Proof.
  intros Hij Hj. rewrite !getLocation_loc_spec by lia. cbn.
  replace (Z.to_nat j) with (Z.to_nat i + Z.to_nat (j - i))%nat by lia.
  rewrite <- take_take_drop. unfold count_lf.
  rewrite filter_app, List.length_app. lia.
Qed.

Lemma getLocation_line_mono_witness :
  line (getLocation (Build ("a" +:+ String LF "bc") 0 0) 1) <=
  line (getLocation (Build ("a" +:+ String LF "bc") 0 0) 3).
Proof.
  apply (getLocation_line_mono (Build ("a" +:+ String LF "bc") 0 0) 1 3);
    by compute.
Defined.

End getLocation.

End TextRange.
