(* ===== verification/Tokenizer.v ===== *)
(** * The tokenizer

    The sources hold a test of the tokenizer,
    [src/tsdoc/src/parser/__tests__/Tokenizer.test.ts], and not the
    tokenizer. [Module Tokenizer] models the tokenizer from the
    specification and the helper [matchSnapshot] of the test from the test.

    The specification: a token is a kind, a range and the line it is of;
    the tokenizer makes a single pass from left to right over a range and
    classifies each character: a run of letters and digits is a word, a
    run of spaces and tabs is a spacing, a line feed or a carriage return
    and a line feed is a newline, every other punctuation character of
    ASCII is a token of its own kind; the tokens of a line are contiguous
    and their texts, concatenated, are the text of the line; the last
    token is an end of input.

    The pass is [scan]: an automaton with a state for the run it is in and
    a state for a carriage return it has seen, so that it never looks
    ahead and never goes back. It returns lexemes, kinds with their
    characters; [place] gives them their ranges.

    The theorems: the lexemes of a text concatenate to the text, each has
    the characters of its kind, a word or a spacing is never followed by a
    lexeme of its kind; the ranges of the tokens of a valid line are valid
    and adjacent from the start of the line to its end, and their texts are
    the lexemes; a sequence of tokens ends with its only end of input;
    the loop of [matchSnapshot] stops at the last token and makes an item
    of every token. *)

From Stdlib Require Import ZArith NArith String Ascii Lia.
From stdpp Require Import base tactics option list strings.
From S2P Require Import Prelude JsString Range.

#[local] Open Scope Z_scope.

Module Tokenizer.

(** ** Kinds *)

(** [TokenKind]: the kinds the specification and the test name. A
    punctuation character with a kind of its own has the kind
    [Punctuation] of the character. *)
Inductive TokenKind : Type :=
| EndOfInput
| Newline
| Spacing
| AsciiWord
| OtherPunctuation
| Punctuation (c : ascii)
| Other.

#[export] Instance TokenKind_eq_dec : EqDecision TokenKind.
Proof. solve_decision. Defined.

(** The kinds of the double quote and of the slash, by the names of the
    test. *)
#[warnings="-notation-for-abbreviation"]
Notation DoubleQuote := (Punctuation "034"%char) (only parsing).
#[warnings="-notation-for-abbreviation"]
Notation Slash := (Punctuation "/"%char) (only parsing).

(** [Tokenizer.isPunctuation] *)
Definition isPunctuation (kind : TokenKind) : bool :=
  match kind with
  | OtherPunctuation | Punctuation _ => true
  | _ => false
  end.

(** [Token] *)
Record Token : Type :=
  { kind : TokenKind; range : TextRange.t; line : TextRange.t }.

(** ** Character classes *)

Definition code (c : ascii) : N := N_of_ascii c.

Definition is_letter (c : ascii) : bool :=
  ((65 <=? code c) && (code c <=? 90) || (97 <=? code c) && (code c <=? 122))%N.

Definition is_digit (c : ascii) : bool := ((48 <=? code c) && (code c <=? 57))%N.

Definition is_spacing (c : ascii) : bool := ((code c =? 32) || (code c =? 9))%N.

(** The printable characters of ASCII that are no letter, no digit and
    no space. *)
Definition is_punctuation (c : ascii) : bool :=
  ((33 <=? code c) && (code c <=? 126))%N && negb (is_letter c || is_digit c).

(** The kind of a character by its class. *)
Definition char_kind (c : ascii) : TokenKind :=
  if is_letter c || is_digit c then AsciiWord
  else if is_spacing c then Spacing
  else if Ascii.eqb c LF then Newline
  else if is_punctuation c then Punctuation c
  else Other.

(** The kinds whose tokens are runs of characters. *)
Definition is_run (kind : TokenKind) : bool :=
  match kind with
  | Spacing | AsciiWord => true
  | _ => false
  end.

(** ** The pass *)

(** A lexeme: a kind and the characters of the token. *)
Definition Lexeme : Type := TokenKind * list ascii.

(** The state of the pass: between tokens, in a run, or after a
    carriage return. *)
Inductive State : Type :=
| Idle
| Run (kind : TokenKind) (chunk : list ascii)
| AfterCR.

(** The token that a state holds back. *)
Definition flush (st : State) : list Lexeme :=
  match st with
  | Idle => []
  | Run kind chunk => [(kind, chunk)]
  | AfterCR => [(Other, [CR])]
  end.

(** One character: the tokens it completes and the state after it. *)
Definition step (st : State) (c : ascii) : list Lexeme * State :=
  if Ascii.eqb c LF then
    match st with
    | AfterCR => ([(Newline, [CR; LF])], Idle)
    | _ => (flush st ++ [(Newline, [LF])], Idle)
    end
  else if Ascii.eqb c CR then (flush st, AfterCR)
  else if is_run (char_kind c) then
    match st with
    | Run kind chunk =>
        if decide (kind = char_kind c) then ([], Run kind (chunk ++ [c]))
        else (flush st, Run (char_kind c) [c])
    | _ => (flush st, Run (char_kind c) [c])
    end
  else (flush st ++ [(char_kind c, [c])], Idle).

Fixpoint scan (st : State) (cs : list ascii) : list Lexeme :=
  match cs with
  | [] => flush st
  | c :: cs => (step st c).1 ++ scan (step st c).2 cs
  end.

Definition lexemes (cs : list ascii) : list Lexeme := scan Idle cs.

(** The ranges of the lexemes of a line, from an offset on. *)
Fixpoint place (line : TextRange.t) (pos : Z) (ls : list Lexeme) : list Token :=
  match ls with
  | [] => []
  | (kind, chunk) :: ls =>
      let end_ := pos + Z.of_nat (List.length chunk) in
      {| kind := kind;
         range := TextRange.Build (TextRange.buffer line) pos end_;
         line := line |} :: place line end_ ls
  end.

(** The tokens of a line. *)
Definition tokenize (line : TextRange.t) : list Token :=
  place line (TextRange.pos line) (lexemes (chars (TextRange.toString line))).

(** The end of input: an empty range at the end of the last line. *)
Definition endOfInput (lines : list TextRange.t) : Token :=
  match last lines with
  | Some line =>
      {| kind := EndOfInput;
         range := TextRange.Build (TextRange.buffer line) (TextRange.end_ line)
                    (TextRange.end_ line);
         line := line |}
  | None => {| kind := EndOfInput; range := TextRange.empty; line := TextRange.empty |}
  end.

(** [Tokenizer.readTokens]: the tokens of the lines and the end of
    input. *)
Definition readTokens (lines : list TextRange.t) : list Token :=
  concat (tokenize <$> lines) ++ [endOfInput lines].

(** ** Specification *)

(** The characters a state holds back. *)
Definition pending (st : State) : list ascii :=
  match st with
  | Idle => []
  | Run _ chunk => chunk
  | AfterCR => [CR]
  end.

(** A lexeme has the characters of its kind: a carriage return and a
    line feed for a newline, or characters of the kind, and one character
    only unless the kind is a run. *)
Definition lexeme_ok (l : Lexeme) : Prop :=
  l = (Newline, [CR; LF]) \/
  (l.2 <> [] /\ Forall (fun c => char_kind c = l.1) l.2 /\
   (is_run l.1 = false -> List.length l.2 = 1%nat)).

Definition state_ok (st : State) : Prop :=
  match st with
  | Run kind chunk =>
      is_run kind = true /\ chunk <> [] /\ Forall (fun c => char_kind c = kind) chunk
  | _ => True
  end.

(** No word is followed by a word and no spacing by a spacing. *)
Fixpoint munched (ls : list Lexeme) : bool :=
  match ls with
  | l :: ls =>
      match ls with
      | l' :: _ => negb (is_run l.1 && bool_decide (l.1 = l'.1))
      | [] => true
      end && munched ls
  | [] => true
  end.

(** ** The lexemes *)

Section lexemes.
Implicit Types (st : State) (c : ascii) (cs chunk : list ascii).
Implicit Types (l : Lexeme) (ls : list Lexeme) (k : TokenKind).

Lemma flush_concat st : concat (snd <$> flush st) = pending st.
Proof. destruct st; cbn; by rewrite ?app_nil_r. Qed.

Lemma step_concat st c :
  concat (snd <$> (step st c).1) ++ pending (step st c).2 = pending st ++ [c].
Proof.
  unfold step. destruct (Ascii.eqb_spec c LF) as [->|_].
  { destruct st; cbn; by rewrite ?app_nil_r. }
  destruct (Ascii.eqb_spec c CR) as [->|_].
  { cbn. by rewrite flush_concat. }
  destruct (is_run (char_kind c)), st; cbn; try case_decide; cbn;
    by rewrite ?app_nil_r.
Qed.

Lemma scan_concat st cs : concat (snd <$> scan st cs) = pending st ++ cs.
Proof.
  revert st. induction cs as [|c cs IH]; intros st; cbn.
  { by rewrite flush_concat, app_nil_r. }
  rewrite fmap_app, concat_app, IH, (assoc_L (++)), step_concat.
  by rewrite <- (assoc_L (++)).
Qed.

Lemma char_kind_LF : char_kind LF = Newline.
Proof. done. Qed.

Lemma char_kind_CR : char_kind CR = Other.
Proof. done. Qed.

Lemma lexeme_ok_char c : is_run (char_kind c) = false -> lexeme_ok (char_kind c, [c]).
Proof. intros _. right. cbn. split_and!; [done|by apply Forall_singleton|done]. Qed.

Lemma flush_ok st : state_ok st -> Forall lexeme_ok (flush st).
Proof.
  destruct st as [|k chunk|]; cbn; [constructor| |].
  - intros (Hrun & Hne & Hk). apply Forall_singleton. right. cbn.
    split_and!; [done..|]. by rewrite Hrun.
  - intros _. by apply Forall_singleton, (lexeme_ok_char CR).
Qed.

Lemma lexeme_ok_LF : lexeme_ok (Newline, [LF]).
Proof. by apply (lexeme_ok_char LF). Qed.

Lemma step_ok st c :
  state_ok st -> Forall lexeme_ok (step st c).1 /\ state_ok (step st c).2.
Proof.
  intros Hst. pose proof (flush_ok st Hst) as Hfl. unfold step.
  destruct (Ascii.eqb_spec c LF) as [->|_].
  { split; [|by destruct st]. destruct st; cbn.
    - apply Forall_singleton, lexeme_ok_LF.
    - apply (Forall_app _ [_] [_]). split; [done|].
      apply Forall_singleton, lexeme_ok_LF.
    - apply Forall_singleton. by left. }
  destruct (Ascii.eqb_spec c CR) as [->|_]; [done|].
  destruct (is_run (char_kind c)) eqn:Hrun.
  - assert (state_ok (Run (char_kind c) [c]))
      by (by split_and!; [..|apply Forall_singleton]).
    destruct st as [|k chunk|]; [done| |done]. case_decide as Hk; [|done].
    destruct Hst as (? & ? & ?). split; [constructor|]. subst k. cbn.
    split_and!; [done|by intros [? _]%app_eq_nil|].
    apply Forall_app. by rewrite Forall_singleton.
  - split; [|done]. apply Forall_app. split; [done|].
    by apply Forall_singleton, lexeme_ok_char.
Qed.

Lemma scan_ok st cs : state_ok st -> Forall lexeme_ok (scan st cs).
Proof.
  revert st. induction cs as [|c cs IH]; intros st Hst; cbn; [by apply flush_ok|].
  destruct (step_ok st c Hst). apply Forall_app. auto.
Qed.

(** The kinds of the characters: no character is an end of input, and
    none has the kind of the other punctuation. *)
Lemma char_kind_emitted c :
  char_kind c <> EndOfInput /\ char_kind c <> OtherPunctuation.
Proof. unfold char_kind. by repeat case_match. Qed.

Lemma lexeme_ok_kind l :
  lexeme_ok l -> l.1 <> EndOfInput /\ l.1 <> OtherPunctuation.
Proof.
  intros [->|(Hne & Hk & _)]; [done|]. destruct l as [k [|c chunk]]; [done|].
  apply Forall_cons_1 in Hk as [<- _]. apply char_kind_emitted.
Qed.

End lexemes.

(** ** Runs are maximal *)

Section munch.
Implicit Types (st : State) (c : ascii) (cs chunk : list ascii).
Implicit Types (l : Lexeme) (ls rest : list Lexeme) (k : TokenKind).

Lemma munched_cons_norun l ls : is_run l.1 = false -> munched (l :: ls) = munched ls.
Proof. intros Hl. cbn. rewrite Hl. by destruct ls. Qed.

Lemma munched_cons_ne l l' ls :
  l.1 <> l'.1 -> munched (l :: l' :: ls) = munched (l' :: ls).
Proof.
  intros Hne. cbn [munched]. by rewrite (bool_decide_false _ Hne), andb_false_r.
Qed.

(** A state that holds back a run is flushed before a lexeme of another
    kind. *)
Lemma munched_flush st rest :
  (forall k chunk l ls, st = Run k chunk -> rest = l :: ls -> l.1 <> k) ->
  munched rest = true -> munched (flush st ++ rest) = true.
Proof.
  intros Hsep Hrest. destruct st as [|k chunk|]; cbn [flush app]; [done| |].
  - destruct rest as [|l ls]; [done|].
    rewrite munched_cons_ne; [done|]. cbn. by eapply not_eq_sym, Hsep.
  - by rewrite munched_cons_norun.
Qed.

Lemma scan_Run_head k chunk cs :
  exists chunk' ls, scan (Run k chunk) cs = (k, chunk') :: ls.
Proof.
  revert chunk. induction cs as [|c cs IH]; intros chunk; [by eexists _, _|].
  cbn. unfold step. repeat case_match; cbn; eauto.
Qed.

Lemma scan_AfterCR_head cs :
  exists l ls, scan AfterCR cs = l :: ls /\ is_run l.1 = false.
Proof.
  destruct cs as [|c cs]; [by eexists _, _|].
  cbn. unfold step. repeat case_match; cbn; eauto.
Qed.

Lemma scan_munched st cs : state_ok st -> munched (scan st cs) = true.
Proof.
  revert st. induction cs as [|c cs IH]; intros st Hst; [by destruct st|].
  cbn [scan]. unfold step. destruct (Ascii.eqb_spec c LF) as [->|_].
  { destruct st; cbn [fst snd flush app];
      rewrite ?munched_cons_norun by done; [by apply IH| |by apply IH].
    apply (munched_flush (Run _ _)).
    - intros k chunk' l ls [= -> ->] [= <- _]. by destruct Hst as [? _], k.
    - rewrite munched_cons_norun by done. by apply IH. }
  destruct (Ascii.eqb_spec c CR) as [->|_].
  { cbn [fst snd]. apply munched_flush; [|by apply IH].
    intros k chunk l ls -> Hl.
    destruct (scan_AfterCR_head cs) as (l' & ls' & Hl' & Hrun).
    destruct Hst as [Hk _]. intros <-. congruence. }
  destruct (is_run (char_kind c)) eqn:Hrun.
  - assert (state_ok (Run (char_kind c) [c]))
      by (by split_and!; [..|apply Forall_singleton]).
    destruct st as [|k chunk|]; cbn [fst snd flush app]; [by apply IH| |].
    + case_decide as Hk; cbn [fst snd flush app].
      * apply IH. destruct Hst as (? & ? & ?). subst k.
        split_and!; [done|by intros [? _]%app_eq_nil|].
        apply Forall_app. by rewrite Forall_singleton.
      * apply (munched_flush (Run _ _)); [|by apply IH].
        intros k' chunk' l ls [= -> ->] Hl.
        destruct (scan_Run_head (char_kind c) [c] cs) as (? & ? & Hhead).
        rewrite Hhead in Hl. injection Hl as <- _. cbn. congruence.
    + rewrite munched_cons_norun by done. by apply IH.
  - cbn [fst snd]. rewrite <- (assoc_L (++)). apply munched_flush.
    + intros k chunk l ls -> [= <- _]. destruct Hst as [Hk _]. cbn. congruence.
    + cbn [app]. rewrite munched_cons_norun by done. by apply IH.
Qed.

End munch.

(** ** The tokens of a line *)

Section tokens.
Implicit Types (line r : TextRange.t) (pos : Z) (ls : list Lexeme).

(** The number of characters of a list of lexemes. *)
Definition text_length (ls : list Lexeme) : Z :=
  Z.of_nat (List.length (concat (snd <$> ls))).

Lemma text_length_cons k (chunk : list ascii) ls :
  text_length ((k, chunk) :: ls) = Z.of_nat (List.length chunk) + text_length ls.
Proof. unfold text_length. cbn. rewrite List.length_app. lia. Qed.

Lemma text_length_nonneg ls : 0 <= text_length ls.
Proof. unfold text_length. lia. Qed.

Lemma place_kinds line pos ls : kind <$> place line pos ls = fst <$> ls.
Proof.
  revert pos. induction ls as [|[k chunk] ls IH]; intros pos; [done|].
  cbn. by rewrite IH.
Qed.

Lemma place_lines line pos ls : Forall (fun t => Tokenizer.line t = line) (place line pos ls).
Proof.
  revert pos. induction ls as [|[k chunk] ls IH]; intros pos; cbn; by constructor.
Qed.

Lemma place_adjacent line pos ls :
  0 <= pos -> pos + text_length ls <= Js.length (TextRange.buffer line) ->
  TextRange.adjacent (TextRange.buffer line) pos (range <$> place line pos ls)
    (pos + text_length ls).
Proof.
  revert pos. induction ls as [|[k chunk] ls IH]; intros pos Hpos Hend.
  { unfold text_length. cbn. lia. }
  rewrite text_length_cons in *. pose proof (text_length_nonneg ls).
  cbn. unfold TextRange.wf. cbn. split_and!; [done|done|lia..|].
  rewrite Z.add_assoc. apply IH; lia.
Qed.

Lemma place_text_lengths line pos ls :
  0 <= pos -> pos + text_length ls <= Js.length (TextRange.buffer line) ->
  Forall2 (fun t (l : Lexeme) =>
             List.length (chars (TextRange.toString (range t))) = List.length l.2)
    (place line pos ls) ls.
Proof.
  revert pos. induction ls as [|[k chunk] ls IH]; intros pos Hpos Hend.
  { constructor. }
  rewrite text_length_cons in *. pose proof (text_length_nonneg ls).
  cbn. constructor; [|apply IH; lia]. cbn.
  apply Nat2Z.inj. rewrite chars_length.
  change (Js.length (TextRange.toString
            (TextRange.Build (TextRange.buffer line) pos
               (pos + Z.of_nat (List.length chunk)))) =
          Z.of_nat (List.length chunk)).
  rewrite TextRange.toString_length; [unfold TextRange.length; cbn; lia|].
  unfold TextRange.wf. cbn. lia.
Qed.

Lemma chars_join (l : list string) : chars (Js.join l) = concat (chars <$> l).
Proof.
  induction l as [|s l IH]; [done|].
  change (chars (s +:+ Js.join l) = chars s ++ concat (chars <$> l)).
  by rewrite chars_app, IH.
Qed.

(** Lists of lists with the same lengths and the same concatenation are
    the same. *)
Lemma concat_eq_lengths {A} (xs ys : list (list A)) :
  Forall2 (fun x y => List.length x = List.length y) xs ys ->
  concat xs = concat ys -> xs = ys.
Proof.
  induction 1 as [|x y xs ys Hlen _ IH]; [done|]. cbn.
  intros [-> Heq]%app_inj_1; [|done]. by rewrite IH.
Qed.

Lemma lexemes_text_length (cs : list ascii) :
  text_length (lexemes cs) = Z.of_nat (List.length cs).
Proof. unfold text_length, lexemes. by rewrite scan_concat. Qed.

Section line.
Context (line : TextRange.t) (Hwf : TextRange.wf line).

Lemma line_text_length :
  text_length (lexemes (chars (TextRange.toString line))) =
  TextRange.end_ line - TextRange.pos line.
Proof.
  rewrite lexemes_text_length, chars_length.
  apply (TextRange.toString_length line Hwf).
Qed.

Lemma tokenize_adjacent :
  TextRange.adjacent (TextRange.buffer line) (TextRange.pos line)
    (range <$> tokenize line) (TextRange.end_ line).
Proof.
  pose proof line_text_length as Hlen. destruct Hwf as (? & ? & ?).
  replace (TextRange.end_ line) with
    (TextRange.pos line + text_length (lexemes (chars (TextRange.toString line))))
    by lia.
  apply place_adjacent; lia.
Qed.

Lemma tokenize_join :
  Js.join (TextRange.toString ∘ range <$> tokenize line) = TextRange.toString line.
Proof.
  destruct Hwf as (? & ? & ?). rewrite list_fmap_compose.
  rewrite (TextRange.join_adjacent (TextRange.buffer line) (TextRange.pos line)
             _ (TextRange.end_ line)); [by destruct line|done..|].
  apply tokenize_adjacent.
Qed.

Lemma tokenize_texts :
  (fun t => chars (TextRange.toString (range t))) <$> tokenize line =
  snd <$> lexemes (chars (TextRange.toString line)).
Proof.
  pose proof line_text_length as Hlen. destruct Hwf as (? & ? & ?).
  apply concat_eq_lengths.
  - apply Forall2_fmap, place_text_lengths; lia.
  - trans (concat (chars <$> (TextRange.toString ∘ range <$> tokenize line))).
    { by rewrite <- list_fmap_compose. }
    rewrite <- chars_join, tokenize_join. unfold lexemes. by rewrite scan_concat.
Qed.

End line.

End tokens.

(** ** Correctness *)

Section correctness.
Implicit Types (line : TextRange.t) (lines : list TextRange.t).

Lemma zip_fmap_fmap {A B C} (f : A -> B) (g : A -> C) (l : list A) :
  zip (f <$> l) (g <$> l) = (fun x => (f x, g x)) <$> l.
Proof. induction l; cbn; by f_equal. Qed.

(** The tokens of a valid line, as kinds and texts, are the lexemes of
    its text. *)
Lemma tokenize_lexemes line :
  TextRange.wf line ->
  (fun t => (kind t, chars (TextRange.toString (range t)))) <$> tokenize line =
  lexemes (chars (TextRange.toString line)).
Proof.
  intros Hwf. rewrite <- zip_fmap_fmap, (tokenize_texts line Hwf).
  unfold tokenize. rewrite place_kinds. apply zip_fst_snd.
Qed.

Lemma tokenize_kinds line :
  Forall (fun t => kind t <> EndOfInput /\ kind t <> OtherPunctuation)
    (tokenize line).
Proof.
  apply (Forall_fmap kind (fun k => k <> EndOfInput /\ k <> OtherPunctuation)).
  unfold tokenize. rewrite place_kinds. apply Forall_fmap.
  eapply Forall_impl; [by apply (scan_ok Idle)|]. apply lexeme_ok_kind.
Qed.

Lemma lexemes_count (ls : list Lexeme) :
  Forall lexeme_ok ls -> Z.of_nat (List.length ls) <= text_length ls.
Proof.
  induction 1 as [|[k chunk] ls Hl _ IH]; [done|].
  rewrite text_length_cons. cbn [List.length].
  assert (chunk <> []) by (by destruct Hl as [[= _ ->]|[? _]]).
  destruct chunk; [done|]. cbn [List.length]. lia.
Qed.

(** The tokens of a valid line are contiguous slices of the line:
    their ranges are valid, the first starts where the line starts, each
    starts where the one before it ends and the last ends where the line
    ends; their texts, concatenated, are the text of the line; and each
    token is a token of the line. *)
Theorem tokens_tile line :
  TextRange.wf line ->
  TextRange.adjacent (TextRange.buffer line) (TextRange.pos line)
    (range <$> tokenize line) (TextRange.end_ line) /\
  Js.join (TextRange.toString ∘ range <$> tokenize line) = TextRange.toString line /\
  Forall (fun t => Tokenizer.line t = line) (tokenize line).
Proof.
  intros Hwf. split_and!;
    [by apply tokenize_adjacent|by apply tokenize_join|apply place_lines].
Qed.

(** Every token of a valid line has the text of its kind: a word
    is a run of letters and digits, a spacing a run of spaces and tabs, a
    newline a line feed or a carriage return and a line feed, and a token
    of another kind is one character of that kind; and the runs are as
    long as they can be: no word is followed by a word and no spacing by a
    spacing. *)
Theorem tokens_classified line :
  TextRange.wf line ->
  let texts :=
    (fun t => (kind t, chars (TextRange.toString (range t)))) <$> tokenize line in
  Forall lexeme_ok texts /\ munched texts = true.
Proof.
  intros Hwf. cbn. rewrite (tokenize_lexemes line Hwf).
  split; [by apply (scan_ok Idle)|by apply (scan_munched Idle)].
Qed.

(** A valid line of [n] characters has at most [n] tokens. *)
Theorem token_count line :
  TextRange.wf line ->
  Z.of_nat (List.length (tokenize line)) <= TextRange.length line.
Proof.
  intros Hwf. unfold TextRange.length. rewrite <- (line_text_length line Hwf).
  rewrite <- (length_fmap kind). unfold tokenize.
  rewrite place_kinds, length_fmap. by apply lexemes_count, (scan_ok Idle).
Qed.

(** The tokens of a list of lines end with an end of input, no
    token before it is an end of input, and no token has the kind of the
    other punctuation. *)
Theorem readTokens_end lines :
  last (readTokens lines) = Some (endOfInput lines) /\
  Forall (fun t => kind t <> EndOfInput /\ kind t <> OtherPunctuation)
    (concat (tokenize <$> lines)).
Proof.
  split; [apply last_snoc|].
  apply Forall_concat, Forall_fmap, Forall_true, tokenize_kinds.
Qed.

End correctness.

End Tokenizer.

(** * The test of the tokenizer *)

(** [TestHelpers], of which the test uses two functions. *)
Class TestHelpers : Type :=
  { getEscaped : string -> string;
    formatLineSpan : TextRange.t -> TextRange.t -> string }.

Module TokenizerTest.
Import Tokenizer.
#[local] Existing Instance TextRange.t_eq_dec.

(** What the test reads of the [ParserContext] that [parseString]
    returns. *)
Record ParserContext : Type :=
  { lines : list TextRange.t; tokens : list Token }.

(** [ISnapshotItem]; the name [TokenKind[token.kind]] of a kind is the
    kind. *)
Record ISnapshotItem : Type :=
  { indexOfLine : Z; line : string; span : string; tokenKind : TokenKind }.

(** What [matchSnapshot] expects to match the snapshot. *)
Record Snapshot : Type := { buffer : string; items : list ISnapshotItem }.

(** [lines.indexOf(line)]: the first index of the line, or -1. *)
Definition indexOf (lines : list TextRange.t) (line : TextRange.t) : Z :=
  match list_find (fun l => l = line) lines with
  | Some (i, _) => Z.of_nat i
  | None => -1
  end.

(** The six expectations of the test of [isPunctuation], each with
    the value it expects. *)
Definition isPunctuation_expectations : list (bool * bool) :=
  [(isPunctuation OtherPunctuation, true);
   (isPunctuation DoubleQuote, true);
   (isPunctuation Slash, true);
   (isPunctuation EndOfInput, false);
   (isPunctuation Spacing, false);
   (isPunctuation AsciiWord, false)].

(** [l.join('\n')] *)
Definition join_lines (l : list string) : string :=
  match l with
  | [] => ""
  | s :: l => s +:+ Js.join ((fun s' => String LF s') <$> l)
  end.

(** The buffers of the tests 00 and 01. *)
Definition buffer_00 : string :=
  join_lines ["/**"; " * line 1 "; " * line 2"; " */"].

Definition buffers_01 : list string :=
  ["/***/"; join_lines ["/**"; " *"; " */"]; join_lines ["/**"; " "; " "; " */"]].

(** The buffers of the tests 02 to 05; the row of test 04 holds every
    punctuation character of ASCII but the backslash, and the row of
    test 05 a tab and a form feed. *)
Definition buffer_02 : string :=
  join_lines ["/**"; " * \$\@param"; " * double-backslash: \\"; " */"].

Definition buffer_03 : string :=
  join_lines ["/**"; " * letter: \A space: \  end of line: \"; " */"].

Definition general_characters : string :=
  "!" +:+ String "034" "#$%&'()*+,-./:;<=>?@[]^_`{|}~".

Definition buffer_04 : string :=
  join_lines ["/**"; " * " +:+ general_characters; " */"].

Definition spacing_characters : string :=
  "space:  tab: " +:+ String "009" ("  form feed: " +:+ String "012" " end").

Definition buffer_05 : string :=
  join_lines ["/**"; " * " +:+ spacing_characters; " */"].

Section matchSnapshot.
Context `{TestHelpers}.

(** The item that the loop pushes for a token. *)
Definition item (parserContext : ParserContext) (token : Token) : ISnapshotItem :=
  {| indexOfLine := indexOf (lines parserContext) (Tokenizer.line token);
     line := ">" +:+ getEscaped (TextRange.toString (Tokenizer.line token)) +:+ "<";
     span := formatLineSpan (Tokenizer.line token) (range token);
     tokenKind := kind token |}.

(** The loop over the tokens, which breaks after an end of input. *)
Fixpoint items_loop (parserContext : ParserContext) (tokens : list Token) :
    list ISnapshotItem :=
  match tokens with
  | [] => []
  | token :: tokens =>
      item parserContext token ::
      (if decide (kind token = EndOfInput) then []
       else items_loop parserContext tokens)
  end.

(** [matchSnapshot], from the context that [parseString] returns for
    the buffer. *)
Definition matchSnapshot (buffer : string) (parserContext : ParserContext) :
    Snapshot :=
  {| buffer := getEscaped buffer;
     items := items_loop parserContext (tokens parserContext) |}.

(** ** Specification *)

(** ** The loop *)

Section loop.
Implicit Types (parserContext : ParserContext) (ts : list Token).

Lemma items_loop_all parserContext ts t :
  Forall (fun t => kind t <> EndOfInput) ts ->
  items_loop parserContext (ts ++ [t]) = item parserContext <$> ts ++ [t].
Proof.
  induction 1 as [|t' ts Ht' _ IH]; cbn; [by case_decide|].
  by rewrite decide_False, IH.
Qed.

Lemma indexOf_elem_of (ls : list TextRange.t) (l : TextRange.t) :
  l ∈ ls -> 0 <= indexOf ls l /\ ls !! Z.to_nat (indexOf ls l) = Some l.
Proof.
  intros Hin. unfold indexOf.
  destruct (list_find_elem_of (fun l' => l' = l) ls l Hin eq_refl) as [[i l'] Hf].
  rewrite Hf. apply list_find_Some in Hf as (Hi & -> & _).
  split; [lia|]. by rewrite Nat2Z.id.
Qed.

Lemma readTokens_lines (ls : list TextRange.t) :
  ls <> [] -> Forall (fun t => Tokenizer.line t ∈ ls) (readTokens ls).
Proof.
  intros Hne. apply Forall_app. split.
  - apply Forall_concat, Forall_fmap, Forall_forall. intros l Hl.
    eapply Forall_impl; [apply place_lines|]. by intros t ->.
  - apply Forall_singleton. unfold endOfInput.
    destruct (last ls) as [l|] eqn:Hl; [|by apply last_None in Hl].
    cbn. by eapply last_Some_elem_of.
Qed.

End loop.

(** ** Correctness *)

Section correctness.

(** On the context of a parse, the loop of [matchSnapshot] breaks
    at the last token and not before: the snapshot has one item for each
    token, in order, with the kind of the token. When there is a line, the
    index of the line of every item is the index of a line of the context,
    and that line is the line of the token. *)
Theorem matchSnapshot_items (buffer : string) (ls : list TextRange.t) :
  let snapshot :=
    matchSnapshot buffer {| lines := ls; tokens := readTokens ls |} in
  tokenKind <$> items snapshot = kind <$> readTokens ls /\
  (ls <> [] ->
   Forall2 (fun it t =>
              0 <= indexOfLine it /\
              ls !! Z.to_nat (indexOfLine it) = Some (Tokenizer.line t))
     (items snapshot) (readTokens ls)).
Proof.
  cbn. unfold readTokens.
  rewrite items_loop_all
    by (eapply Forall_impl; [apply readTokens_end|]; by intros t [? _]).
  split; [by rewrite <- list_fmap_compose|]. intros Hne.
  apply Forall2_fmap_l, Forall_Forall2_diag.
  eapply Forall_impl; [by apply readTokens_lines|].
  intros t Ht. by apply indexOf_elem_of.
Qed.

(** The six expectations of the test of [isPunctuation] hold. *)
Theorem isPunctuation_expected :
  Forall (fun e => e.1 = e.2) isPunctuation_expectations.
Proof. by repeat constructor. Qed.

End correctness.

End matchSnapshot.

(** ** Examples *)

Section examples.

(** The content of the second and third row of the buffer of test 00,
    [line 1 ] with its trailing space and [line 2]. *)
Definition line_1 : TextRange.t := TextRange.Build buffer_00 7 14.
Definition line_2 : TextRange.t := TextRange.Build buffer_00 18 24.

Lemma line_1_wf : TextRange.wf line_1.
Proof. by apply TextRange.wfb_spec. Qed.

Lemma tokens_tile_witness :
  TextRange.adjacent (TextRange.buffer line_1) (TextRange.pos line_1)
    (range <$> tokenize line_1) (TextRange.end_ line_1) /\
  Js.join (TextRange.toString ∘ range <$> tokenize line_1) =
    TextRange.toString line_1 /\
  Forall (fun t => Tokenizer.line t = line_1) (tokenize line_1).
Proof. exact (tokens_tile line_1 line_1_wf). Defined.

Lemma tokens_classified_witness :
  let texts :=
    (fun t => (kind t, chars (TextRange.toString (range t)))) <$> tokenize line_1 in
  Forall lexeme_ok texts /\ munched texts = true.
Proof. exact (tokens_classified line_1 line_1_wf). Defined.

Lemma token_count_witness :
  Z.of_nat (List.length (tokenize line_1)) <= TextRange.length line_1.
Proof. exact (token_count line_1 line_1_wf). Defined.

(** The tokens of [line 1 ] are a word, a spacing, a word and a
    spacing, at the offsets 7, 11, 12 and 13 of the buffer; the tokens of
    the buffer [/***/] of test 01 are five punctuation characters; a
    carriage return and a line feed are one newline, a carriage return
    alone is of no class. *)
Example example_tokens :
  (fun t => (kind t, TextRange.pos (range t), TextRange.end_ (range t))) <$>
    readTokens [line_1] =
  [(AsciiWord, 7, 11); (Spacing, 11, 12); (AsciiWord, 12, 13); (Spacing, 13, 14);
   (EndOfInput, 14, 14)] /\
  fst <$> lexemes (chars "/***/") =
  [Slash; Punctuation "*"; Punctuation "*"; Punctuation "*"; Slash] /\
  fst <$> lexemes [CR; LF; CR; "a"%char; LF] =
  [Newline; Other; AsciiWord; Newline].
Proof. by vm_compute. Qed.

(** Every character of the row of test 04 is a token of its own kind,
    and the form feed of test 05 is the one token of no class of its
    row. *)
Example example_characters :
  fst <$> lexemes (chars general_characters) =
    Punctuation <$> chars general_characters /\
  filter (fun l => l.1 = Other) (lexemes (chars spacing_characters)) =
    [(Other, ["012"%char])].
Proof. by vm_compute. Qed.

End examples.

End TokenizerTest.
