(* ===== verification/LineExtractor.v ===== *)
(** * The line extractor

    The specification names a line extractor, whose code is not part of
    the sources: it takes the range of a comment with its delimiters, and
    returns the lines of its content as ranges of the same buffer, without
    the decoration: the opening [/**], the closing [*/], and on every
    further row the indentation, the [*] and at most one space after it.
    [Module LineExtractor] models it from the specification over
    [TextRange]: it finds the rows of the comment, computes the offsets of
    each row without its decoration and makes the range of the line with
    [getNewRange], the validating constructor of the sources.

    Where the specification is silent the model takes the plainer course:
    every row gives a line, an empty row an empty line; on the row of the
    opening, which has no [*] of its own, at most one space is stripped; a
    row without [*] loses its indentation; a text that does not start with
    [/**] or has no [*/] after it has no lines at all ([None]).

    The theorems: on a valid range the extractor never throws; the lines
    are valid ranges of the buffer of the comment, inside the comment, in
    order and apart, and hold no line feed; their texts are the rows of
    the text of the comment without their decoration, by a definition
    that knows of no offsets ([line_texts]). *)

From Stdlib Require Import ZArith String Ascii Lia.
From stdpp Require Import base tactics option list strings.
From S2P Require Import Prelude JsString Range Tokenizer.

#[local] Open Scope Z_scope.

Module LineExtractor.

(** ** The delimiters *)

(** What follows a prefix, when the text starts with it. *)
Fixpoint strip_prefix (prefix cs : list ascii) : option (list ascii) :=
  match prefix, cs with
  | [], _ => Some cs
  | a :: prefix, c :: cs => if Ascii.eqb a c then strip_prefix prefix cs else None
  | _ :: _, [] => None
  end.

(** The characters before the first [*/]. *)
Fixpoint before_close (cs : list ascii) : option (list ascii) :=
  match cs with
  | [] => None
  | c :: cs' =>
      match strip_prefix (chars "*/") cs with
      | Some _ => Some []
      | None => cons c <$> before_close cs'
      end
  end.

(** ** Rows *)

(** The rows of a text: what stands between its line feeds. *)
Fixpoint split_rows (cs : list ascii) : list (list ascii) :=
  match cs with
  | [] => [[]]
  | c :: cs =>
      if Ascii.eqb c LF then [] :: split_rows cs
      else match split_rows cs with
           | row :: rows => (c :: row) :: rows
           | [] => [[c]]
           end
  end.

(** The offset of each row, from the offset of the first: a row starts
    one past the line feed that ends the row before. *)
Fixpoint place (pos : Z) (rows : list (list ascii)) : list (Z * list ascii) :=
  match rows with
  | [] => []
  | row :: rows =>
      (pos, row) :: place (pos + Z.of_nat (List.length row) + 1) rows
  end.

(** The indentation of a row: the spaces and tabs at its start. *)
Fixpoint indentation (row : list ascii) : nat :=
  match row with
  | c :: row => if Tokenizer.is_spacing c then S (indentation row) else 0
  | [] => 0
  end.

(** The decoration at the start of a row, in characters: on the row of
    the opening one space if there is one; on another row the
    indentation, then a [*] if there is one, then one space if there is
    one. *)
Definition decoration (first : bool) (row : list ascii) : nat :=
  if first then
    match row with
    | " "%char :: _ => 1
    | _ => 0
    end
  else
    let n := indentation row in
    match drop n row with
    | "*"%char :: " "%char :: _ => n + 2
    | "*"%char :: _ => n + 1
    | _ => n
    end%nat.

(** ** Lines *)

(** The line of a row: the range from the end of its decoration to its
    end. *)
Definition line (range : TextRange.t) (first : bool) (row : Z * list ascii) :
    result string TextRange.t :=
  TextRange.getNewRange range
    (row.1 + Z.of_nat (decoration first row.2))
    (row.1 + Z.of_nat (List.length row.2)).

Fixpoint lines_of (range : TextRange.t) (first : bool)
    (rows : list (Z * list ascii)) : result string (list TextRange.t) :=
  match rows with
  | [] => Ok []
  | row :: rows =>
      (l <- line range first row ;;
       ls <- lines_of range false rows ;;
       Ok (l :: ls))%result
  end.

(** The rows of a comment with their offsets in the buffer: the rows
    between [/**] and the first [*/] after it. *)
Definition comment_rows (range : TextRange.t) : option (list (Z * list ascii)) :=
  rest ← strip_prefix (chars "/**") (chars (TextRange.toString range));
  body ← before_close rest;
  Some (place (TextRange.pos range + 3) (split_rows body)).

(** The extractor: the lines of a comment, or [None] when the range does
    not hold a comment. *)
Definition extract (range : TextRange.t) :
    result string (option (list TextRange.t)) :=
  match comment_rows range with
  | Some rows => res_map Some (lines_of range true rows)
  | None => Ok None
  end.

(** ** Specification *)

(** A text from its rows. *)
Fixpoint join_rows (rows : list (list ascii)) : list ascii :=
  match rows with
  | [] => []
  | [row] => row
  | row :: rows => row ++ LF :: join_rows rows
  end.

(** The texts of the lines of a comment, from its text alone. *)
Definition line_texts (text : list ascii) : option (list (list ascii)) :=
  rest ← strip_prefix (chars "/**") text;
  body ← before_close rest;
  Some (imap (fun i row => drop (decoration (bool_decide (i = 0%nat)) row) row)
          (split_rows body)).

(** The texts of the lines that the extractor returns. *)
Definition texts_of (o : option (list TextRange.t)) : option (list (list ascii)) :=
  (fun lines : list TextRange.t => chars ∘ TextRange.toString <$> lines) <$> o.

(** The lines are in order and apart: each ends before the next
    starts. *)
Fixpoint ordered (from : Z) (lines : list TextRange.t) : Prop :=
  match lines with
  | [] => True
  | l :: lines =>
      from <= TextRange.pos l /\ ordered (TextRange.end_ l + 1) lines
  end.

(** A line of a comment: a valid range of its buffer, between its
    delimiters, without a line feed. *)
Definition line_of_comment (range l : TextRange.t) : Prop :=
  TextRange.wf l /\ TextRange.buffer l = TextRange.buffer range /\
  TextRange.pos range + 3 <= TextRange.pos l /\
  TextRange.end_ l + 2 <= TextRange.end_ range /\
  LF ∉ chars (TextRange.toString l).

(** ** The delimiters and the rows *)

Section rows.
Implicit Types (cs prefix body rest row : list ascii) (rows : list (list ascii)).
Implicit Types (pos : Z) (first : bool).

Lemma strip_prefix_Some prefix cs rest :
  strip_prefix prefix cs = Some rest <-> cs = prefix ++ rest.
Proof.
  revert cs. induction prefix as [|a prefix IH]; intros [|c cs]; cbn;
    try naive_solver.
  destruct (Ascii.eqb_spec a c) as [->|]; [rewrite IH|]; naive_solver.
Qed.

Lemma before_close_Some cs body :
  before_close cs = Some body -> exists rest, cs = body ++ (chars "*/") ++ rest.
Proof.
  revert body. induction cs as [|c cs IH]; intros body; [done|].
  cbn [before_close]. destruct (strip_prefix _ _) as [rest|] eqn:Hp.
  - intros [= <-]. exists rest. by apply strip_prefix_Some in Hp.
  - destruct (before_close cs) as [body'|]; [|done]. intros [= <-].
    destruct (IH body' eq_refl) as [rest ->]. by exists rest.
Qed.

Lemma split_rows_cons_LF cs : split_rows (LF :: cs) = [] :: split_rows cs.
Proof. done. Qed.

Lemma split_rows_not_nil cs : split_rows cs <> [].
Proof.
  destruct cs as [|c cs]; [done|]. cbn.
  destruct (Ascii.eqb c LF); [done|]. by destruct (split_rows cs).
Qed.

Lemma split_rows_cons c cs :
  c <> LF ->
  exists row rows, split_rows cs = row :: rows /\
    split_rows (c :: cs) = (c :: row) :: rows.
Proof.
  intros Hc. cbn. destruct (Ascii.eqb_spec c LF) as [|_]; [done|].
  pose proof (split_rows_not_nil cs).
  destruct (split_rows cs) as [|row rows]; [done|]. by exists row, rows.
Qed.

(** The rows of a text hold no line feed, and joined by line feeds they
    are the text. *)
Lemma split_rows_no_LF cs : Forall (fun row => LF ∉ row) (split_rows cs).
Proof.
  induction cs as [|c cs IH]; [by repeat constructor; apply not_elem_of_nil|].
  destruct (decide (c = LF)) as [->|Hc].
  - rewrite split_rows_cons_LF. constructor; [apply not_elem_of_nil|done].
  - destruct (split_rows_cons c cs Hc) as (row & rows & Hs & ->).
    rewrite Hs in IH. apply Forall_cons in IH as [Hrow Hrows].
    constructor; [|done]. by apply not_elem_of_cons.
Qed.

Lemma join_rows_cons row rows :
  rows <> [] -> join_rows (row :: rows) = row ++ LF :: join_rows rows.
Proof. by destruct rows. Qed.

Lemma join_split_rows cs : join_rows (split_rows cs) = cs.
Proof.
  induction cs as [|c cs IH]; [done|].
  destruct (decide (c = LF)) as [->|Hc].
  - rewrite split_rows_cons_LF, join_rows_cons by apply split_rows_not_nil.
    by rewrite IH.
  - destruct (split_rows_cons c cs Hc) as (row & rows & Hs & ->).
    rewrite Hs in IH. destruct rows as [|row' rows]; cbn in *; by rewrite IH.
Qed.

Lemma indentation_length row : (indentation row <= List.length row)%nat.
Proof. induction row as [|c row IH]; cbn; [done|]. case_match; cbn; lia. Qed.

(** The decoration of a row is a part of the row. *)
Lemma decoration_length first row :
  (decoration first row <= List.length row)%nat.
Proof.
  unfold decoration. destruct first.
  { destruct row as [|c row]; cbn; [lia|]. repeat case_match; cbn; lia. }
  pose proof (indentation_length row).
  pose proof (f_equal List.length (take_drop (indentation row) row)) as Hlen.
  rewrite List.length_app, length_take in Hlen.
  repeat case_match; simplify_eq/=; lia.
Qed.

End rows.

(** ** The offsets *)

(** The part of a buffer of [n] characters from the offset [pos]. *)
Definition segment (b : list ascii) (pos : Z) (n : nat) : list ascii :=
  take n (drop (Z.to_nat pos) b).

Section offsets.
Implicit Types (b cs row : list ascii) (rows : list (list ascii)).
Implicit Types (pos : Z) (range l : TextRange.t).

Lemma segment_app b pos cs rest :
  0 <= pos -> drop (Z.to_nat pos) b = cs ++ rest ->
  segment b pos (List.length cs) = cs.
Proof. intros _ Hb. unfold segment. by rewrite Hb, take_app_length. Qed.

Lemma drop_add b pos cs rest (n : nat) :
  0 <= pos -> drop (Z.to_nat pos) b = cs ++ rest -> n = List.length cs ->
  drop (Z.to_nat (pos + Z.of_nat n)) b = rest.
Proof.
  intros Hpos Hb ->.
  replace (Z.to_nat (pos + Z.of_nat (List.length cs)))
    with (Z.to_nat pos + List.length cs)%nat by lia.
  by rewrite <- drop_drop, Hb, drop_app_length.
Qed.

Lemma segment_drop b pos (n d : nat) :
  0 <= pos -> (d <= n)%nat ->
  segment b (pos + Z.of_nat d) (n - d) = drop d (segment b pos n).
Proof.
  intros Hpos Hd. unfold segment.
  replace n with (d + (n - d))%nat at 2 by lia.
  rewrite <- take_drop_commute, drop_drop. do 2 f_equal. lia.
Qed.

(** The rows as they are placed are where the buffer holds them: each
    starts at its offset and lies within the text. *)
Lemma place_segments b pos rows rest :
  0 <= pos -> drop (Z.to_nat pos) b = join_rows rows ++ rest ->
  Forall (fun r => pos <= r.1 /\
                   r.1 + Z.of_nat (List.length r.2) <=
                     pos + Z.of_nat (List.length (join_rows rows)) /\
                   segment b r.1 (List.length r.2) = r.2)
    (place pos rows).
Proof.
  revert pos. induction rows as [|row rows IH]; intros pos Hpos Hb; [done|].
  destruct (decide (rows = [])) as [->|Hne].
  { cbn in *. repeat constructor; cbn; [lia..|by eapply segment_app]. }
  rewrite join_rows_cons in * by done. cbn [place].
  rewrite <- (assoc_L (++)) in Hb. constructor.
  - cbn. rewrite List.length_app. split_and!; [lia..|by eapply segment_app].
  - eapply Forall_impl; [apply IH; [lia|]|].
    + replace (pos + Z.of_nat (List.length row) + 1)
        with (pos + Z.of_nat (List.length (row ++ [LF])))
        by (rewrite List.length_app; cbn; lia).
      eapply drop_add; [done| |done]. by rewrite <- (assoc_L (++)).
    + intros r (? & ? & ?). rewrite List.length_app. cbn [List.length].
      split_and!; [lia..|done].
Qed.

(** The rows as they are placed follow each other. *)
Lemma place_ordered pos rows :
  Forall2 (fun r row => r.2 = row) (place pos rows) rows /\
  match place pos rows with
  | r :: _ => r.1 = pos
  | [] => True
  end.
Proof.
  revert pos. induction rows as [|row rows IH]; intros pos; [by split|].
  cbn. split; [|done]. constructor; [done|]. apply IH.
Qed.

End offsets.

(** ** The lines *)

Section lines.
Context (range : TextRange.t) (Hwf : TextRange.wf range).
Implicit Types (row : list ascii) (rows : list (list ascii)).
Implicit Types (r : Z * list ascii) (l : TextRange.t) (first : bool).

(** The range that [line] asks [getNewRange] for. *)
Definition line_range first r : TextRange.t :=
  TextRange.Build (TextRange.buffer range)
    (r.1 + Z.of_nat (decoration first r.2))
    (r.1 + Z.of_nat (List.length r.2)).

(** A row that lies in the buffer where its offset says. *)
Definition row_in_buffer (lo hi : Z) r : Prop :=
  lo <= r.1 /\ r.1 + Z.of_nat (List.length r.2) <= hi /\
  segment (chars (TextRange.buffer range)) r.1 (List.length r.2) = r.2.

Lemma line_range_wf lo hi first r :
  0 <= lo -> hi <= Js.length (TextRange.buffer range) ->
  row_in_buffer lo hi r -> TextRange.wf (line_range first r).
Proof.
  intros Hlo Hhi (? & ? & _). pose proof (decoration_length first r.2).
  unfold TextRange.wf. cbn. lia.
Qed.

(** The text of the line of a row is the row without its decoration. *)
Lemma line_range_text lo hi first r :
  0 <= lo -> hi <= Js.length (TextRange.buffer range) ->
  row_in_buffer lo hi r ->
  chars (TextRange.toString (line_range first r)) =
  drop (decoration first r.2) r.2.
Proof.
  intros Hlo Hhi Hr. rewrite TextRange.toString_chars by by eapply line_range_wf.
  destruct Hr as (? & ? & Hseg). pose proof (decoration_length first r.2).
  trans (drop (decoration first r.2)
           (segment (chars (TextRange.buffer range)) r.1 (List.length r.2)));
    [|by rewrite Hseg].
  rewrite <- segment_drop by lia. unfold TextRange.length. cbn.
  unfold segment. do 2 f_equal. lia.
Qed.

Lemma line_Ok lo hi first r :
  0 <= lo -> hi <= Js.length (TextRange.buffer range) ->
  row_in_buffer lo hi r -> line range first r = Ok (line_range first r).
Proof.
  intros Hlo Hhi Hr. apply TextRange.getNewRange_Ok. split; [done|].
  by eapply line_range_wf.
Qed.

(** The calls of [getNewRange] succeed on rows that lie in the
    buffer. *)
Lemma lines_of_Ok lo hi first (rs : list (Z * list ascii)) :
  0 <= lo -> hi <= Js.length (TextRange.buffer range) ->
  Forall (row_in_buffer lo hi) rs ->
  lines_of range first rs =
  Ok (imap (fun i => line_range (first && bool_decide (i = 0%nat))) rs).
Proof.
  intros Hlo Hhi Hrs. revert first.
  induction Hrs as [|r rs Hr _ IH]; intros first; [done|].
  cbn [lines_of imap]. rewrite (line_Ok lo hi), IH by done. cbn [res_bind].
  rewrite andb_true_r. do 2 f_equal. apply imap_ext. intros i ? _. cbn.
  by rewrite andb_false_r.
Qed.

End lines.

(** ** The extractor *)

Section extract.
Context (range : TextRange.t) (Hwf : TextRange.wf range).
Implicit Types (body rest : list ascii) (rs : list (Z * list ascii)).
Implicit Types (lines : list TextRange.t).

Lemma place_snd pos (rows : list (list ascii)) : (place pos rows).*2 = rows.
Proof.
  revert pos. induction rows as [|row rows IH]; intros pos; [done|].
  cbn. by rewrite IH.
Qed.

(** The rows of a comment: its text is the opening, the rows, the
    closing and a rest. *)
Lemma comment_rows_Some rs :
  comment_rows range = Some rs ->
  exists body rest,
    chars (TextRange.toString range) =
      (chars "/**") ++ body ++ (chars "*/") ++ rest /\
    line_texts (chars (TextRange.toString range)) =
      Some (imap (fun i row => drop (decoration (bool_decide (i = 0%nat)) row) row)
              (split_rows body)) /\
    rs = place (TextRange.pos range + 3) (split_rows body).
Proof.
  unfold comment_rows, line_texts.
  destruct (strip_prefix _ _) as [rest0|] eqn:Hopen; [|done]. cbn.
  destruct (before_close rest0) as [body|] eqn:Hclose; [|done]. cbn.
  intros [= <-]. apply strip_prefix_Some in Hopen.
  destruct (before_close_Some _ _ Hclose) as [rest ->]. by exists body, rest.
Qed.

Lemma comment_rows_None :
  comment_rows range = None -> line_texts (chars (TextRange.toString range)) = None.
Proof.
  unfold comment_rows, line_texts.
  destruct (strip_prefix _ _) as [rest0|]; [|done]. cbn.
  by destruct (before_close rest0).
Qed.

(** The rows of a comment lie in its buffer, between its delimiters. *)
Lemma comment_rows_in_buffer rs :
  comment_rows range = Some rs ->
  Forall (row_in_buffer range (TextRange.pos range + 3) (TextRange.end_ range - 2)) rs.
Proof.
  intros (body & rest & Htext & _ & ->)%comment_rows_Some.
  pose proof (f_equal List.length Htext) as Hlen.
  rewrite chars_length, <- (Nat2Z.id (String.length _)) in Hlen.
  fold (Js.length (TextRange.toString range)) in Hlen.
  rewrite TextRange.toString_length, !List.length_app in Hlen by done.
  rewrite TextRange.toString_chars in Htext by done.
  destruct Hwf as (Hpos & Hend & Hb). unfold TextRange.length in *.
  assert (drop (Z.to_nat (TextRange.pos range + 3)) (chars (TextRange.buffer range)) =
          join_rows (split_rows body) ++ (chars "*/") ++ rest ++
          drop (Z.to_nat (TextRange.end_ range - TextRange.pos range))
            (drop (Z.to_nat (TextRange.pos range)) (chars (TextRange.buffer range))))
    as Hdrop.
  { rewrite join_split_rows. eapply (drop_add _ _ (chars "/**") _ 3); [done| |done].
    rewrite <- (take_drop (Z.to_nat (TextRange.end_ range - TextRange.pos range))
                  (drop _ _)) at 1.
    rewrite Htext. by rewrite <- !(assoc_L (++)). }
  eapply Forall_impl; [by eapply place_segments; [lia|]|].
  intros r (? & ? & ?). rewrite join_split_rows in *. cbn in Hlen.
  split_and!; [done|lia|done].
Qed.

(** The extractor in closed form: it never throws on a valid range. *)
Lemma extract_Ok :
  extract range =
  Ok (imap (fun i => line_range range (bool_decide (i = 0%nat))) <$>
        comment_rows range).
Proof.
  unfold extract. destruct (comment_rows range) as [rs|] eqn:Hrs; [|done].
  destruct Hwf as (? & ? & ?).
  by rewrite (lines_of_Ok range (TextRange.pos range + 3)
                (TextRange.end_ range - 2) true rs)
    by (lia || by apply comment_rows_in_buffer).
Qed.

Lemma place_lines_ordered pos (f : nat -> bool) (rows : list (list ascii)) :
  ordered pos (imap (fun i => line_range range (f i)) (place pos rows)).
Proof.
  revert pos f. induction rows as [|row rows IH]; intros pos f; [done|].
  cbn. split; [lia|]. apply (IH _ (f ∘ S)).
Qed.

Lemma extract_lines lines :
  extract range = Ok (Some lines) ->
  Forall (line_of_comment range) lines /\
  ordered (TextRange.pos range + 3) lines.
Proof.
  rewrite extract_Ok. destruct (comment_rows range) as [rs|] eqn:Hrs; [|done].
  intros [= <-]. pose proof (comment_rows_in_buffer _ Hrs) as Hin.
  destruct (comment_rows_Some _ Hrs) as (body & rest & _ & _ & Hplace).
  split; [|rewrite Hplace; apply place_lines_ordered].
  assert (Forall (fun r => LF ∉ r.2) rs) as Hlf.
  { apply (Forall_fmap snd (fun row => LF ∉ row)).
    rewrite Hplace, place_snd. apply split_rows_no_LF. }
  apply Forall_forall. intros l (i & r & -> & Hr)%elem_of_lookup_imap.
  pose proof (Forall_lookup_1 _ _ _ _ Hin Hr) as Hrow.
  pose proof (Forall_lookup_1 _ _ _ _ Hlf Hr) as Hno. cbn in Hno.
  destruct Hwf as (? & ? & ?), Hrow as (? & ? & ?).
  pose proof (decoration_length (bool_decide (i = 0%nat)) r.2).
  split_and!; [by eapply line_range_wf; [| |done]; lia|done|cbn; lia..|].
  rewrite (line_range_text range (TextRange.pos range + 3) (TextRange.end_ range - 2))
    by (done || lia).
  intros Hd. apply Hno. by eapply subseteq_drop.
Qed.

End extract.

(** ** Correctness *)

Section correctness.
Implicit Types (range : TextRange.t) (lines : list TextRange.t).

Lemma extract_lines_valid_wf range :
  TextRange.wf range ->
  exists o, extract range = Ok o /\
    forall lines, o = Some lines ->
      Forall (line_of_comment range) lines /\
      ordered (TextRange.pos range + 3) lines.
Proof.
  intros Hwf. rewrite (extract_Ok range Hwf). eexists. split; [done|].
  intros lines Hl. apply (extract_lines range Hwf). by rewrite extract_Ok, Hl.
Qed.

Lemma extract_texts_wf range :
  TextRange.wf range ->
  res_map texts_of (extract range) =
  Ok (line_texts (chars (TextRange.toString range))).
Proof.
  intros Hwf. rewrite (extract_Ok range Hwf). cbn [res_map]. f_equal.
  unfold texts_of.
  destruct (comment_rows range) as [rs|] eqn:Hrs;
    [|by rewrite comment_rows_None].
  pose proof (comment_rows_in_buffer range Hwf _ Hrs) as Hin.
  destruct (comment_rows_Some range _ Hrs) as (body & rest & _ & -> & Hplace).
  cbn [fmap option_fmap option_map]. f_equal. rewrite fmap_imap, <- (place_snd (TextRange.pos range + 3)
    (split_rows body)), <- Hplace, imap_fmap.
  apply imap_ext. intros i r Hr. cbn. destruct Hwf as (? & ? & ?).
  eapply line_range_text; [| |by eapply (Forall_lookup_1 _ _ _ _ Hin)]; lia.
Qed.

(** C19: on a valid range the extractor never throws, although it makes
    every line with the validating constructor; and the lines of a
    comment are valid ranges of the buffer of the comment, between its
    delimiters, in the order of the rows and apart from each other, and
    hold no line feed. *)
Theorem extract_lines_valid range :
  TextRange.wf range ->
  exists o, extract range = Ok o /\
    forall lines, o = Some lines ->
      Forall (line_of_comment range) lines /\
      ordered (TextRange.pos range + 3) lines.
Proof. apply extract_lines_valid_wf. Qed.

(** C35: the texts of the lines that the extractor returns as ranges of
    the buffer are the rows of the text of the comment without their
    decoration, as [line_texts] defines them from the text alone; and a
    range has no lines exactly when its text is no comment. *)
Theorem extract_line_texts range :
  TextRange.wf range ->
  res_map texts_of (extract range) =
  Ok (line_texts (chars (TextRange.toString range))).
Proof. apply extract_texts_wf. Qed.


End correctness.

(** ** Examples *)

Section examples.

(** The comment of the scenario of the specification. *)
Definition scenario : string :=
  "/** Summary." +:+ String LF
  (" * @param x - the value" +:+ String LF
  (" * @returns the result" +:+ String LF " */")).

Definition scenario_range : TextRange.t :=
  TextRange.Build scenario 0 (Js.length scenario).

Lemma scenario_range_wf : TextRange.wf scenario_range.
Proof. by apply TextRange.wfb_spec. Qed.

Lemma extract_lines_valid_witness :
  exists o, extract scenario_range = Ok o /\
    forall lines, o = Some lines ->
      Forall (line_of_comment scenario_range) lines /\
      ordered (TextRange.pos scenario_range + 3) lines.
Proof. exact (extract_lines_valid scenario_range scenario_range_wf). Defined.

Lemma extract_line_texts_witness :
  res_map texts_of (extract scenario_range) =
  Ok (line_texts (chars (TextRange.toString scenario_range))).
Proof. exact (extract_line_texts scenario_range scenario_range_wf). Defined.

(** The lines of the scenario, as offsets and as texts. *)
Example example_extract :
  extract scenario_range =
    Ok (Some [TextRange.Build scenario 4 12; TextRange.Build scenario 16 36;
              TextRange.Build scenario 40 59; TextRange.Build scenario 61 61]) /\
  res_map (fun o : option (list TextRange.t) =>
             (fun lines : list TextRange.t => TextRange.toString <$> lines) <$> o)
    (extract scenario_range) =
    Ok (Some ["Summary."; "@param x - the value"; "@returns the result"; ""]).
Proof. by vm_compute. Qed.

(** A text without the closing has no lines; a row without [*] loses
    its indentation, a row with it one space more. *)
Example example_rows :
  extract (TextRange.Build "/** a" 0 5) = Ok None /\
  line_texts (chars ("/**" +:+ String LF ("   b" +:+ String LF "  *  c*/"))) =
    Some [[]; chars "b"; chars " c"].
Proof. by vm_compute. Qed.

End examples.

End LineExtractor.
