(* ===== verification/Excerpt.v ===== *)
(** * Node kinds, excerpts and token sequences

    What the node classes under [src/] use of classes that are not part of
    the sources, stated from the specification:

    - [DocNodeKind], the closed set of node kinds, here the kinds that the
      sources name;
    - [ExcerptKind], the role of an excerpt, here the roles that the
      sources name;
    - [TokenSequence], the slice of source text behind a parsed node, as an
      interface: the nodes only ask a token sequence for its text. A
      [TextRange] is an instance;
    - [DocExcerpt], a role and a token sequence, built by the nodes'
      constructors with the configuration of the node.

    A constructor's parameter object is either parsed or constructed
    ([DocNode.isParsedParameters]); [Params] is that tagged union. *)

From Stdlib Require Import ZArith String.
From stdpp Require Import base tactics option list strings.
From S2P Require Import Prelude JsString Range.

(** The kinds of node that the sources name. *)
Inductive DocNodeKind : Type :=
| CodeSpan
| DeclarationReference
| ErrorText
| EscapedText
| Excerpt
| FencedCode
| InlineTag
| LinkTag
| MemberSymbol
| Paragraph
| ParamCollection
| PlainText
| SoftBreak.

#[export] Instance DocNodeKind_eq_dec : EqDecision DocNodeKind.
Proof. solve_decision. Defined.

(** The roles of excerpt that the sources name. *)
Inductive ExcerptKind : Type :=
| Spacing
| ExcerptPlainText
| InlineTag_TagContent
| DocMemberSymbol_LeftBracket
| DocMemberSymbol_RightBracket.

#[export] Instance ExcerptKind_eq_dec : EqDecision ExcerptKind.
Proof. solve_decision. Defined.

(** A token sequence gives the text it covers. *)
Class TokenSequence (T : Type) : Type := { toString : T -> string }.

(** A range of a buffer is a token sequence. *)
#[export] Instance TextRange_TokenSequence : TokenSequence TextRange.t :=
  {| toString := TextRange.toString |}.

(** A literal text is a token sequence: the one that covers it. *)
#[export] Instance string_TokenSequence : TokenSequence string :=
  {| toString := id |}.

(** The parameter object of a constructor: built by the parser
    ([parsed: true]) or by a caller. *)
Inductive Params (C P : Type) : Type :=
| Constructed (parameters : C)
| Parsed (parameters : P).
Arguments Constructed {C P} parameters.
Arguments Parsed {C P} parameters.

Definition isParsedParameters {C P} (parameters : Params C P) : bool :=
  match parameters with
  | Parsed _ => true
  | Constructed _ => false
  end.

Module DocExcerpt.

Section model.
Context {Cfg T : Type}.

(** An excerpt: the configuration of its node, its role, its content. *)
Record t : Type :=
  Build { configuration : Cfg; excerptKind : ExcerptKind; content : T }.

Definition new (configuration : Cfg) (excerptKind : ExcerptKind) (content : T) : t :=
  Build configuration excerptKind content.

Definition kind (this : t) : DocNodeKind := Excerpt.

(** The text an excerpt covers. *)
Definition text `{TokenSequence T} (this : t) : string := toString (content this).

End model.

Arguments t Cfg T : clear implicits.

End DocExcerpt.
