(* ===== verification/Configuration.v ===== *)
(** * The configuration and the tag registry

    The specification names a configuration, whose code is not part of
    the sources: a registry that maps the name of a tag to its definition
    (a name, the syntax of the tag: block, inline or modifier, and whether
    it may occur more than once), with a standard set of definitions and
    the definitions that a host registers, and a strictness that says what
    an unknown tag is. [Module TSDocConfiguration] models it from the
    specification; the view of the sources reads one thing of it,
    [StandardTags.example.tagNameWithUpperCase].

    A name is normalized by its upper case: that is the form the view
    compares ([tagNameWithUpperCase]). The registry is the list of the
    definitions in the order of their registration; a lookup is a search
    by normalized name. Where the specification is silent the model takes
    the stricter course: registering a name that is taken, in any case of
    its letters, is an error of the caller and throws. The standard set
    holds the tags that the specification names, and the release tags as
    its modifiers.

    The theorems: normalization is idempotent, so a lookup does not depend
    on the case of the name; in every registry that can be built the
    normalized names are unique, every registered definition is found
    under its name, and a lookup returns a registered definition of that
    name; a registration throws exactly when the name is taken, and
    otherwise changes the lookup of that name only. *)

From Stdlib Require Import ZArith NArith String Ascii Lia.
From stdpp Require Import base tactics option list strings.
From S2P Require Import Prelude JsString.

(** ** Tag definitions *)

(** The syntax of a tag. *)
Inductive TSDocTagSyntaxKind : Type :=
| InlineTag
| BlockTag
| ModifierTag.

#[export] Instance TSDocTagSyntaxKind_eq_dec : EqDecision TSDocTagSyntaxKind.
Proof. solve_decision. Defined.

(** The upper case of a character and of a string. *)
#[warnings="-notation-for-abbreviation"]
Notation upper_char c :=
  (let n := N_of_ascii c in
   if ((97 <=? n) && (n <=? 122))%N then ascii_of_N (n - 32) else c%char)
  (only parsing).

Fixpoint toUpperCase (s : string) : string :=
  match s with
  | EmptyString => EmptyString
  | String c s => String (upper_char c) (toUpperCase s)
  end.

(** A tag definition, and its normalized name. *)
Module TSDocTagDefinition.

Record t : Type :=
  { tagName : string;
    syntaxKind : TSDocTagSyntaxKind;
    allowMultiple : bool }.

#[export] Instance t_eq_dec : EqDecision t.
Proof. solve_decision. Defined.

Definition tagNameWithUpperCase (this : t) : string := toUpperCase (tagName this).

End TSDocTagDefinition.

(** ** The standard tags *)

Module StandardTags.
Import TSDocTagDefinition.

Definition param : TSDocTagDefinition.t :=
  {| tagName := "@param"; syntaxKind := BlockTag; allowMultiple := true |}.

Definition returns : TSDocTagDefinition.t :=
  {| tagName := "@returns"; syntaxKind := BlockTag; allowMultiple := false |}.

Definition remarks : TSDocTagDefinition.t :=
  {| tagName := "@remarks"; syntaxKind := BlockTag; allowMultiple := false |}.

Definition example : TSDocTagDefinition.t :=
  {| tagName := "@example"; syntaxKind := BlockTag; allowMultiple := true |}.

Definition see : TSDocTagDefinition.t :=
  {| tagName := "@see"; syntaxKind := BlockTag; allowMultiple := true |}.

Definition link : TSDocTagDefinition.t :=
  {| tagName := "@link"; syntaxKind := InlineTag; allowMultiple := true |}.

Definition inheritDoc : TSDocTagDefinition.t :=
  {| tagName := "@inheritDoc"; syntaxKind := InlineTag; allowMultiple := false |}.

(** The standard set: the tags above, and the release tags as its
    modifiers. *)
Definition allDefinitions : list TSDocTagDefinition.t :=
  [param; returns; remarks; example; see; link; inheritDoc] ++
  ((fun name => {| tagName := name; syntaxKind := ModifierTag;
                   allowMultiple := false |}) <$>
   ["@alpha"; "@beta"; "@public"; "@internal"]).

End StandardTags.

(** ** The registry *)

Module TSDocConfiguration.
Import TSDocTagDefinition(tagName, syntaxKind, allowMultiple, tagNameWithUpperCase).

(** The configuration: the definitions in the order of their
    registration, and whether an unknown tag is reported. *)
Record t : Type :=
  Build { tagDefinitions : list TSDocTagDefinition.t; strict : bool }.

(** The configuration with the standard tags. *)
Definition new (strict : bool) : t := Build StandardTags.allDefinitions strict.

(** The definition of a name, by its normalized form. *)
Definition tryGetTagDefinition (name : string) (this : t) :
    option TSDocTagDefinition.t :=
  snd <$> list_find (fun d => tagNameWithUpperCase d = toUpperCase name)
            (tagDefinitions this).

(** The registration of a definition by the host; [taken_error] is the
    text of its error. *)
#[warnings="-notation-for-abbreviation"]
Notation taken_error name :=
  ("A tag is already defined using the name " +:+ name) (only parsing).

Definition addTagDefinition (d : TSDocTagDefinition.t) (this : t) :
    result string t :=
  match tryGetTagDefinition (tagName d) this with
  | Some _ => Err (taken_error (tagName d))
  | None => Ok (Build (tagDefinitions this ++ [d]) (strict this))
  end.

(** ** Specification *)

(** The invariant: no two definitions share a normalized name. *)
Definition wf (this : t) : Prop :=
  NoDup (tagNameWithUpperCase <$> tagDefinitions this).

(** The registries that can be built. *)
Inductive reachable : t -> Prop :=
| reachable_new strict : reachable (new strict)
| reachable_add d this this' :
    reachable this -> addTagDefinition d this = Ok this' -> reachable this'.

(** ** Normalization *)

Section normalization.
Implicit Types (c : ascii) (s name : string).

Lemma upper_char_idem c : upper_char (upper_char c) = upper_char c.
Proof. by destruct c as [[] [] [] [] [] [] [] []]. Qed.

Lemma toUpperCase_idem s : toUpperCase (toUpperCase s) = toUpperCase s.
Proof. induction s as [|c s IH]; cbn; [done|]. by rewrite upper_char_idem, IH. Qed.

Lemma toUpperCase_length s : String.length (toUpperCase s) = String.length s.
Proof. induction s as [|c s IH]; cbn; [done|]. by rewrite IH. Qed.

End normalization.

(** ** Lookup and registration *)

Section registry.
Implicit Types (this : t) (d : TSDocTagDefinition.t) (name : string).

Lemma tryGetTagDefinition_Some name this d :
  tryGetTagDefinition name this = Some d ->
  d ∈ tagDefinitions this /\ tagNameWithUpperCase d = toUpperCase name.
Proof.
  unfold tryGetTagDefinition.
  destruct (list_find _ _) as [[i d']|] eqn:Hf; [|done]. intros [= <-].
  apply list_find_Some in Hf as (Hi & Hd & _). split; [|done].
  by eapply list_elem_of_lookup_2.
Qed.

Lemma tryGetTagDefinition_None name this :
  tryGetTagDefinition name this = None <->
  toUpperCase name ∉ tagNameWithUpperCase <$> tagDefinitions this.
Proof.
  unfold tryGetTagDefinition. rewrite fmap_None, list_find_None, list_elem_of_fmap.
  rewrite Forall_forall. naive_solver.
Qed.

(** The lookup does not depend on the case of the name. *)
Lemma tryGetTagDefinition_upper name this :
  tryGetTagDefinition (toUpperCase name) this = tryGetTagDefinition name this.
Proof. unfold tryGetTagDefinition. by rewrite toUpperCase_idem. Qed.

(** With unique names, a registered definition is found under a name
    that normalizes to its own. *)
Lemma tryGetTagDefinition_registered name this d :
  wf this -> d ∈ tagDefinitions this ->
  tagNameWithUpperCase d = toUpperCase name ->
  tryGetTagDefinition name this = Some d.
Proof.
  intros Hwf Hd Hname.
  destruct (tryGetTagDefinition name this) as [d'|] eqn:Hget.
  - apply tryGetTagDefinition_Some in Hget as [Hd' Hname'].
    apply list_elem_of_lookup in Hd as [i Hi], Hd' as [j Hj].
    assert (i = j) as ->; [|congruence].
    eapply (NoDup_lookup _ i j); [exact Hwf|rewrite list_lookup_fmap..];
      [by rewrite Hi|rewrite Hj; cbn; congruence].
  - apply tryGetTagDefinition_None in Hget. destruct Hget.
    apply list_elem_of_fmap. by exists d.
Qed.

Lemma addTagDefinition_Ok d this this' :
  addTagDefinition d this = Ok this' <->
  tryGetTagDefinition (tagName d) this = None /\
  this' = Build (tagDefinitions this ++ [d]) (strict this).
Proof. unfold addTagDefinition. case_match; naive_solver. Qed.

Lemma addTagDefinition_Err d this e :
  addTagDefinition d this = Err e <->
  is_Some (tryGetTagDefinition (tagName d) this) /\
  e = taken_error (tagName d).
Proof.
  unfold addTagDefinition. case_match; naive_solver.
Qed.

Lemma configuration_new_wf strict : wf (new strict).
Proof. unfold wf. apply (bool_decide_unpack _). by vm_compute. Qed.

Lemma addTagDefinition_wf d this this' :
  wf this -> addTagDefinition d this = Ok this' -> wf this'.
Proof.
  intros Hwf [Hnone ->]%addTagDefinition_Ok. unfold wf. cbn.
  rewrite fmap_app. apply NoDup_app. split_and!; [done| |by apply NoDup_singleton].
  intros n Hn ->%list_elem_of_singleton.
  by apply tryGetTagDefinition_None in Hnone.
Qed.

Lemma reachable_wf this : reachable this -> wf this.
Proof. induction 1; [apply configuration_new_wf|by eapply addTagDefinition_wf]. Qed.

(** A registration keeps what was registered and the strictness. *)
Lemma addTagDefinition_lookup d this this' name :
  addTagDefinition d this = Ok this' ->
  strict this' = strict this /\
  tryGetTagDefinition name this' =
  if decide (tagNameWithUpperCase d = toUpperCase name) then Some d
  else tryGetTagDefinition name this.
Proof.
  intros [Hnone ->]%addTagDefinition_Ok. split; [done|].
  unfold tryGetTagDefinition in *. cbn [tagDefinitions].
  apply fmap_None in Hnone.
  destruct (list_find (fun d0 => tagNameWithUpperCase d0 = toUpperCase name)
              (tagDefinitions this)) as [[i d']|] eqn:Hf.
  - rewrite (list_find_app_l _ _ _ _ _ Hf). cbn. case_decide as Hname; [|done].
    apply list_find_Some in Hf as (Hi & Hd' & _). apply list_find_None in Hnone.
    destruct (Forall_lookup_1 _ _ _ _ Hnone Hi).
    unfold tagNameWithUpperCase in *. congruence.
  - rewrite (list_find_app_r _ _ _ Hf). cbn. by case_decide.
Qed.

End registry.

(** ** Correctness *)

Section correctness.
Implicit Types (this : t) (d : TSDocTagDefinition.t) (name : string).

(** In a registry that can be built, a lookup finds a definition exactly
    when one is registered under the name in some case of its letters,
    and that definition is the only one of that name. *)
Theorem tryGetTagDefinition_spec this name d :
  reachable this ->
  tryGetTagDefinition name this = Some d <->
  d ∈ tagDefinitions this /\ tagNameWithUpperCase d = toUpperCase name.
Proof.
  intros Hwf%reachable_wf. split; [apply tryGetTagDefinition_Some|].
  intros [Hd Hname]. by apply tryGetTagDefinition_registered.
Qed.

(** A registration throws exactly when the name is taken in some case
    of its letters; otherwise the definition is found under its name, and
    nothing else changes. *)
Theorem addTagDefinition_spec this d :
  match addTagDefinition d this with
  | Ok this' =>
      tryGetTagDefinition (tagName d) this = None /\
      strict this' = strict this /\
      forall name,
        tryGetTagDefinition name this' =
        if decide (tagNameWithUpperCase d = toUpperCase name) then Some d
        else tryGetTagDefinition name this
  | Err e =>
      is_Some (tryGetTagDefinition (tagName d) this) /\
      e = taken_error (tagName d)
  end.
Proof.
  destruct (addTagDefinition d this) as [this'|e] eqn:Hadd.
  - split; [by apply addTagDefinition_Ok in Hadd as [? _]|].
    split; [by eapply (addTagDefinition_lookup _ _ _ ""%string)|].
    intros name. by eapply addTagDefinition_lookup.
  - by apply addTagDefinition_Err.
Qed.

End correctness.

(** ** Examples *)

Section examples.

(** A custom block tag of a host. *)
Definition customTag : TSDocTagDefinition.t :=
  {| tagName := "@privateRemarks"; syntaxKind := BlockTag; allowMultiple := false |}.

Example example_lookup :
  tryGetTagDefinition "@Returns" (new false) = Some StandardTags.returns /\
  tryGetTagDefinition "@privateRemarks" (new false) = None /\
  res_map (tryGetTagDefinition "@PRIVATEREMARKS")
    (addTagDefinition customTag (new false)) =
    Ok (Some customTag) /\
  addTagDefinition
    {| tagName := "@PARAM"; syntaxKind := ModifierTag; allowMultiple := false |}
    (new true) = Err (taken_error "@PARAM").
Proof. by vm_compute. Qed.

End examples.

End TSDocConfiguration.
