(* ===== verification/ParamCollection.v ===== *)
(** * DocParamCollection

    [Module DocParamCollection] models the class [DocParamCollection] of
    [src/tsdoc/src/nodes/DocParamCollection.ts]: the array [_blocks], the
    [Map] [_blocksByName] that is [undefined] until the first [add] and
    again after [clear], and the operations [add], [clear],
    [tryGetBlockByName], [count], [blocks], [kind], the iterator and
    [onGetChildNodes]. The constructor takes the interface
    [IDocParamCollectionParameters], the parameters of a node, which hold
    the configuration.

    The class [DocParamBlock] is not part of the sources. The collection
    reads one thing of a block, its [parameterName]; that is the interface
    [ParamBlock], and the collection is modelled for any type of blocks
    that provides it, so a block may carry whatever makes two blocks of the
    same name differ. [DocParamBlock] is the instance used in examples and
    by the renderer.

    The collection is a state machine over the operations [Add] and
    [Clear]. Its abstract specification is the list of blocks added since
    the last [Clear], searched from the front ([first_by_name]). The
    theorems: the invariant [wf] (the map is allocated exactly when a block
    was added, and holds for every name the first block of that name)
    holds in every reachable state; [tryGetBlockByName] refines the linear
    search; the first block added under a name wins; [blocks] keeps the
    order of insertion and [count] the number of insertions. *)

From Stdlib Require Import ZArith Lia String.
From stdpp Require Import base tactics option list strings gmap.
From S2P Require Import Prelude JsString Range Excerpt.

(** ** The interface of a parameter block *)

Class ParamBlock (B : Type) : Type := { parameterName : B -> string }.

(** A parameter block with a name and a content: a text in the examples
    of this file, the nodes of a section where blocks are rendered. *)
Record DocParamBlock (Content : Type) : Type :=
  { blockParameterName : string; blockContent : Content }.
Arguments blockParameterName {Content} _.
Arguments blockContent {Content} _.

#[export] Instance DocParamBlock_eq_dec {Content} `{EqDecision Content} :
  EqDecision (DocParamBlock Content).
Proof. solve_decision. Defined.

#[export] Instance DocParamBlock_ParamBlock {Content} :
  ParamBlock (DocParamBlock Content) :=
  {| parameterName := blockParameterName |}.

Module DocParamCollection.

(** [IDocParamCollectionParameters]: the parameters of a [DocNode], its
    configuration, and nothing of its own. *)
Record IDocParamCollectionParameters (Cfg : Type) : Type :=
  { c_configuration : Cfg }.
Arguments c_configuration {Cfg} _.

Section model.
Context {B : Type} `{ParamBlock B}.

(** ** State *)

(** The two private fields. [_blocksByName = None] is [undefined]. *)
Record t : Type :=
  Build { _blocks : list B; _blocksByName : option (gmap string B) }.

(** The constructor hands its parameters to the constructor of
    [DocNode], which is not part of the sources; the fields of the
    collection itself are an empty array and no map. *)
Definition new {Cfg : Type} (parameters : IDocParamCollectionParameters Cfg) : t :=
  Build [] None.

(** ** Operations *)

(** The iterator of the collection is the iterator of [_blocks]. *)
(** The getter [kind]. *)
Definition kind (this : t) : DocNodeKind := ParamCollection.

Definition iterator (this : t) : list B := _blocks this.

Definition blocks (this : t) : list B := _blocks this.

Definition count (this : t) : Z := Z.of_nat (length (_blocks this)).

(** [add]: push the block, allocate the map if there is none, and record
    the block under its name unless the name is taken. *)
Definition add (docParamBlock : B) (this : t) : t :=
  let blocks' := _blocks this ++ [docParamBlock] in
  let blocksByName :=
    match _blocksByName this with
    | None => ∅
    | Some m => m
    end in
  let blocksByName' :=
    if bool_decide (is_Some (blocksByName !! parameterName docParamBlock))
    then blocksByName
    else <[parameterName docParamBlock := docParamBlock]> blocksByName in
  Build blocks' (Some blocksByName').

(** [clear]: empty the array and forget the map. *)
Definition clear (this : t) : t := Build [] None.

Definition tryGetBlockByName (parameterName : string) (this : t) : option B :=
  match _blocksByName this with
  | Some m => m !! parameterName
  | None => None
  end.

(** The children of the node are its blocks, none of them absent. *)
Definition onGetChildNodes (this : t) : list (option B) := Some <$> _blocks this.

(** ** The state machine *)

Inductive op : Type :=
| Add (docParamBlock : B)
| Clear.

Definition step (this : t) (o : op) : t :=
  match o with
  | Add b => add b this
  | Clear => clear this
  end.

Definition run (ops : list op) (this : t) : t := fold_left step ops this.

(** The states a collection can be in. *)
Inductive reachable : t -> Prop :=
| reachable_new Cfg (parameters : IDocParamCollectionParameters Cfg) :
    reachable (new parameters)
| reachable_step this o : reachable this -> reachable (step this o).

(** ** Abstract specification *)

(** The first block of a list with a given name, by a search from the
    front. *)
Fixpoint first_by_name (name : string) (l : list B) : option B :=
  match l with
  | [] => None
  | b :: l' =>
      if decide (parameterName b = name) then Some b else first_by_name name l'
  end.

(** The abstract machine: the list of blocks added since the last clear. *)
Definition abs_step (l : list B) (o : op) : list B :=
  match o with
  | Add b => l ++ [b]
  | Clear => []
  end.

Definition abs_run (ops : list op) (l : list B) : list B :=
  fold_left abs_step ops l.

(** The invariant: the map is allocated exactly when the array is not
    empty, and it maps every name to the first block of that name. *)
Definition wf (this : t) : Prop :=
  match _blocksByName this with
  | None => _blocks this = []
  | Some m => _blocks this <> [] /\
              forall name, m !! name = first_by_name name (_blocks this)
  end.

(** ** The linear search *)

Section first_by_name.
Implicit Types (l : list B) (b : B) (name : string).

Lemma first_by_name_list_find name l :
  first_by_name name l = snd <$> list_find (λ b, parameterName b = name) l.
Proof.
  induction l as [|b l IH]; [done|]. cbn. case_decide; [done|].
  rewrite IH. by destruct (list_find _ l) as [[? ?]|].
Qed.

Lemma first_by_name_app name l1 l2 :
  first_by_name name (l1 ++ l2) =
  match first_by_name name l1 with
  | Some b => Some b
  | None => first_by_name name l2
  end.
Proof. induction l1 as [|b l1 IH]; [done|]. cbn. by case_decide. Qed.

Lemma first_by_name_snoc name l b :
  first_by_name name (l ++ [b]) =
  match first_by_name name l with
  | Some b0 => Some b0
  | None => if decide (parameterName b = name) then Some b else None
  end.
Proof. by rewrite first_by_name_app. Qed.

Lemma first_by_name_Some name l b :
  first_by_name name l = Some b <->
  exists i, l !! i = Some b /\ parameterName b = name /\
    forall j b', l !! j = Some b' -> (j < i)%nat -> parameterName b' <> name.
Proof.
  rewrite first_by_name_list_find, fmap_Some. split.
  - intros ([i b'] & Hf%list_find_Some & ->). naive_solver.
  - intros (i & Hi). exists (i, b). by rewrite list_find_Some.
Qed.

Lemma first_by_name_None name l :
  first_by_name name l = None <-> name ∉ parameterName <$> l.
Proof.
  rewrite first_by_name_list_find, fmap_None, list_find_None.
  rewrite Forall_forall, list_elem_of_fmap. naive_solver.
Qed.

Lemma first_by_name_name name l b :
  first_by_name name l = Some b -> parameterName b = name /\ b ∈ l.
Proof.
  intros (i & Hi & Hn & _)%first_by_name_Some. split; [done|].
  by eapply list_elem_of_lookup_2.
Qed.

End first_by_name.

(** ** The operations *)

Section operations.
Context {Cfg : Type} (parameters : IDocParamCollectionParameters Cfg).
Implicit Types (this : t) (b : B) (name : string) (ops : list op) (o : op).

Lemma blocks_add b this : blocks (add b this) = blocks this ++ [b].
Proof. done. Qed.

Lemma blocks_step this o : blocks (step this o) = abs_step (blocks this) o.
Proof. by destruct o. Qed.

Lemma run_snoc ops o this : run (ops ++ [o]) this = step (run ops this) o.
Proof. unfold run. by rewrite fold_left_app. Qed.

Lemma abs_run_snoc ops o l : abs_run (ops ++ [o]) l = abs_step (abs_run ops l) o.
Proof. unfold abs_run. by rewrite fold_left_app. Qed.

Lemma reachable_run ops : reachable (run ops (new parameters)).
Proof.
  induction ops as [|o ops IH] using rev_ind; [constructor|].
  rewrite run_snoc. by constructor.
Qed.

Lemma blocks_run ops : blocks (run ops (new parameters)) = abs_run ops [].
Proof.
  induction ops as [|o ops IH] using rev_ind; [done|].
  by rewrite run_snoc, abs_run_snoc, blocks_step, IH.
Qed.

Lemma reachable_inv this :
  reachable this -> exists ops, this = run ops (new parameters).
Proof.
  induction 1 as [|this o _ [ops ->]]; [by exists []|].
  exists (ops ++ [o]). by rewrite run_snoc.
Qed.

(** What [add] does to a lookup, in any state: a name that is taken keeps
    its block, the name of the new block gets it otherwise. *)
Lemma tryGetBlockByName_add name b this :
  tryGetBlockByName name (add b this) =
  match tryGetBlockByName name this with
  | Some b0 => Some b0
  | None => if decide (parameterName b = name) then Some b else None
  end.
Proof.
  unfold tryGetBlockByName, add. cbn.
  set (m := match _blocksByName this with None => ∅ | Some m => m end).
  assert (Hm : match _blocksByName this with Some m => m !! name | None => None end
               = m !! name) by (subst m; by destruct (_blocksByName this)).
  rewrite Hm. clear Hm. case_bool_decide as Hin.
  - destruct (m !! name) eqn:Hn; [done|]. case_decide as Hname; [|done].
    rewrite Hname, Hn in Hin. by destruct Hin.
  - apply eq_None_not_Some in Hin. case_decide as Hname.
    + subst name. by rewrite lookup_insert_eq, Hin.
    + rewrite lookup_insert_ne by done. by destruct (m !! name).
Qed.

Lemma wf_new : wf (new parameters).
Proof. done. Qed.

Lemma wf_clear this : wf (clear this).
Proof. done. Qed.

Lemma lookup_wf name this :
  wf this -> tryGetBlockByName name this = first_by_name name (blocks this).
Proof.
  unfold wf, tryGetBlockByName, blocks.
  destruct (_blocksByName this) as [m|]; [naive_solver|by intros ->].
Qed.

Lemma wf_add b this : wf this -> wf (add b this).
Proof.
  intros Hwf. split; [by intros [? ?]%app_eq_nil|]. intros name.
  change (tryGetBlockByName name (add b this) =
          first_by_name name (blocks this ++ [b])).
  by rewrite tryGetBlockByName_add, first_by_name_snoc, lookup_wf.
Qed.

Lemma wf_step this o : wf this -> wf (step this o).
Proof. destruct o; [apply wf_add | intros _; apply wf_clear]. Qed.

Lemma wf_reachable this : reachable this -> wf this.
Proof. induction 1; [done | by apply wf_step]. Qed.

End operations.

(** ** Correctness *)

Section correctness.
Context {Cfg : Type} (parameters : IDocParamCollectionParameters Cfg).
Implicit Types (this : t) (b : B) (name : string) (ops : list op) (o : op).

(** C5: in every state that [add] and [clear] can reach from a new
    collection, the map is allocated exactly when the array is not empty
    and maps each name to the first block of that name in the array. *)
Theorem reachable_invariant this :
  reachable this ->
  wf this /\ (_blocksByName this = None <-> blocks this = []).
Proof.
  intros Hwf%wf_reachable. split; [done|]. unfold wf, blocks in *.
  destruct (_blocksByName this); naive_solver.
Qed.

(** C1: the collection implements its abstract specification: after any
    sequence of [add] and [clear], [blocks] is the list of the blocks added
    since the last [clear], in the order of insertion, and
    [tryGetBlockByName] is the search of that list from the front. *)
Theorem run_refines ops :
  blocks (run ops (new parameters)) = abs_run ops [] /\
  forall name,
    tryGetBlockByName name (run ops (new parameters)) =
      first_by_name name (abs_run ops []).
Proof.
  split; [apply blocks_run|]. intros name. rewrite <- (blocks_run parameters).
  apply lookup_wf, wf_reachable, reachable_run.
Qed.

(** [tryGetBlockByName] returns a block exactly when it is the first
    block of its name in [blocks]: it is there at some index, it has the
    name, and no block before it has. *)
Theorem tryGetBlockByName_first name this b :
  reachable this ->
  (tryGetBlockByName name this = Some b <->
   exists i, blocks this !! i = Some b /\ parameterName b = name /\
     forall j b', blocks this !! j = Some b' -> (j < i)%nat ->
                  parameterName b' <> name).
Proof.
  intros Hwf%wf_reachable. rewrite lookup_wf by done.
  apply first_by_name_Some.
Qed.

(** [tryGetBlockByName] returns [undefined] exactly for the names that
    no block of the collection has. *)
Theorem tryGetBlockByName_None name this :
  reachable this ->
  (tryGetBlockByName name this = None <-> name ∉ parameterName <$> blocks this).
Proof.
  intros Hwf%wf_reachable. rewrite lookup_wf by done.
  apply first_by_name_None.
Qed.

(** C12: the first block added under a name takes precedence: after
    [add], the name of the added block maps to the block it mapped to
    before, or to the added block when it mapped to none, and every other
    name maps as before. *)
Theorem add_first_wins name b this :
  tryGetBlockByName name (add b this) =
  if decide (parameterName b = name)
  then Some (default b (tryGetBlockByName name this))
  else tryGetBlockByName name this.
Proof.
  rewrite tryGetBlockByName_add.
  by destruct (tryGetBlockByName name this); case_decide.
Qed.

(** [clear] forgets the blocks and their names: every lookup then
    fails, the count is zero, and a block added next is found under its
    name whatever was stored under that name before. *)
Theorem clear_resets name b this :
  tryGetBlockByName name (clear this) = None /\
  count (clear this) = 0%Z /\
  tryGetBlockByName (parameterName b) (add b (clear this)) = Some b.
Proof.
  split_and!; [done..|]. by rewrite tryGetBlockByName_add, decide_True.
Qed.

(** A collection filled by [add] alone iterates its blocks in the
    order of insertion and counts them. *)
Theorem blocks_insertion_order (bs : list B) :
  blocks (run (Add <$> bs) (new parameters)) = bs /\
  iterator (run (Add <$> bs) (new parameters)) = bs /\
  count (run (Add <$> bs) (new parameters)) = Z.of_nat (length bs).
Proof.
  assert (Hb : blocks (run (Add <$> bs) (new parameters)) = bs).
  { induction bs as [|b bs IH] using rev_ind; [done|].
    rewrite fmap_app. change (Add <$> [b]) with [Add b].
    by rewrite run_snoc, blocks_step, IH. }
  split_and!; [done..|]. unfold count. by rewrite <- Hb at 2.
Qed.

(** The keys of the map are the names of the blocks. *)
Theorem blocksByName_dom this m :
  reachable this -> _blocksByName this = Some m ->
  dom m = list_to_set (parameterName <$> blocks this).
Proof.
  intros Hwf%wf_reachable Hm. unfold wf in Hwf. rewrite Hm in Hwf.
  destruct Hwf as [_ Hl]. apply set_eq. intros name.
  rewrite elem_of_dom, elem_of_list_to_set, Hl.
  rewrite <- not_eq_None_Some, first_by_name_None.
  destruct (decide (name ∈ parameterName <$> blocks this)); naive_solver.
Qed.

End correctness.

End model.

Arguments t B : clear implicits.
Arguments op B : clear implicits.

(** ** Examples *)

Section examples.

Definition x1 : DocParamBlock string :=
  {| blockParameterName := "x"; blockContent := "the first x" |}.
Definition y1 : DocParamBlock string :=
  {| blockParameterName := "y"; blockContent := "the y" |}.
Definition x2 : DocParamBlock string :=
  {| blockParameterName := "x"; blockContent := "the second x" |}.

(** The collection after adding blocks named x, y and x. *)
Definition xyx : t (DocParamBlock string) :=
  add x2 (add y1 (add x1 (new {| c_configuration := tt |}))).

Lemma xyx_reachable : reachable xyx.
Proof. apply (reachable_run {| c_configuration := tt |} [Add x1; Add y1; Add x2]). Qed.

(** After adding blocks named x, y and x, the lookup of x returns
    the first of the two, the count is 3 and the blocks are in the order
    of insertion. *)
Example xyx_scenario :
  tryGetBlockByName "x" xyx = Some x1 /\
  count xyx = 3%Z /\
  blocks xyx = [x1; y1; x2] /\
  tryGetBlockByName "y" xyx = Some y1 /\
  tryGetBlockByName "z" xyx = None.
Proof. by vm_compute. Qed.

Lemma reachable_invariant_witness :
  wf xyx /\ (_blocksByName xyx = None <-> blocks xyx = []).
Proof. exact (reachable_invariant xyx xyx_reachable). Defined.

Lemma tryGetBlockByName_first_witness :
  tryGetBlockByName "x" xyx = Some x1 <->
  exists i, blocks xyx !! i = Some x1 /\ parameterName x1 = "x" /\
    forall j b', blocks xyx !! j = Some b' -> (j < i)%nat ->
                 parameterName b' <> "x".
Proof. exact (tryGetBlockByName_first "x" xyx x1 xyx_reachable). Defined.

Lemma tryGetBlockByName_None_witness :
  tryGetBlockByName "z" xyx = None <-> "z" ∉ parameterName <$> blocks xyx.
Proof. exact (tryGetBlockByName_None "z" xyx xyx_reachable). Defined.

Lemma blocksByName_dom_witness :
  dom (<["y" := y1]> (<["x" := x1]> (∅ : gmap string (DocParamBlock string)))) =
  list_to_set (parameterName <$> blocks xyx).
Proof.
  apply (blocksByName_dom xyx); [exact xyx_reachable | by vm_compute].
Defined.

End examples.

End DocParamCollection.
