(* ===== verification/PlainText.v ===== *)
(** * DocPlainText

    [Module DocPlainText] models the class [DocPlainText] of
    [src/tsdoc/src/nodes/DocPlainText.ts]: a node that is built either from
    an excerpt (parsed) or from a literal text (constructed, and then
    refused when the text contains a line feed), with the getter [text]
    that computes the text of the excerpt on first use and stores it in
    [_text].

    The getter changes the object, so it is a function from the node to
    the text and the node after the call; [this._textExcerpt!] fails when
    there is no excerpt, so it returns a [result]. The abstract
    specification of a node is its text, [text_of]; the theorems show that
    the constructor makes a node whose text is what its parameters say,
    that the getter returns [text_of] and never fails on a node that the
    constructor made, that it does not change [text_of], the excerpt or
    the children, and that a second call returns the same text and leaves
    the node as it is. As a step relation ([read]) the getter makes
    progress: from a new node every sequence of reads reaches a node that
    stores the text, and every later read finds it there. *)

From Stdlib Require Import ZArith String Ascii.
From stdpp Require Import base tactics option list strings.
From S2P Require Import Prelude Temporal JsString Range Excerpt.

Module DocPlainText.

Section model.
Context {Cfg T : Type} `{TokenSequence T}.

(** ** Parameters and state *)

(** [IDocPlainTextParameters]: the configuration of [IDocNodeParameters]
    and the text. *)
Record IDocPlainTextParameters : Type :=
  { c_configuration : Cfg; c_text : string }.

(** [IDocPlainTextParsedParameters]: the configuration and the excerpt. *)
Record IDocPlainTextParsedParameters : Type :=
  { p_configuration : Cfg; p_textExcerpt : T }.

Definition Parameters : Type :=
  Params IDocPlainTextParameters IDocPlainTextParsedParameters.

(** The fields: the configuration kept by [DocNode], [_text] and
    [_textExcerpt], each [undefined] ([None]) or set. *)
Record t : Type :=
  Build { configuration : Cfg;
          _text : option string;
          _textExcerpt : option (DocExcerpt.t Cfg T) }.

(** ** Operations *)

Definition newline_error : string :=
  "The DocPlainText content must not contain newline characters".

(** The constructor. *)
Definition new (parameters : Parameters) : result string t :=
  match parameters with
  | Parsed p =>
      let cfg := p_configuration p in
      Ok (Build cfg None
            (Some (DocExcerpt.new cfg ExcerptPlainText (p_textExcerpt p))))
  | Constructed c =>
      if Js.test_newline (c_text c) then Err newline_error
      else Ok (Build (c_configuration c) (Some (c_text c)) None)
  end.

Definition kind (this : t) : DocNodeKind := PlainText.

Definition type_error : string :=
  "TypeError: Cannot read properties of undefined (reading 'content')".

(** The getter [text]: the stored text, or the text of the excerpt, which
    is then stored. The result is the text and the node after the call. *)
Definition text (this : t) : result string (string * t) :=
  match _text this with
  | Some v => Ok (v, this)
  | None =>
      match _textExcerpt this with
      | Some e =>
          let v := toString (DocExcerpt.content e) in
          Ok (v, Build (configuration this) (Some v) (_textExcerpt this))
      | None => Err type_error
      end
  end.

Definition textExcerpt (this : t) : option T :=
  match _textExcerpt this with
  | Some e => Some (DocExcerpt.content e)
  | None => None
  end.

Definition onGetChildNodes (this : t) : list (option (DocExcerpt.t Cfg T)) :=
  [_textExcerpt this].

(** ** Specification *)

(** The text that a parameter object stands for. *)
Definition text_spec (parameters : Parameters) : string :=
  match parameters with
  | Parsed p => toString (p_textExcerpt p)
  | Constructed c => c_text c
  end.

(** The text of a node, whether stored yet or not. *)
Definition text_of (this : t) : option string :=
  match _text this with
  | Some v => Some v
  | None => DocExcerpt.text <$> _textExcerpt this
  end.

(** The invariant: a node has a stored text or an excerpt; a stored text
    is the text of the excerpt when there is one, and has no line feed
    when there is none; the excerpt has the role of plain text and the
    configuration of the node. *)
Definition wf (this : t) : Prop :=
  match _textExcerpt this with
  | Some e =>
      DocExcerpt.excerptKind e = ExcerptPlainText /\
      DocExcerpt.configuration e = configuration this /\
      (forall v, _text this = Some v -> v = DocExcerpt.text e)
  | None => exists v, _text this = Some v /\ Js.test_newline v = false
  end.

(** The states of a node: what the constructor returns, and what the
    getter leaves. *)
Inductive reachable : t -> Prop :=
| reachable_new parameters this : new parameters = Ok this -> reachable this
| reachable_text this v this' :
    reachable this -> text this = Ok (v, this') -> reachable this'.

(** [n] reads of the getter in a row: the texts returned. *)
Fixpoint texts (n : nat) (this : t) : result string (list string) :=
  match n with
  | O => Ok []
  | S n' =>
      (r <- text this ;;
       vs <- texts n' r.2 ;;
       Ok (r.1 :: vs))%result
  end.

(** A read of the getter, as a step from the node before the call to the
    node after it. *)
Definition read (this this' : t) : Prop := exists v, text this = Ok (v, this').

(** The text [v] is stored in the node, and a read returns it and leaves
    the node as it is. *)
Definition stored (v : string) (this : t) : Prop :=
  _text this = Some v /\ text this = Ok (v, this).

(** ** The constructor *)

Section construction.
Implicit Types (this : t) (parameters : Parameters) (v : string).

Lemma new_Constructed_Ok c this :
  new (Constructed c) = Ok this <->
  Js.test_newline (c_text c) = false /\
  this = Build (c_configuration c) (Some (c_text c)) None.
Proof. cbn. destruct (Js.test_newline _); naive_solver. Qed.

Lemma new_text_of parameters this :
  new parameters = Ok this -> text_of this = Some (text_spec parameters).
Proof.
  destruct parameters as [c|p]; cbn.
  - destruct (Js.test_newline _); naive_solver.
  - by intros [= <-].
Qed.

Lemma plain_new_wf parameters this : new parameters = Ok this -> wf this.
Proof.
  destruct parameters as [c|p].
  - intros [Hnl ->]%new_Constructed_Ok. cbn. eauto.
  - intros [= <-]. by cbn.
Qed.

End construction.

(** ** The getter *)

Section getter.
Implicit Types (this : t) (v : string).

Lemma text_wf this : wf this -> is_Some (text_of this).
Proof.
  destruct this as [cfg [v|] [e|]]; unfold wf, text_of; cbn; naive_solver.
Qed.

(** On a valid node the getter returns the text of the node. *)
Lemma text_Ok this :
  wf this ->
  exists v this', text this = Ok (v, this') /\ text_of this = Some v /\
    _text this' = Some v /\ _textExcerpt this' = _textExcerpt this /\
    configuration this' = configuration this.
Proof.
  destruct this as [cfg [v|] [e|]]; unfold wf, text, text_of; cbn;
    naive_solver.
Qed.

Lemma text_preserves_wf this v this' :
  wf this -> text this = Ok (v, this') -> wf this'.
Proof.
  destruct this as [cfg [v0|] [e|]]; unfold wf, text; cbn; intros;
    simplify_eq/=; naive_solver.
Qed.

Lemma plain_wf_reachable this : reachable this -> wf this.
Proof.
  induction 1; [by eapply plain_new_wf | by eapply text_preserves_wf].
Qed.

(** Once read, the text is stored: the getter returns it and the node. *)
Lemma text_stored this v : _text this = Some v -> text this = Ok (v, this).
Proof. unfold text. by intros ->. Qed.

Lemma texts_stored n this v :
  _text this = Some v -> texts n this = Ok (replicate n v).
Proof.
  intros Hv. induction n as [|n IH]; [done|].
  cbn. rewrite (text_stored this v Hv). cbn. by rewrite IH.
Qed.

End getter.

(** ** Correctness *)

Section correctness.
Implicit Types (this : t) (parameters : Parameters) (v : string).

(** C11: the constructor refuses a literal text exactly when a line feed
    occurs in it, with the message of the source, and accepts every other
    literal text. *)
Theorem new_rejects_newline c :
  (new (Constructed c) = Err newline_error <-> LF ∈ chars (c_text c)) /\
  (is_Ok (new (Constructed c)) = negb (Js.test_newline (c_text c))).
Proof.
  rewrite <- test_newline_spec. cbn.
  destruct (Js.test_newline (c_text c)); naive_solver.
Qed.

(** The getter [text] of a node that the constructor returned gives
    the text its parameters stand for: the literal text of a constructed
    node, the text of the excerpt of a parsed one. *)
Theorem new_text parameters this :
  new parameters = Ok this ->
  exists this', text this = Ok (text_spec parameters, this').
Proof.
  intros Hnew. destruct (text_Ok this) as (v & this' & Ht & Hv & _).
  { by eapply plain_new_wf. }
  rewrite (new_text_of _ _ Hnew) in Hv. simplify_eq. eauto.
Qed.

(** C7: every state of a node, after the constructor and any number of
    reads, satisfies the invariant, and the getter does not fail in it. *)
Theorem plain_reachable_invariant this :
  reachable this -> wf this /\ is_Ok (text this) = true.
Proof.
  intros Hwf%plain_wf_reachable. split; [done|].
  by destruct (text_Ok this Hwf) as (v & this' & -> & _).
Qed.

(** Storing the text is not observable: after a read, the node has
    the same text, excerpt and children as before, and a second read
    returns the same text and leaves the node as it is. *)
Theorem text_cache_transparent this v this' :
  reachable this -> text this = Ok (v, this') ->
  text this' = Ok (v, this') /\ text_of this' = text_of this /\
  textExcerpt this' = textExcerpt this /\
  onGetChildNodes this' = onGetChildNodes this.
Proof.
  intros Hwf%plain_wf_reachable Ht.
  destruct (text_Ok this Hwf) as (v0 & this0 & Ht' & Hv & Hs & He & _).
  rewrite Ht in Ht'. simplify_eq. unfold textExcerpt, onGetChildNodes, text_of.
  rewrite He, Hs. split_and!; try done. by apply text_stored.
Qed.

(** Any number of reads of a node that the constructor returned give
    the same text, the one its parameters stand for. *)
Theorem texts_constant parameters this n :
  new parameters = Ok this ->
  texts n this = Ok (replicate n (text_spec parameters)).
Proof.
  intros Hnew. destruct n as [|n]; [done|].
  destruct (text_Ok this (plain_new_wf _ _ Hnew)) as (v & this' & Ht & Hv & Hs & _).
  rewrite (new_text_of _ _ Hnew) in Hv. simplify_eq.
  cbn. rewrite Ht. cbn. by rewrite (texts_stored n this' _ Hs).
Qed.

(** The text of a node that was constructed from a literal has no
    line feed. *)
Theorem constructed_no_newline c this v this' :
  new (Constructed c) = Ok this -> text this = Ok (v, this') ->
  LF ∉ chars v.
Proof.
  intros [Hnl ->]%new_Constructed_Ok [= <- <-].
  by rewrite <- test_newline_spec, Hnl.
Qed.

(** ** Progress of the store *)

Lemma stored_always this v : stored v this -> always read (stored v) this.
Proof.
  intros Hs. apply (always_invariant _ (stored v)); [done| |done].
  intros s s' Hst [v' Ht']. pose proof Hst as [_ Ht].
  rewrite Ht in Ht'. by simplify_eq.
Qed.

Lemma read_stored this this' v :
  wf this -> text_of this = Some v -> read this this' -> stored v this'.
Proof.
  intros Hwf Hv [v' Ht].
  destruct (text_Ok this Hwf) as (v0 & this0 & Ht0 & Hv0 & Hs & _).
  rewrite Ht in Ht0. simplify_eq. split; [done|by apply text_stored].
Qed.

Lemma wf_eventually_stored this v :
  wf this -> text_of this = Some v ->
  eventually read (always read (stored v)) this.
Proof.
  intros Hwf Hv. apply eventually_next.
  - destruct (text_Ok this Hwf) as (v0 & this0 & Ht0 & _). exists this0. by exists v0.
  - intros this' Hread. by eapply eventually_now, stored_always, read_stored.
Qed.

(** C14: from the node that the constructor returns, the reads of the
    getter make progress: a read is possible, and every sequence of reads
    reaches a node in which the text that the parameters stand for is
    stored, and from which every later read returns that text and leaves
    the node as it is. *)
Theorem text_eventually_stored parameters this :
  new parameters = Ok this ->
  eventually read (always read (stored (text_spec parameters))) this.
Proof.
  intros Hnew. apply wf_eventually_stored;
    [by eapply plain_new_wf|by apply new_text_of].
Qed.

End correctness.

End model.

Arguments t Cfg T : clear implicits.
Arguments Parameters Cfg T : clear implicits.

(** ** Examples *)

Section examples.

(** A parsed node over the range 4..12 of a comment. *)
Definition summary_range : TextRange.t := TextRange.Build "/** Summary. */" 4 12.

Definition parsed_summary : Parameters unit TextRange.t :=
  Parsed {| p_configuration := tt; p_textExcerpt := summary_range |}.

Definition summary_node : t unit TextRange.t :=
  Build tt None (Some (DocExcerpt.new tt ExcerptPlainText summary_range)).

Definition summary_node_read : t unit TextRange.t :=
  Build tt (Some "Summary.")
    (Some (DocExcerpt.new tt ExcerptPlainText summary_range)).

Definition literal_hello : Parameters unit TextRange.t :=
  Constructed {| c_configuration := tt; c_text := "hello" |}.

Lemma summary_node_reachable : reachable summary_node.
Proof. by apply (reachable_new parsed_summary). Qed.

Lemma new_text_witness :
  exists this', text summary_node = Ok (text_spec parsed_summary, this').
Proof. by apply (new_text parsed_summary summary_node). Defined.

Lemma plain_reachable_invariant_witness :
  wf summary_node /\ is_Ok (text summary_node) = true.
Proof. exact (plain_reachable_invariant summary_node summary_node_reachable). Defined.

Lemma text_cache_transparent_witness :
  text summary_node_read = Ok ("Summary.", summary_node_read) /\
  text_of summary_node_read = text_of summary_node /\
  textExcerpt summary_node_read = textExcerpt summary_node /\
  onGetChildNodes summary_node_read = onGetChildNodes summary_node.
Proof.
  by apply (text_cache_transparent summary_node "Summary." summary_node_read
              summary_node_reachable).
Defined.

Lemma texts_constant_witness :
  texts 3 summary_node = Ok (replicate 3 (text_spec parsed_summary)).
Proof. by apply (texts_constant parsed_summary summary_node 3). Defined.

Lemma constructed_no_newline_witness : LF ∉ chars "hello".
Proof.
  by apply (constructed_no_newline
              {| c_configuration := tt; c_text := "hello" |}
              (Build tt (Some "hello") None) "hello"
              (Build (T := TextRange.t) tt (Some "hello") None)).
Defined.

Lemma text_eventually_stored_witness :
  eventually read (always read (stored (text_spec parsed_summary))) summary_node.
Proof. by apply (text_eventually_stored parsed_summary summary_node). Defined.

End examples.

End DocPlainText.
