(* ===== verification/InlineTag.v ===== *)
(** * DocInlineTag

    [Module DocInlineTag] models the class [DocInlineTag] of
    [src/tsdoc/src/nodes/DocParamCollection.ts]: a generic inline tag whose
    content is either given as a literal (constructed) or backed by an
    optional excerpt (parsed), with the getter [tagContent] that computes
    the text of the excerpt on first use and stores it, and returns the
    empty string, storing nothing, when a parsed tag has no content.

    The base class [DocInlineTagBase] is not part of the sources. Its
    constructor runs first and may throw; it is the interface
    [InlineTagBase], and the tag is modelled over any implementation of
    it. [tag_name_base] is the implementation used in examples.

    The theorems: the constructor fails exactly when the base constructor
    fails, with its error; the getter returns the content the parameters
    stand for; it is idempotent in every state and changes neither the
    excerpt nor the children; as a step relation ([read]) it reaches
    after one read a tag that every later read leaves as it is. *)

From Stdlib Require Import ZArith String Ascii.
From stdpp Require Import base tactics option list strings.
From S2P Require Import Prelude Temporal JsString Range Excerpt.

(** ** The interface of the base class *)

(** What [DocInlineTag] uses of [DocInlineTagBase]: the constructor, from
    the base's share of the parameters, and the configuration it keeps. *)
Class InlineTagBase (Cfg Base CB PB : Type) : Type :=
  { base_new : Params CB PB -> result string Base;
    base_configuration : Base -> Cfg }.

(** A base that keeps a tag name and refuses the empty one. *)
#[export] Instance tag_name_base : InlineTagBase unit string string string :=
  {| base_new := fun parameters =>
       let tagName :=
         match parameters with Constructed n => n | Parsed n => n end in
       if Js.truthy tagName then Ok tagName else Err "empty tag name";
     base_configuration := fun _ => tt |}.

Module DocInlineTag.

Section model.
Context {Cfg T Base CB PB : Type}.
Context `{TokenSequence T} `{InlineTagBase Cfg Base CB PB}.

(** ** Parameters and state *)

(** [IDocInlineTagParameters]: the base's parameters and the content. *)
Record IDocInlineTagParameters : Type :=
  { c_base : CB; c_tagContent : string }.

(** [IDocInlineTagParsedParameters]: the base's parameters and the
    optional excerpt of the content. *)
Record IDocInlineTagParsedParameters : Type :=
  { p_base : PB; p_tagContentExcerpt : option T }.

Definition Parameters : Type :=
  Params IDocInlineTagParameters IDocInlineTagParsedParameters.

Record t : Type :=
  Build { base : Base;
          _tagContent : option string;
          _tagContentExcerpt : option (DocExcerpt.t Cfg T) }.

(** ** Operations *)

(** The constructor: the base constructor, then the fields of the tag. *)
Definition new (parameters : Parameters) : result string t :=
  match parameters with
  | Parsed p =>
      (super <- base_new (Parsed (p_base p)) ;;
       Ok (Build super None
             (match p_tagContentExcerpt p with
              | Some content =>
                  Some (DocExcerpt.new (base_configuration super)
                          InlineTag_TagContent content)
              | None => None
              end)))%result
  | Constructed c =>
      (super <- base_new (Constructed (c_base c)) ;;
       Ok (Build super (Some (c_tagContent c)) None))%result
  end.

Definition kind (this : t) : DocNodeKind := InlineTag.

(** The getter [tagContent]: the stored content; else the text of the
    excerpt, which is then stored; else the empty string. The result is
    the content and the tag after the call. *)
Definition tagContent (this : t) : string * t :=
  match _tagContent this with
  | Some v => (v, this)
  | None =>
      match _tagContentExcerpt this with
      | Some e =>
          let v := toString (DocExcerpt.content e) in
          (v, Build (base this) (Some v) (_tagContentExcerpt this))
      | None => (EmptyString, this)
      end
  end.

Definition getChildNodesForContent (this : t) : list (option (DocExcerpt.t Cfg T)) :=
  [_tagContentExcerpt this].

(** ** Specification *)

(** The base's share of a parameter object. *)
Definition base_parameters (parameters : Parameters) : Params CB PB :=
  match parameters with
  | Parsed p => Parsed (p_base p)
  | Constructed c => Constructed (c_base c)
  end.

(** The content that a parameter object stands for. *)
Definition tagContent_spec (parameters : Parameters) : string :=
  match parameters with
  | Constructed c => c_tagContent c
  | Parsed p =>
      match p_tagContentExcerpt p with
      | Some content => toString content
      | None => EmptyString
      end
  end.

(** The content of a tag, whether stored yet or not. *)
Definition content_of (this : t) : string :=
  match _tagContent this, _tagContentExcerpt this with
  | Some v, _ => v
  | None, Some e => DocExcerpt.text e
  | None, None => EmptyString
  end.

(** A read of the getter, as a step from the tag before the call to the
    tag after it. *)
Definition read (this this' : t) : Prop := this' = (tagContent this).2.

(** A read returns the content [v] and leaves the tag as it is. *)
Definition settled (v : string) (this : t) : Prop := tagContent this = (v, this).

(** ** Lemmas *)

Section lemmas.
Implicit Types (this : t) (parameters : Parameters).

Lemma new_base parameters :
  new parameters =
  res_bind (base_new (base_parameters parameters)) (fun super =>
    match parameters with
    | Parsed p =>
        Ok (Build super None
              (DocExcerpt.new (base_configuration super) InlineTag_TagContent
                 <$> p_tagContentExcerpt p))
    | Constructed c => Ok (Build super (Some (c_tagContent c)) None)
    end).
Proof.
  destruct parameters as [c|p]; [done|]. cbn.
  by destruct (base_new _), (p_tagContentExcerpt p).
Qed.

Lemma new_content_of parameters this :
  new parameters = Ok this -> content_of this = tagContent_spec parameters.
Proof.
  destruct parameters as [c|p]; cbn; destruct (base_new _); cbn;
    intros; simplify_eq; [done|].
  unfold content_of. cbn. by destruct (p_tagContentExcerpt p).
Qed.

Lemma tagContent_content_of this : (tagContent this).1 = content_of this.
Proof. by destruct this as [b [v|] [e|]]. Qed.

Lemma tagContent_idem this : tagContent (tagContent this).2 = tagContent this.
Proof. by destruct this as [b [v|] [e|]]. Qed.

Lemma tagContent_readonly this :
  base (tagContent this).2 = base this /\
  _tagContentExcerpt (tagContent this).2 = _tagContentExcerpt this /\
  content_of (tagContent this).2 = content_of this.
Proof. by destruct this as [b [v|] [e|]]. Qed.

End lemmas.

(** ** Correctness *)

Section correctness.
Implicit Types (this : t) (parameters : Parameters).

(** The constructor of an inline tag fails exactly when the
    constructor of its base class fails on the base's share of the
    parameters, and with the same error. *)
Theorem new_fails_with_base parameters (e : string) :
  new parameters = Err e <-> base_new (base_parameters parameters) = Err e.
Proof.
  rewrite new_base.
  destruct (base_new _) as [super|e'], parameters; cbn; naive_solver.
Qed.

(** The getter [tagContent] of a tag that the constructor returned
    gives the content its parameters stand for: the literal content, the
    text of the excerpt, or the empty string of a parsed tag without
    content; the excerpt, when there is one, has the role of tag content
    and the configuration of the tag. *)
Theorem new_tagContent parameters this :
  new parameters = Ok this ->
  (tagContent this).1 = tagContent_spec parameters /\
  (forall e, _tagContentExcerpt this = Some e ->
     DocExcerpt.excerptKind e = InlineTag_TagContent /\
     DocExcerpt.configuration e = base_configuration (base this)).
Proof.
  intros Hnew. split.
  { by rewrite tagContent_content_of, (new_content_of _ _ Hnew). }
  rewrite new_base in Hnew. apply res_bind_inv_Ok in Hnew as (super & _ & Hnew).
  destruct parameters as [c|p]; simplify_eq; [done|]. cbn.
  destruct (p_tagContentExcerpt p); naive_solver.
Qed.

(** Storing the content is not observable: in every state a second
    read returns the same content and leaves the tag as the first read
    left it, and a read changes neither the base, the excerpt nor the
    children. *)
Theorem tagContent_cache_transparent this :
  tagContent (tagContent this).2 = tagContent this /\
  base (tagContent this).2 = base this /\
  getChildNodesForContent (tagContent this).2 = getChildNodesForContent this.
Proof.
  split; [apply tagContent_idem|]. unfold getChildNodesForContent.
  by destruct (tagContent_readonly this) as (-> & -> & _).
Qed.

(** From the tag that the constructor returns, the reads of the getter
    reach, after one read at most, a tag that every later read leaves as
    it is and for which it returns the content that the parameters stand
    for. A parsed tag without content is such a tag from the start: its
    empty content is never stored. *)
Theorem tagContent_eventually_settled parameters this :
  new parameters = Ok this ->
  eventually read (always read (settled (tagContent_spec parameters))) this.
Proof.
  intros Hnew. apply eventually_next; [by eexists|]. intros this' ->.
  apply eventually_now, (always_invariant _ (settled (tagContent_spec parameters))).
  - unfold settled. rewrite tagContent_idem, <- (new_content_of _ _ Hnew),
      <- tagContent_content_of. by destruct (tagContent this).
  - intros s s' Hs ->. unfold settled in *. by rewrite Hs.
  - done.
Qed.

End correctness.

End model.

Arguments t Cfg T Base : clear implicits.
Arguments Parameters T CB PB : clear implicits.

(** ** Examples *)

Section examples.

(** The tag of the comment of [tagContent]: its content runs from
    offset 8 to offset 24, the trailing space included. *)
Definition myTag_buffer : string := "{@myTag x=12.34 y=56.78 }".

Definition myTag_parameters : Parameters TextRange.t string string :=
  Parsed {| p_base := "@myTag";
            p_tagContentExcerpt := Some (TextRange.Build myTag_buffer 8 24) |}.

Definition myTag : t unit TextRange.t string :=
  Build "@myTag" None
    (Some (DocExcerpt.new tt InlineTag_TagContent
             (TextRange.Build myTag_buffer 8 24))).

(** For the tag [{@myTag x=12.34 y=56.78 }] the content is
    [x=12.34 y=56.78 ] with its trailing space and without the space after
    the tag name, and a parsed tag without content has the empty
    content. *)
Example myTag_tagContent :
  res_map (fun this => (tagContent this).1) (new myTag_parameters) =
    Ok "x=12.34 y=56.78 " /\
  res_map (fun this => (tagContent this).1)
    (new (Parsed {| p_base := "@myTag";
                    p_tagContentExcerpt := @None TextRange.t |})) =
    Ok "".
Proof. done. Qed.

Lemma new_tagContent_witness :
  (tagContent myTag).1 = tagContent_spec myTag_parameters /\
  (forall e, _tagContentExcerpt myTag = Some e ->
     DocExcerpt.excerptKind e = InlineTag_TagContent /\
     DocExcerpt.configuration e = base_configuration (base myTag)).
Proof. by apply (new_tagContent myTag_parameters myTag). Defined.

End examples.

End DocInlineTag.
