(* ===== verification/MemberSymbol.v ===== *)
(** * DocMemberSymbol and DocParagraph

    [Module DocMemberSymbol] models the class [DocMemberSymbol] of
    [src/tsdoc/src/nodes/DocMemberSymbol.ts]: a reference to a symbol in
    brackets, whose parsed form keeps the excerpts of the left bracket, of
    the optional spacing after it and of the right bracket around the
    declaration reference, and whose constructed form keeps the reference
    alone. [onGetChildNodes] lists the four children in source order, with
    a hole for each that is absent.

    The class of the reference, [DocDeclarationReference], is not part of
    the sources: the node is modelled for any type of references.
    [getChildNodes], of the base class [DocNode], is stated from the
    specification: the children without the holes.

    The theorems: which children a node has, in which order and with which
    roles, for both forms; and for a parsed node whose excerpts and
    reference are adjacent ranges of a buffer, that the texts of the
    children concatenate to the text of the range they cover.

    [Module DocParagraph] models the class [DocParagraph] of
    [src/tsdoc/src/nodes/DocParamCollection.ts], a container whose
    constructor takes the interface [IDocParagraphParameters] and
    forwards to the base class [DocNodeContainer], which is not part of
    the sources and is the interface [NodeContainer]. *)

From Stdlib Require Import ZArith String Ascii.
From stdpp Require Import base tactics option list strings.
From S2P Require Import Prelude JsString Range Excerpt.

Module DocMemberSymbol.

Section model.
Context {Cfg T Ref : Type}.

(** ** Parameters and state *)

(** [IDocMemberSymbolParameters] *)
Record IDocMemberSymbolParameters : Type :=
  { c_configuration : Cfg; c_symbolReference : Ref }.

(** [IDocMemberSymbolParsedParameters] *)
Record IDocMemberSymbolParsedParameters : Type :=
  { p_configuration : Cfg;
    p_leftBracketExcerpt : T;
    p_spacingAfterLeftBracketExcerpt : option T;
    p_symbolReference : Ref;
    p_rightBracketExcerpt : T }.

Definition Parameters : Type :=
  Params IDocMemberSymbolParameters IDocMemberSymbolParsedParameters.

Record t : Type :=
  Build { configuration : Cfg;
          _leftBracketExcerpt : option (DocExcerpt.t Cfg T);
          _spacingAfterLeftBracketExcerpt : option (DocExcerpt.t Cfg T);
          _symbolReference : Ref;
          _rightBracketExcerpt : option (DocExcerpt.t Cfg T) }.

(** A child of the node: an excerpt or the reference. *)
Inductive child : Type :=
| ChildExcerpt (e : DocExcerpt.t Cfg T)
| ChildReference (r : Ref).

(** ** Operations *)

(** The constructor. *)
Definition new (parameters : Parameters) : t :=
  match parameters with
  | Parsed p =>
      let cfg := p_configuration p in
      Build cfg
        (Some (DocExcerpt.new cfg DocMemberSymbol_LeftBracket
                 (p_leftBracketExcerpt p)))
        (match p_spacingAfterLeftBracketExcerpt p with
         | Some spacing => Some (DocExcerpt.new cfg Spacing spacing)
         | None => None
         end)
        (p_symbolReference p)
        (Some (DocExcerpt.new cfg DocMemberSymbol_RightBracket
                 (p_rightBracketExcerpt p)))
  | Constructed c =>
      Build (c_configuration c) None None (c_symbolReference c) None
  end.

Definition kind (this : t) : DocNodeKind := MemberSymbol.

Definition symbolReference (this : t) : Ref := _symbolReference this.

Definition onGetChildNodes (this : t) : list (option child) :=
  [ ChildExcerpt <$> _leftBracketExcerpt this;
    ChildExcerpt <$> _spacingAfterLeftBracketExcerpt this;
    Some (ChildReference (_symbolReference this));
    ChildExcerpt <$> _rightBracketExcerpt this ].

(** ** Specification *)

(** [DocNode.getChildNodes]: the children that are present. *)
Definition getChildNodes (this : t) : list child :=
  omap id (onGetChildNodes this).

(** The reference that a parameter object carries. *)
Definition reference_spec (parameters : Parameters) : Ref :=
  match parameters with
  | Parsed p => p_symbolReference p
  | Constructed c => c_symbolReference c
  end.

(** The text of a child, given the text of a reference. *)
Definition child_text `{TokenSequence T} (ref_text : Ref -> string) (c : child) : string :=
  match c with
  | ChildExcerpt e => DocExcerpt.text e
  | ChildReference r => ref_text r
  end.

(** The role of a child that is an excerpt. *)
Definition child_role (c : child) : option ExcerptKind :=
  match c with
  | ChildExcerpt e => Some (DocExcerpt.excerptKind e)
  | ChildReference _ => None
  end.

(** ** Correctness *)

Section correctness.
Implicit Types (this : t) (parameters : Parameters).

Lemma getChildNodes_Parsed p :
  getChildNodes (new (Parsed p)) =
  [ChildExcerpt (DocExcerpt.new (p_configuration p) DocMemberSymbol_LeftBracket
                   (p_leftBracketExcerpt p))] ++
  option_list
    (ChildExcerpt ∘ DocExcerpt.new (p_configuration p) Spacing <$>
       p_spacingAfterLeftBracketExcerpt p) ++
  [ChildReference (p_symbolReference p);
   ChildExcerpt (DocExcerpt.new (p_configuration p)
                   DocMemberSymbol_RightBracket (p_rightBracketExcerpt p))].
Proof.
  unfold getChildNodes, onGetChildNodes. cbn.
  by destruct (p_spacingAfterLeftBracketExcerpt p).
Qed.

(** The children of a parsed member symbol are, in source order, the
    left bracket, the spacing when there is one, the reference and the
    right bracket, each excerpt with its role; a constructed member symbol
    has its reference as only child; in both forms [symbolReference] is
    the reference of the parameters. *)
Theorem member_symbol_children parameters :
  symbolReference (new parameters) = reference_spec parameters /\
  match parameters with
  | Constructed c => getChildNodes (new parameters) = [ChildReference (c_symbolReference c)]
  | Parsed p =>
      child_role <$> getChildNodes (new parameters) =
      [Some DocMemberSymbol_LeftBracket] ++
      option_list ((fun _ => Some Spacing) <$> p_spacingAfterLeftBracketExcerpt p) ++
      [None; Some DocMemberSymbol_RightBracket] /\
      ChildReference (p_symbolReference p) ∈ getChildNodes (new parameters)
  end.
Proof.
  destruct parameters as [c|p]; [done|]. split; [done|].
  rewrite getChildNodes_Parsed.
  destruct (p_spacingAfterLeftBracketExcerpt p); cbn; split; try done;
    rewrite !elem_of_cons; auto.
Qed.

End correctness.

End model.

Arguments t Cfg T Ref : clear implicits.
Arguments child Cfg T Ref : clear implicits.
Arguments Parameters Cfg T Ref : clear implicits.

(** ** Round trip over ranges *)

Section ranges.
Context {Cfg : Type}.
Implicit Types (p : @IDocMemberSymbolParsedParameters Cfg TextRange.t TextRange.t).

(** The ranges of a parsed member symbol, in source order. *)
Definition ranges p : list TextRange.t :=
  [p_leftBracketExcerpt p] ++
  option_list (p_spacingAfterLeftBracketExcerpt p) ++
  [p_symbolReference p; p_rightBracketExcerpt p].

Lemma child_text_ranges p :
  child_text TextRange.toString <$> getChildNodes (new (Parsed p)) =
  TextRange.toString <$> ranges p.
Proof.
  rewrite getChildNodes_Parsed. unfold ranges.
  by destruct (p_spacingAfterLeftBracketExcerpt p).
Qed.

(** C15: when the brackets, the spacing and the reference of a parsed
    member symbol are adjacent ranges of a buffer, the texts of its
    children, concatenated in order, are the text of the buffer from the
    left bracket to the right bracket. *)
Theorem member_symbol_round_trip p b from to :
  (0 <= from)%Z -> (to <= Js.length b)%Z ->
  TextRange.adjacent b from (ranges p) to ->
  Js.join (child_text TextRange.toString <$> getChildNodes (new (Parsed p))) =
  Js.substring b from to.
Proof.
  intros Hfrom Hto Hadj. rewrite child_text_ranges.
  by rewrite (TextRange.join_adjacent b from _ to).
Qed.

End ranges.

(** ** Examples *)

Section examples.

(** The member symbol [[ a.b ]] at offsets 0..7 of its buffer. *)
Definition symbol_buffer : string := "[ a.b ]".

Definition symbol_parameters : @IDocMemberSymbolParsedParameters unit TextRange.t TextRange.t :=
  {| p_configuration := tt;
     p_leftBracketExcerpt := TextRange.Build symbol_buffer 0 1;
     p_spacingAfterLeftBracketExcerpt := Some (TextRange.Build symbol_buffer 1 2);
     p_symbolReference := TextRange.Build symbol_buffer 2 6;
     p_rightBracketExcerpt := TextRange.Build symbol_buffer 6 7 |}.

Lemma member_symbol_round_trip_witness :
  Js.join (child_text TextRange.toString <$>
             getChildNodes (new (Parsed symbol_parameters))) =
  Js.substring symbol_buffer 0 7.
Proof.
  apply (member_symbol_round_trip symbol_parameters symbol_buffer 0 7);
    [done | by compute |].
  cbn. unfold TextRange.wf. cbn. by compute.
Defined.

End examples.

End DocMemberSymbol.

(** ** DocParagraph *)

(** What [DocParagraph] uses of [DocNodeContainer]: its constructor, from
    the parameters and the optional child nodes. *)
Class NodeContainer (Base P Node : Type) : Type :=
  { container_new : P -> option (list Node) -> result string Base;
    container_nodes : Base -> list Node }.

(** A container that keeps the nodes it is given. *)
#[export] Instance list_container {Node : Type} : NodeContainer (list Node) unit Node :=
  {| container_new := fun _ childNodes => Ok (default [] childNodes);
     container_nodes := id |}.

Module DocParagraph.

Section model.
Context {Base P Node : Type} `{NodeContainer Base P Node}.

(** [IDocParagraphParameters]: the parameters of the container, and
    nothing of its own. *)
Definition IDocParagraphParameters : Type := P.

(** The constructor: the constructor of the container. *)
Definition new (parameters : IDocParagraphParameters)
    (childNodes : option (list Node)) : result string Base :=
  container_new parameters childNodes.

Definition kind (this : Base) : DocNodeKind := Paragraph.

End model.

End DocParagraph.
