(* ===== verification/React.v ===== *)
(** * React elements

    The playground's view [src/playground/src/DocHtmlView.tsx] returns
    React nodes written in JSX. This file holds the tree of such nodes,
    [ReactNode], and what the theorems on the view observe of a tree:

    - [React.keys] and [React.unique_keys]: the keys of the elements of an
      array of children. React identifies the elements of an array by
      their keys, which must be present and distinct among siblings;
    - [React.well_keyed]: every array of a tree has unique keys;
    - [React.text_content]: the text of a tree, as the DOM's [textContent]
      of what it renders to;
    - [React.by_type] and [React.headings]: the elements of a type in
      document order, and the texts of the [h2] elements.

    The loops of the view push onto an array and name each element after
    the length of the array; [push_loop] is that loop, with the rules
    [push_loop_lookup], [push_loop_is_Some] and [push_loop_mono], and
    [template] is a template literal [`prefix${n}`]. [body_ok] says that a
    tree is well keyed and holds no heading, which is what [render] needs of
    the body of a section. *)

From Stdlib Require Import ZArith String Lia.
From stdpp Require Import base tactics option list strings pretty.
From S2P Require Import Prelude JsString.

(** A React node: a text, [undefined], an array of nodes, a fragment or
    an element with its type, key, attributes and children. *)
#[warnings="-register-all"]
Inductive ReactNode : Type :=
| RText (text : string)
| RUndefined
| RArray (items : list ReactNode)
| RFragment (key : option string) (children : list ReactNode)
| RElement (type_ : string) (key : option string)
    (attributes : list (string * string)) (children : list ReactNode).

(** Induction on a tree with the hypothesis for every child. *)
Section ReactNode_ind.
Variable P : ReactNode -> Prop.
Hypothesis HText : forall text, P (RText text).
Hypothesis HUndefined : P RUndefined.
Hypothesis HArray : forall items, Forall P items -> P (RArray items).
Hypothesis HFragment : forall key children,
  Forall P children -> P (RFragment key children).
Hypothesis HElement : forall type_ key attributes children,
  Forall P children -> P (RElement type_ key attributes children).

Fixpoint ReactNode_ind' (r : ReactNode) : P r :=
  let all := fix all (l : list ReactNode) : Forall P l :=
    match l with
    | [] => Forall_nil_2 P
    | r' :: l' => Forall_cons_2 P r' l' (ReactNode_ind' r') (all l')
    end in
  match r with
  | RText text => HText text
  | RUndefined => HUndefined
  | RArray items => HArray items (all items)
  | RFragment key children => HFragment key children (all children)
  | RElement type_ key attributes children =>
      HElement type_ key attributes children (all children)
  end.

End ReactNode_ind.

(** The template literal [`prefix${n}`] for a count [n]. *)
Definition template (prefix : string) (n : nat) : string := prefix +:+ pretty n.

(** The loop [for (const x of l) { elements.push(f(elements.length, x)) }]
    on an array [elements] that is empty at first, where [f] may run out
    of fuel. *)
Definition push_step {A} (f : nat -> A -> option ReactNode)
    (acc : option (list ReactNode)) (x : A) : option (list ReactNode) :=
  elements ← acc;
  e ← f (List.length elements) x;
  Some (elements ++ [e]).

Definition push_loop {A} (f : nat -> A -> option ReactNode) (l : list A) :
    option (list ReactNode) :=
  foldl (push_step f) (Some []) l.

Module React.

(** ** Keys *)

Definition is_element (r : ReactNode) : bool :=
  match r with
  | RFragment _ _ | RElement _ _ _ _ => true
  | _ => false
  end.

Definition key (r : ReactNode) : option string :=
  match r with
  | RFragment key _ | RElement _ key _ _ => key
  | _ => None
  end.

(** The keys of the elements of an array; texts and [undefined] have
    none and need none. *)
Definition keys (items : list ReactNode) : list (option string) :=
  key <$> filter (fun r => is_element r = true) items.

(** The elements of an array all have a key and no two have the same. *)
Definition unique_keys (items : list ReactNode) : Prop :=
  (None ∉ keys items) /\ NoDup (keys items).

#[export] Instance unique_keys_dec items : Decision (unique_keys items).
Proof. unfold unique_keys. apply _. Defined.

(** Every array of the tree has unique keys. *)
Fixpoint well_keyed (r : ReactNode) : bool :=
  match r with
  | RText _ | RUndefined => true
  | RArray items => bool_decide (unique_keys items) && forallb well_keyed items
  | RFragment _ children | RElement _ _ _ children => forallb well_keyed children
  end.

(** ** Text and headings *)

Fixpoint text_content (r : ReactNode) : string :=
  match r with
  | RText text => text
  | RUndefined => ""
  | RArray items => Js.join (text_content <$> items)
  | RFragment _ children | RElement _ _ _ children =>
      Js.join (text_content <$> children)
  end.

(** The elements of type [type_] in the tree, in document order. *)
Fixpoint by_type (type_ : string) (r : ReactNode) : list ReactNode :=
  match r with
  | RText _ | RUndefined => []
  | RArray items => concat (by_type type_ <$> items)
  | RFragment _ children => concat (by_type type_ <$> children)
  | RElement t _ _ children =>
      (if decide (t = type_) then [r] else []) ++
      concat (by_type type_ <$> children)
  end.

Definition headings (r : ReactNode) : list string :=
  text_content <$> by_type "h2" r.

End React.

(** ** Lemmas *)

Section template.

#[export] Instance template_inj prefix : Inj (=) (=) (template prefix).
Proof. intros n1 n2 Heq. unfold template in Heq. by simplify_eq. Qed.

End template.

Section push_loop.
Context {A : Type}.
Implicit Types (f g : nat -> A -> option ReactNode) (l : list A).
Implicit Types (r : list ReactNode) (e : ReactNode).

Lemma push_loop_snoc f l x :
  push_loop f (l ++ [x]) = push_step f (push_loop f l) x.
Proof. unfold push_loop. by rewrite foldl_app. Qed.

Lemma push_loop_snoc_Some f l x r' :
  push_loop f (l ++ [x]) = Some r' <->
  exists r e, push_loop f l = Some r /\ f (List.length r) x = Some e /\
    r' = r ++ [e].
Proof.
  rewrite push_loop_snoc. unfold push_step.
  destruct (push_loop f l) as [r|]; cbn; [|naive_solver].
  destruct (f (List.length r) x) as [e|] eqn:He; cbn; [|naive_solver].
  split; [intros [= <-]; eauto|]. intros (? & ? & ? & ? & ->). by simplify_eq.
Qed.

Lemma push_loop_length f l r :
  push_loop f l = Some r -> List.length r = List.length l.
Proof.
  revert r. induction l as [|x l IH] using rev_ind; intros r.
  { by intros [= <-]. }
  intros (r0 & e & Hr0 & _ & ->)%push_loop_snoc_Some.
  rewrite !List.length_app, (IH _ Hr0). done.
Qed.

(** Element [i] of the array is what [f] makes of index [i] and element
    [i] of the list. *)
Lemma push_loop_lookup f l r i x :
  push_loop f l = Some r -> l !! i = Some x ->
  exists e, r !! i = Some e /\ f i x = Some e.
Proof.
  revert r. induction l as [|y l IH] using rev_ind; intros r; [done|].
  intros (r0 & e & Hr0 & He & ->)%push_loop_snoc_Some Hi.
  pose proof (push_loop_length _ _ _ Hr0) as Hlen.
  apply lookup_app_Some in Hi as [Hi|[Hge Hi]].
  - destruct (IH _ Hr0 Hi) as (e' & Hlk & He'). exists e'.
    by rewrite lookup_app_l by (apply lookup_lt_Some in Hlk; lia).
  - apply list_lookup_singleton_Some in Hi as [Hi ->].
    assert (i = List.length r0) as -> by lia.
    exists e. by rewrite lookup_app_r, Nat.sub_diag by lia.
Qed.

(** The loop returns when [f] does on every element. *)
Lemma push_loop_is_Some f l :
  (forall i x, l !! i = Some x -> is_Some (f i x)) -> is_Some (push_loop f l).
Proof.
  induction l as [|x l IH] using rev_ind; intros Hf; [by eexists|].
  destruct IH as [r Hr].
  { intros i y Hi. apply Hf. by rewrite lookup_app_l by (by eapply lookup_lt_Some). }
  destruct (Hf (List.length r) x) as [e He].
  { rewrite (push_loop_length _ _ _ Hr), lookup_app_r, Nat.sub_diag by lia. done. }
  exists (r ++ [e]). apply push_loop_snoc_Some. eauto.
Qed.

(** A loop whose body returns more often returns the same array. *)
Lemma push_loop_mono f g l r :
  (forall i x e, f i x = Some e -> g i x = Some e) ->
  push_loop f l = Some r -> push_loop g l = Some r.
Proof.
  intros Hfg. revert r. induction l as [|x l IH] using rev_ind; intros r; [done|].
  intros (r0 & e & Hr0 & He & ->)%push_loop_snoc_Some.
  apply push_loop_snoc_Some. exists r0, e. eauto.
Qed.

(** What holds of each element that [f] makes holds of the array. *)
Lemma push_loop_Forall (P : nat -> ReactNode -> Prop) f l r :
  (forall i x e, l !! i = Some x -> f i x = Some e -> P i e) ->
  push_loop f l = Some r ->
  forall i e, r !! i = Some e -> P i e.
Proof.
  intros Hf Hr i e Hi.
  destruct (lookup_lt_is_Some_2 l i) as [x Hx].
  { rewrite <- (push_loop_length _ _ _ Hr). by eapply lookup_lt_Some. }
  destruct (push_loop_lookup _ _ _ _ _ Hr Hx) as (e' & He' & Hfx).
  simplify_eq. eauto.
Qed.

(** The closed form of a loop whose body always returns. *)
Lemma push_loop_imap (g : nat -> A -> ReactNode) l :
  push_loop (fun i x => Some (g i x)) l = Some (imap g l).
Proof.
  induction l as [|x l IH] using rev_ind; [done|].
  apply push_loop_snoc_Some. exists (imap g l), (g (List.length l) x).
  rewrite length_imap, imap_app. cbn. by rewrite Nat.add_0_r.
Qed.

(** An observation of the elements that is a function of the list. *)
Lemma push_loop_fmap {B} (g : ReactNode -> B) (h : A -> B) f l r :
  (forall i x e, f i x = Some e -> g e = h x) ->
  push_loop f l = Some r -> g <$> r = h <$> l.
Proof.
  intros Hgh Hr. apply list_eq. intros i. rewrite !list_lookup_fmap.
  destruct (l !! i) as [x|] eqn:Hx.
  - destruct (push_loop_lookup _ _ _ _ _ Hr Hx) as (e & -> & He). cbn.
    by rewrite (Hgh _ _ _ He).
  - rewrite lookup_ge_None_2; [done|].
    rewrite (push_loop_length _ _ _ Hr). by apply lookup_ge_None.
Qed.

(** The closed form of a loop whose body returns [g] on the elements of
    the list. *)
Lemma push_loop_Some_imap (g : nat -> A -> ReactNode) f l :
  (forall i x, l !! i = Some x -> f i x = Some (g i x)) ->
  push_loop f l = Some (imap g l).
Proof.
  induction l as [|x l IH] using rev_ind; intros Hf; [done|].
  apply push_loop_snoc_Some. exists (imap g l), (g (List.length l) x).
  rewrite length_imap, imap_app. cbn. rewrite Nat.add_0_r. split_and!; [|..|done].
  - apply IH. intros i y Hi. apply Hf.
    by rewrite lookup_app_l by (by eapply lookup_lt_Some).
  - apply Hf. by rewrite lookup_app_r, Nat.sub_diag by lia.
Qed.

End push_loop.

(** ** Keys of arrays *)

Section keys.
Implicit Types (items : list ReactNode) (e : ReactNode).

Lemma keys_nil : React.keys [] = [].
Proof. done. Qed.

Lemma keys_cons e items :
  React.keys (e :: items) =
  (if React.is_element e then [React.key e] else []) ++ React.keys items.
Proof.
  unfold React.keys. rewrite filter_cons.
  destruct (React.is_element e); by case_decide.
Qed.

Lemma keys_app items1 items2 :
  React.keys (items1 ++ items2) = React.keys items1 ++ React.keys items2.
Proof. unfold React.keys. by rewrite filter_app, fmap_app. Qed.

(** In an array whose element [i], when it is an element, has the key
    [`prefix${n + i}`], the keys are present, distinct and numbered from
    [n]. *)
Lemma indexed_keys prefix n items :
  (forall i e, items !! i = Some e -> React.is_element e = true ->
     React.key e = Some (template prefix (n + i))) ->
  React.unique_keys items /\
  (forall k, Some (template prefix k) ∈ React.keys items -> (n <= k)%nat).
Proof.
  revert n. induction items as [|e items IH]; intros n Hkey.
  { repeat split; [by intros ?%elem_of_nil | constructor | by intros ? ?%elem_of_nil]. }
  destruct (IH (S n)) as [[Hnone Hnodup] Hge].
  { intros i e' Hi He'. rewrite (Hkey (S i) e' Hi He'). do 2 f_equal. lia. }
  unfold React.unique_keys. rewrite keys_cons.
  destruct (React.is_element e) eqn:He; cbn.
  - rewrite (Hkey 0%nat e eq_refl He), Nat.add_0_r.
    repeat split.
    + by intros [?|?]%elem_of_cons.
    + constructor; [|done]. intros Hin%Hge. lia.
    + intros k [Hk|Hk%Hge]%elem_of_cons; [|lia].
      apply (inj Some), (inj (template prefix)) in Hk. lia.
  - repeat split; [done..|]. intros k Hk%Hge. lia.
Qed.

Lemma indexed_unique_keys prefix items :
  (forall i e, items !! i = Some e -> React.is_element e = true ->
     React.key e = Some (template prefix i)) ->
  React.unique_keys items.
Proof. intros Hkey. by apply (indexed_keys prefix 0 items). Qed.

Lemma well_keyed_children items :
  forallb React.well_keyed items = true <->
  forall e, e ∈ items -> React.well_keyed e = true.
Proof.
  rewrite forallb_forall. by setoid_rewrite list_elem_of_In.
Qed.

Lemma well_keyed_array items :
  React.well_keyed (RArray items) = true <->
  React.unique_keys items /\ forall e, e ∈ items -> React.well_keyed e = true.
Proof.
  cbn. by rewrite andb_true_iff, bool_decide_eq_true, well_keyed_children.
Qed.

End keys.

(** ** Bodies: trees that are well keyed and hold no heading *)

Definition body_ok (r : ReactNode) : Prop :=
  React.well_keyed r = true /\ React.by_type "h2" r = [].

Section body_ok.
Implicit Types (items children : list ReactNode) (e : ReactNode).

Lemma concat_by_type_nil type_ items :
  Forall (fun e => React.by_type type_ e = []) items ->
  concat (React.by_type type_ <$> items) = [].
Proof. induction 1 as [|e items He _ IH]; [done|]. cbn. by rewrite He, IH. Qed.

Lemma well_keyed_Forall items :
  forallb React.well_keyed items = true <->
  Forall (fun e => React.well_keyed e = true) items.
Proof. rewrite well_keyed_children. by rewrite Forall_forall. Qed.

Lemma body_ok_text text : body_ok (RText text).
Proof. done. Qed.

Lemma body_ok_undefined : body_ok RUndefined.
Proof. done. Qed.

Lemma body_ok_array items :
  React.unique_keys items -> Forall body_ok items -> body_ok (RArray items).
Proof.
  intros Hk Hall. split.
  - apply well_keyed_array. split; [done|].
    intros e He. by apply (proj1 (Forall_forall _ _) Hall e).
  - cbn. apply concat_by_type_nil. by eapply Forall_impl; [exact Hall|intros ? []].
Qed.

Lemma body_ok_fragment key children :
  Forall body_ok children -> body_ok (RFragment key children).
Proof.
  intros Hall. split; cbn.
  - apply well_keyed_Forall. by eapply Forall_impl; [exact Hall|intros ? []].
  - apply concat_by_type_nil. by eapply Forall_impl; [exact Hall|intros ? []].
Qed.

Lemma body_ok_element type_ key attributes children :
  type_ <> "h2" -> Forall body_ok children ->
  body_ok (RElement type_ key attributes children).
Proof.
  intros Ht Hall. split; cbn.
  - apply well_keyed_Forall. by eapply Forall_impl; [exact Hall|intros ? []].
  - case_decide; [done|]. cbn. apply concat_by_type_nil.
    by eapply Forall_impl; [exact Hall|intros ? []].
Qed.

(** An array made by a loop whose elements are bodies keyed by their
    index is a body. *)
Lemma body_ok_push_loop {A} prefix (f : nat -> A -> option ReactNode) l items :
  (forall i x e, f i x = Some e ->
     body_ok e /\ (React.is_element e = true ->
                   React.key e = Some (template prefix i))) ->
  push_loop f l = Some items -> body_ok (RArray items).
Proof.
  intros Hf Hl.
  pose proof (push_loop_Forall
    (fun i e => body_ok e /\ (React.is_element e = true ->
                              React.key e = Some (template prefix i)))
    f l items (fun i x e _ => Hf i x e) Hl) as Hall.
  apply body_ok_array.
  - apply (indexed_unique_keys prefix). intros i e Hi. by apply Hall.
  - apply Forall_lookup. intros i e Hi. by apply (Hall i e).
Qed.

End body_ok.

#[export] Hint Resolve body_ok_text body_ok_undefined body_ok_fragment
  body_ok_element : tsdoc.

(** Proves that a tree built from texts, fragments and elements other
    than headings is a body. *)
Ltac solve_body :=
  repeat first
    [ apply body_ok_text | apply body_ok_undefined | apply body_ok_fragment
    | apply body_ok_element; [done|] | apply Forall_cons_2 | apply Forall_nil_2
    | assumption ].
