(* ===== verification/Start.v ===== *)
(** * The start script of the playground

    [Module Start] models [src/playground/src/start.tsx]: the script logs
    the commit id, looks up the element [root], sets four properties of its
    inline style and mounts the application into it.

    The page is a record of what the script touches: the lines of the
    console, the elements by id with their inline style, and what is
    mounted in which container. [document.getElementById] returns a
    reference to the element or [null]; a reference is the id ([Handle]),
    so that an assignment to [rootDiv.style] changes the element of the
    page. The script is a computation in the monad [M] of the page and of
    errors: a step returns the page it leaves and a value or the error it
    throws, so that what happened before a [throw] stays visible.

    The theorems: without an element [root] the script logs, throws the
    [TypeError] of the first assignment and changes nothing else; with it,
    it returns, the four properties are set over what the style held, every
    other element and property is as before, and the application is
    mounted in [root]; the script succeeds exactly when the element
    exists, and running it again changes only the console. *)

From Stdlib Require Import ZArith String.
From stdpp Require Import base tactics option list strings gmap.
From S2P Require Import Prelude React.

Module Start.

(** ** The page *)

(** An element: its inline style, by property. *)
Record Element : Type := { style : gmap string string }.

(** A reference to an element of the page: its id. *)
Definition Handle : Type := string.

Record Page : Type :=
  { console : list string;
    elements : gmap string Element;
    mounted : gmap string ReactNode }.

(** ** The monad of the page and of errors *)

Definition M (A : Type) : Type := Page -> Page * result string A.

#[export] Instance M_ret : MRet M := fun A a page => (page, Ok a).

#[export] Instance M_bind : MBind M := fun A B k m page =>
  match m page with
  | (page', Ok a) => k a page'
  | (page', Err e) => (page', Err e)
  end.

Definition throw {A} (e : string) : M A := fun page => (page, Err e).

(** ** The calls of the script *)

(** [console.log(line)] *)
Definition console_log (line : string) : M unit := fun page =>
  ({| console := console page ++ [line];
      elements := elements page;
      mounted := mounted page |}, Ok tt).

(** [document.getElementById(id)]: a reference, or [null]. *)
Definition getElementById (id : string) : M (option Handle) := fun page =>
  (page, Ok (if elements page !! id is Some _ then Some id else None)).

Definition null_style_error : string :=
  "TypeError: Cannot read properties of null (reading 'style')".

(** [element.style[property] = value] *)
Definition set_style (element : option Handle) (property value : string) :
    M unit :=
  match element with
  | None => throw null_style_error
  | Some id => fun page =>
      ({| console := console page;
          elements :=
            alter (fun e => {| style := <[property := value]> (style e) |}) id
              (elements page);
          mounted := mounted page |}, Ok tt)
  end.

(** [ReactDOM.render(element, container)] *)
Definition ReactDOM_render (element : ReactNode) (container : option Handle) :
    M unit :=
  match container with
  | None => throw "Error: Target container is not a DOM element."
  | Some id => fun page =>
      ({| console := console page;
          elements := elements page;
          mounted := <[id := element]> (mounted page) |}, Ok tt)
  end.

(** [<App />] *)
Definition App : ReactNode := RElement "App" None [] [].

(** ** The script *)

Definition start (COMMIT_ID : string) : M unit :=
  console_log COMMIT_ID ;;
  rootDiv ← getElementById "root";
  set_style rootDiv "margin" "0" ;;
  set_style rootDiv "height" "100%" ;;
  set_style rootDiv "display" "flex" ;;
  set_style rootDiv "flexDirection" "column" ;;
  ReactDOM_render App rootDiv.

(** ** Specification *)

(** The style the script sets. *)
Definition root_style : gmap string string :=
  <["flexDirection" := "column"]>
    (<["display" := "flex"]> (<["height" := "100%"]> {["margin" := "0"]})).

(** The page after a run that finds the element [root] with the style
    [s]: the properties of [root_style] over those of [s]. *)
Definition started (COMMIT_ID : string) (e : Element) (page : Page) : Page :=
  {| console := console page ++ [COMMIT_ID];
     elements := <["root" := {| style := root_style ∪ style e |}]> (elements page);
     mounted := <["root" := App]> (mounted page) |}.

(** The page after a run that does not find it. *)
Definition logged (COMMIT_ID : string) (page : Page) : Page :=
  {| console := console page ++ [COMMIT_ID];
     elements := elements page;
     mounted := mounted page |}.

(** ** Steps *)

Section steps.
Implicit Types (page : Page) (e : Element) (id property value : string).

Lemma getElementById_Some id e page :
  elements page !! id = Some e -> getElementById id page = (page, Ok (Some id)).
Proof. unfold getElementById. by intros ->. Qed.

Lemma getElementById_None id page :
  elements page !! id = None -> getElementById id page = (page, Ok None).
Proof. unfold getElementById. by intros ->. Qed.

Lemma alter_Some {A} (f : A -> A) (m : gmap string A) id (x : A) :
  m !! id = Some x -> alter f id m = <[id := f x]> m.
Proof.
  intros Hx. rewrite <- (insert_id m id x Hx) at 1. by rewrite alter_insert_eq.
Qed.

(** An assignment through a reference replaces the element of the
    page. *)
Lemma set_style_Some id e property value page :
  elements page !! id = Some e ->
  set_style (Some id) property value page =
  ({| console := console page;
      elements := <[id := {| style := <[property := value]> (style e) |}]>
                    (elements page);
      mounted := mounted page |}, Ok tt).
Proof. intros He. cbn. by rewrite (alter_Some _ _ _ _ He). Qed.

Lemma root_style_union (s : gmap string string) :
  <["flexDirection" := "column"]>
    (<["display" := "flex"]> (<["height" := "100%"]> (<["margin" := "0"]> s))) =
  root_style ∪ s.
Proof.
  unfold root_style.
  by rewrite <- insert_empty, <- !insert_union_l, (left_id_L ∅ (∪)).
Qed.

End steps.

(** ** The runs of the script *)

Section runs.
Implicit Types (page : Page) (e : Element) (COMMIT_ID : string).

Lemma start_found COMMIT_ID e page :
  elements page !! "root" = Some e ->
  start COMMIT_ID page = (started COMMIT_ID e page, Ok tt).
Proof.
  intros He. unfold start, started, mbind, M_bind. cbn. rewrite He. cbn.
  rewrite (alter_Some _ _ _ _ He), !alter_insert_eq. cbn.
  by rewrite root_style_union.
Qed.

Lemma start_missing COMMIT_ID page :
  elements page !! "root" = None ->
  start COMMIT_ID page = (logged COMMIT_ID page, Err null_style_error).
Proof. intros He. unfold start, mbind, M_bind. cbn. by rewrite He. Qed.

End runs.

(** ** Correctness *)

Section correctness.
Implicit Types (page : Page) (e : Element) (COMMIT_ID id property : string).

(** On a page without an element [root] the script logs the commit
    id and then throws the [TypeError] of the assignment to
    [rootDiv.style.margin]: no style is changed and nothing is mounted. *)
Theorem start_without_root COMMIT_ID page :
  elements page !! "root" = None ->
  (start COMMIT_ID page).2 = Err null_style_error /\
  console (start COMMIT_ID page).1 = console page ++ [COMMIT_ID] /\
  elements (start COMMIT_ID page).1 = elements page /\
  mounted (start COMMIT_ID page).1 = mounted page.
Proof. intros He. by rewrite (start_missing _ _ He). Qed.

(** C10: on a page with an element [root] the script returns; the style
    of [root] then has margin 0, height 100%, display flex and
    flexDirection column, and every other property as before; every other
    element is as before; the application is mounted in [root] and the
    other containers are as before; the commit id is the last line of the
    console. *)
Theorem start_with_root COMMIT_ID e page :
  elements page !! "root" = Some e ->
  let page' := (start COMMIT_ID page).1 in
  (start COMMIT_ID page).2 = Ok tt /\
  console page' = console page ++ [COMMIT_ID] /\
  (exists e', elements page' !! "root" = Some e' /\
     forall property, style e' !! property =
       match root_style !! property with
       | Some value => Some value
       | None => style e !! property
       end) /\
  (forall id, id <> "root" -> elements page' !! id = elements page !! id) /\
  mounted page' !! "root" = Some App /\
  (forall id, id <> "root" -> mounted page' !! id = mounted page !! id).
Proof.
  intros He. rewrite (start_found _ _ _ He). cbn. split_and!; try done.
  - eexists. rewrite lookup_insert_eq. split; [done|]. intros property. cbn.
    rewrite lookup_union. by destruct (root_style !! property), (style e !! property).
  - intros id Hid. by rewrite lookup_insert_ne.
  - by rewrite lookup_insert_eq.
  - intros id Hid. by rewrite lookup_insert_ne.
Qed.

(** The script succeeds exactly when the page has an element [root],
    and a second run after a successful one succeeds and changes nothing
    but the console. *)
Theorem start_again COMMIT_ID page :
  ((start COMMIT_ID page).2 = Ok tt <-> is_Some (elements page !! "root")) /\
  ((start COMMIT_ID page).2 = Ok tt ->
   let page' := (start COMMIT_ID page).1 in
   (start COMMIT_ID page').2 = Ok tt /\
   elements (start COMMIT_ID page').1 = elements page' /\
   mounted (start COMMIT_ID page').1 = mounted page').
Proof.
  destruct (elements page !! "root") as [e|] eqn:He.
  - rewrite (start_found _ _ _ He). split; [by split; [eexists|]|]. intros _. cbn.
    erewrite start_found by apply lookup_insert_eq. cbn.
    rewrite !insert_insert_eq. split_and!; [done| |done]. do 2 f_equal.
    by rewrite (assoc_L (∪)), (idemp_L (∪)).
  - rewrite (start_missing _ _ He). cbn. split; [|done].
    split; [done|by intros []].
Qed.

End correctness.

(** ** Examples *)

Section examples.

(** A page whose [root] has a margin and a colour, beside another
    element. *)
Definition example_root : Element :=
  {| style := <["margin" := "8px"]> {["color" := "red"]} |}.

Definition example_page : Page :=
  {| console := [];
     elements := <["root" := example_root]> {["other" := {| style := ∅ |}]};
     mounted := ∅ |}.

Definition empty_page : Page :=
  {| console := ["ready"]; elements := ∅; mounted := ∅ |}.

Lemma start_without_root_witness :
  (start "abc123" empty_page).2 = Err null_style_error /\
  console (start "abc123" empty_page).1 = console empty_page ++ ["abc123"] /\
  elements (start "abc123" empty_page).1 = elements empty_page /\
  mounted (start "abc123" empty_page).1 = mounted empty_page.
Proof. by apply (start_without_root "abc123" empty_page). Defined.

Lemma start_with_root_witness :
  let page' := (start "abc123" example_page).1 in
  (start "abc123" example_page).2 = Ok tt /\
  console page' = console example_page ++ ["abc123"] /\
  (exists e', elements page' !! "root" = Some e' /\
     forall property, style e' !! property =
       match root_style !! property with
       | Some value => Some value
       | None => style example_root !! property
       end) /\
  (forall id, id <> "root" -> elements page' !! id = elements example_page !! id) /\
  mounted page' !! "root" = Some App /\
  (forall id, id <> "root" -> mounted page' !! id = mounted example_page !! id).
Proof. by apply (start_with_root "abc123" example_root example_page). Defined.

(** On the example page the margin of [root] is replaced, its colour is
    kept and the other element is untouched. *)
Example example_start :
  (start "abc123" example_page).2 = Ok tt /\
  (fun e => (style e !! "margin", style e !! "color", style e !! "display",
             style e !! "width")) <$>
    elements (start "abc123" example_page).1 !! "root" =
    Some (Some "0", Some "red", Some "flex", None) /\
  elements (start "abc123" example_page).1 !! "other" = Some {| style := ∅ |}.
Proof. by vm_compute. Qed.

End examples.

End Start.
