(* ===== verification/HtmlView.v ===== *)
(** * DocHtmlView

    [Module DocHtmlView] models the React component [DocHtmlView] of
    [src/playground/src/DocHtmlView.tsx], which renders a [DocComment] as a
    tree of React nodes: [render] builds the array [outputElements] section
    by section (summary, parameters, return value, remarks, examples, see
    also, modifiers), [_renderContainer] renders the nodes of a container
    under the keys [key_0], [key_1], ..., and [_renderDocNode] dispatches
    on the kind of a node and returns [undefined] for the kinds it does not
    know.

    The comment and its nodes are classes of the library that are not part
    of the sources; the view reads them through accessors, and the records
    [DocComment], [DocBlock], [DocBlockTag], [DocLinkTag] and the tagged
    union [DocNode] hold what it reads. The parameters are a
    [DocParamCollection] of [DocParamBlock]s. [trimSpacesInParagraph] is the
    interface [NodeTransforms].

    [_renderDocNode] and [_renderContainer] call each other, and a
    paragraph is rendered after a transformation, so the recursion is not
    structural: both run on fuel, and return [None] when it runs out. A
    transformation that does not deepen a paragraph makes the depth of the
    nodes enough fuel, and the result does not depend on the fuel beyond
    that ([render_terminates], from [render_output_is_Some] and
    [render_output_mono]).

    The specification of [render] is the [outline] of a comment: the keys
    and headings of the sections of the output, in order. The theorems:
    the headings of the rendered tree are those of the outline; its arrays
    have unique keys exactly when at most one section is keyed [seeAlso];
    a container renders to one element per node, keyed by position; a link
    never has an empty text; the table of parameters has a row per block
    of the collection. *)

From Stdlib Require Import ZArith String Lia.
From stdpp Require Import base tactics option list strings pretty.
From S2P Require Import Prelude JsString ParamCollection React.

Module DocHtmlView.

(** ** What the view reads of a comment *)

(** [DocMemberIdentifier], [DocMemberReference] and
    [DocDeclarationReference]: the path from the destination of a link to
    the identifier of its last member. *)
Record DocMemberIdentifier : Type := { identifier : string }.

Record DocMemberReference : Type :=
  { memberIdentifier : option DocMemberIdentifier }.

Record DocDeclarationReference : Type :=
  { memberReferences : list DocMemberReference }.

(** [DocLinkTag]: a destination that is a URL or a declaration, and an
    optional text. *)
Record DocLinkTag : Type :=
  { urlDestination : option string;
    linkText : option string;
    codeDestination : option DocDeclarationReference }.

(** A node, by kind, with what the view reads of it; [NOther] is a node
    of any other kind. *)
#[warnings="-register-all"]
Inductive DocNode : Type :=
| NCodeSpan (code : string)
| NErrorText (text : string)
| NEscapedText (decodedText : string)
| NFencedCode (code : string)
| NLinkTag (linkTag : DocLinkTag)
| NParagraph (nodes : list DocNode)
| NPlainText (text : string)
| NSoftBreak
| NOther (kind : string).

(** [DocBlockTag] and [DocBlock]: a tag and the nodes of its content. *)
Record DocBlockTag : Type :=
  { tagName : string; tagNameWithUpperCase : string }.

Record DocBlock : Type :=
  { blockTag : DocBlockTag; content : list DocNode }.

(** [DocComment]: the sections the view renders; [modifierTagSet] holds
    the nodes of the modifier tag set. *)
Record DocComment : Type :=
  { summarySection : option (list DocNode);
    params : DocParamCollection.t (DocParamBlock (list DocNode));
    returnsBlock : option DocBlock;
    remarksBlock : option DocBlock;
    customBlocks : list DocBlock;
    seeBlocks : list DocBlock;
    modifierTagSet : list DocBlockTag }.

(** [IDocHtmlViewProps]; the style is passed on as it is. *)
Record IDocHtmlViewProps : Type :=
  { style : option string; docComment : DocComment }.

(** [node.kind] *)
Definition kind (node : DocNode) : string :=
  match node with
  | NCodeSpan _ => "CodeSpan"
  | NErrorText _ => "ErrorText"
  | NEscapedText _ => "EscapedText"
  | NFencedCode _ => "FencedCode"
  | NLinkTag _ => "LinkTag"
  | NParagraph _ => "Paragraph"
  | NPlainText _ => "PlainText"
  | NSoftBreak => "SoftBreak"
  | NOther kind => kind
  end.

(** The kinds [_renderDocNode] has a case for. *)
Definition rendered_kinds : list string :=
  ["CodeSpan"; "ErrorText"; "EscapedText"; "FencedCode"; "LinkTag";
   "Paragraph"; "PlainText"; "SoftBreak"].

(** The nesting of paragraphs in a node and in a list of nodes. *)
Fixpoint depth (node : DocNode) : nat :=
  match node with
  | NParagraph nodes => S (max_list (depth <$> nodes))
  | _ => 1
  end.

Definition nodes_depth (nodes : list DocNode) : nat :=
  max_list (depth <$> nodes).

(** A node of another kind does not claim a kind the view renders. *)
Fixpoint node_wf (node : DocNode) : bool :=
  match node with
  | NParagraph nodes => forallb node_wf nodes
  | NOther kind => bool_decide (kind ∉ rendered_kinds)
  | _ => true
  end.

(** [DocNodeTransforms.trimSpacesInParagraph], on the nodes of a
    paragraph: it does not deepen the paragraph. *)
Class NodeTransforms : Type :=
  { trimSpacesInParagraph : list DocNode -> list DocNode;
    trimSpacesInParagraph_depth nodes :
      (nodes_depth (trimSpacesInParagraph nodes) <= nodes_depth nodes)%nat }.

(** [StandardTags.example.tagNameWithUpperCase] *)
Definition example_tagNameWithUpperCase : string := "@EXAMPLE".

Section view.
Context `{NodeTransforms}.

(** ** JSX *)

(** [<h2 className="doc-heading">{text}</h2>] *)
Definition heading (text : string) : ReactNode :=
  RElement "h2" None [("className", "doc-heading")] [RText text].

(** [<a key={key} href="#">{linkText}</a>] *)
Definition anchor (key linkText : string) : ReactNode :=
  RElement "a" (Some key) [("href", "#")] [RText linkText].

(** ** _renderDocNode and _renderContainer *)

(** The identifier of the last member of the declaration a link points
    to, or the empty string. *)
Definition link_identifier (linkTag : DocLinkTag) : string :=
  match codeDestination linkTag with
  | Some codeDestination =>
      let memberReferences := memberReferences codeDestination in
      if (0 <? List.length memberReferences)%nat then
        match last memberReferences with
        | Some memberReference =>
            match memberIdentifier memberReference with
            | Some memberIdentifier => identifier memberIdentifier
            | None => ""
            end
        | None => ""
        end
      else ""
  | None => ""
  end.

(** The case [LinkTag]. *)
Definition renderLinkTag (linkTag : DocLinkTag) (key : string) : ReactNode :=
  if Js.truthy_opt (urlDestination linkTag) then
    let linkText :=
      Js.or_opt (linkText linkTag) (default "" (urlDestination linkTag)) in
    anchor key linkText
  else
    let identifier := link_identifier linkTag in
    let linkText := Js.or (Js.or_opt (linkText linkTag) identifier) "???" in
    anchor key linkText.

(** [_renderContainer], given [_renderDocNode]. *)
Definition renderContainer_with
    (renderDocNode : DocNode -> string -> option ReactNode)
    (section : list DocNode) : option ReactNode :=
  elements ← push_loop (fun n node => renderDocNode node (template "key_" n))
                section;
  Some (RFragment None [RArray elements]).

Fixpoint _renderDocNode (fuel : nat) (node : DocNode) (key : string) :
    option ReactNode :=
  match fuel with
  | O => None
  | S fuel' =>
      match node with
      | NCodeSpan code =>
          Some (RElement "code" (Some key) [("className", "doc-code-span")]
                  [RText code])
      | NErrorText text => Some (RFragment (Some key) [RText text])
      | NEscapedText decodedText =>
          Some (RFragment (Some key) [RText decodedText])
      | NFencedCode code =>
          Some (RElement "pre" (Some key) [("className", "doc-fenced-code")]
                  [RElement "code" (Some key) [] [RText code]])
      | NLinkTag linkTag => Some (renderLinkTag linkTag key)
      | NParagraph nodes =>
          let transformedParagraph := trimSpacesInParagraph nodes in
          c ← renderContainer_with (_renderDocNode fuel') transformedParagraph;
          Some (RElement "p" (Some key) [] [c])
      | NPlainText text => Some (RFragment (Some key) [RText text])
      | NSoftBreak => Some (RFragment (Some key) [RText " "])
      | NOther _ => Some RUndefined
      end
  end.

Definition _renderContainer (fuel : nat) (section : list DocNode) :
    option ReactNode :=
  renderContainer_with (_renderDocNode fuel) section.

(** ** render, section by section *)

(** A section of the output: a fragment with a key, a heading and a
    body. *)
Definition output_section (key text : string) (body : ReactNode) : ReactNode :=
  RFragment (Some key) [heading text; body].

Definition render_summary (fuel : nat) (docComment : DocComment)
    (outputElements : list ReactNode) : option (list ReactNode) :=
  match summarySection docComment with
  | Some summarySection =>
      c ← _renderContainer fuel summarySection;
      Some (outputElements ++ [output_section "summary" "Summary" c])
  | None => Some outputElements
  end.

(** A row of the table of parameters. *)
Definition render_row (fuel : nat) (n : nat)
    (paramBlock : DocParamBlock (list DocNode)) : option ReactNode :=
  c ← _renderContainer fuel (blockContent paramBlock);
  Some (RElement "tr" (Some (template "param_" n)) []
          [RElement "td" None [] [RText (parameterName paramBlock)];
           RElement "td" None [] [c]]).

Definition parameters_table (rows : list ReactNode) : ReactNode :=
  RElement "table" None [("className", "doc-table")]
    [RElement "thead" None []
       [RElement "tr" None []
          [RElement "th" None [] [RText "Name"];
           RElement "th" None [] [RText "Description"]]];
     RElement "tbody" None [] [RArray rows]].

Definition render_parameters (fuel : nat) (docComment : DocComment)
    (outputElements : list ReactNode) : option (list ReactNode) :=
  if (0 <? DocParamCollection.count (params docComment))%Z then
    rows ← push_loop (render_row fuel)
             (DocParamCollection.blocks (params docComment));
    Some (outputElements ++
            [output_section "parameters" "Parameters" (parameters_table rows)])
  else Some outputElements.

(** The blocks [returns] and [remarks]. *)
Definition render_block (fuel : nat) (key text : string)
    (block : option DocBlock) (outputElements : list ReactNode) :
    option (list ReactNode) :=
  match block with
  | Some block =>
      c ← _renderContainer fuel (content block);
      Some (outputElements ++ [output_section key text c])
  | None => Some outputElements
  end.

Definition exampleBlocks (docComment : DocComment) : list DocBlock :=
  filter (fun x => tagNameWithUpperCase (blockTag x) = example_tagNameWithUpperCase)
    (customBlocks docComment).

(** The heading of an example, from the number of examples and its
    own. *)
Definition example_heading (count exampleNumber : nat) : string :=
  if (1 <? count)%nat then template "Example " exampleNumber else "Example".

(** One turn of the loop over the examples, on the array and the
    counter. *)
Definition render_example (fuel : nat) (count : nat)
    (acc : option (list ReactNode * nat)) (exampleBlock : DocBlock) :
    option (list ReactNode * nat) :=
  st ← acc;
  let heading := example_heading count st.2 in
  c ← _renderContainer fuel (content exampleBlock);
  Some (st.1 ++ [output_section "seeAlso" heading c], S st.2).

Definition render_examples (fuel : nat) (docComment : DocComment)
    (outputElements : list ReactNode) : option (list ReactNode) :=
  let exampleBlocks := exampleBlocks docComment in
  fst <$> foldl (render_example fuel (List.length exampleBlocks))
            (Some (outputElements, 1%nat)) exampleBlocks.

Definition render_seeBlock (fuel : nat) (n : nat) (seeBlock : DocBlock) :
    option ReactNode :=
  c ← _renderContainer fuel (content seeBlock);
  Some (RElement "li" (Some (template "item_" n)) [] [c]).

Definition render_seeAlso (fuel : nat) (docComment : DocComment)
    (outputElements : list ReactNode) : option (list ReactNode) :=
  if (0 <? List.length (seeBlocks docComment))%nat then
    listItems ← push_loop (render_seeBlock fuel) (seeBlocks docComment);
    Some (outputElements ++
            [output_section "seeAlso" "See Also"
               (RElement "ul" None [] [RArray listItems])])
  else Some outputElements.

Definition render_modifier (n : nat) (modifierTag : DocBlockTag) : ReactNode :=
  RFragment (Some (template "modifier_" n))
    [RText " ";
     RElement "code" None [("className", "doc-code-span")]
       [RText (tagName modifierTag)]].

Definition render_modifiers (docComment : DocComment)
    (outputElements : list ReactNode) : option (list ReactNode) :=
  let modifierTags := modifierTagSet docComment in
  if (0 <? List.length modifierTags)%nat then
    modifierElements ← push_loop (fun n tag => Some (render_modifier n tag))
                         modifierTags;
    Some (outputElements ++
            [output_section "modifiers" "Modifiers" (RArray modifierElements)])
  else Some outputElements.

(** The array [outputElements] at the end of [render]. *)
Definition render_output (fuel : nat) (docComment : DocComment) :
    option (list ReactNode) :=
  outputElements ← render_summary fuel docComment [];
  outputElements ← render_parameters fuel docComment outputElements;
  outputElements ←
    render_block fuel "returns" "Return Value" (returnsBlock docComment)
      outputElements;
  outputElements ←
    render_block fuel "remarks" "Remarks" (remarksBlock docComment)
      outputElements;
  outputElements ← render_examples fuel docComment outputElements;
  outputElements ← render_seeAlso fuel docComment outputElements;
  render_modifiers docComment outputElements.

Definition render (fuel : nat) (props : IDocHtmlViewProps) : option ReactNode :=
  outputElements ← render_output fuel (docComment props);
  Some (RElement "div" None
          (match style props with Some s => [("style", s)] | None => [] end)
          [RText " "; RArray outputElements; RText " "]).

(** ** Specification *)

(** The containers [render] renders: the summary, the contents of the
    parameter blocks, of the returns and remarks blocks, of the examples
    and of the see blocks. *)
Definition containers (docComment : DocComment) : list (list DocNode) :=
  option_list (summarySection docComment) ++
  (blockContent <$> DocParamCollection.blocks (params docComment)) ++
  (content <$> option_list (returnsBlock docComment)) ++
  (content <$> option_list (remarksBlock docComment)) ++
  (content <$> exampleBlocks docComment) ++
  (content <$> seeBlocks docComment).

(** The fuel a comment needs: the depth of its deepest container. *)
Definition comment_depth (docComment : DocComment) : nat :=
  max_list (nodes_depth <$> containers docComment).

(** The headings of [n] examples: [Example] for one example, [Example 1]
    to [Example n] for more. *)
Definition example_titles (n : nat) : list string :=
  if (n <=? 1)%nat then replicate n "Example"
  else (fun i => "Example " +:+ pretty i) <$> seq 1 n.

(** The sections of the output, by key and heading, in the order of
    [render]. *)
Definition outline (docComment : DocComment) : list (string * string) :=
  (if summarySection docComment is Some _ then [("summary", "Summary")] else []) ++
  (if (0 <? DocParamCollection.count (params docComment))%Z
   then [("parameters", "Parameters")] else []) ++
  (if returnsBlock docComment is Some _
   then [("returns", "Return Value")] else []) ++
  (if remarksBlock docComment is Some _ then [("remarks", "Remarks")] else []) ++
  (pair "seeAlso" <$> example_titles (List.length (exampleBlocks docComment))) ++
  (if seeBlocks docComment is [] then [] else [("seeAlso", "See Also")]) ++
  (if modifierTagSet docComment is [] then [] else [("modifiers", "Modifiers")]).

(** An element of the output is the section of a key and a heading, over
    a body that is well keyed and holds no heading. *)
Definition is_section (kh : string * string) (e : ReactNode) : Prop :=
  exists body, e = output_section kh.1 kh.2 body /\ body_ok body.

(** The array [out'] is [out] with the sections of an outline pushed. *)
Definition extends (khs : list (string * string))
    (out out' : list ReactNode) : Prop :=
  exists sections, out' = out ++ sections /\ Forall2 is_section khs sections.

(** The text of a link: the first of the link text, the URL and the
    identifier of the last member that is not empty, or [???]. *)
Definition link_text (linkTag : DocLinkTag) : string :=
  foldr Js.or_opt "???"
    [linkText linkTag; urlDestination linkTag; Some (link_identifier linkTag)].

(** The text of the first cell of a row. *)
Definition row_name (row : ReactNode) : string :=
  match row with
  | RElement _ _ _ (cell :: _) => React.text_content cell
  | _ => ""
  end.

(** ** Fuel *)

Section fuel.
Implicit Types (fuel : nat) (node : DocNode) (section : list DocNode).
Implicit Types (key : string) (r e : ReactNode).

Lemma depth_pos node : (1 <= depth node)%nat.
Proof. destruct node; cbn; lia. Qed.

Lemma nodes_depth_elem_of node section :
  node ∈ section -> (depth node <= nodes_depth section)%nat.
Proof.
  intros Hin. by apply max_list_elem_of_le, list_elem_of_fmap_2.
Qed.

Lemma renderContainer_with_mono
    (f g : DocNode -> string -> option ReactNode) section r :
  (forall node key e, f node key = Some e -> g node key = Some e) ->
  renderContainer_with f section = Some r ->
  renderContainer_with g section = Some r.
Proof.
  intros Hfg. unfold renderContainer_with.
  destruct (push_loop _ section) as [elements|] eqn:Hf; [|done].
  by rewrite (push_loop_mono _ (fun n node => g node (template "key_" n))
                _ _ (fun i x e => Hfg x _ e) Hf).
Qed.

Lemma renderContainer_with_is_Some
    (f : DocNode -> string -> option ReactNode) section :
  (forall node key, node ∈ section -> is_Some (f node key)) ->
  is_Some (renderContainer_with f section).
Proof.
  intros Hf. unfold renderContainer_with.
  destruct (push_loop_is_Some (fun n node => f node (template "key_" n)) section)
    as [elements ->]; [|by eexists].
  intros i node Hi. by eapply Hf, list_elem_of_lookup_2.
Qed.

(** More fuel does not change a result. *)
Lemma renderDocNode_mono fuel fuel' node key r :
  (fuel <= fuel')%nat ->
  _renderDocNode fuel node key = Some r -> _renderDocNode fuel' node key = Some r.
Proof.
  revert fuel' node key r.
  induction fuel as [|fuel IH]; intros [|fuel'] node key r Hle; try done; [lia|].
  destruct node; cbn; try done.
  destruct (renderContainer_with (_renderDocNode fuel) _) as [c|] eqn:Hc; [|done].
  erewrite renderContainer_with_mono; [done| |exact Hc].
  intros node key' e. apply IH. lia.
Qed.

Lemma renderContainer_mono fuel fuel' section r :
  (fuel <= fuel')%nat ->
  _renderContainer fuel section = Some r -> _renderContainer fuel' section = Some r.
Proof.
  intros Hle. apply renderContainer_with_mono.
  intros node key e. by apply renderDocNode_mono.
Qed.

(** The depth of a node is enough fuel. *)
Lemma renderDocNode_is_Some fuel node key :
  (depth node <= fuel)%nat -> is_Some (_renderDocNode fuel node key).
Proof.
  revert node key. induction fuel as [|fuel IH]; intros node key Hd.
  { pose proof (depth_pos node). lia. }
  destruct node; cbn; try by eexists.
  destruct (renderContainer_with_is_Some (_renderDocNode fuel)
              (trimSpacesInParagraph nodes)) as [c ->]; [|by eexists].
  intros node key' Hin%nodes_depth_elem_of. apply IH.
  pose proof (trimSpacesInParagraph_depth nodes). cbn in Hd.
  unfold nodes_depth in *. lia.
Qed.

Lemma renderContainer_is_Some fuel section :
  (nodes_depth section <= fuel)%nat -> is_Some (_renderContainer fuel section).
Proof.
  intros Hd. apply renderContainer_with_is_Some.
  intros node key Hin%nodes_depth_elem_of. apply renderDocNode_is_Some. lia.
Qed.

End fuel.

(** ** What [_renderDocNode] and [_renderContainer] return *)

Section rendered.
Implicit Types (fuel : nat) (node : DocNode) (section : list DocNode).
Implicit Types (key : string) (r e : ReactNode).

Lemma renderLinkTag_anchor linkTag key :
  exists linkText, renderLinkTag linkTag key = anchor key linkText.
Proof. unfold renderLinkTag. destruct (Js.truthy_opt _); by eexists. Qed.

Lemma renderContainer_with_ok
    (f : DocNode -> string -> option ReactNode) section r :
  (forall node key e, f node key = Some e ->
     body_ok e /\ (React.is_element e = true -> React.key e = Some key)) ->
  renderContainer_with f section = Some r -> body_ok r.
Proof.
  intros Hf. unfold renderContainer_with.
  destruct (push_loop _ section) as [elements|] eqn:Hl; intros; simplify_eq/=.
  apply body_ok_fragment, Forall_cons_2, Forall_nil_2.
  apply (body_ok_push_loop "key_" _ _ _ (fun i x e => Hf x _ e) Hl).
Qed.

(** A rendered node is [undefined] or an element with the key it was
    given, and it is a body. *)
Lemma renderDocNode_ok fuel node key r :
  _renderDocNode fuel node key = Some r ->
  body_ok r /\ (React.is_element r = true -> React.key r = Some key).
Proof.
  revert node key r. induction fuel as [|fuel IH]; intros node key r; [done|].
  destruct node; cbn; intros Hr; simplify_eq; try (split; [solve_body|done]).
  - destruct (renderLinkTag_anchor linkTag key) as [linkText ->].
    split; [solve_body|done].
  - destruct (renderContainer_with _ _) as [c|] eqn:Hc; simplify_eq/=.
    split; [|done]. apply body_ok_element, Forall_cons_2, Forall_nil_2; [done|].
    by apply (renderContainer_with_ok _ _ _ IH Hc).
Qed.

Lemma renderContainer_ok fuel section r :
  _renderContainer fuel section = Some r -> body_ok r.
Proof. apply renderContainer_with_ok, renderDocNode_ok. Qed.

End rendered.

(** ** The sections of the output *)

Section sections.
Implicit Types (fuel : nat) (docComment : DocComment).
Implicit Types (out : list ReactNode) (khs : list (string * string)).

Lemma extends_nil out : extends [] out out.
Proof. exists []. by rewrite app_nil_r. Qed.

Lemma extends_one key text body out :
  body_ok body -> extends [(key, text)] out (out ++ [output_section key text body]).
Proof. intros Hb. eexists. split; [done|]. repeat constructor. by exists body. Qed.

Lemma extends_trans khs1 khs2 out1 out2 out3 :
  extends khs1 out1 out2 -> extends khs2 out2 out3 ->
  extends (khs1 ++ khs2) out1 out3.
Proof.
  intros (s1 & -> & H1) (s2 & -> & H2). exists (s1 ++ s2).
  split; [by rewrite app_assoc|]. by apply Forall2_app.
Qed.

Lemma render_block_extends fuel key text block out out' :
  render_block fuel key text block out = Some out' ->
  extends (if block is Some _ then [(key, text)] else []) out out'.
Proof.
  destruct block as [block|]; cbn; [|intros [= <-]; apply extends_nil].
  destruct (_renderContainer fuel _) as [c|] eqn:Hc; intros; simplify_eq/=.
  by apply extends_one, (renderContainer_ok fuel (content block)).
Qed.

Lemma render_summary_extends fuel docComment out out' :
  render_summary fuel docComment out = Some out' ->
  extends (if summarySection docComment is Some _
           then [("summary", "Summary")] else []) out out'.
Proof.
  unfold render_summary.
  destruct (summarySection docComment) as [summary|]; cbn;
    [|intros [= <-]; apply extends_nil].
  destruct (_renderContainer fuel _) as [c|] eqn:Hc; intros; simplify_eq/=.
  by apply extends_one, (renderContainer_ok fuel summary).
Qed.

Lemma render_row_ok fuel n paramBlock e :
  render_row fuel n paramBlock = Some e ->
  body_ok e /\ (React.is_element e = true ->
                React.key e = Some (template "param_" n)).
Proof.
  unfold render_row.
  destruct (_renderContainer fuel _) as [c|] eqn:Hc; intros; simplify_eq/=.
  apply renderContainer_ok in Hc. split; [solve_body|done].
Qed.

Lemma render_parameters_extends fuel docComment out out' :
  render_parameters fuel docComment out = Some out' ->
  extends (if (0 <? DocParamCollection.count (params docComment))%Z
           then [("parameters", "Parameters")] else []) out out'.
Proof.
  unfold render_parameters.
  destruct (0 <? _)%Z; [|intros [= <-]; apply extends_nil].
  destruct (push_loop _ _) as [rows|] eqn:Hrows; intros; simplify_eq/=.
  apply extends_one. unfold parameters_table.
  pose proof (body_ok_push_loop "param_" _ _ _ (render_row_ok fuel) Hrows).
  solve_body.
Qed.

Lemma render_seeBlock_ok fuel n seeBlock e :
  render_seeBlock fuel n seeBlock = Some e ->
  body_ok e /\ (React.is_element e = true ->
                React.key e = Some (template "item_" n)).
Proof.
  unfold render_seeBlock.
  destruct (_renderContainer fuel _) as [c|] eqn:Hc; intros; simplify_eq/=.
  apply renderContainer_ok in Hc. split; [solve_body|done].
Qed.

Lemma render_seeAlso_extends fuel docComment out out' :
  render_seeAlso fuel docComment out = Some out' ->
  extends (if seeBlocks docComment is [] then [] else [("seeAlso", "See Also")])
    out out'.
Proof.
  unfold render_seeAlso.
  destruct (seeBlocks docComment) as [|seeBlock l] eqn:Hsee; cbn -[push_loop];
    [intros [= <-]; apply extends_nil|].
  destruct (push_loop _ _) as [listItems|] eqn:Hitems; intros; simplify_eq/=.
  apply extends_one.
  pose proof (body_ok_push_loop "item_" _ _ _ (render_seeBlock_ok fuel) Hitems).
  solve_body.
Qed.

Lemma render_modifiers_extends docComment out out' :
  render_modifiers docComment out = Some out' ->
  extends (if modifierTagSet docComment is []
           then [] else [("modifiers", "Modifiers")]) out out'.
Proof.
  unfold render_modifiers.
  destruct (modifierTagSet docComment) as [|tag l] eqn:Htags; cbn -[push_loop];
    [intros [= <-]; apply extends_nil|].
  destruct (push_loop _ _) as [modifierElements|] eqn:Hm; intros; simplify_eq/=.
  apply extends_one. refine (body_ok_push_loop "modifier_" _ _ _ _ Hm).
  intros i x e [= <-]. split; [unfold render_modifier; solve_body|done].
Qed.

Lemma render_example_None fuel count (l : list DocBlock) :
  foldl (render_example fuel count) None l = None.
Proof. by induction l. Qed.

(** The loop over the examples pushes one section per example, headed
    by the number it counts from [k]. *)
Lemma render_examples_loop fuel count (l : list DocBlock) out k st :
  foldl (render_example fuel count) (Some (out, k)) l = Some st ->
  extends (imap (fun i _ => ("seeAlso", example_heading count (k + i))) l)
    out st.1.
Proof.
  revert out k. induction l as [|x l IH]; intros out k; cbn.
  { intros [= <-]. apply extends_nil. }
  destruct (_renderContainer fuel (content x)) as [c|] eqn:Hc; cbn;
    [|by rewrite render_example_None].
  intros Hst%IH. rewrite Nat.add_0_r.
  apply (extends_trans [_] _ _ _ _
           (extends_one _ _ c out (renderContainer_ok _ _ _ Hc))).
  erewrite imap_ext; [exact Hst|]. intros i y _. cbn. do 2 f_equal. lia.
Qed.

(** The headings the loop gives to the examples are their titles. *)
(** The examples of a comment are its custom blocks with the tag of
    an example. *)
Lemma exampleBlocks_length (c : DocComment) :
  length (exampleBlocks c) =
  length (filter (fun tag => tagNameWithUpperCase tag = example_tagNameWithUpperCase)
            (blockTag <$> customBlocks c)).
Proof.
  unfold exampleBlocks. induction (customBlocks c) as [|b bs IH]; [done|].
  rewrite fmap_cons, !filter_cons. case_decide; cbn; by rewrite IH.
Qed.

Lemma example_headings_titles (l : list DocBlock) :
  imap (fun i _ => ("seeAlso", example_heading (List.length l) (1 + i))) l =
  pair "seeAlso" <$> example_titles (List.length l).
Proof.
  unfold example_heading, example_titles.
  destruct (Nat.ltb_spec 1 (List.length l)), (Nat.leb_spec (List.length l) 1);
    try lia.
  - by rewrite (imap_seq l (fun i => ("seeAlso", template "Example " i)) 1),
      <- list_fmap_compose.
  - by destruct l as [|x [|y l]]; cbn in *; try lia.
Qed.

Lemma render_examples_extends fuel docComment out out' :
  render_examples fuel docComment out = Some out' ->
  extends (pair "seeAlso" <$>
             example_titles (List.length (exampleBlocks docComment))) out out'.
Proof.
  unfold render_examples. intros Hst.
  apply fmap_Some in Hst as (st & Hst%render_examples_loop & ->).
  by rewrite <- example_headings_titles.
Qed.

(** The output of [render] is the sections of the outline, in order. *)
Lemma render_output_outline fuel docComment out :
  render_output fuel docComment = Some out ->
  Forall2 is_section (outline docComment) out.
Proof.
  unfold render_output. intros Hout.
  repeat (apply bind_Some in Hout as (? & ? & Hout)).
  assert (extends (outline docComment) [] out) as (sections & -> & Hs); [|done].
  unfold outline.
  repeat (eapply extends_trans;
          [eauto using render_summary_extends, render_parameters_extends,
             render_block_extends, render_examples_extends,
             render_seeAlso_extends|]).
  by apply render_modifiers_extends.
Qed.

End sections.

(** ** Termination of [render] *)

Section termination.
Implicit Types (fuel : nat) (docComment : DocComment) (out : list ReactNode).

Lemma containers_depth fuel docComment section :
  (comment_depth docComment <= fuel)%nat ->
  section ∈ containers docComment -> (nodes_depth section <= fuel)%nat.
Proof.
  intros Hd Hin. etrans; [|exact Hd].
  by apply max_list_elem_of_le, list_elem_of_fmap_2.
Qed.

Lemma render_block_is_Some fuel key text block out :
  (forall b, block = Some b -> (nodes_depth (content b) <= fuel)%nat) ->
  is_Some (render_block fuel key text block out).
Proof.
  destruct block as [b|]; cbn; [|by eexists]. intros Hd.
  destruct (renderContainer_is_Some fuel (content b)) as [c ->]; eauto.
Qed.

Lemma render_examples_is_Some fuel count (l : list DocBlock) st :
  (forall x, x ∈ l -> (nodes_depth (content x) <= fuel)%nat) ->
  is_Some (foldl (render_example fuel count) (Some st) l).
Proof.
  revert st. induction l as [|x l IH]; intros st Hd; [by eexists|]. cbn.
  destruct (renderContainer_is_Some fuel (content x)) as [c ->].
  { apply Hd. by left. }
  apply IH. intros y Hy. apply Hd. by right.
Qed.

Lemma containers_elem_of docComment section :
  section ∈ containers docComment <->
  summarySection docComment = Some section \/
  (exists b, b ∈ DocParamCollection.blocks (params docComment) /\
     section = blockContent b) \/
  (exists b, returnsBlock docComment = Some b /\ section = content b) \/
  (exists b, remarksBlock docComment = Some b /\ section = content b) \/
  (exists b, b ∈ exampleBlocks docComment /\ section = content b) \/
  (exists b, b ∈ seeBlocks docComment /\ section = content b).
Proof.
  unfold containers.
  rewrite !elem_of_app, !list_elem_of_fmap, elem_of_option_list.
  setoid_rewrite elem_of_option_list. naive_solver.
Qed.

Section enough.
Context (fuel : nat) (docComment : DocComment).
Context (Hfuel : forall section,
  section ∈ containers docComment -> (nodes_depth section <= fuel)%nat).

Lemma container_enough section :
  section ∈ containers docComment -> is_Some (_renderContainer fuel section).
Proof. intros Hin. by apply renderContainer_is_Some, Hfuel. Qed.

Lemma render_summary_is_Some out : is_Some (render_summary fuel docComment out).
Proof.
  unfold render_summary.
  destruct (summarySection docComment) as [s|] eqn:Hs; [|by eexists].
  destruct (container_enough s) as [c ->]; [|by eexists].
  apply containers_elem_of. auto.
Qed.

Lemma render_parameters_is_Some out :
  is_Some (render_parameters fuel docComment out).
Proof.
  unfold render_parameters. destruct (0 <? _)%Z; [|by eexists].
  destruct (push_loop_is_Some (render_row fuel)
              (DocParamCollection.blocks (params docComment))) as [rows ->];
    [|by eexists].
  intros i b Hb%list_elem_of_lookup_2. unfold render_row.
  destruct (container_enough (blockContent b)) as [c ->]; [|by eexists].
  apply containers_elem_of. eauto.
Qed.

Lemma render_returns_is_Some key text out :
  is_Some (render_block fuel key text (returnsBlock docComment) out).
Proof.
  apply render_block_is_Some. intros b Hb. apply Hfuel, containers_elem_of.
  eauto 10.
Qed.

Lemma render_remarks_is_Some key text out :
  is_Some (render_block fuel key text (remarksBlock docComment) out).
Proof.
  apply render_block_is_Some. intros b Hb. apply Hfuel, containers_elem_of.
  eauto 10.
Qed.

Lemma render_examples_enough out :
  is_Some (render_examples fuel docComment out).
Proof.
  unfold render_examples. apply fmap_is_Some, render_examples_is_Some.
  intros b Hb. apply Hfuel, containers_elem_of. eauto 10.
Qed.

Lemma render_seeAlso_is_Some out : is_Some (render_seeAlso fuel docComment out).
Proof.
  unfold render_seeAlso. destruct (0 <? _)%nat; [|by eexists].
  destruct (push_loop_is_Some (render_seeBlock fuel) (seeBlocks docComment))
    as [listItems ->]; [|by eexists].
  intros i b Hb%list_elem_of_lookup_2. unfold render_seeBlock.
  destruct (container_enough (content b)) as [c ->]; [|by eexists].
  apply containers_elem_of. eauto 10.
Qed.

Lemma render_modifiers_is_Some out : is_Some (render_modifiers docComment out).
Proof.
  unfold render_modifiers. destruct (0 <? _)%nat; [|by eexists].
  by rewrite push_loop_imap.
Qed.

Lemma render_output_is_Some : is_Some (render_output fuel docComment).
Proof.
  unfold render_output.
  destruct (render_summary_is_Some []) as [o1 ->]; cbn.
  destruct (render_parameters_is_Some o1) as [o2 ->]; cbn.
  destruct (render_returns_is_Some "returns" "Return Value" o2) as [o3 ->]; cbn.
  destruct (render_remarks_is_Some "remarks" "Remarks" o3) as [o4 ->]; cbn.
  destruct (render_examples_enough o4) as [o5 ->]; cbn.
  destruct (render_seeAlso_is_Some o5) as [o6 ->]; cbn.
  apply render_modifiers_is_Some.
Qed.

End enough.

(** More fuel does not change the output. *)
Section more_fuel.
Context (fuel fuel' : nat) (Hle : (fuel <= fuel')%nat).

Lemma render_block_mono key text block out out' :
  render_block fuel key text block out = Some out' ->
  render_block fuel' key text block out = Some out'.
Proof.
  destruct block as [b|]; cbn; [|done].
  destruct (_renderContainer fuel _) as [c|] eqn:Hc; [|done].
  by rewrite (renderContainer_mono _ _ _ _ Hle Hc).
Qed.

Lemma render_summary_mono docComment out out' :
  render_summary fuel docComment out = Some out' ->
  render_summary fuel' docComment out = Some out'.
Proof.
  unfold render_summary. destruct (summarySection docComment) as [s|]; [|done].
  destruct (_renderContainer fuel _) as [c|] eqn:Hc; [|done].
  by rewrite (renderContainer_mono _ _ _ _ Hle Hc).
Qed.

Lemma render_row_mono n paramBlock e :
  render_row fuel n paramBlock = Some e -> render_row fuel' n paramBlock = Some e.
Proof.
  unfold render_row. destruct (_renderContainer fuel _) as [c|] eqn:Hc; [|done].
  by rewrite (renderContainer_mono _ _ _ _ Hle Hc).
Qed.

Lemma render_seeBlock_mono n seeBlock e :
  render_seeBlock fuel n seeBlock = Some e ->
  render_seeBlock fuel' n seeBlock = Some e.
Proof.
  unfold render_seeBlock.
  destruct (_renderContainer fuel _) as [c|] eqn:Hc; [|done].
  by rewrite (renderContainer_mono _ _ _ _ Hle Hc).
Qed.

Lemma render_parameters_mono docComment out out' :
  render_parameters fuel docComment out = Some out' ->
  render_parameters fuel' docComment out = Some out'.
Proof.
  unfold render_parameters. destruct (0 <? _)%Z; [|done].
  destruct (push_loop (render_row fuel) _) as [rows|] eqn:Hrows; [|done].
  by rewrite (push_loop_mono _ _ _ _ render_row_mono Hrows).
Qed.

Lemma render_seeAlso_mono docComment out out' :
  render_seeAlso fuel docComment out = Some out' ->
  render_seeAlso fuel' docComment out = Some out'.
Proof.
  unfold render_seeAlso. destruct (0 <? _)%nat; [|done].
  destruct (push_loop (render_seeBlock fuel) _) as [items|] eqn:Hitems; [|done].
  by rewrite (push_loop_mono _ _ _ _ render_seeBlock_mono Hitems).
Qed.

Lemma render_examples_loop_mono count (l : list DocBlock) acc st :
  foldl (render_example fuel count) acc l = Some st ->
  foldl (render_example fuel' count) acc l = Some st.
Proof.
  revert acc. induction l as [|x l IH]; intros acc; [done|]. cbn.
  destruct acc as [st0|]; cbn; [|by rewrite render_example_None].
  destruct (_renderContainer fuel (content x)) as [c|] eqn:Hc; cbn;
    [|by rewrite render_example_None].
  rewrite (renderContainer_mono _ _ _ _ Hle Hc). apply IH.
Qed.

Lemma render_examples_mono docComment out out' :
  render_examples fuel docComment out = Some out' ->
  render_examples fuel' docComment out = Some out'.
Proof.
  unfold render_examples. intros (st & Hst & ->)%fmap_Some.
  by rewrite (render_examples_loop_mono _ _ _ _ Hst).
Qed.

Lemma render_output_mono docComment out :
  render_output fuel docComment = Some out ->
  render_output fuel' docComment = Some out.
Proof.
  unfold render_output. intros Hout.
  repeat (apply bind_Some in Hout as (? & ? & Hout)).
  erewrite render_summary_mono by done. cbn.
  erewrite render_parameters_mono by done. cbn.
  erewrite render_block_mono by done. cbn.
  erewrite render_block_mono by done. cbn.
  erewrite render_examples_mono by done. cbn.
  by erewrite render_seeAlso_mono by done.
Qed.

End more_fuel.

End termination.

(** ** What the outline says of the output *)

Section outline.
Implicit Types (docComment : DocComment) (out : list ReactNode).
Implicit Types (khs : list (string * string)).

Lemma sections_keys khs out :
  Forall2 is_section khs out -> React.keys out = Some ∘ fst <$> khs.
Proof.
  induction 1 as [|kh e khs out (body & -> & _) _ IH]; [done|].
  by rewrite keys_cons, IH.
Qed.

Lemma sections_well_keyed khs out e :
  Forall2 is_section khs out -> e ∈ out -> React.well_keyed e = true.
Proof.
  intros Hs (i & Hi)%list_elem_of_lookup_1.
  destruct (Forall2_lookup_r _ _ _ _ _ Hs Hi) as (kh & _ & body & -> & Hb & _).
  cbn. by rewrite Hb.
Qed.

Lemma by_type_section key text body :
  body_ok body -> React.by_type "h2" (output_section key text body) = [heading text].
Proof. intros [_ Hb]. cbn. by rewrite Hb. Qed.

Lemma text_content_heading text : React.text_content (heading text) = text.
Proof. cbn. unfold Js.join. cbn. apply str_app_nil_r. Qed.

Lemma sections_headings khs out :
  Forall2 is_section khs out ->
  React.text_content <$> concat (React.by_type "h2" <$> out) = snd <$> khs.
Proof.
  induction 1 as [|kh e khs out (body & -> & Hb) _ IH]; [done|].
  rewrite !fmap_cons, concat_cons, by_type_section, fmap_app, IH by done.
  by rewrite list_fmap_singleton, text_content_heading.
Qed.

(** The keys of the outline: those of the sections before the examples,
    one [seeAlso] for each example and one for the see blocks, and the
    key of the modifiers. *)
Definition keys_before docComment : list string :=
  (if summarySection docComment is Some _ then ["summary"] else []) ++
  (if (0 <? DocParamCollection.count (params docComment))%Z
   then ["parameters"] else []) ++
  (if returnsBlock docComment is Some _ then ["returns"] else []) ++
  (if remarksBlock docComment is Some _ then ["remarks"] else []).

Definition seeAlso_count docComment : nat :=
  List.length (exampleBlocks docComment) +
  (if seeBlocks docComment is [] then 0 else 1).

Definition keys_after docComment : list string :=
  if modifierTagSet docComment is [] then [] else ["modifiers"].

Lemma example_titles_length n : List.length (example_titles n) = n.
Proof.
  unfold example_titles. destruct (n <=? 1)%nat.
  - apply length_replicate.
  - by rewrite length_fmap, length_seq.
Qed.

Lemma outline_keys docComment :
  fst <$> outline docComment =
  keys_before docComment ++
  replicate (seeAlso_count docComment) "seeAlso" ++ keys_after docComment.
Proof.
  unfold outline, keys_before, seeAlso_count, keys_after.
  rewrite !fmap_app, <- list_fmap_compose.
  rewrite (const_fmap (fst ∘ pair "seeAlso") _ "seeAlso") by done.
  rewrite example_titles_length, replicate_add, <- !app_assoc.
  repeat f_equal; by repeat case_match.
Qed.

Lemma NoDup_replicate_le (x : string) n : NoDup (replicate n x) <-> (n <= 1)%nat.
Proof.
  destruct n as [|[|n]]; cbn.
  - split; [lia|constructor].
  - split; [lia|intros _; apply NoDup_singleton].
  - split; [|lia]. intros [Hnin _]%NoDup_cons. destruct Hnin. by left.
Qed.

Lemma keys_before_after docComment :
  NoDup (keys_before docComment) /\ NoDup (keys_after docComment) /\
  Forall (fun x => x <> "seeAlso" /\ x ∉ keys_after docComment)
    (keys_before docComment) /\
  "seeAlso" ∉ keys_after docComment.
Proof.
  unfold keys_before, keys_after.
  destruct (summarySection docComment), (0 <? _)%Z, (returnsBlock docComment),
    (remarksBlock docComment), (modifierTagSet docComment);
    by apply (bool_decide_unpack _).
Qed.

(** The keys of the outline are distinct exactly when at most one
    section has the key [seeAlso]. *)
Lemma outline_keys_NoDup docComment :
  NoDup (fst <$> outline docComment) <-> (seeAlso_count docComment <= 1)%nat.
Proof.
  rewrite outline_keys, !NoDup_app, NoDup_replicate_le.
  destruct (keys_before_after docComment) as (Hb & Ha & Hba & Hsee).
  rewrite Forall_forall in Hba.
  split; [naive_solver|]. intros Hle. split_and!; try done.
  - intros x [Hx Hxa]%Hba [[-> _]%elem_of_replicate|?]%elem_of_app; done.
  - by intros x [-> _]%elem_of_replicate.
Qed.

End outline.

(** ** Correctness *)

Section correctness.
Implicit Types (fuel : nat) (props : IDocHtmlViewProps) (node : DocNode).
Implicit Types (section : list DocNode) (key : string) (r : ReactNode).

Lemma render_Some fuel props r :
  render fuel props = Some r <->
  exists out, render_output fuel (docComment props) = Some out /\
    r = RElement "div" None
          (match style props with Some s => [("style", s)] | None => [] end)
          [RText " "; RArray out; RText " "].
Proof.
  unfold render. destruct (render_output fuel _) as [out|]; cbn; naive_solver.
Qed.

Lemma renderDocNode_undefined_iff fuel node key r :
  _renderDocNode fuel node key = Some r ->
  r = RUndefined <-> exists kind, node = NOther kind.
Proof.
  destruct fuel as [|fuel]; [done|].
  destruct node; cbn; intros Hr; simplify_eq; try naive_solver.
  - destruct (renderLinkTag_anchor linkTag key) as [linkText ->]. naive_solver.
  - destruct (renderContainer_with _ _); simplify_eq/=. naive_solver.
Qed.

(** C20: with as much fuel as the deepest container of the comment has
    nested paragraphs, [render] returns; and with more fuel it returns the
    same tree. *)
Theorem render_terminates fuel props :
  (comment_depth (docComment props) <= fuel)%nat ->
  exists r, render fuel props = Some r /\
    render (comment_depth (docComment props)) props = Some r.
Proof.
  intros Hfuel.
  destruct (render_output_is_Some (comment_depth (docComment props))
              (docComment props)) as [out Hout].
  { intros section. by apply containers_depth. }
  eexists. split; apply render_Some; eauto using render_output_mono.
Qed.

(** The headings of the rendered tree are the headings of the
    outline. *)
Lemma render_outline_headings fuel props r :
  render fuel props = Some r ->
  React.headings r = snd <$> outline (docComment props).
Proof.
  intros (out & Hout%render_output_outline & ->)%render_Some.
  unfold React.headings. cbn. rewrite !app_nil_r.
  by apply sections_headings.
Qed.

(** C21: the headings of the tree that [render] returns are, in document
    order, those of the outline: Summary, Parameters, Return Value and
    Remarks for the parts the comment has, one heading for each example
    ([Example] when there is one, [Example 1], [Example 2], ... when there
    are more), See Also and Modifiers. *)
Theorem render_headings fuel props r :
  render fuel props = Some r ->
  React.headings r = snd <$> outline (docComment props).
Proof. apply render_outline_headings. Qed.

(** C16: the tree that [render] returns has unique keys in every array
    exactly when at most one section has the key [seeAlso], that is when
    the comment has at most one example and then no see block: every
    example is pushed under the key of the See Also section. *)
Theorem render_keys fuel props r :
  render fuel props = Some r ->
  React.well_keyed r = true <-> (seeAlso_count (docComment props) <= 1)%nat.
Proof.
  intros (out & Hout%render_output_outline & ->)%render_Some.
  rewrite <- outline_keys_NoDup.
  change (React.well_keyed (RElement _ _ _ _))
    with (React.well_keyed (RArray out) && true).
  rewrite andb_true_r, well_keyed_array. unfold React.unique_keys.
  rewrite (sections_keys _ _ Hout), list_fmap_compose.
  rewrite (NoDup_fmap Some). split; [naive_solver|]. intros Hnd.
  split_and!; [|done|intros e; apply (sections_well_keyed _ _ e Hout)].
  by intros (? & ? & ?)%list_elem_of_fmap.
Qed.

(** [_renderContainer] returns a fragment over an array with one
    element for each node of the container; the element of node [i] is
    [undefined] exactly when the node is of a kind the view has no case
    for, and is otherwise an element with the key [key_i], so the keys
    of the array are distinct. *)
Theorem renderContainer_keys fuel section r :
  _renderContainer fuel section = Some r ->
  exists elements, r = RFragment None [RArray elements] /\
    List.length elements = List.length section /\
    React.unique_keys elements /\
    forall i node, section !! i = Some node ->
      exists e, elements !! i = Some e /\
        (e = RUndefined <-> exists kind, node = NOther kind) /\
        (React.is_element e = true -> React.key e = Some (template "key_" i)).
Proof.
  unfold _renderContainer, renderContainer_with. intros Hr.
  destruct (push_loop _ section) as [elements|] eqn:Hl; simplify_eq/=.
  exists elements. split_and!; [done|by eapply push_loop_length| |].
  - apply (indexed_unique_keys "key_"). intros i e Hi.
    apply (push_loop_Forall (fun i e => React.is_element e = true ->
             React.key e = Some (template "key_" i)) _ _ _ (fun i x e _ He =>
             proj2 (renderDocNode_ok _ _ _ _ He)) Hl i e Hi).
  - intros i node Hi.
    destruct (push_loop_lookup _ _ _ _ _ Hl Hi) as (e & He & Hre).
    exists e. split_and!; [done|by eapply renderDocNode_undefined_iff|].
    by apply (renderDocNode_ok _ _ _ _ Hre).
Qed.

(** C36: for a node that does not claim a kind it is not of,
    [_renderDocNode] returns [undefined] exactly when the kind of the node
    is none of the eight kinds the view has a case for. *)
Theorem renderDocNode_undefined fuel node key :
  node_wf node = true ->
  _renderDocNode (S fuel) node key = Some RUndefined <->
  kind node ∉ rendered_kinds.
Proof.
  intros Hwf. destruct node; cbn in *;
    try (split; [done|intros []; by apply (bool_decide_unpack _)]).
  - destruct (renderLinkTag_anchor linkTag key) as [linkText ->].
    split; [done|intros []; by apply (bool_decide_unpack _)].
  - destruct (renderContainer_with _ _); cbn;
      (split; [done|intros []; by apply (bool_decide_unpack _)]).
  - apply bool_decide_eq_true in Hwf. done.
Qed.

(** The text of a rendered link is the first that is not empty of the
    link text, the URL destination and the identifier of the last member
    of the code destination, and [???] when all are empty or missing: a
    link is never rendered with an empty text. *)
Theorem renderLinkTag_text (linkTag : DocLinkTag) key :
  renderLinkTag linkTag key = anchor key (link_text linkTag) /\
  link_text linkTag <> "".
Proof.
  unfold renderLinkTag, link_text, Js.truthy_opt.
  destruct (linkText linkTag) as [[|c t]|], (urlDestination linkTag) as [[|c' u]|],
    (link_identifier linkTag) as [|c'' i]; done.
Qed.

(** [render] pushes the table of parameters exactly when the
    collection holds a block, and the table then has one row for each
    block of the collection, in the order of [blocks], with the name of
    the block in its first cell; blocks of the same name each have their
    row. *)
Theorem render_parameters_rows fuel (docComment : DocComment) out out' :
  render_parameters fuel docComment out = Some out' ->
  if DocParamCollection.blocks (params docComment) is [] then out' = out
  else exists rows,
    out' = out ++ [output_section "parameters" "Parameters" (parameters_table rows)] /\
    row_name <$> rows =
    parameterName <$> DocParamCollection.blocks (params docComment).
Proof.
  unfold render_parameters, DocParamCollection.count, DocParamCollection.blocks.
  destruct (Z.ltb_spec 0 (Z.of_nat (List.length
              (DocParamCollection._blocks (params docComment))))) as [Hpos|Hzero];
    destruct (DocParamCollection._blocks (params docComment)) as [|b l] eqn:Hb;
    cbn -[push_loop Z.of_nat fmap] in *; try lia; [|by intros [= <-]].
  destruct (push_loop _ _) as [rows|] eqn:Hrows; [|done].
  intros Hout. injection Hout as <-. exists rows. split; [done|].
  refine (push_loop_fmap row_name blockParameterName _ _ _ _ Hrows).
  intros i x e. unfold render_row.
  destruct (_renderContainer _ _); intros; simplify_eq/=.
  unfold Js.join. cbn. apply str_app_nil_r.
Qed.

End correctness.

End view.

(** ** Examples *)

(** The transformation that leaves a paragraph as it is. *)
Definition keep_spaces : NodeTransforms :=
  {| trimSpacesInParagraph := id;
     trimSpacesInParagraph_depth := fun nodes => le_n _ |}.

Section examples.
#[local] Existing Instance keep_spaces.

Definition example_tag : DocBlockTag :=
  {| tagName := "@example"; tagNameWithUpperCase := "@EXAMPLE" |}.

Definition block (tag name : string) (content : list DocNode) : DocBlock :=
  {| blockTag := {| tagName := tag; tagNameWithUpperCase := name |};
     content := content |}.

(** A container with a node of a kind the view has no case for. *)
Definition example_section : list DocNode :=
  [NPlainText "a"; NOther "InlineTag"; NCodeSpan "x"].

(** A comment with a summary, two parameters of the same name, a returns
    block, two examples, a see block and a modifier. *)
Definition example_comment : DocComment :=
  {| summarySection :=
       Some [NParagraph [NPlainText "Adds"; NSoftBreak; NCodeSpan "x"]];
     params :=
       DocParamCollection.add {| blockParameterName := "x";
                                 blockContent := [NPlainText "again"] |}
         (DocParamCollection.add {| blockParameterName := "x";
                                    blockContent := [NPlainText "first"] |}
            (DocParamCollection.new {| DocParamCollection.c_configuration := tt |}));
     returnsBlock := Some (block "@returns" "@RETURNS" [NPlainText "the sum"]);
     remarksBlock := None;
     customBlocks :=
       [block "@example" "@EXAMPLE" [NFencedCode "add(1, 2)"];
        block "@custom" "@CUSTOM" [NPlainText "skipped"];
        block "@example" "@EXAMPLE" [NFencedCode "add(3, 4)"]];
     seeBlocks :=
       [block "@see" "@SEE"
          [NLinkTag {| urlDestination := Some "https://tsdoc.org";
                       linkText := None; codeDestination := None |}]];
     modifierTagSet := [{| tagName := "@public"; tagNameWithUpperCase := "@PUBLIC" |}] |}.

Definition example_props : IDocHtmlViewProps :=
  {| style := None; docComment := example_comment |}.

Definition example_output : list ReactNode :=
  Eval vm_compute in default [] (render_output 2 example_comment).

Definition example_tree : ReactNode :=
  Eval vm_compute in default RUndefined (render 2 example_props).

Lemma example_tree_rendered : render 2 example_props = Some example_tree.
Proof. by vm_compute. Qed.

Lemma render_terminates_witness :
  exists r, render 2 example_props = Some r /\
    render (comment_depth (docComment example_props)) example_props = Some r.
Proof. apply (render_terminates 2 example_props). by vm_compute. Defined.

Lemma render_headings_witness :
  React.headings example_tree = snd <$> outline (docComment example_props).
Proof. exact (render_headings 2 example_props example_tree example_tree_rendered). Defined.

Lemma render_keys_witness :
  React.well_keyed example_tree = true <->
  (seeAlso_count (docComment example_props) <= 1)%nat.
Proof. exact (render_keys 2 example_props example_tree example_tree_rendered). Defined.

Lemma renderContainer_keys_witness :
  exists elements,
    RFragment None
      [RArray [RFragment (Some "key_0") [RText "a"]; RUndefined;
               RElement "code" (Some "key_2") [("className", "doc-code-span")]
                 [RText "x"]]] = RFragment None [RArray elements] /\
    List.length elements = List.length example_section /\
    React.unique_keys elements /\
    forall i node, example_section !! i = Some node ->
      exists e, elements !! i = Some e /\
        (e = RUndefined <-> exists kind, node = NOther kind) /\
        (React.is_element e = true -> React.key e = Some (template "key_" i)).
Proof. by apply (renderContainer_keys 1 example_section). Defined.

Lemma renderDocNode_undefined_witness :
  _renderDocNode 1 (NOther "InlineTag") "key_1" = Some RUndefined <->
  kind (NOther "InlineTag") ∉ rendered_kinds.
Proof. by apply (renderDocNode_undefined 0 (NOther "InlineTag") "key_1"). Defined.

Definition example_parameters : list ReactNode :=
  Eval vm_compute in default [] (render_parameters 2 example_comment []).

Lemma render_parameters_rows_witness :
  exists rows,
    example_parameters =
    [] ++ [output_section "parameters" "Parameters" (parameters_table rows)] /\
    row_name <$> rows =
    parameterName <$> DocParamCollection.blocks (params example_comment).
Proof.
  by apply (render_parameters_rows 2 example_comment [] example_parameters).
Defined.

(** The example comment renders to seven sections, three of them under
    the key [seeAlso]; the lookup by name sees one parameter [x], the table
    shows both. *)
Example example_rendering :
  React.headings example_tree =
    ["Summary"; "Parameters"; "Return Value"; "Example 1"; "Example 2";
     "See Also"; "Modifiers"] /\
  React.keys example_output =
    Some <$> ["summary"; "parameters"; "returns"; "seeAlso"; "seeAlso";
              "seeAlso"; "modifiers"] /\
  React.well_keyed example_tree = false /\
  row_name <$> React.by_type "tr" (RArray example_parameters) =
    ["Name"; "x"; "x"].
Proof. by vm_compute. Qed.

End examples.

End DocHtmlView.
