(* ===== verification/Comment.v ===== *)
(** * DocComment: the assembly of a comment

    The view of the sources reads a [DocComment]: a summary section, the
    collection of the parameter blocks, a returns and a remarks block, the
    custom blocks, the see blocks and the set of the modifier tags
    ([HtmlView]). The class is not part of the sources. This file models
    from the specification how a comment is assembled: [Module
    DocBlockTag] the tag of a block with its normalized name, [Module
    ModifierTagSet] the set of the modifier tags, in which a name occurs
    once and the order is the order of insertion, and [Module DocComment]
    the empty comment of a configuration ([DocComment.new], whose
    collection of parameters is made by the constructor of the sources)
    and the operations that fill its sections, of which the parameters go
    through [DocParamCollection.add] of the sources.

    The theorems are about the set of the modifier tags: it holds each
    normalized name once, an insertion keeps the tags it had in front,
    and after any insertions it holds the names in the order of their
    first insertion. What the node parser assembles with these operations
    is the subject of [NodeParser] and [Parser]. *)

From Stdlib Require Import ZArith String Ascii Lia.
From stdpp Require Import base tactics option list strings.
From S2P Require Import Prelude JsString Configuration ParamCollection React HtmlView.

(** ** Block tags *)

Module DocBlockTag.
Import DocHtmlView.

(** The tag of a block, from the name as it is written. *)
Definition new (name : string) : DocBlockTag :=
  {| tagName := name; tagNameWithUpperCase := toUpperCase name |}.

End DocBlockTag.

(** ** The set of the modifier tags *)

Module ModifierTagSet.
Import DocHtmlView.

(** The normalized names of the tags of the set. *)
Definition names (nodes : list DocBlockTag) : list string :=
  tagNameWithUpperCase <$> nodes.

(** The insertion of a tag, which does nothing when the set has a tag
    of its name. *)
Definition addTag (nodes : list DocBlockTag) (tag : DocBlockTag) :
    list DocBlockTag :=
  if bool_decide (tagNameWithUpperCase tag ∈ names nodes) then nodes
  else nodes ++ [tag].

(** ** Specification *)

(** The names of a list in the order of their first occurrence. *)
Definition first_occurrences (l : list string) : list string :=
  reverse (remove_dups (reverse l)).

Section set.
Implicit Types (nodes tags : list DocBlockTag) (tag : DocBlockTag).

Lemma names_addTag nodes tag :
  names (addTag nodes tag) =
  if bool_decide (tagNameWithUpperCase tag ∈ names nodes) then names nodes
  else names nodes ++ [tagNameWithUpperCase tag].
Proof. unfold addTag. case_bool_decide; [done|]. unfold names. by rewrite fmap_app. Qed.

Lemma first_occurrences_snoc (l : list string) (x : string) :
  first_occurrences (l ++ [x]) =
  if bool_decide (x ∈ first_occurrences l) then first_occurrences l
  else first_occurrences l ++ [x].
Proof.
  unfold first_occurrences. rewrite reverse_snoc. cbn [remove_dups].
  case_decide as Hin; case_bool_decide as Hin'; rewrite ?reverse_cons; try done;
    by rewrite elem_of_reverse, elem_of_remove_dups in Hin'.
Qed.

(** The tags of the set after the insertion of [tags], one after the
    other: their names are the names of [tags] in the order of their first
    occurrence. *)
Lemma names_foldl_addTag tags :
  names (foldl addTag [] tags) = first_occurrences (names tags).
Proof.
  induction tags as [|tag tags IH] using rev_ind; [done|].
  rewrite foldl_snoc, names_addTag, IH.
  replace (names (tags ++ [tag])) with (names tags ++ [tagNameWithUpperCase tag])
    by (unfold names; by rewrite fmap_app).
  by rewrite first_occurrences_snoc.
Qed.

Lemma first_occurrences_NoDup (l : list string) : NoDup (first_occurrences l).
Proof.
  unfold first_occurrences. rewrite reverse_Permutation. apply NoDup_remove_dups.
Qed.

Lemma elem_of_first_occurrences (l : list string) (x : string) :
  x ∈ first_occurrences l <-> x ∈ l.
Proof.
  unfold first_occurrences.
  by rewrite elem_of_reverse, elem_of_remove_dups, elem_of_reverse.
Qed.

(** An insertion keeps the names unique. *)
Lemma addTag_NoDup nodes tag : NoDup (names nodes) -> NoDup (names (addTag nodes tag)).
Proof.
  intros Hnd. rewrite names_addTag. case_bool_decide as Hin; [done|].
  apply NoDup_app. split_and!; [done| |apply NoDup_singleton].
  by intros x Hx ->%list_elem_of_singleton.
Qed.

(** After an insertion the set has a tag of the name, and the tags it
    had come first. *)
Lemma addTag_spec nodes tag :
  tagNameWithUpperCase tag ∈ names (addTag nodes tag) /\
  nodes `prefix_of` addTag nodes tag.
Proof.
  unfold addTag. case_bool_decide as Hin; [done|]. split.
  - unfold names. rewrite fmap_app. apply elem_of_app. right. by left.
  - by apply prefix_app_r.
Qed.

(** The set is empty when nothing was inserted, and only then. *)
Lemma foldl_addTag_nil tags : foldl addTag [] tags = [] <-> tags = [].
Proof.
  split; [|by intros ->]. intros Hnil. destruct tags as [|tag tags]; [done|].
  pose proof (names_foldl_addTag (tag :: tags)) as Hnames. rewrite Hnil in Hnames.
  assert (tagNameWithUpperCase tag ∈ first_occurrences (names (tag :: tags))) as Hin
    by (apply elem_of_first_occurrences; left).
  rewrite <- Hnames in Hin. by apply elem_of_nil in Hin.
Qed.

End set.

End ModifierTagSet.

(** ** The comment *)

Module DocComment.
Import DocHtmlView.

(** The comment that the constructor makes: an empty summary, an
    empty collection of parameters, made with the configuration of the
    comment, and no block. *)
Definition new (configuration : TSDocConfiguration.t) : DocComment :=
  {| summarySection := Some [];
     params :=
       DocParamCollection.new {| DocParamCollection.c_configuration := configuration |};
     returnsBlock := None;
     remarksBlock := None;
     customBlocks := [];
     seeBlocks := [];
     modifierTagSet := [] |}.

(** The operations that fill the sections. *)
Definition set_summarySection (nodes : list DocNode) (c : DocComment) : DocComment :=
  {| summarySection := Some nodes;
     params := params c;
     returnsBlock := returnsBlock c;
     remarksBlock := remarksBlock c;
     customBlocks := customBlocks c;
     seeBlocks := seeBlocks c;
     modifierTagSet := modifierTagSet c |}.

Definition add_param (block : DocParamBlock (list DocNode)) (c : DocComment) :
    DocComment :=
  {| summarySection := summarySection c;
     params := DocParamCollection.add block (params c);
     returnsBlock := returnsBlock c;
     remarksBlock := remarksBlock c;
     customBlocks := customBlocks c;
     seeBlocks := seeBlocks c;
     modifierTagSet := modifierTagSet c |}.

Definition set_returnsBlock (block : DocBlock) (c : DocComment) : DocComment :=
  {| summarySection := summarySection c;
     params := params c;
     returnsBlock := Some block;
     remarksBlock := remarksBlock c;
     customBlocks := customBlocks c;
     seeBlocks := seeBlocks c;
     modifierTagSet := modifierTagSet c |}.

Definition set_remarksBlock (block : DocBlock) (c : DocComment) : DocComment :=
  {| summarySection := summarySection c;
     params := params c;
     returnsBlock := returnsBlock c;
     remarksBlock := Some block;
     customBlocks := customBlocks c;
     seeBlocks := seeBlocks c;
     modifierTagSet := modifierTagSet c |}.

Definition appendCustomBlock (block : DocBlock) (c : DocComment) : DocComment :=
  {| summarySection := summarySection c;
     params := params c;
     returnsBlock := returnsBlock c;
     remarksBlock := remarksBlock c;
     customBlocks := customBlocks c ++ [block];
     seeBlocks := seeBlocks c;
     modifierTagSet := modifierTagSet c |}.

Definition appendSeeBlock (block : DocBlock) (c : DocComment) : DocComment :=
  {| summarySection := summarySection c;
     params := params c;
     returnsBlock := returnsBlock c;
     remarksBlock := remarksBlock c;
     customBlocks := customBlocks c;
     seeBlocks := seeBlocks c ++ [block];
     modifierTagSet := modifierTagSet c |}.

Definition addModifierTag (tag : DocBlockTag) (c : DocComment) : DocComment :=
  {| summarySection := summarySection c;
     params := params c;
     returnsBlock := returnsBlock c;
     remarksBlock := remarksBlock c;
     customBlocks := customBlocks c;
     seeBlocks := seeBlocks c;
     modifierTagSet := ModifierTagSet.addTag (modifierTagSet c) tag |}.

End DocComment.
