(* ===== verification/Transforms.v ===== *)
(** * The whitespace normalization of a paragraph

    The view renders a paragraph after
    [DocNodeTransforms.trimSpacesInParagraph], whose code is not part of
    the sources. [Module DocNodeTransforms] models it from the
    specification, on the nodes of [HtmlView]: it collapses the runs of
    spacing and soft break nodes of a paragraph into one soft break and
    trims the spacing at the boundaries of the paragraph, on a copy; a
    repeated transform changes nothing.

    A node is spacing when it is a soft break or a plain text of spaces
    and tabs, the characters of the tokenizer's spacing. The transform is
    a pass with two flags: whether content was seen, and whether a space is
    pending, which is emitted as a soft break before the next content.

    The theorems: the transform keeps the content nodes and their order,
    its result neither starts nor ends with spacing and has no two spacing
    nodes in a row, it is idempotent and it does not deepen the paragraph,
    so that it is an instance of the interface [NodeTransforms] of the
    view; and the view of a paragraph is the view of the transformed
    paragraph. *)

From Stdlib Require Import ZArith String Ascii Lia.
From stdpp Require Import base tactics option list strings.
From S2P Require Import Prelude JsString Tokenizer React HtmlView.

Module DocNodeTransforms.
Import DocHtmlView.

(** A spacing node: a soft break, or a plain text of spaces and tabs. *)
Definition spacing (node : DocNode) : bool :=
  match node with
  | NSoftBreak => true
  | NPlainText text => forallb Tokenizer.is_spacing (chars text)
  | _ => false
  end.

(** The pass: [started] says that content was seen, [pending] that a
    space waits for the next content. *)
Fixpoint trim_from (started pending : bool) (nodes : list DocNode) : list DocNode :=
  match nodes with
  | [] => []
  | node :: nodes =>
      if spacing node then trim_from started started nodes
      else (if pending then [NSoftBreak] else []) ++
           node :: trim_from true false nodes
  end.

(** [DocNodeTransforms.trimSpacesInParagraph], on the nodes of the
    paragraph. *)
Definition trimSpacesInParagraph (nodes : list DocNode) : list DocNode :=
  trim_from false false nodes.

(** ** Specification *)

(** The content of a paragraph: its nodes that are no spacing. *)
Definition content_nodes (nodes : list DocNode) : list DocNode :=
  filter (fun node => spacing node = false) nodes.

(** No spacing node is followed by a spacing node or is the last. *)
Fixpoint separated (nodes : list DocNode) : bool :=
  match nodes with
  | [] => true
  | node :: nodes =>
      (if spacing node
       then match nodes with node' :: _ => negb (spacing node') | [] => false end
       else true) && separated nodes
  end.

(** The first node of a list is there and satisfies a test. *)
Definition starts_with (p : DocNode -> bool) (nodes : list DocNode) : bool :=
  match nodes with
  | node :: _ => p node
  | [] => false
  end.

(** The normal form: no spacing at the start, at the end or after a
    spacing, and every spacing is a soft break. *)
Definition trimmed (nodes : list DocNode) : Prop :=
  starts_with spacing nodes = false /\
  separated nodes = true /\
  Forall (fun node => spacing node = true -> node = NSoftBreak) nodes.

(** ** The pass *)

Section pass.
Implicit Types (started pending : bool) (node : DocNode) (nodes : list DocNode).

Lemma trim_from_spacing started pending node nodes :
  spacing node = true ->
  trim_from started pending (node :: nodes) = trim_from started started nodes.
Proof. intros Hs. cbn. by rewrite Hs. Qed.

Lemma trim_from_content started pending node nodes :
  spacing node = false ->
  trim_from started pending (node :: nodes) =
  (if pending then [NSoftBreak] else []) ++ node :: trim_from true false nodes.
Proof. intros Hs. cbn. by rewrite Hs. Qed.

Lemma trim_from_content_nodes started pending nodes :
  content_nodes (trim_from started pending nodes) = content_nodes nodes.
Proof.
  revert started pending. unfold content_nodes.
  induction nodes as [|node nodes IH]; intros started pending; [done|].
  destruct (spacing node) eqn:Hs.
  - rewrite trim_from_spacing, filter_cons_False by (done || congruence). apply IH.
  - rewrite trim_from_content, filter_app, !filter_cons_True, IH by done.
    by destruct pending.
Qed.

(** The result of the pass: soft breaks before content only, and none
    at the start unless content was seen. *)
Lemma trim_from_separated started pending nodes :
  separated (trim_from started pending nodes) = true /\
  Forall (fun node => spacing node = true -> node = NSoftBreak)
    (trim_from started pending nodes) /\
  (started = false -> pending = false ->
   starts_with spacing (trim_from started pending nodes) = false).
Proof.
  revert started pending.
  induction nodes as [|node nodes IH]; intros started pending; [done|].
  destruct (spacing node) eqn:Hs.
  - rewrite trim_from_spacing by done.
    destruct (IH started started) as (? & ? & Hhead). split_and!; [done..|].
    intros -> _. by apply Hhead.
  - rewrite trim_from_content by done.
    destruct (IH true false) as (Hsep & Hall & _).
    split_and!.
    + destruct pending; cbn; by rewrite Hs, Hsep.
    + apply Forall_app. split; [by destruct pending; repeat constructor|].
      constructor; [congruence|done].
    + by intros _ ->.
Qed.

(** A pass over a result of the pass that starts with spacing. *)
Lemma trim_from_pending started pending nodes :
  starts_with (negb ∘ spacing) nodes = false ->
  trim_from started pending nodes = trim_from started started nodes.
Proof. destruct nodes as [|node nodes]; [done|]. cbn. by destruct (spacing node). Qed.

Lemma trim_from_head nodes :
  starts_with (negb ∘ spacing) (trim_from true true nodes) = false.
Proof.
  induction nodes as [|node nodes IH]; [done|].
  destruct (spacing node) eqn:Hs.
  - by rewrite trim_from_spacing.
  - by rewrite trim_from_content.
Qed.

Lemma trim_from_idempotent started pending nodes :
  (pending = true -> started = true) ->
  trim_from started pending (trim_from started pending nodes) =
  trim_from started pending nodes.
Proof.
  revert started pending.
  induction nodes as [|node nodes IH]; intros started pending Hp; [done|].
  destruct (spacing node) eqn:Hs.
  - rewrite trim_from_spacing by done.
    destruct started.
    + rewrite (trim_from_pending _ _ _ (trim_from_head nodes)). by apply IH.
    + destruct pending; [by discriminate Hp|]. by apply IH.
  - rewrite trim_from_content by done. destruct pending; cbn [app].
    + rewrite Hp by done. rewrite trim_from_spacing, trim_from_content by done.
      cbn. by rewrite IH.
    + rewrite trim_from_content by done. cbn. by rewrite IH.
Qed.

Lemma nodes_depth_cons node nodes :
  nodes_depth (node :: nodes) = (depth node `max` nodes_depth nodes)%nat.
Proof. done. Qed.

Lemma trim_from_depth started pending nodes :
  (nodes_depth (trim_from started pending nodes) <= nodes_depth nodes)%nat.
Proof.
  revert started pending.
  induction nodes as [|node nodes IH]; intros started pending; [done|].
  rewrite nodes_depth_cons. destruct (spacing node) eqn:Hs.
  - rewrite trim_from_spacing by done. specialize (IH started started). lia.
  - rewrite trim_from_content by done. specialize (IH true false).
    pose proof (depth_pos node).
    destruct pending; cbn [app]; rewrite !nodes_depth_cons; cbn [depth]; lia.
Qed.

End pass.

(** ** The instance of the interface of the view *)

Definition trim_spaces : NodeTransforms :=
  {| DocHtmlView.trimSpacesInParagraph := trimSpacesInParagraph;
     trimSpacesInParagraph_depth := trim_from_depth false false |}.

(** ** Correctness *)

Section correctness.
#[local] Existing Instance trim_spaces.
Implicit Types (nodes : list DocNode) (fuel : nat) (key : string).

(** The transform keeps the content of the paragraph, in order, and
    returns a paragraph in normal form: no spacing at the start or at the
    end, no two spacing nodes in a row, and no spacing but soft breaks. *)
Theorem trimSpaces_trimmed nodes :
  content_nodes (trimSpacesInParagraph nodes) = content_nodes nodes /\
  trimmed (trimSpacesInParagraph nodes).
Proof.
  split; [apply trim_from_content_nodes|].
  destruct (trim_from_separated false false nodes) as (? & ? & Hhead).
  split_and!; [by apply Hhead|done..].
Qed.

(** A repeated transform changes nothing, and so the view of a
    paragraph is the view of the transformed paragraph: what
    [_renderDocNode] returns for a paragraph does not change when the
    paragraph is normalized before. *)
Theorem paragraph_view_trimmed nodes fuel key :
  trimSpacesInParagraph (trimSpacesInParagraph nodes) = trimSpacesInParagraph nodes /\
  _renderDocNode fuel (NParagraph (trimSpacesInParagraph nodes)) key =
  _renderDocNode fuel (NParagraph nodes) key.
Proof.
  assert (Hidem : trimSpacesInParagraph (trimSpacesInParagraph nodes) =
                  trimSpacesInParagraph nodes)
    by (by apply trim_from_idempotent).
  split; [done|]. destruct fuel as [|fuel]; [done|]. cbn.
  change (trim_from false false (trimSpacesInParagraph nodes))
    with (trimSpacesInParagraph (trimSpacesInParagraph nodes)).
  by rewrite Hidem.
Qed.

End correctness.

(** ** Examples *)

Section examples.
#[local] Existing Instance trim_spaces.

(** A paragraph with spacing at both ends and a run of spacing in
    it. *)
Definition example_nodes : list DocNode :=
  [NPlainText " "; NSoftBreak; NPlainText "Returns"; NPlainText "  "; NSoftBreak;
   NCodeSpan "x"; NSoftBreak].

Example example_trimmed :
  trimSpacesInParagraph example_nodes =
    [NPlainText "Returns"; NSoftBreak; NCodeSpan "x"] /\
  React.text_content
    (default RUndefined (_renderDocNode 2 (NParagraph example_nodes) "key_0")) =
    "Returns x".
Proof. by vm_compute. Qed.

End examples.

End DocNodeTransforms.
