(* ===== verification/HtmlTotal.v ===== *)
(** * DocHtmlView without fuel

    [_renderDocNode] and [_renderContainer] of [HtmlView] run on fuel. This
    file defines the same functions by well-founded recursion on the depth
    of a node, [renderDocNode_total] and [renderContainer_total], and a
    reference definition of [render], [render_total], that has no loop, no
    array that grows and no fuel: the sections of the output are written
    down one after the other with [imap] over the blocks.

    The theorems: with the depth of a node as fuel, the functions on fuel
    return what the total functions return; and [render], with the depth of
    the comment as fuel, returns [render_total]. The view on fuel is
    executable as it is; the total view is what it computes. *)

From Stdlib Require Import ZArith String Lia.
From stdpp Require Import base tactics option list strings pretty.
From Equations Require Import Equations.
From S2P Require Import Prelude JsString ParamCollection React HtmlView.

(** [imap] over a list, with the proof that each element is of the
    list. *)
Equations imap_In {A B : Type} (l : list A)
    (f : nat -> forall x : A, x ∈ l -> B) : list B :=
  imap_In [] _ := [];
  imap_In (x :: l) f :=
    f 0%nat x (list_elem_of_here x l) ::
    imap_In l (fun i y Hin => f (S i) y (list_elem_of_further y x l Hin)).

Lemma imap_In_imap {A B} (l : list A) (g : nat -> A -> B) :
  imap_In l (fun i x _ => g i x) = imap g l.
Proof.
  revert g. induction l as [|x l IH]; intros g; simp imap_In; [done|].
  cbn. f_equal. apply IH.
Qed.

Module DocHtmlViewTotal.
Import DocHtmlView.

Section total.
Context `{NodeTransforms}.

(** ** The total view *)

(** [_renderDocNode], by recursion on the depth of the node: a paragraph
    is rendered from its transformed nodes, which are no deeper. *)
Equations? renderDocNode_total (node : DocNode) (key : string) : ReactNode
    by wf (depth node) lt :=
  renderDocNode_total (NCodeSpan code) key :=
    RElement "code" (Some key) [("className", "doc-code-span")] [RText code];
  renderDocNode_total (NErrorText text) key := RFragment (Some key) [RText text];
  renderDocNode_total (NEscapedText decodedText) key :=
    RFragment (Some key) [RText decodedText];
  renderDocNode_total (NFencedCode code) key :=
    RElement "pre" (Some key) [("className", "doc-fenced-code")]
      [RElement "code" (Some key) [] [RText code]];
  renderDocNode_total (NLinkTag linkTag) key := renderLinkTag linkTag key;
  renderDocNode_total (NParagraph nodes) key :=
    RElement "p" (Some key) []
      [RFragment None
         [RArray (imap_In (trimSpacesInParagraph nodes)
                    (fun n node Hin =>
                       renderDocNode_total node (template "key_" n)))]];
  renderDocNode_total (NPlainText text) key := RFragment (Some key) [RText text];
  renderDocNode_total NSoftBreak key := RFragment (Some key) [RText " "];
  renderDocNode_total (NOther _) key := RUndefined.
Proof.
  pose proof (trimSpacesInParagraph_depth nodes).
  pose proof (max_list_elem_of_le (depth node)
                (depth <$> trimSpacesInParagraph nodes)
                (list_elem_of_fmap_2 _ _ _ Hin)).
  unfold nodes_depth in *. cbn. lia.
Defined.

Definition renderContainer_total (section : list DocNode) : ReactNode :=
  RFragment None
    [RArray (imap (fun n node => renderDocNode_total node (template "key_" n))
               section)].

(** ** The reference definition of [render] *)

Definition row_total (n : nat) (paramBlock : DocParamBlock (list DocNode)) :
    ReactNode :=
  RElement "tr" (Some (template "param_" n)) []
    [RElement "td" None [] [RText (parameterName paramBlock)];
     RElement "td" None [] [renderContainer_total (blockContent paramBlock)]].

Definition seeBlock_total (n : nat) (seeBlock : DocBlock) : ReactNode :=
  RElement "li" (Some (template "item_" n)) []
    [renderContainer_total (content seeBlock)].

(** The sections of the output. *)
Definition section_total (key text : string) (section : option (list DocNode)) :
    list ReactNode :=
  if section is Some section
  then [output_section key text (renderContainer_total section)]
  else [].

Definition parameters_total (docComment : DocComment) : list ReactNode :=
  if DocParamCollection.blocks (params docComment) is []
  then []
  else [output_section "parameters" "Parameters"
          (parameters_table
             (imap row_total (DocParamCollection.blocks (params docComment))))].

Definition examples_total (docComment : DocComment) : list ReactNode :=
  imap (fun i exampleBlock =>
          output_section "seeAlso"
            (example_heading (List.length (exampleBlocks docComment)) (S i))
            (renderContainer_total (content exampleBlock)))
    (exampleBlocks docComment).

Definition seeAlso_total (docComment : DocComment) : list ReactNode :=
  if seeBlocks docComment is []
  then []
  else [output_section "seeAlso" "See Also"
          (RElement "ul" None []
             [RArray (imap seeBlock_total (seeBlocks docComment))])].

Definition modifiers_total (docComment : DocComment) : list ReactNode :=
  if modifierTagSet docComment is []
  then []
  else [output_section "modifiers" "Modifiers"
          (RArray (imap render_modifier (modifierTagSet docComment)))].

(** The array [outputElements]: the sections, in order. *)
Definition output_total (docComment : DocComment) : list ReactNode :=
  section_total "summary" "Summary" (summarySection docComment) ++
  parameters_total docComment ++
  section_total "returns" "Return Value" (content <$> returnsBlock docComment) ++
  section_total "remarks" "Remarks" (content <$> remarksBlock docComment) ++
  examples_total docComment ++
  seeAlso_total docComment ++
  modifiers_total docComment.

Definition render_total (props : IDocHtmlViewProps) : ReactNode :=
  RElement "div" None
    (match style props with Some s => [("style", s)] | None => [] end)
    [RText " "; RArray (output_total (docComment props)); RText " "].

(** ** The view on fuel computes the total view *)

Section equivalence.
Implicit Types (fuel : nat) (node : DocNode) (section : list DocNode).
Implicit Types (key : string).

Lemma renderDocNode_total_paragraph (nodes : list DocNode) key :
  renderDocNode_total (NParagraph nodes) key =
  RElement "p" (Some key) []
    [renderContainer_total (trimSpacesInParagraph nodes)].
Proof. simp renderDocNode_total. by rewrite imap_In_imap. Qed.

(** The equation of the total renderer: the cases of [_renderDocNode],
    with the total container for the paragraph. *)
Lemma renderDocNode_total_eq node key :
  renderDocNode_total node key =
  match node with
  | NCodeSpan code =>
      RElement "code" (Some key) [("className", "doc-code-span")] [RText code]
  | NErrorText text => RFragment (Some key) [RText text]
  | NEscapedText decodedText => RFragment (Some key) [RText decodedText]
  | NFencedCode code =>
      RElement "pre" (Some key) [("className", "doc-fenced-code")]
        [RElement "code" (Some key) [] [RText code]]
  | NLinkTag linkTag => renderLinkTag linkTag key
  | NParagraph nodes =>
      RElement "p" (Some key) []
        [renderContainer_total (trimSpacesInParagraph nodes)]
  | NPlainText text => RFragment (Some key) [RText text]
  | NSoftBreak => RFragment (Some key) [RText " "]
  | NOther _ => RUndefined
  end.
Proof.
  destruct node; try (by simp renderDocNode_total).
  apply renderDocNode_total_paragraph.
Qed.

Lemma renderContainer_with_total
    (f : DocNode -> string -> option ReactNode) section :
  (forall node key, node ∈ section ->
     f node key = Some (renderDocNode_total node key)) ->
  renderContainer_with f section = Some (renderContainer_total section).
Proof.
  intros Hf. unfold renderContainer_with.
  rewrite (push_loop_Some_imap
             (fun n node => renderDocNode_total node (template "key_" n))); [done|].
  intros i node Hi. by eapply Hf, list_elem_of_lookup_2.
Qed.

Lemma renderDocNode_equiv fuel node key :
  (depth node <= fuel)%nat ->
  _renderDocNode fuel node key = Some (renderDocNode_total node key).
Proof.
  revert node key. induction fuel as [|fuel IH]; intros node key Hd.
  { pose proof (depth_pos node). lia. }
  rewrite renderDocNode_total_eq. destruct node; try done. cbn.
  rewrite renderContainer_with_total; [done|].
  intros node key' Hin%nodes_depth_elem_of. apply IH.
  pose proof (trimSpacesInParagraph_depth nodes). cbn in Hd.
  unfold nodes_depth in *. lia.
Qed.

Lemma renderContainer_equiv fuel section :
  (nodes_depth section <= fuel)%nat ->
  _renderContainer fuel section = Some (renderContainer_total section).
Proof.
  intros Hd. apply renderContainer_with_total.
  intros node key Hin%nodes_depth_elem_of. apply renderDocNode_equiv. lia.
Qed.

End equivalence.

(** ** The sections on fuel compute the total sections *)

Section output.
Context (fuel : nat) (docComment : DocComment).
Context (Hfuel : forall section,
  section ∈ containers docComment -> (nodes_depth section <= fuel)%nat).
Implicit Types (out : list ReactNode) (key text : string).

Lemma container_total (section : list DocNode) :
  section ∈ containers docComment ->
  _renderContainer fuel section = Some (renderContainer_total section).
Proof. intros Hin. by apply renderContainer_equiv, Hfuel. Qed.

Lemma render_summary_total out :
  render_summary fuel docComment out =
  Some (out ++ section_total "summary" "Summary" (summarySection docComment)).
Proof.
  unfold render_summary.
  destruct (summarySection docComment) as [s|] eqn:Hs; cbn;
    [|by rewrite app_nil_r].
  rewrite container_total; [done|]. apply containers_elem_of. auto.
Qed.

Lemma render_block_total key text (block : option DocBlock) out :
  (forall b, block = Some b -> content b ∈ containers docComment) ->
  render_block fuel key text block out =
  Some (out ++ section_total key text (content <$> block)).
Proof.
  destruct block as [b|]; cbn; [|by rewrite app_nil_r]. intros Hin.
  by rewrite container_total by auto.
Qed.

Lemma render_parameters_total out :
  render_parameters fuel docComment out =
  Some (out ++ parameters_total docComment).
Proof.
  unfold render_parameters, parameters_total, DocParamCollection.count.
  change (DocParamCollection._blocks ?c) with (DocParamCollection.blocks c).
  pose proof (containers_elem_of docComment) as Hin.
  destruct (DocParamCollection.blocks _) as [|b l] eqn:Hl; [by rewrite app_nil_r|].
  replace (0 <? _)%Z with true by (symmetry; apply Z.ltb_lt; cbn; lia).
  rewrite (push_loop_Some_imap row_total); [done|].
  intros i x Hx%list_elem_of_lookup_2. unfold render_row.
  rewrite container_total; [done|]. apply Hin. eauto 6.
Qed.

Lemma render_examples_loop_total count (l : list DocBlock) out k :
  (forall b, b ∈ l -> content b ∈ containers docComment) ->
  foldl (render_example fuel count) (Some (out, k)) l =
  Some (out ++ imap (fun i b =>
                       output_section "seeAlso" (example_heading count (k + i))
                         (renderContainer_total (content b))) l,
        (k + List.length l)%nat).
Proof.
  revert out k. induction l as [|x l IH]; intros out k Hin; cbn.
  { by rewrite app_nil_r, Nat.add_0_r. }
  rewrite container_total by (apply Hin; left). cbn.
  rewrite IH by (intros b Hb; apply Hin; by right).
  rewrite <- app_assoc, Nat.add_0_r. cbn. do 2 f_equal; [|lia]. do 2 f_equal.
  apply imap_ext. intros i y _. cbn. do 2 f_equal. lia.
Qed.

Lemma render_examples_total out :
  render_examples fuel docComment out = Some (out ++ examples_total docComment).
Proof.
  unfold render_examples. rewrite render_examples_loop_total; [done|].
  intros b Hb. apply containers_elem_of. eauto 10.
Qed.

Lemma render_seeAlso_total out :
  render_seeAlso fuel docComment out = Some (out ++ seeAlso_total docComment).
Proof.
  unfold render_seeAlso, seeAlso_total.
  pose proof (containers_elem_of docComment) as Hin.
  destruct (seeBlocks docComment) as [|b l] eqn:Hl; [by rewrite app_nil_r|].
  cbn -[push_loop imap]. rewrite (push_loop_Some_imap seeBlock_total); [done|].
  intros i x Hx%list_elem_of_lookup_2. unfold render_seeBlock.
  rewrite container_total; [done|]. apply Hin. eauto 10.
Qed.

Lemma render_modifiers_total out :
  render_modifiers docComment out = Some (out ++ modifiers_total docComment).
Proof.
  unfold render_modifiers, modifiers_total.
  destruct (modifierTagSet docComment) as [|b l] eqn:Hl; [by rewrite app_nil_r|].
  cbn -[push_loop imap]. by rewrite (push_loop_Some_imap render_modifier).
Qed.

Lemma render_output_total :
  render_output fuel docComment = Some (output_total docComment).
Proof.
  unfold render_output, output_total.
  rewrite render_summary_total. cbn.
  rewrite render_parameters_total. cbn.
  rewrite render_block_total by (intros b Hb; apply containers_elem_of; eauto 10).
  cbn.
  rewrite render_block_total by (intros b Hb; apply containers_elem_of; eauto 10).
  cbn.
  rewrite render_examples_total. cbn. rewrite render_seeAlso_total. cbn.
  rewrite render_modifiers_total. by rewrite <- !app_assoc.
Qed.

End output.

(** ** Every result is the total one *)

Section results.
Implicit Types (fuel : nat) (node : DocNode) (section : list DocNode).
Implicit Types (props : IDocHtmlViewProps) (key : string) (r : ReactNode).

Lemma render_equiv fuel props :
  (comment_depth (docComment props) <= fuel)%nat ->
  render fuel props = Some (render_total props).
Proof.
  intros Hd. unfold render.
  rewrite render_output_total; [done|].
  intros section. by apply containers_depth.
Qed.

Lemma renderDocNode_Some_total fuel node key r :
  _renderDocNode fuel node key = Some r -> r = renderDocNode_total node key.
Proof.
  intros Hr%(renderDocNode_mono _ (fuel `max` depth node)); [|lia].
  rewrite renderDocNode_equiv in Hr by lia. congruence.
Qed.

Lemma renderContainer_Some_total fuel section r :
  _renderContainer fuel section = Some r -> r = renderContainer_total section.
Proof.
  intros Hr%(renderContainer_mono _ (fuel `max` nodes_depth section)); [|lia].
  rewrite renderContainer_equiv in Hr by lia. congruence.
Qed.

Lemma render_Some_total fuel props r :
  render fuel props = Some r -> r = render_total props.
Proof.
  intros (out & Hout & ->)%render_Some.
  apply (render_output_mono _ (fuel `max` comment_depth (docComment props)))
    in Hout; [|lia].
  rewrite render_output_total in Hout; [by injection Hout as <-|].
  intros section Hin%(containers_depth _ _ _ (reflexivity _)). lia.
Qed.

Lemma render_parameters_Some_total fuel (docComment : DocComment) out out' :
  render_parameters fuel docComment out = Some out' ->
  out' = out ++ parameters_total docComment.
Proof.
  intros Hout.
  apply (render_parameters_mono _ (fuel `max` comment_depth docComment))
    in Hout; [|lia].
  rewrite render_parameters_total in Hout; [by injection Hout as <-|].
  intros section Hin%(containers_depth _ _ _ (reflexivity _)). lia.
Qed.

(** The first cell of a row holds the name of the parameter. *)
Lemma row_name_imap (l : list (DocParamBlock (list DocNode))) :
  row_name <$> imap row_total l = parameterName <$> l.
Proof.
  rewrite fmap_imap, <- imap_const. apply imap_ext. intros i b _.
  unfold Js.join. cbn. apply str_app_nil_r.
Qed.

End results.

(** ** Correctness *)

Section correctness.

(** With fuel for its depth, the renderer on fuel returns the tree
    of the total renderer, on every node: [_renderDocNode] computes the
    function defined by recursion on the depth of the node. *)
Theorem renderDocNode_total_equiv (fuel : nat) (node : DocNode) (key : string) :
  (depth node <= fuel)%nat ->
  _renderDocNode fuel node key = Some (renderDocNode_total node key).
Proof. apply renderDocNode_equiv. Qed.

(** C3: with fuel for the depth of the comment, [render] returns the
    tree of the closed form [render_total]: the loops of [render], which
    push onto [outputElements] and count the examples, compute the
    sections that [output_total] lists. *)
Theorem render_total_equiv (fuel : nat) (props : IDocHtmlViewProps) :
  (comment_depth (docComment props) <= fuel)%nat ->
  render fuel props = Some (render_total props).
Proof. apply render_equiv. Qed.

End correctness.

End total.

(** ** Examples *)

Section examples.
#[local] Existing Instance keep_spaces.

Definition example_paragraph : DocNode :=
  NParagraph [NPlainText "Adds"; NParagraph [NCodeSpan "x"]; NOther "InlineTag"].

Lemma renderDocNode_total_equiv_witness :
  _renderDocNode 3 example_paragraph "key_0" =
  Some (renderDocNode_total example_paragraph "key_0").
Proof. apply (renderDocNode_total_equiv 3 example_paragraph "key_0"). cbn. lia. Defined.

Lemma render_total_equiv_witness :
  render 2 example_props = Some (render_total example_props).
Proof. apply (render_total_equiv 2 example_props). by vm_compute. Defined.

(** The total renderer computes: on the example comment it returns the
    tree that [render] returns with fuel 2. *)
Example example_render_total : render_total example_props = example_tree.
Proof. by vm_compute. Qed.

End examples.

End DocHtmlViewTotal.
