(* ===== verification/HtmlTyping.v ===== *)
(** * The view returns valid HTML

    The elements that [DocHtmlView] returns are HTML elements, and HTML
    says which element may be a child of which: a [p], a [pre] or an [h2]
    takes phrasing content only, so that a paragraph may hold a link or a
    code span and may not hold another paragraph or a fenced block; a
    [table] takes row groups, a row group rows, a row cells, a [ul] items.

    [Module Html] holds that content model for the elements of the view
    ([children_of], [element_content]) and the judgement [valid] that a
    React tree is content of a kind. Fragments and arrays render to their
    children, [undefined] renders to nothing.

    [Module DocHtmlViewTyping] holds what a comment needs for its view to
    be valid: a node is [inline] when it is no paragraph and no fenced
    block, and it is [placed] when it is no paragraph or a paragraph whose
    nodes, once trimmed, are inline. The theorems: the tree of a node is
    phrasing content exactly when the node is inline and flow content
    exactly when it is placed; the tree of [render] is flow content
    exactly when every node of every container of the comment is placed.
    They are proved on the total view of [HtmlTotal] and hold of every
    result of the view on fuel. Whether a node is placed is the same with
    the whitespace normalization of [Transforms] and without it. *)

From Stdlib Require Import ZArith String Lia.
From stdpp Require Import base tactics option list strings.
From S2P Require Import Prelude JsString ParamCollection React HtmlView Transforms.
From S2P Require Import HtmlTotal.

Module Html.

(** The kinds of content. *)
Inductive Content : Type :=
| Flow | Phrasing | TableContent | RowGroupContent | RowContent | ListContent.

#[export] Instance Content_eq_dec : EqDecision Content.
Proof. solve_decision. Defined.

(** The value of a key in an association list. *)
Fixpoint assoc {A} (k : string) (l : list (string * A)) : option A :=
  match l with
  | [] => None
  | (k', a) :: l => if String.eqb k k' then Some a else assoc k l
  end.

(** The phrasing elements of the view, with the content they take. *)
Definition phrasing_elements : list (string * Content) :=
  [("a", Phrasing); ("code", Phrasing); ("span", Phrasing)].

(** The elements that may be children in a content, each with the
    content it takes. *)
Definition children_of (parent : Content) : list (string * Content) :=
  match parent with
  | Phrasing => phrasing_elements
  | Flow =>
      phrasing_elements ++
      [("div", Flow); ("p", Phrasing); ("h2", Phrasing); ("pre", Phrasing);
       ("table", TableContent); ("ul", ListContent)]
  | TableContent => [("thead", RowGroupContent); ("tbody", RowGroupContent)]
  | RowGroupContent => [("tr", RowContent)]
  | RowContent => [("th", Flow); ("td", Flow)]
  | ListContent => [("li", Flow)]
  end.

(** The content an element takes where it is allowed. *)
Definition element_content (parent : Content) (type_ : string) : option Content :=
  assoc type_ (children_of parent).

(** Text is flow and phrasing content. *)
Definition takes_text (parent : Content) : bool :=
  match parent with
  | Flow | Phrasing => true
  | _ => false
  end.

(** A tree is content of a kind. *)
Fixpoint valid (parent : Content) (r : ReactNode) : bool :=
  match r with
  | RText _ => takes_text parent
  | RUndefined => true
  | RArray items => forallb (valid parent) items
  | RFragment _ children => forallb (valid parent) children
  | RElement type_ _ _ children =>
      match element_content parent type_ with
      | Some content => forallb (valid content) children
      | None => false
      end
  end.

(** ** Rules *)

Section rules.
Implicit Types (parent content : Content) (r : ReactNode) (k : string).

Lemma assoc_app_Some {A} k (l1 l2 : list (string * A)) a :
  assoc k l1 = Some a -> assoc k (l1 ++ l2) = Some a.
Proof.
  induction l1 as [|[k' a'] l1 IH]; cbn; [done|]. by destruct (String.eqb k k').
Qed.

Lemma element_content_Phrasing (type_ : string) content :
  element_content Phrasing type_ = Some content ->
  element_content Flow type_ = Some content.
Proof. apply assoc_app_Some. Qed.

Lemma forallb_impl {A} (p q : A -> bool) (l : list A) :
  Forall (fun x => p x = true -> q x = true) l ->
  forallb p l = true -> forallb q l = true.
Proof.
  induction 1 as [|x l Hx _ IH]; cbn; [done|].
  rewrite !andb_true_iff. naive_solver.
Qed.

(** Phrasing content is flow content. *)
Lemma valid_Phrasing_Flow r : valid Phrasing r = true -> valid Flow r = true.
Proof.
  induction r as [| |items IH|key children IH|type_ key attributes children _]
    using ReactNode_ind'; cbn -[element_content];
    [done|done|by apply forallb_impl..|].
  destruct (element_content Phrasing type_) as [content|] eqn:Hc; [|done].
  by rewrite (element_content_Phrasing _ _ Hc).
Qed.

(** A test that does not depend on the index, over an indexed map. *)
Lemma forallb_imap {A B} (p : B -> bool) (q : A -> bool) (f : nat -> A -> B) l :
  (forall i x, p (f i x) = q x) -> forallb p (imap f l) = forallb q l.
Proof.
  revert f. induction l as [|x l IH]; intros f Hf; cbn; [done|].
  rewrite Hf. f_equal. apply IH. intros i y. apply Hf.
Qed.

Lemma forallb_fmap {A B} (p : B -> bool) (f : A -> B) l :
  forallb p (f <$> l) = forallb (p ∘ f) l.
Proof. induction l; cbn; [done|]. by f_equal. Qed.

End rules.

End Html.

Module DocHtmlViewTyping.
Import DocHtmlView DocHtmlViewTotal Html.

(** A node that renders to phrasing content. *)
Definition inline (node : DocNode) : bool :=
  match node with
  | NParagraph _ | NFencedCode _ => false
  | _ => true
  end.

(** Inline nodes hold no nodes of their own. *)
Lemma inline_nodes_depth (nodes : list DocNode) :
  forallb inline nodes = true -> (nodes_depth nodes <= 1)%nat.
Proof.
  unfold nodes_depth. induction nodes as [|node nodes IH]; cbn; [lia|].
  intros [Hn Hns]%andb_prop. specialize (IH Hns). by destruct node; cbn in *; lia.
Qed.

Section typing.
Context `{NodeTransforms}.

(** A node that renders to flow content: a paragraph holds inline nodes
    once it is trimmed. *)
Definition placed (node : DocNode) : bool :=
  match node with
  | NParagraph nodes => forallb inline (trimSpacesInParagraph nodes)
  | _ => true
  end.

(** Every node of every container of the comment is placed. *)
Definition comment_placed (docComment : DocComment) : bool :=
  forallb (forallb placed) (containers docComment).

(** ** Nodes and containers *)

Section nodes.
Implicit Types (node : DocNode) (section : list DocNode) (key : string).

Lemma valid_inline node key :
  valid Phrasing (renderDocNode_total node key) = inline node.
Proof.
  rewrite renderDocNode_total_eq. destruct node; try done.
  by destruct (renderLinkTag_anchor linkTag key) as [linkText ->].
Qed.

Lemma valid_container parent (q : DocNode -> bool) section :
  (forall node key, valid parent (renderDocNode_total node key) = q node) ->
  valid parent (renderContainer_total section) = forallb q section.
Proof.
  intros Hq. unfold renderContainer_total. cbn -[imap].
  by rewrite andb_true_r, (forallb_imap _ q).
Qed.

Lemma valid_placed node key :
  valid Flow (renderDocNode_total node key) = placed node.
Proof.
  rewrite renderDocNode_total_eq. destruct node; try done.
  - by destruct (renderLinkTag_anchor linkTag key) as [linkText ->].
  - cbn -[renderContainer_total]. rewrite andb_true_r.
    apply valid_container, valid_inline.
Qed.

Lemma valid_container_Flow section :
  valid Flow (renderContainer_total section) = forallb placed section.
Proof. apply valid_container, valid_placed. Qed.

End nodes.

(** ** Sections *)

Section sections.
Implicit Types (docComment : DocComment) (body : ReactNode).

Lemma valid_section key text body :
  valid Flow (output_section key text body) = valid Flow body.
Proof. cbn. by rewrite andb_true_r. Qed.

Lemma valid_section_total key text (section : option (list DocNode)) :
  forallb (valid Flow) (section_total key text section) =
  forallb (forallb placed) (option_list section).
Proof.
  destruct section as [section|]; [|done]. cbn -[output_section].
  by rewrite valid_section, valid_container_Flow.
Qed.

Lemma valid_parameters docComment :
  forallb (valid Flow) (parameters_total docComment) =
  forallb (forallb placed)
    (blockContent <$> DocParamCollection.blocks (params docComment)).
Proof.
  unfold parameters_total.
  destruct (DocParamCollection.blocks _) as [|b l]; [done|].
  cbn -[output_section imap fmap]. rewrite valid_section, andb_true_r.
  cbn -[imap fmap]. rewrite !andb_true_r, forallb_fmap.
  apply forallb_imap. intros i x. cbn -[renderContainer_total].
  by rewrite !andb_true_r, valid_container_Flow.
Qed.

Lemma valid_examples docComment :
  forallb (valid Flow) (examples_total docComment) =
  forallb (forallb placed) (content <$> exampleBlocks docComment).
Proof.
  unfold examples_total. rewrite forallb_fmap.
  apply forallb_imap. intros i x. cbn -[renderContainer_total].
  by rewrite andb_true_r, valid_container_Flow.
Qed.

Lemma valid_seeAlso docComment :
  forallb (valid Flow) (seeAlso_total docComment) =
  forallb (forallb placed) (content <$> seeBlocks docComment).
Proof.
  unfold seeAlso_total. destruct (seeBlocks docComment) as [|b l]; [done|].
  cbn -[output_section imap fmap]. rewrite valid_section, andb_true_r.
  cbn -[imap fmap]. rewrite !andb_true_r, forallb_fmap.
  apply forallb_imap. intros i x. cbn -[renderContainer_total].
  by rewrite !andb_true_r, valid_container_Flow.
Qed.

Lemma valid_modifiers docComment :
  forallb (valid Flow) (modifiers_total docComment) = true.
Proof.
  unfold modifiers_total. destruct (modifierTagSet docComment) as [|b l]; [done|].
  cbn -[output_section imap]. rewrite valid_section, andb_true_r.
  cbn -[imap]. rewrite (forallb_imap _ (fun _ => true)) by done.
  by apply forallb_forall.
Qed.

Lemma valid_output docComment :
  forallb (valid Flow) (output_total docComment) = comment_placed docComment.
Proof.
  unfold output_total, comment_placed, containers.
  rewrite !forallb_app, !valid_section_total, valid_parameters, valid_examples,
    valid_seeAlso, valid_modifiers, andb_true_r.
  by destruct (returnsBlock docComment), (remarksBlock docComment).
Qed.

Lemma valid_render_total (props : IDocHtmlViewProps) :
  valid Flow (render_total props) = comment_placed (docComment props).
Proof. cbn -[output_total]. by rewrite andb_true_r, valid_output. Qed.

End sections.

(** ** Correctness *)

Section correctness.
Implicit Types (fuel : nat) (node : DocNode) (props : IDocHtmlViewProps).
Implicit Types (key : string) (r : ReactNode).

(** C6: the tree that [render] returns is valid HTML flow content
    exactly when every node of every container of the comment is placed:
    when no paragraph holds, once trimmed, a paragraph or a fenced code
    block. *)
Theorem render_valid fuel props r :
  render fuel props = Some r ->
  valid Flow r = comment_placed (docComment props).
Proof. intros ->%render_Some_total. apply valid_render_total. Qed.

(** The tree that [_renderDocNode] returns for a node is phrasing
    content exactly when the node is neither a paragraph nor a fenced code
    block, and flow content exactly when the node is placed. *)
Theorem renderDocNode_valid fuel node key r :
  _renderDocNode fuel node key = Some r ->
  valid Phrasing r = inline node /\ valid Flow r = placed node.
Proof.
  intros ->%renderDocNode_Some_total. split; [apply valid_inline|apply valid_placed].
Qed.

End correctness.

End typing.

(** ** Validity and the whitespace normalization *)

Section normalization.
Implicit Types (nodes : list DocNode) (node : DocNode).

Lemma inline_content_nodes nodes :
  forallb inline nodes = forallb inline (DocNodeTransforms.content_nodes nodes).
Proof.
  unfold DocNodeTransforms.content_nodes.
  induction nodes as [|node nodes IH]; [done|]. cbn [forallb].
  destruct (DocNodeTransforms.spacing node) eqn:Hs.
  - rewrite filter_cons_False by congruence. rewrite <- IH. by destruct node.
  - rewrite filter_cons_True by done. cbn. by rewrite IH.
Qed.

(** The normalization adds soft breaks and removes spacing, which are
    inline: a node is placed under the normalization exactly when it is
    placed without it, and so for the comments: whether the view is valid
    does not depend on the spacing of the paragraphs. *)
Theorem placed_trim_spaces node :
  @placed DocNodeTransforms.trim_spaces node = @placed keep_spaces node.
Proof.
  destruct node; try done. cbn.
  rewrite (inline_content_nodes (DocNodeTransforms.trimSpacesInParagraph _)).
  unfold DocNodeTransforms.trimSpacesInParagraph.
  rewrite DocNodeTransforms.trim_from_content_nodes.
  by rewrite <- inline_content_nodes.
Qed.

End normalization.

(** ** Examples *)

Section examples.
#[local] Existing Instance keep_spaces.

Lemma render_valid_witness :
  valid Flow example_tree = comment_placed (docComment example_props).
Proof. by apply (render_valid 2 example_props example_tree). Defined.

(** A fenced code block in a paragraph. *)
Definition example_misplaced : DocNode :=
  NParagraph [NPlainText "see"; NFencedCode "add(1, 2)"].

Definition example_misplaced_tree : ReactNode :=
  Eval vm_compute in default RUndefined (_renderDocNode 2 example_misplaced "key_0").

Lemma renderDocNode_valid_witness :
  valid Phrasing example_misplaced_tree = inline example_misplaced /\
  valid Flow example_misplaced_tree = placed example_misplaced.
Proof. by apply (renderDocNode_valid 2 example_misplaced "key_0"). Defined.

(** The view of the example comment is valid; a [pre] in a [p] is
    not. *)
Example example_valid :
  valid Flow example_tree = true /\ valid Flow example_misplaced_tree = false.
Proof. by vm_compute. Qed.

End examples.

End DocHtmlViewTyping.
