(* ===== verification/Pipeline.v ===== *)
(** * From the nodes to the view

    The playground shows what the parser built: the view
    [src/playground/src/DocHtmlView.tsx] switches on the kind of a node
    and reads its fields. [Module Pipeline] composes the nodes of
    [PlainText], [InlineTag] and [MemberSymbol] and the collection of
    [ParamCollection] with the view of [HtmlView].

    [Node] is a node of one of the three classes. [view_node] is what the
    view reads of it: for a plain text the getter [text], which fills the
    cache of the node, and for the others the kind alone, for which the
    view has no case. [view_section] reads the nodes of a section in
    order and returns them as they are after the reading.

    The theorems: the text of the view of a section is the concatenation
    of the texts of its plain texts, an inline tag or a member symbol
    adds nothing, and a second reading returns the same section; when the
    plain texts of a section are parsed from adjacent ranges of a buffer,
    the text of the view is the text of the buffer they cover, and so from
    the tokens of a line to the text of the line; the table
    of parameters has one row for each block added to the collection
    since it was cleared last, in the order of insertion. *)

From Stdlib Require Import ZArith String Lia.
From stdpp Require Import base tactics option list strings.
From S2P Require Import Prelude JsString Range Tokenizer ParamCollection Excerpt.
From S2P Require Import PlainText InlineTag MemberSymbol React HtmlView HtmlTotal.

Module Pipeline.
Import DocHtmlView DocHtmlViewTotal.

(** The name of a kind, as [node.kind] returns it. *)
Definition kind_name (kind : DocNodeKind) : string :=
  match kind with
  | CodeSpan => "CodeSpan"
  | DeclarationReference => "DeclarationReference"
  | ErrorText => "ErrorText"
  | EscapedText => "EscapedText"
  | Excerpt => "Excerpt"
  | FencedCode => "FencedCode"
  | InlineTag => "InlineTag"
  | LinkTag => "LinkTag"
  | MemberSymbol => "MemberSymbol"
  | Paragraph => "Paragraph"
  | ParamCollection => "ParamCollection"
  | PlainText => "PlainText"
  | SoftBreak => "SoftBreak"
  end.

Section nodes.
Context {Cfg Base Ref : Type} `{NodeTransforms}.

(** A node of a section, of one of the classes of the sources. *)
Inductive Node : Type :=
| PlainTextNode (this : DocPlainText.t Cfg TextRange.t)
| InlineTagNode (this : DocInlineTag.t Cfg TextRange.t Base)
| MemberSymbolNode (this : DocMemberSymbol.t Cfg TextRange.t Ref).

(** [node.kind] *)
Definition node_kind (node : Node) : DocNodeKind :=
  match node with
  | PlainTextNode this => DocPlainText.kind this
  | InlineTagNode this => DocInlineTag.kind this
  | MemberSymbolNode this => DocMemberSymbol.kind this
  end.

(** What [_renderDocNode] reads of a node, and the node after it: the
    case [PlainText] calls the getter [text]. *)
Definition view_node (node : Node) : result string (DocNode * Node) :=
  match node with
  | PlainTextNode this =>
      (r <- DocPlainText.text this ;;
       Ok (NPlainText r.1, PlainTextNode r.2))%result
  | _ => Ok (NOther (kind_name (node_kind node)), node)
  end.

(** The nodes of a section, read in order. *)
Fixpoint view_section (nodes : list Node) :
    result string (list DocNode * list Node) :=
  match nodes with
  | [] => Ok ([], [])
  | node :: nodes =>
      (r <- view_node node ;;
       rs <- view_section nodes ;;
       Ok (r.1 :: rs.1, r.2 :: rs.2))%result
  end.

(** The constructor calls of a parser that makes a plain text of each
    range of a list. *)
Fixpoint parse_section (configuration : Cfg) (ranges : list TextRange.t) :
    result string (list Node) :=
  match ranges with
  | [] => Ok []
  | range :: ranges =>
      (this <- DocPlainText.new
                 (Parsed {| DocPlainText.p_configuration := configuration;
                            DocPlainText.p_textExcerpt := range |}) ;;
       nodes <- parse_section configuration ranges ;;
       Ok (PlainTextNode this :: nodes))%result
  end.

(** ** Specification *)

(** The text a node shows. *)
Definition node_text (node : Node) : string :=
  match node with
  | PlainTextNode this => default "" (DocPlainText.text_of this)
  | _ => ""
  end.

Definition node_wf (node : Node) : Prop :=
  match node with
  | PlainTextNode this => DocPlainText.wf this
  | _ => True
  end.

(** The view [d] shows the text of the node [node]. *)
Definition shows (d : DocNode) (node : Node) : Prop :=
  depth d = 1%nat /\
  forall key, React.text_content (renderDocNode_total d key) = node_text node.

(** ** Reading a node *)

Section reading.
Implicit Types (node : Node) (nodes : list Node) (d : DocNode).
Implicit Types (section : list DocNode).

Lemma shows_other (kind : string) node :
  node_text node = "" -> shows (NOther kind) node.
Proof. intros Ht. split; [done|]. intros key. by rewrite renderDocNode_total_eq. Qed.

Lemma shows_plain_text v this :
  DocPlainText.text_of this = Some v -> shows (NPlainText v) (PlainTextNode this).
Proof.
  intros Hv. split; [done|]. intros key. rewrite renderDocNode_total_eq.
  unfold node_text, Js.join. rewrite Hv. cbn. apply str_app_nil_r.
Qed.

Lemma view_node_Ok node :
  node_wf node ->
  exists d node', view_node node = Ok (d, node') /\ shows d node /\
    node_wf node' /\ view_node node' = Ok (d, node').
Proof.
  destruct node as [this|this|this]; intros Hwf;
    [|by eexists _, _; split_and!; [done|apply shows_other|..]..].
  destruct (DocPlainText.text_Ok this Hwf) as (v & this' & Ht & Hv & Hv' & _).
  exists (NPlainText v), (PlainTextNode this'). cbn [view_node node_wf].
  rewrite Ht, (DocPlainText.text_stored this' v Hv').
  split_and!; [done|by apply shows_plain_text| |done].
  by eapply DocPlainText.text_preserves_wf.
Qed.

Lemma view_section_Ok nodes :
  Forall node_wf nodes ->
  exists section nodes', view_section nodes = Ok (section, nodes') /\
    Forall2 shows section nodes /\ Forall node_wf nodes' /\
    view_section nodes' = Ok (section, nodes').
Proof.
  induction 1 as [|node nodes Hwf _ (section & nodes' & Hs & Hsh & Hwf' & Hs')].
  { by exists [], []. }
  destruct (view_node_Ok node Hwf) as (d & node' & Hd & Hshd & Hwfd & Hd').
  exists (d :: section), (node' :: nodes'). cbn. rewrite Hd, Hd'. cbn.
  rewrite Hs, Hs'. cbn. auto.
Qed.

Lemma imap_Forall2 {A B C} (g : nat -> A -> C) (h : B -> C) l k :
  Forall2 (fun a b => forall i, g i a = h b) l k -> imap g l = h <$> k.
Proof.
  revert g k. induction l as [|a l IH]; intros g k Hlk.
  { by apply Forall2_nil_inv_l in Hlk as ->. }
  apply Forall2_cons_inv_l in Hlk as (b & k' & Hab & Hlk & ->).
  cbn. rewrite Hab. f_equal. apply IH.
  eapply Forall2_impl; [exact Hlk|]. intros a' b' Hg i. apply Hg.
Qed.

Lemma shows_text section nodes :
  Forall2 shows section nodes ->
  (nodes_depth section <= 1)%nat /\
  React.text_content (renderContainer_total section) =
  Js.join (node_text <$> nodes).
Proof.
  intros Hsh. split.
  - unfold nodes_depth.
    induction Hsh as [|d node ? ? [Hd _] _ IH]; cbn; [lia|]. rewrite Hd. lia.
  - unfold renderContainer_total, Js.join. cbn -[imap].
    rewrite str_app_nil_r, fmap_imap. f_equal. apply imap_Forall2.
    eapply Forall2_impl; [exact Hsh|]. intros d node [_ Ht] i. apply Ht.
Qed.

Lemma parse_section_Ok (configuration : Cfg) (ranges : list TextRange.t) :
  exists nodes, parse_section configuration ranges = Ok nodes /\
    Forall node_wf nodes /\
    node_text <$> nodes = TextRange.toString <$> ranges.
Proof.
  induction ranges as [|range ranges (nodes & Hp & Hwf & Ht)]; [by exists []|].
  exists (PlainTextNode
            (DocPlainText.Build configuration None
               (Some (DocExcerpt.new configuration ExcerptPlainText range)))
          :: nodes).
  split_and!; [by cbn; rewrite Hp|by constructor|by rewrite !fmap_cons, Ht].
Qed.

(** The text of the view of the plain texts of a chain of adjacent
    ranges. *)
Lemma parse_view_text (configuration : Cfg) b from ranges to :
  (0 <= from)%Z -> (to <= Js.length b)%Z ->
  TextRange.adjacent b from ranges to ->
  exists nodes section nodes' r,
    parse_section configuration ranges = Ok nodes /\
    view_section nodes = Ok (section, nodes') /\
    _renderContainer 1 section = Some r /\
    React.text_content r = Js.substring b from to.
Proof.
  intros Hfrom Hto Hadj.
  destruct (parse_section_Ok configuration ranges) as (nodes & Hp & Hwf & Ht).
  destruct (view_section_Ok nodes Hwf)
    as (section & nodes' & Hs & [Hd Hc]%shows_text & _).
  exists nodes, section, nodes', (renderContainer_total section).
  rewrite (renderContainer_equiv 1 section Hd), Hc, Ht.
  by rewrite (TextRange.join_adjacent b from ranges to).
Qed.

End reading.

(** ** Correctness *)

Section correctness.
Implicit Types (nodes : list Node) (fuel : nat) (out : list ReactNode).

(** The view of a section of valid nodes returns with fuel 1, and
    its text is the concatenation of the texts of the plain texts of the
    section, in order: an inline tag or a member symbol is a node of a
    kind the view has no case for and adds nothing. Reading fills the
    caches of the plain texts, and a second reading returns the same
    section and leaves the nodes as they are. *)
Theorem section_text nodes :
  Forall node_wf nodes ->
  exists section nodes' r,
    view_section nodes = Ok (section, nodes') /\
    _renderContainer 1 section = Some r /\
    React.text_content r = Js.join (node_text <$> nodes) /\
    view_section nodes' = Ok (section, nodes').
Proof.
  intros (section & nodes' & Hs & [Hd Ht]%shows_text & _ & Hs')%view_section_Ok.
  exists section, nodes', (renderContainer_total section).
  by rewrite (renderContainer_equiv 1 section Hd).
Qed.

(** C9: when a parser makes a plain text of each of a chain of adjacent
    ranges of a buffer, the text of the view of the section is the text
    of the buffer from the start of the first range to the end of the
    last. *)
Theorem parsed_section_round_trip (configuration : Cfg) b from ranges to :
  (0 <= from)%Z -> (to <= Js.length b)%Z ->
  TextRange.adjacent b from ranges to ->
  exists nodes section nodes' r,
    parse_section configuration ranges = Ok nodes /\
    view_section nodes = Ok (section, nodes') /\
    _renderContainer 1 section = Some r /\
    React.text_content r = Js.substring b from to.
Proof. apply parse_view_text. Qed.

(** From the tokens to the view: when a plain text is made of each
    token of a valid line, the text of the view of the section is the text
    of the line. *)
Theorem tokens_view_round_trip (configuration : Cfg) (line : TextRange.t) :
  TextRange.wf line ->
  exists nodes section nodes' r,
    parse_section configuration (Tokenizer.range <$> Tokenizer.tokenize line) =
      Ok nodes /\
    view_section nodes = Ok (section, nodes') /\
    _renderContainer 1 section = Some r /\
    React.text_content r = TextRange.toString line.
Proof.
  intros Hwf. pose proof (Tokenizer.tokenize_adjacent line Hwf) as Hadj.
  destruct Hwf as (? & ? & ?).
  by apply (parse_view_text configuration _ _ _ _ ltac:(done) ltac:(done)) in Hadj.
Qed.

(** C22: the table of parameters of a comment whose collection was
    filled by a sequence of [add] and [clear] has one row for each block
    added since the last [clear], in the order of insertion, with the
    name of the block in its first cell; there is no table when there is
    no such block; and [tryGetBlockByName] finds a name exactly when a row
    has it. *)
Theorem parameters_pipeline
    (parameters : DocParamCollection.IDocParamCollectionParameters Cfg)
    fuel ops (docComment : DocComment) out out' :
  params docComment = DocParamCollection.run ops (DocParamCollection.new parameters) ->
  render_parameters fuel docComment out = Some out' ->
  exists rows,
    out' = out ++
      (if DocParamCollection.abs_run ops [] is [] then []
       else [output_section "parameters" "Parameters" (parameters_table rows)]) /\
    row_name <$> rows = parameterName <$> DocParamCollection.abs_run ops [] /\
    forall name,
      is_Some (DocParamCollection.tryGetBlockByName name (params docComment)) <->
      name ∈ row_name <$> rows.
Proof.
  intros Hops ->%render_parameters_Some_total.
  exists (imap row_total (DocParamCollection.abs_run ops [])).
  unfold parameters_total.
  rewrite Hops, DocParamCollection.blocks_run, row_name_imap.
  split_and!; [by destruct (DocParamCollection.abs_run ops [])|done|].
  intros name.
  rewrite <- (DocParamCollection.blocks_run parameters), <- not_eq_None_Some.
  rewrite DocParamCollection.lookup_wf
    by apply DocParamCollection.wf_reachable, DocParamCollection.reachable_run.
  rewrite DocParamCollection.first_by_name_None.
  split; [apply dec_stable|tauto].
Qed.

End correctness.

End nodes.

Arguments Node Cfg Base Ref : clear implicits.

(** ** Examples *)

Section examples.
#[local] Existing Instance keep_spaces.

(** The section [Summary.{@myTag x=12.34 y=56.78 }[ a.b ]]: a plain text,
    an inline tag and a member symbol. *)
Definition example_nodes : list (Node unit string TextRange.t) :=
  [PlainTextNode DocPlainText.summary_node;
   InlineTagNode DocInlineTag.myTag;
   MemberSymbolNode (DocMemberSymbol.new (Parsed DocMemberSymbol.symbol_parameters))].

Lemma example_nodes_wf : Forall node_wf example_nodes.
Proof.
  repeat apply Forall_cons_2; [|done..].
  apply DocPlainText.plain_wf_reachable, DocPlainText.summary_node_reachable.
Qed.

Lemma section_text_witness :
  exists section nodes' r,
    view_section example_nodes = Ok (section, nodes') /\
    _renderContainer 1 section = Some r /\
    React.text_content r = Js.join (node_text <$> example_nodes) /\
    view_section nodes' = Ok (section, nodes').
Proof. apply (section_text example_nodes), example_nodes_wf. Defined.

(** The words of [/** Summary. */], as two ranges. *)
Definition example_ranges : list TextRange.t :=
  [TextRange.Build "/** Summary. */" 4 8; TextRange.Build "/** Summary. */" 8 12].

Lemma parsed_section_round_trip_witness :
  exists (nodes : list (Node unit string TextRange.t)) section nodes' r,
    parse_section tt example_ranges = Ok nodes /\
    view_section nodes = Ok (section, nodes') /\
    _renderContainer 1 section = Some r /\
    React.text_content r = Js.substring "/** Summary. */" 4 12.
Proof.
  apply (parsed_section_round_trip tt "/** Summary. */" 4 example_ranges 12);
    [done | by compute |].
  cbn. unfold TextRange.wf. cbn. by compute.
Defined.

(** The collection of the example comment, as the parser fills it. *)
Definition example_ops : list (DocParamCollection.op (DocParamBlock (list DocNode))) :=
  [DocParamCollection.Add {| blockParameterName := "y"; blockContent := [] |};
   DocParamCollection.Clear;
   DocParamCollection.Add {| blockParameterName := "x";
                             blockContent := [NPlainText "first"] |};
   DocParamCollection.Add {| blockParameterName := "x";
                             blockContent := [NPlainText "again"] |}].

Lemma tokens_view_round_trip_witness :
  exists (nodes : list (Node unit string TextRange.t)) section nodes' r,
    parse_section tt (Tokenizer.range <$> Tokenizer.tokenize TokenizerTest.line_1) =
      Ok nodes /\
    view_section nodes = Ok (section, nodes') /\
    _renderContainer 1 section = Some r /\
    React.text_content r = TextRange.toString TokenizerTest.line_1.
Proof.
  exact (tokens_view_round_trip tt TokenizerTest.line_1 TokenizerTest.line_1_wf).
Defined.

Lemma parameters_pipeline_witness :
  exists rows,
    example_parameters =
    [] ++ (if DocParamCollection.abs_run example_ops [] is [] then []
           else [output_section "parameters" "Parameters" (parameters_table rows)]) /\
    row_name <$> rows = parameterName <$> DocParamCollection.abs_run example_ops [] /\
    forall name,
      is_Some (DocParamCollection.tryGetBlockByName name (params example_comment)) <->
      name ∈ row_name <$> rows.
Proof.
  by apply (parameters_pipeline {| DocParamCollection.c_configuration := tt |}
              2 example_ops example_comment [] example_parameters).
Defined.

(** The view of the example section shows the plain text alone, and
    the inline tag and the member symbol are [undefined] in it. *)
Example example_section_view :
  res_map (fun r => (fst r, React.text_content (renderContainer_total (fst r))))
    (view_section example_nodes) =
  Ok ([NPlainText "Summary."; NOther "InlineTag"; NOther "MemberSymbol"],
      "Summary.").
Proof. by vm_compute. Qed.

End examples.

End Pipeline.
