(* ===== verification/ParserContext.v ===== *)
(** * The parser context and its diagnostic log

    The specification names a parser context, whose code is not part of
    the sources: the state of one parse, which holds the range of the
    comment in the buffer, the lines that were extracted, the tokens, the
    comment that was built and the log of the diagnostics, each with a
    severity, a message and the range of the source it is about. The test
    of the tokenizer in the sources reads [lines] and [tokens] of it. This
    file models the record and the log from the specification.

    The log is a list in the order of the reports. A diagnostic of
    malformed content is an error, a diagnostic of the validation of the
    tags a warning; none of them stops the parse. *)

From Stdlib Require Import ZArith String.
From stdpp Require Import base tactics option list strings.
From S2P Require Import Prelude JsString Range Tokenizer ParamCollection HtmlView.

(** ** Diagnostics *)

Inductive Severity : Type :=
| SeverityError
| SeverityWarning.

#[export] Instance Severity_eq_dec : EqDecision Severity.
Proof. solve_decision. Defined.

(** An entry of the log. *)
Record ParserMessage : Type :=
  { severity : Severity; messageText : string; sourceRange : TextRange.t }.

#[export] Instance ParserMessage_eq_dec : EqDecision ParserMessage.
Proof. pose proof TextRange.t_eq_dec. solve_decision. Defined.

(** ** The context *)

Module ParserContext.

Record t : Type :=
  Build { sourceRange : TextRange.t;
          lines : list TextRange.t;
          tokens : list Tokenizer.Token;
          docComment : DocHtmlView.DocComment;
          log : list ParserMessage }.

(** What the test of the tokenizer reads of a context. *)
Definition test_view (this : t) : TokenizerTest.ParserContext :=
  {| TokenizerTest.lines := lines this; TokenizerTest.tokens := tokens this |}.

End ParserContext.
