(* ===== verification/NodeParser.v ===== *)
(** * The node parser: the grammar of the blocks

    The specification names a node parser, whose code is not part of the
    sources: a single forward pass over the lines of a comment and their
    tokens that builds the comment and never raises. [Module NodeParser]
    models from the specification the grammar of the blocks:

    - the summary is the content before the first block tag;
    - a block tag, [@name] at the start of a line after spacing, whose
      definition in the configuration is a block tag, closes the section
      before it and opens a section, whose content is the rest of the line
      and the lines up to the next block tag;
    - [@param] is followed by the name of the parameter and an optional
      hyphen, which is stripped; without a name the tag is malformed: the
      rest of the line becomes an error text in the section that is open,
      with a diagnostic, and the parse goes on at the next line;
    - [@returns] and [@remarks] are singletons: a second block is reported
      and dropped, the first stays;
    - [@see] blocks and the other blocks, [@example] among them, are kept
      in the order of the lines;
    - a modifier tag has no content: it goes into the set of the modifier
      tags, and the rest of its line is content of the section that is
      open;
    - a tag without a definition, or with the definition of an inline tag,
      is kept as a generic node, and reported when the configuration is
      strict.

    The grammar of the text of a line (code spans, inline tags, escapes)
    is the interface [InlineGrammar]: the nodes and the diagnostics of the
    tokens of a line, all of them inline nodes. [plain_text] is the
    instance without markup, a plain text for every token, used in the
    examples of this file; the grammar of the specification is the
    instance of [Markup]. Within a section a line without content closes
    a paragraph, and the lines of a paragraph are separated by soft
    breaks.

    The parser is [parse_line], a step on [State] (the comment so far, the
    section that is open with its paragraphs, and the log). [parse_lines]
    folds it over the lines: that is the grammar of the blocks alone, the
    parse of a comment without code fences. Fenced code spans lines; the
    parser with the fences, which the composition uses, is
    [FencedCode.parse_comment] of [Fence], and it is [parse_lines] on the
    lines outside the fences. *)

From Stdlib Require Import ZArith String Ascii Lia.
From stdpp Require Import base tactics option list strings.
From S2P Require Import Prelude JsString Range Tokenizer Configuration.
From S2P Require Import ParamCollection React HtmlView Comment Transforms.
From S2P Require Import HtmlTotal HtmlTyping ParserContext.

#[local] Open Scope Z_scope.

(** ** The grammar of a line *)

(** The nodes and the diagnostics of the tokens of a line; the nodes
    are inline. *)
Class InlineGrammar : Type :=
  { parseLine : list Tokenizer.Token -> list DocHtmlView.DocNode * list ParserMessage;
    parseLine_inline tokens :
      forallb DocHtmlViewTyping.inline (parseLine tokens).1 = true }.

Module NodeParser.
Import DocHtmlView.
Import TSDocTagDefinition(tagName, syntaxKind, allowMultiple).
#[local] Existing Instance Tokenizer.TokenKind_eq_dec.

(** ** Tokens *)

Definition token_text (token : Tokenizer.Token) : string :=
  TextRange.toString (Tokenizer.range token).

(** The tokens after the spacing at the start. *)
Fixpoint skip_spacing (tokens : list Tokenizer.Token) : list Tokenizer.Token :=
  match tokens with
  | token :: tokens' =>
      if decide (Tokenizer.kind token = Tokenizer.Spacing)
      then skip_spacing tokens' else tokens
  | [] => []
  end.

(** A line without content. *)
Definition is_blank (tokens : list Tokenizer.Token) : bool :=
  match skip_spacing tokens with
  | [] => true
  | _ => false
  end.

(** The range that a token and the tokens after it cover. *)
Definition span (first : Tokenizer.Token) (rest : list Tokenizer.Token) :
    TextRange.t :=
  TextRange.Build (TextRange.buffer (Tokenizer.range first))
    (TextRange.pos (Tokenizer.range first))
    (TextRange.end_ (Tokenizer.range (List.last rest first))).

(** The instance without markup: a plain text for every token. *)
Lemma plain_nodes_inline (tokens : list Tokenizer.Token) :
  forallb DocHtmlViewTyping.inline (NPlainText ∘ token_text <$> tokens) = true.
Proof. by induction tokens. Qed.

Definition plain_text : InlineGrammar :=
  {| parseLine tokens := (NPlainText ∘ token_text <$> tokens, []);
     parseLine_inline := plain_nodes_inline |}.

(** ** The lines of a block *)

(** The kinds of lines: a line that opens a block, with the tag as it
    is written, its range and the rest of the line; a malformed tag, with
    the text and the range of the offending part of the line; a modifier
    tag; a tag that is not recognized; and content. *)
Inductive LineKind : Type :=
| LParam (name : string) (content : list Tokenizer.Token)
| LBlock (tag : DocBlockTag) (range : TextRange.t) (rest : list Tokenizer.Token)
| LMalformed (text : string) (range : TextRange.t)
| LModifier (tag : DocBlockTag) (rest : list Tokenizer.Token)
| LUnknown (tag : DocBlockTag) (range : TextRange.t) (rest : list Tokenizer.Token)
| LContent (tokens : list Tokenizer.Token).

(** The tag at the start of a line: [@], a word and the rest. *)
Definition block_tag (tokens : list Tokenizer.Token) :
    option (Tokenizer.Token * Tokenizer.Token * list Tokenizer.Token) :=
  match skip_spacing tokens with
  | at_sign :: word :: rest =>
      if decide (Tokenizer.kind at_sign = Tokenizer.Punctuation "@" /\
                 Tokenizer.kind word = Tokenizer.AsciiWord)
      then Some (at_sign, word, rest) else None
  | _ => None
  end.

(** After [@param]: the name, and the content after the optional
    hyphen. *)
Definition param_name (rest : list Tokenizer.Token) :
    option (string * list Tokenizer.Token) :=
  match skip_spacing rest with
  | word :: rest' =>
      if decide (Tokenizer.kind word = Tokenizer.AsciiWord) then
        Some (token_text word,
              match skip_spacing rest' with
              | hyphen :: rest'' =>
                  if decide (Tokenizer.kind hyphen = Tokenizer.Punctuation "-")
                  then skip_spacing rest'' else hyphen :: rest''
              | [] => []
              end)
      else None
  | [] => None
  end.

(** The kind of a line, by the configuration. *)
Definition classify (configuration : TSDocConfiguration.t)
    (tokens : list Tokenizer.Token) : LineKind :=
  match block_tag tokens with
  | Some (at_sign, word, rest) =>
      let tag := DocBlockTag.new ("@" +:+ token_text word) in
      let range := span at_sign [word] in
      match TSDocConfiguration.tryGetTagDefinition (DocHtmlView.tagName tag)
              configuration with
      | Some definition =>
          match syntaxKind definition with
          | BlockTag =>
              if decide (tagNameWithUpperCase tag =
                         TSDocTagDefinition.tagNameWithUpperCase StandardTags.param)
              then match param_name rest with
                   | Some (name, content) => LParam name content
                   | None =>
                       LMalformed
                         (TextRange.toString (span at_sign (word :: rest)))
                         (span at_sign (word :: rest))
                   end
              else LBlock tag range rest
          | ModifierTag => LModifier tag rest
          | InlineTag => LUnknown tag range rest
          end
      | None => LUnknown tag range rest
      end
  | None => LContent tokens
  end.

(** ** The state of the parse *)

(** The section that is open. *)
Inductive Target : Type :=
| TSummary
| TParam (name : string)
| TReturns (tag : DocBlockTag)
| TRemarks (tag : DocBlockTag)
| TSee (tag : DocBlockTag)
| TCustom (tag : DocBlockTag)
| TDiscard.

Record State : Type :=
  { docComment : DocComment;
    target : Target;
    paragraphs : list DocNode;
    paragraph : list DocNode;
    log : list ParserMessage }.

Definition init (configuration : TSDocConfiguration.t) : State :=
  {| docComment := DocComment.new configuration; target := TSummary;
     paragraphs := []; paragraph := []; log := [] |}.

Section parser.
Context `{InlineGrammar}.

(** ** The content of a section *)

(** The paragraph that is open is closed, unless it is empty. *)
Definition close_paragraph (st : State) : State :=
  match paragraph st with
  | [] => st
  | nodes =>
      {| docComment := docComment st; target := target st;
         paragraphs := paragraphs st ++ [NParagraph nodes];
         paragraph := []; log := log st |}
  end.

(** The nodes of a line go into the paragraph that is open, after a
    soft break when it holds a line already. *)
Definition append_line (nodes : list DocNode) (messages : list ParserMessage)
    (st : State) : State :=
  {| docComment := docComment st; target := target st;
     paragraphs := paragraphs st;
     paragraph :=
       match paragraph st with
       | [] => nodes
       | before => before ++ NSoftBreak :: nodes
       end;
     log := log st ++ messages |}.

(** The content of a line: a line without content closes the paragraph,
    another line goes through the grammar of the line. *)
Definition content_line (tokens : list Tokenizer.Token) (st : State) : State :=
  if is_blank tokens then close_paragraph st
  else append_line (parseLine tokens).1 (parseLine tokens).2 st.

(** ** The sections *)

(** The section that is open is closed: its paragraphs go where the
    target says. *)
Definition commit (st : State) : State :=
  let st := close_paragraph st in
  let nodes := paragraphs st in
  let c := docComment st in
  {| docComment :=
       match target st with
       | TSummary => DocComment.set_summarySection nodes c
       | TParam name =>
           DocComment.add_param
             {| blockParameterName := name; blockContent := nodes |} c
       | TReturns tag =>
           DocComment.set_returnsBlock {| blockTag := tag; content := nodes |} c
       | TRemarks tag =>
           DocComment.set_remarksBlock {| blockTag := tag; content := nodes |} c
       | TSee tag =>
           DocComment.appendSeeBlock {| blockTag := tag; content := nodes |} c
       | TCustom tag =>
           DocComment.appendCustomBlock {| blockTag := tag; content := nodes |} c
       | TDiscard => c
       end;
     target := TDiscard; paragraphs := []; paragraph := []; log := log st |}.

(** A section is opened. *)
Definition open_section (t : Target) (messages : list ParserMessage)
    (st : State) : State :=
  {| docComment := docComment st; target := t;
     paragraphs := []; paragraph := []; log := log st ++ messages |}.

Definition duplicate_message (tag : DocBlockTag) (range : TextRange.t) :
    ParserMessage :=
  {| severity := SeverityError;
     messageText := "The tag " +:+ DocHtmlView.tagName tag +:+
                    " is already used: the first block is kept";
     sourceRange := range |}.

(** The section that a block tag opens, on the comment as it is when
    the section before is closed: a second [@returns] or [@remarks] is
    reported and its section dropped. *)
Definition block_target (tag : DocBlockTag) (range : TextRange.t)
    (c : DocComment) : Target * list ParserMessage :=
  let upper := tagNameWithUpperCase tag in
  if decide (upper = TSDocTagDefinition.tagNameWithUpperCase StandardTags.returns)
  then match returnsBlock c with
       | Some _ => (TDiscard, [duplicate_message tag range])
       | None => (TReturns tag, [])
       end
  else if decide (upper = TSDocTagDefinition.tagNameWithUpperCase StandardTags.remarks)
  then match remarksBlock c with
       | Some _ => (TDiscard, [duplicate_message tag range])
       | None => (TRemarks tag, [])
       end
  else if decide (upper = TSDocTagDefinition.tagNameWithUpperCase StandardTags.see)
  then (TSee tag, [])
  else (TCustom tag, []).

(** ** The pass *)

(** One line. *)
Definition parse_tokens (configuration : TSDocConfiguration.t)
    (st : State) (tokens : list Tokenizer.Token) : State :=
  match classify configuration tokens with
  | LParam name content =>
      content_line content (open_section (TParam name) [] (commit st))
  | LBlock tag range rest =>
      let st := commit st in
      let tm := block_target tag range (docComment st) in
      content_line rest (open_section tm.1 tm.2 st)
  | LMalformed text range =>
      append_line [NErrorText text]
        [{| severity := SeverityError;
            messageText := "The @param tag must be followed by a parameter name";
            sourceRange := range |}] st
  | LModifier tag rest =>
      let st :=
        {| docComment := DocComment.addModifierTag tag (docComment st);
           target := target st; paragraphs := paragraphs st;
           paragraph := paragraph st; log := log st |} in
      if is_blank rest then st else content_line rest st
  | LUnknown tag range rest =>
      append_line (NOther "BlockTag" :: (parseLine rest).1)
        ((if TSDocConfiguration.strict configuration
          then [{| severity := SeverityWarning;
                   messageText := "The tag " +:+ DocHtmlView.tagName tag +:+
                                  " is not defined";
                   sourceRange := range |}]
          else []) ++ (parseLine rest).2) st
  | LContent tokens => content_line tokens st
  end.

Definition parse_line (configuration : TSDocConfiguration.t)
    (st : State) (line : TextRange.t) : State :=
  parse_tokens configuration st (Tokenizer.tokenize line).

(** The lines of a comment, from the first to the end of input. *)
Definition parse_lines (configuration : TSDocConfiguration.t)
    (lines : list TextRange.t) : State :=
  commit (foldl (parse_line configuration) (init configuration) lines).

End parser.

(** ** Specification *)

(** A node of a section: a paragraph of inline nodes, or a fenced code
    block; and a section of such nodes. *)
Definition paragraph_ok (node : DocNode) : bool :=
  match node with
  | NParagraph nodes => forallb DocHtmlViewTyping.inline nodes
  | NFencedCode _ => true
  | _ => false
  end.

Definition section_ok (nodes : list DocNode) : Prop :=
  forallb paragraph_ok nodes = true.

(** Every section of a comment holds paragraphs of inline nodes. *)
Definition comment_ok (c : DocComment) : Prop :=
  (forall s, summarySection c = Some s -> section_ok s) /\
  Forall (fun b => section_ok (blockContent b)) (DocParamCollection.blocks (params c)) /\
  (forall b, returnsBlock c = Some b -> section_ok (content b)) /\
  (forall b, remarksBlock c = Some b -> section_ok (content b)) /\
  Forall (fun b => section_ok (content b)) (customBlocks c) /\
  Forall (fun b => section_ok (content b)) (seeBlocks c).

(** A singleton block that is there is never the target. *)
Definition guarded (st : State) : Prop :=
  (is_Some (returnsBlock (docComment st)) -> forall tag, target st <> TReturns tag) /\
  (is_Some (remarksBlock (docComment st)) -> forall tag, target st <> TRemarks tag).

(** The content of the section that is open is well formed. *)
Definition content_ok (st : State) : Prop :=
  section_ok (paragraphs st) /\
  forallb DocHtmlViewTyping.inline (paragraph st) = true.

(** The invariant of the pass. *)
Definition state_ok (st : State) : Prop :=
  comment_ok (docComment st) /\
  content_ok st /\
  NoDup (ModifierTagSet.names (modifierTagSet (docComment st))) /\
  DocParamCollection.reachable (params (docComment st)) /\
  guarded st.

(** The content of the section that is open. *)
Definition content_of (st : State) : list DocNode :=
  match paragraph st with
  | [] => paragraphs st
  | nodes => paragraphs st ++ [NParagraph nodes]
  end.

(** A line that opens a section. *)
Definition opens_section (configuration : TSDocConfiguration.t)
    (line : TextRange.t) : bool :=
  match classify configuration (Tokenizer.tokenize line) with
  | LParam _ _ | LBlock _ _ _ => true
  | _ => false
  end.

(** The modifier tags and the names of the parameters of the lines of a
    comment, in the order of the lines. *)
Definition modifier_tags (configuration : TSDocConfiguration.t)
    (lines : list TextRange.t) : list DocBlockTag :=
  omap (fun line =>
          match classify configuration (Tokenizer.tokenize line) with
          | LModifier tag _ => Some tag
          | _ => None
          end) lines.

Definition param_names (configuration : TSDocConfiguration.t)
    (lines : list TextRange.t) : list string :=
  omap (fun line =>
          match classify configuration (Tokenizer.tokenize line) with
          | LParam name _ => Some name
          | _ => None
          end) lines.

(** The state in which the content of a line is parsed: a line that
    opens a section closes the section before. *)
Definition section_start (configuration : TSDocConfiguration.t) (st : State)
    (tokens : list Tokenizer.Token) : State :=
  match classify configuration tokens with
  | LParam name _ => open_section (TParam name) [] (commit st)
  | LBlock tag range _ =>
      open_section (block_target tag range (docComment (commit st))).1
        (block_target tag range (docComment (commit st))).2 (commit st)
  | LModifier tag _ =>
      {| docComment := DocComment.addModifierTag tag (docComment st);
         target := target st; paragraphs := paragraphs st;
         paragraph := paragraph st; log := log st |}
  | _ => st
  end.

(** The name of the parameter block that is open. *)
Definition open_param (st : State) : list string :=
  match target st with
  | TParam name => [name]
  | _ => []
  end.

(** The blocks of a comment, by kind. [block_kind] is the kind of the
    block that a tag opens, by its normalized name; a singleton is a kind
    of which the comment holds one block. *)
Inductive BlockKind : Type :=
| KReturns
| KRemarks
| KSee
| KCustom.

#[export] Instance BlockKind_eq_dec : EqDecision BlockKind.
Proof. solve_decision. Defined.

Definition block_kind (tag : DocBlockTag) : BlockKind :=
  let upper := tagNameWithUpperCase tag in
  if decide (upper = TSDocTagDefinition.tagNameWithUpperCase StandardTags.returns)
  then KReturns
  else if decide (upper = TSDocTagDefinition.tagNameWithUpperCase StandardTags.remarks)
  then KRemarks
  else if decide (upper = TSDocTagDefinition.tagNameWithUpperCase StandardTags.see)
  then KSee
  else KCustom.

Definition singleton (k : BlockKind) : bool :=
  match k with
  | KReturns | KRemarks => true
  | KSee | KCustom => false
  end.

(** The tags of the blocks of a kind that a comment holds, in order. *)
Definition block_tags_of (k : BlockKind) (c : DocComment) : list DocBlockTag :=
  match k with
  | KReturns => option_list (blockTag <$> returnsBlock c)
  | KRemarks => option_list (blockTag <$> remarksBlock c)
  | KSee => blockTag <$> seeBlocks c
  | KCustom => blockTag <$> customBlocks c
  end.

(** The tag of the block that is open, when it is of the kind. *)
Definition open_block (k : BlockKind) (st : State) : list DocBlockTag :=
  match k, target st with
  | KReturns, TReturns tag | KRemarks, TRemarks tag
  | KSee, TSee tag | KCustom, TCustom tag => [tag]
  | _, _ => []
  end.

Definition blocks_so_far (k : BlockKind) (st : State) : list DocBlockTag :=
  block_tags_of k (docComment st) ++ open_block k st.

(** The tags of the lines of a comment that open a block other than a
    parameter, in the order of the lines. *)
Definition block_tags (configuration : TSDocConfiguration.t)
    (lines : list TextRange.t) : list DocBlockTag :=
  omap (fun line =>
          match classify configuration (Tokenizer.tokenize line) with
          | LBlock tag _ _ => Some tag
          | _ => None
          end) lines.

(** The block tags of a kind that are kept, one after the other: every
    tag of the kind, and of a singleton the first alone. *)
Definition keep (k : BlockKind) (kept : list DocBlockTag) (tag : DocBlockTag) :
    list DocBlockTag :=
  if decide (block_kind tag = k) then
    if singleton k then match kept with [] => [tag] | _ => kept end
    else kept ++ [tag]
  else kept.

(** In closed form. *)
Definition kept (k : BlockKind) (tags : list DocBlockTag) : list DocBlockTag :=
  let l := filter (fun tag => block_kind tag = k) tags in
  if singleton k then take 1 l else l.

(** ** The steps *)

Section steps.
Context `{InlineGrammar} (configuration : TSDocConfiguration.t).
Implicit Types (st : State) (tokens : list Tokenizer.Token) (nodes : list DocNode).
Implicit Types (messages : list ParserMessage) (tag : DocBlockTag).

(** A step within a section keeps the comment and the target, and
    adds to the log. *)
Definition within st st' : Prop :=
  docComment st' = docComment st /\ target st' = target st /\
  log st `prefix_of` log st'.

Lemma close_paragraph_within st : within st (close_paragraph st).
Proof. unfold close_paragraph. by destruct (paragraph st). Qed.

Lemma append_line_within nodes messages st :
  within st (append_line nodes messages st).
Proof. split_and!; [done..|]. by apply prefix_app_r. Qed.

Lemma content_line_within tokens st : within st (content_line tokens st).
Proof.
  unfold content_line.
  destruct (is_blank tokens); [apply close_paragraph_within|apply append_line_within].
Qed.

Lemma paragraphs_close_paragraph st :
  paragraphs (close_paragraph st) = content_of st /\
  paragraph (close_paragraph st) = [].
Proof. unfold close_paragraph, content_of. by destruct (paragraph st) eqn:Hp. Qed.

(** The comment after the section is closed, field by field. *)
Lemma commit_summarySection st :
  summarySection (docComment (commit st)) =
  match target st with
  | TSummary => Some (content_of st)
  | _ => summarySection (docComment st)
  end.
Proof.
  unfold commit. destruct (paragraphs_close_paragraph st) as [-> _].
  destruct (close_paragraph_within st) as (-> & -> & _). by destruct (target st).
Qed.

Lemma commit_params st :
  params (docComment (commit st)) =
  match target st with
  | TParam name =>
      DocParamCollection.add
        {| blockParameterName := name; blockContent := content_of st |}
        (params (docComment st))
  | _ => params (docComment st)
  end.
Proof.
  unfold commit. destruct (paragraphs_close_paragraph st) as [-> _].
  destruct (close_paragraph_within st) as (-> & -> & _). by destruct (target st).
Qed.

Lemma commit_returnsBlock st :
  returnsBlock (docComment (commit st)) =
  match target st with
  | TReturns tag => Some {| blockTag := tag; content := content_of st |}
  | _ => returnsBlock (docComment st)
  end.
Proof.
  unfold commit. destruct (paragraphs_close_paragraph st) as [-> _].
  destruct (close_paragraph_within st) as (-> & -> & _). by destruct (target st).
Qed.

Lemma commit_remarksBlock st :
  remarksBlock (docComment (commit st)) =
  match target st with
  | TRemarks tag => Some {| blockTag := tag; content := content_of st |}
  | _ => remarksBlock (docComment st)
  end.
Proof.
  unfold commit. destruct (paragraphs_close_paragraph st) as [-> _].
  destruct (close_paragraph_within st) as (-> & -> & _). by destruct (target st).
Qed.

Lemma commit_customBlocks st :
  customBlocks (docComment (commit st)) =
  match target st with
  | TCustom tag =>
      customBlocks (docComment st) ++ [{| blockTag := tag; content := content_of st |}]
  | _ => customBlocks (docComment st)
  end.
Proof.
  unfold commit. destruct (paragraphs_close_paragraph st) as [-> _].
  destruct (close_paragraph_within st) as (-> & -> & _). by destruct (target st).
Qed.

Lemma commit_seeBlocks st :
  seeBlocks (docComment (commit st)) =
  match target st with
  | TSee tag =>
      seeBlocks (docComment st) ++ [{| blockTag := tag; content := content_of st |}]
  | _ => seeBlocks (docComment st)
  end.
Proof.
  unfold commit. destruct (paragraphs_close_paragraph st) as [-> _].
  destruct (close_paragraph_within st) as (-> & -> & _). by destruct (target st).
Qed.

Lemma commit_modifierTagSet st :
  modifierTagSet (docComment (commit st)) = modifierTagSet (docComment st).
Proof.
  unfold commit. destruct (close_paragraph_within st) as (-> & -> & _).
  by destruct (target st).
Qed.

Lemma commit_log st : log (commit st) = log st.
Proof. unfold commit, close_paragraph. by destruct (paragraph st). Qed.

(** A line is a step within the section of [section_start]. *)
Lemma parse_tokens_within st tokens :
  within (section_start configuration st tokens)
    (parse_tokens configuration st tokens).
Proof.
  unfold parse_tokens, section_start.
  destruct (classify configuration tokens) as
    [name toks|tag range rest|text range|tag rest|tag range rest|toks];
    try apply content_line_within; try apply append_line_within.
  destruct (is_blank rest); [done|apply content_line_within].
Qed.

(** The comment, the target and the log after a line, by the kind of
    the line. *)
Lemma parse_tokens_docComment st tokens :
  docComment (parse_tokens configuration st tokens) =
  match classify configuration tokens with
  | LParam _ _ | LBlock _ _ _ => docComment (commit st)
  | LModifier tag _ => DocComment.addModifierTag tag (docComment st)
  | _ => docComment st
  end.
Proof.
  destruct (parse_tokens_within st tokens) as (-> & _). unfold section_start.
  by destruct (classify configuration tokens).
Qed.

Lemma parse_tokens_target st tokens :
  target (parse_tokens configuration st tokens) =
  match classify configuration tokens with
  | LParam name _ => TParam name
  | LBlock tag range _ => (block_target tag range (docComment (commit st))).1
  | _ => target st
  end.
Proof.
  destruct (parse_tokens_within st tokens) as (_ & -> & _). unfold section_start.
  by destruct (classify configuration tokens).
Qed.

(** The log grows, and a line that opens a block logs what the choice
    of its target reports. *)
Lemma parse_tokens_log st tokens :
  log st `prefix_of` log (parse_tokens configuration st tokens) /\
  forall tag range rest,
    classify configuration tokens = LBlock tag range rest ->
    (log st ++ (block_target tag range (docComment (commit st))).2)
      `prefix_of` log (parse_tokens configuration st tokens).
Proof.
  destruct (parse_tokens_within st tokens) as (_ & _ & Hl).
  unfold section_start in Hl. split.
  - etrans; [|exact Hl].
    destruct (classify configuration tokens); cbn [log open_section];
      rewrite ?commit_log; try apply prefix_app_r; reflexivity.
  - intros tag range rest Hc. rewrite Hc in Hl. cbn [log open_section] in Hl.
    by rewrite commit_log in Hl.
Qed.

End steps.

(** ** The invariant *)

Section invariant.
Context `{InlineGrammar} (configuration : TSDocConfiguration.t).
Implicit Types (st : State) (tokens : list Tokenizer.Token) (nodes : list DocNode).
Implicit Types (messages : list ParserMessage) (tag : DocBlockTag).

Lemma content_of_ok st : content_ok st -> section_ok (content_of st).
Proof.
  intros [Hps Hp]. unfold content_of, section_ok in *.
  destruct (paragraph st) as [|node nodes]; [done|].
  rewrite forallb_app, Hps. cbn in *. by rewrite Hp.
Qed.

Lemma close_paragraph_content_ok st : content_ok st -> content_ok (close_paragraph st).
Proof.
  intros Hok. split.
  - destruct (paragraphs_close_paragraph st) as [-> _]. by apply content_of_ok.
  - by destruct (paragraphs_close_paragraph st) as [_ ->].
Qed.

Lemma append_line_content_ok nodes messages st :
  forallb DocHtmlViewTyping.inline nodes = true ->
  content_ok st -> content_ok (append_line nodes messages st).
Proof.
  intros Hnodes [Hps Hp]. split; [done|]. unfold append_line. cbn [paragraph].
  destruct (paragraph st) as [|node before]; [done|].
  by rewrite forallb_app, Hp.
Qed.

Lemma content_line_content_ok tokens st :
  content_ok st -> content_ok (content_line tokens st).
Proof.
  unfold content_line. destruct (is_blank tokens);
    [apply close_paragraph_content_ok|apply append_line_content_ok, parseLine_inline].
Qed.

(** A step within a section keeps the invariant when it keeps the
    content well formed. *)
Lemma within_state_ok st st' :
  within st st' -> content_ok st' -> state_ok st -> state_ok st'.
Proof.
  intros (Hc & Ht & _) Hok (? & _ & ? & ? & ?).
  unfold state_ok, guarded in *. by rewrite Hc, Ht.
Qed.

Lemma commit_comment_ok st :
  comment_ok (docComment st) -> section_ok (content_of st) ->
  comment_ok (docComment (commit st)).
Proof.
  intros (Hs & Hp & Hr & Hm & Hc & He) Hok. unfold comment_ok.
  rewrite commit_summarySection, commit_params, commit_returnsBlock,
    commit_remarksBlock, commit_customBlocks, commit_seeBlocks.
  destruct (target st); rewrite ?DocParamCollection.blocks_add;
    split_and!; try done; try (by intros ? [= <-]);
    by (apply Forall_app; split; [|apply Forall_singleton]).
Qed.

Lemma commit_state_ok st : state_ok st -> state_ok (commit st).
Proof.
  intros (Hc & Hok & Hnd & Hreach & _). split_and!.
  - by apply commit_comment_ok, content_of_ok.
  - done.
  - by rewrite commit_modifierTagSet.
  - rewrite commit_params. destruct (target st); try done.
    by apply (DocParamCollection.reachable_step _ (DocParamCollection.Add _)).
  - by split; intros _ tag.
Qed.

(** The target that a block tag chooses is no singleton that is
    there. *)
Lemma block_target_guarded tag range (c : DocComment) :
  (is_Some (returnsBlock c) -> forall tag', (block_target tag range c).1 <> TReturns tag') /\
  (is_Some (remarksBlock c) -> forall tag', (block_target tag range c).1 <> TRemarks tag').
Proof.
  unfold block_target.
  split; intros [b Hb] tag'; repeat case_decide; rewrite ?Hb; try done;
    by repeat case_match.
Qed.

Lemma section_start_state_ok st tokens :
  state_ok st -> state_ok (section_start configuration st tokens).
Proof.
  intros Hst. unfold section_start.
  destruct (classify configuration tokens) as
    [name toks|tag range rest|text range|tag rest|tag range rest|toks];
    try done.
  - destruct (commit_state_ok st Hst) as (? & ? & ? & ? & _).
    by split_and!.
  - destruct (commit_state_ok st Hst) as (? & ? & ? & ? & _).
    split_and!; try done. apply block_target_guarded.
  - destruct Hst as (? & ? & ? & ? & ?). split_and!; try done.
    by apply ModifierTagSet.addTag_NoDup.
Qed.

Lemma parse_tokens_content_ok st tokens :
  content_ok (section_start configuration st tokens) ->
  content_ok (parse_tokens configuration st tokens).
Proof.
  unfold parse_tokens, section_start.
  destruct (classify configuration tokens) as
    [name toks|tag range rest|text range|tag rest|tag range rest|toks];
    try apply content_line_content_ok.
  - by apply append_line_content_ok.
  - destruct (is_blank rest); [done|apply content_line_content_ok].
  - apply append_line_content_ok. cbn. apply parseLine_inline.
Qed.

Lemma parse_tokens_state_ok st tokens :
  state_ok st -> state_ok (parse_tokens configuration st tokens).
Proof.
  intros Hst%(section_start_state_ok _ tokens).
  eapply within_state_ok; [apply parse_tokens_within| |done].
  apply parse_tokens_content_ok, Hst.
Qed.

Lemma init_state_ok : state_ok (init configuration).
Proof.
  split_and!; try done; try apply NoDup_nil_2;
    try apply DocParamCollection.reachable_new.
  split_and!; try done; try constructor. by intros s [= <-].
Qed.

(** A property that holds at the start and that every line keeps holds
    after the lines. *)
Lemma foldl_parse_line_ind (P : State -> Prop) st (lines : list TextRange.t) :
  P st -> (forall st line, P st -> P (parse_line configuration st line)) ->
  P (foldl (parse_line configuration) st lines).
Proof.
  intros Hst Hstep. revert st Hst.
  induction lines as [|line lines IH]; intros st Hst; [done|].
  cbn. by apply IH, Hstep.
Qed.

Lemma parse_lines_state_ok (lines : list TextRange.t) :
  state_ok (parse_lines configuration lines).
Proof.
  apply commit_state_ok, foldl_parse_line_ind; [apply init_state_ok|].
  intros st line. apply parse_tokens_state_ok.
Qed.

End invariant.

(** ** The tags of a valid line *)

Section tags.
Context (configuration : TSDocConfiguration.t).
Implicit Types (tokens pre rest : list Tokenizer.Token) (tag : DocBlockTag).
Implicit Types (line range : TextRange.t) (c : ascii).

Lemma skip_spacing_suffix tokens : exists pre, tokens = pre ++ skip_spacing tokens.
Proof.
  induction tokens as [|token tokens [pre IH]]; [by exists []|]. cbn.
  case_decide; [|by exists []]. exists (token :: pre). cbn. by rewrite <- IH.
Qed.

Lemma block_tag_Some tokens at_sign word rest :
  block_tag tokens = Some (at_sign, word, rest) ->
  Tokenizer.kind at_sign = Tokenizer.Punctuation "@" /\
  exists pre, tokens = pre ++ at_sign :: word :: rest.
Proof.
  unfold block_tag. destruct (skip_spacing_suffix tokens) as [pre Hpre].
  destruct (skip_spacing tokens) as [|a [|w r]]; try done.
  case_decide as Hk; [|done]. intros [= <- <- <-]. split; [apply Hk|by exists pre].
Qed.

Lemma classify_LBlock tokens tag range rest :
  classify configuration tokens = LBlock tag range rest ->
  exists at_sign word,
    block_tag tokens = Some (at_sign, word, rest) /\
    tag = DocBlockTag.new ("@" +:+ token_text word) /\
    range = span at_sign [word].
Proof.
  unfold classify. destruct (block_tag tokens) as [[[at_sign word] rest']|]; [|done].
  intros Hc. exists at_sign, word.
  repeat case_match; simplify_eq; done.
Qed.

Lemma char_kind_Punctuation c c' :
  Tokenizer.char_kind c' = Tokenizer.Punctuation c -> c' = c.
Proof. unfold Tokenizer.char_kind. repeat case_match; congruence. Qed.

(** The text of a punctuation token is its character. *)
Lemma punctuation_text line token c :
  TextRange.wf line -> token ∈ Tokenizer.tokenize line ->
  Tokenizer.kind token = Tokenizer.Punctuation c ->
  token_text token = String c "".
Proof.
  intros Hwf Hin Hk. apply (inj chars).
  pose proof (Tokenizer.scan_ok Tokenizer.Idle (chars (TextRange.toString line)) I)
    as Hok.
  change (Tokenizer.scan Tokenizer.Idle ?cs) with (Tokenizer.lexemes cs) in Hok.
  rewrite <- (Tokenizer.tokenize_lexemes line Hwf), Forall_fmap in Hok.
  destruct (proj1 (Forall_forall _ _) Hok token Hin) as [[=]|(Hne & Hall & Hone)].
  { congruence. }
  unfold token_text. cbn in *. rewrite Hk in *. specialize (Hone eq_refl).
  destruct (chars (TextRange.toString (Tokenizer.range token))) as [|c' [|]];
    try done.
  apply Forall_singleton, char_kind_Punctuation in Hall. by subst.
Qed.

(** The range of the tag of a line that opens a block is a valid range
    of the buffer of the line, and its text is the tag as it is
    written. *)
Lemma tag_range_text line tag range rest :
  TextRange.wf line ->
  classify configuration (Tokenizer.tokenize line) = LBlock tag range rest ->
  TextRange.wf range /\ TextRange.buffer range = TextRange.buffer line /\
  TextRange.toString range = DocHtmlView.tagName tag.
Proof.
  intros Hwf (at_sign & word & Hbt & -> & ->)%classify_LBlock.
  destruct (block_tag_Some _ _ _ _ Hbt) as (Hk & pre & Htoks).
  pose proof (Tokenizer.tokenize_adjacent line Hwf) as Hadj.
  rewrite Htoks, fmap_app in Hadj.
  apply TextRange.adjacent_app in Hadj as (mid & Hpre & Hadj).
  cbn in Hadj. destruct Hadj as (Hb & <- & Hwa & Hb' & Hp & Hww & Hrest).
  pose proof (TextRange.adjacent_le _ _ _ _ Hpre).
  pose proof (TextRange.adjacent_le _ _ _ _ Hrest).
  destruct Hwf as (? & ? & ?), Hwa as (? & ? & ?), Hww as (? & ? & ?).
  unfold span. cbn [List.last]. rewrite Hb. split_and!; [|done|].
  { unfold TextRange.wf. cbn. rewrite <- Hb'. lia. }
  rewrite <- (TextRange.join_adjacent _ _
                [Tokenizer.range at_sign; Tokenizer.range word]);
    [|lia|lia|].
  - cbn. rewrite str_app_nil_r. f_equal.
    apply (punctuation_text line); [done| |done].
    rewrite Htoks. apply elem_of_app. right. by left.
  - cbn. unfold TextRange.wf. split_and!; try done; lia.
Qed.

End tags.

(** ** The sections of a parsed comment *)

Section sections.
Context `{InlineGrammar} (configuration : TSDocConfiguration.t).
Implicit Types (st : State) (tokens : list Tokenizer.Token) (line : TextRange.t).
Implicit Types (lines : list TextRange.t) (tag : DocBlockTag) (b : DocBlock).

Lemma foldl_parse_line_state_ok st lines :
  state_ok st -> state_ok (foldl (parse_line configuration) st lines).
Proof.
  intros Hst. apply foldl_parse_line_ind; [done|].
  intros st' line. apply parse_tokens_state_ok.
Qed.

Lemma foldl_parse_line_log st lines :
  log st `prefix_of` log (foldl (parse_line configuration) st lines).
Proof.
  revert st. induction lines as [|line lines IH]; intros st; [done|].
  cbn. etrans; [|apply IH]. apply parse_tokens_log.
Qed.

(** *** The modifier tags *)

Lemma parse_line_modifierTagSet st line :
  modifierTagSet (docComment (parse_line configuration st line)) =
  foldl ModifierTagSet.addTag (modifierTagSet (docComment st))
    (modifier_tags configuration [line]).
Proof.
  unfold parse_line, modifier_tags. rewrite parse_tokens_docComment.
  cbn [omap list_omap].
  destruct (classify configuration (Tokenizer.tokenize line));
    by rewrite ?commit_modifierTagSet.
Qed.

Lemma foldl_parse_line_modifierTagSet st lines :
  modifierTagSet (docComment (foldl (parse_line configuration) st lines)) =
  foldl ModifierTagSet.addTag (modifierTagSet (docComment st))
    (modifier_tags configuration lines).
Proof.
  revert st. induction lines as [|line lines IH]; intros st; [done|].
  cbn [foldl]. rewrite IH, parse_line_modifierTagSet.
  change (line :: lines) with ([line] ++ lines).
  unfold modifier_tags. by rewrite omap_app, foldl_app.
Qed.

(** The set of the modifier tags of a parsed comment holds the
    modifier tags of its lines, inserted in the order of the lines. *)
Lemma parse_lines_modifierTagSet lines :
  modifierTagSet (docComment (parse_lines configuration lines)) =
  foldl ModifierTagSet.addTag [] (modifier_tags configuration lines).
Proof.
  unfold parse_lines.
  by rewrite commit_modifierTagSet, foldl_parse_line_modifierTagSet.
Qed.

(** *** The parameters *)

(** The names of the blocks of the collection, with the block that is
    open. *)
Definition names_so_far st : list string :=
  (parameterName <$> DocParamCollection.blocks (params (docComment st))) ++
  open_param st.

Lemma commit_names st :
  parameterName <$> DocParamCollection.blocks (params (docComment (commit st))) =
  names_so_far st.
Proof.
  unfold names_so_far, open_param. rewrite commit_params.
  destruct (target st); rewrite ?DocParamCollection.blocks_add, ?fmap_app;
    by rewrite ?app_nil_r.
Qed.

Lemma block_target_open_param tag range (c : DocComment) st :
  target st = (block_target tag range c).1 -> open_param st = [].
Proof.
  unfold open_param, block_target. intros ->.
  by repeat (case_decide || case_match).
Qed.

Lemma parse_line_names st line :
  names_so_far (parse_line configuration st line) =
  names_so_far st ++ param_names configuration [line].
Proof.
  unfold parse_line, param_names. cbn [omap list_omap].
  pose proof (parse_tokens_target configuration st (Tokenizer.tokenize line)) as Ht.
  unfold names_so_far at 1. rewrite parse_tokens_docComment.
  destruct (classify configuration (Tokenizer.tokenize line))
    as [name toks|tag range rest|text range|tag rest|tag range rest|toks];
    rewrite ?app_nil_r, ?commit_names;
    try (unfold names_so_far, open_param; by rewrite Ht).
  by rewrite (block_target_open_param _ _ _ _ Ht), app_nil_r.
Qed.

Lemma foldl_parse_line_names st lines :
  names_so_far (foldl (parse_line configuration) st lines) =
  names_so_far st ++ param_names configuration lines.
Proof.
  revert st. induction lines as [|line lines IH]; intros st.
  { by rewrite app_nil_r. }
  cbn [foldl]. rewrite IH, parse_line_names, <- (assoc_L (++)).
  change (line :: lines) with ([line] ++ lines).
  unfold param_names. by rewrite omap_app.
Qed.

(** The collection of a parsed comment holds a block for every
    [@param] line, in the order of the lines. *)
Lemma parse_lines_param_names lines :
  parameterName <$>
    DocParamCollection.blocks (params (docComment (parse_lines configuration lines))) =
  param_names configuration lines.
Proof. unfold parse_lines. by rewrite commit_names, foldl_parse_line_names. Qed.

(** *** The singletons *)

Lemma commit_returns_kept st b :
  guarded st -> returnsBlock (docComment st) = Some b ->
  returnsBlock (docComment (commit st)) = Some b.
Proof.
  intros [Hg _] Hb. rewrite commit_returnsBlock.
  destruct (target st) eqn:Ht; try done. by destruct (Hg (mk_is_Some _ _ Hb) tag).
Qed.

Lemma parse_line_returns_kept st line b :
  guarded st -> returnsBlock (docComment st) = Some b ->
  returnsBlock (docComment (parse_line configuration st line)) = Some b.
Proof.
  intros Hg Hb. unfold parse_line. rewrite parse_tokens_docComment.
  destruct (classify configuration (Tokenizer.tokenize line));
    try done; by apply commit_returns_kept.
Qed.

Lemma foldl_parse_line_returns_kept st lines b :
  state_ok st -> returnsBlock (docComment st) = Some b ->
  returnsBlock (docComment (foldl (parse_line configuration) st lines)) = Some b.
Proof.
  revert st. induction lines as [|line lines IH]; intros st Hst Hb; [done|].
  cbn [foldl]. apply IH; [by apply parse_tokens_state_ok|].
  apply parse_line_returns_kept; [apply Hst|done].
Qed.

(** A second [@returns]: the block that is there stays to the end, and
    the log reports the tag of the second. *)
Lemma returns_first_kept lines line lines' tag range rest b :
  returnsBlock (docComment (parse_lines configuration lines)) = Some b ->
  classify configuration (Tokenizer.tokenize line) = LBlock tag range rest ->
  tagNameWithUpperCase tag =
    TSDocTagDefinition.tagNameWithUpperCase StandardTags.returns ->
  returnsBlock (docComment (parse_lines configuration (lines ++ line :: lines'))) =
    Some b /\
  duplicate_message tag range ∈
    log (parse_lines configuration (lines ++ line :: lines')).
Proof.
  unfold parse_lines. intros Hb Hc Htag. rewrite foldl_app. cbn [foldl].
  set (st := foldl (parse_line configuration) (init configuration) lines) in *.
  assert (state_ok (parse_line configuration st line)) as Hst.
  { apply parse_tokens_state_ok, foldl_parse_line_state_ok, init_state_ok. }
  assert (block_target tag range (docComment (commit st)) =
          (TDiscard, [duplicate_message tag range])) as Hbt.
  { unfold block_target. by rewrite decide_True, Hb by done. }
  split.
  - apply commit_returns_kept; [by apply foldl_parse_line_state_ok|].
    apply foldl_parse_line_returns_kept; [done|].
    unfold parse_line. by rewrite parse_tokens_docComment, Hc.
  - rewrite commit_log. eapply elem_of_prefix; [|apply foldl_parse_line_log].
    destruct (parse_tokens_log configuration st (Tokenizer.tokenize line))
      as [_ Hlog].
    eapply elem_of_prefix; [|by eapply Hlog]. rewrite Hbt.
    apply elem_of_app. right. by left.
Qed.

(** *** The summary *)

Lemma block_target_not_summary tag range (c : DocComment) :
  (block_target tag range c).1 <> TSummary.
Proof.
  unfold block_target.
  repeat case_decide; try done; by destruct (returnsBlock c), (remarksBlock c).
Qed.

Lemma parse_line_summary_kept st line :
  target st <> TSummary ->
  target (parse_line configuration st line) <> TSummary /\
  summarySection (docComment (parse_line configuration st line)) =
  summarySection (docComment st).
Proof.
  intros Ht. unfold parse_line.
  rewrite parse_tokens_target, parse_tokens_docComment.
  destruct (classify configuration (Tokenizer.tokenize line));
    rewrite ?commit_summarySection; split; try done;
    try (by destruct (target st)).
  apply block_target_not_summary.
Qed.

Lemma foldl_parse_line_summary_kept st lines :
  target st <> TSummary ->
  summarySection (docComment (commit (foldl (parse_line configuration) st lines))) =
  summarySection (docComment st).
Proof.
  revert st. induction lines as [|line lines IH]; intros st Ht.
  { cbn [foldl]. rewrite commit_summarySection. by destruct (target st). }
  cbn [foldl]. destruct (parse_line_summary_kept st line Ht) as [Ht' <-].
  by apply IH.
Qed.

(** The summary of a comment is the content before the first line that
    opens a section. *)
Lemma summary_before_first_section lines line lines' :
  opens_section configuration line = true ->
  summarySection (docComment (parse_lines configuration (lines ++ line :: lines'))) =
  summarySection (docComment (parse_lines configuration lines)).
Proof.
  unfold parse_lines, opens_section. intros Hopen. rewrite foldl_app. cbn [foldl].
  set (st := foldl (parse_line configuration) (init configuration) lines).
  rewrite foldl_parse_line_summary_kept.
  - unfold parse_line. rewrite parse_tokens_docComment.
    by destruct (classify configuration (Tokenizer.tokenize line)).
  - unfold parse_line. rewrite parse_tokens_target.
    destruct (classify configuration (Tokenizer.tokenize line)); try done.
    apply block_target_not_summary.
Qed.

(** The summary of a parsed comment is there, if only empty. *)
Lemma parse_lines_summary_Some lines :
  is_Some (summarySection (docComment (parse_lines configuration lines))).
Proof.
  assert (forall st, is_Some (summarySection (docComment st)) ->
            is_Some (summarySection (docComment (commit st)))) as Hcommit.
  { intros st Hst. rewrite commit_summarySection. by destruct (target st). }
  apply Hcommit, foldl_parse_line_ind; [done|].
  intros st line Hst. unfold parse_line. rewrite parse_tokens_docComment.
  destruct (classify configuration (Tokenizer.tokenize line)); auto.
Qed.

(** *** The blocks *)

Lemma block_target_kind tag range (c : DocComment) :
  (block_target tag range c).1 =
  match block_kind tag with
  | KReturns => if returnsBlock c is Some _ then TDiscard else TReturns tag
  | KRemarks => if remarksBlock c is Some _ then TDiscard else TRemarks tag
  | KSee => TSee tag
  | KCustom => TCustom tag
  end.
Proof.
  unfold block_target, block_kind.
  repeat case_decide; try done; by repeat case_match.
Qed.

(** The section that is closed is a block of the comment. *)
Lemma commit_block_tags_of k st :
  guarded st -> block_tags_of k (docComment (commit st)) = blocks_so_far k st.
Proof.
  intros [Hret Hrem]. unfold blocks_so_far, block_tags_of, open_block.
  destruct k; rewrite ?commit_returnsBlock, ?commit_remarksBlock,
    ?commit_seeBlocks, ?commit_customBlocks;
    destruct (target st) eqn:Ht; rewrite ?fmap_app, ?app_nil_r; try done.
  - destruct (returnsBlock (docComment st)); [|done].
    by destruct (Hret (mk_is_Some _ _ eq_refl) tag).
  - destruct (remarksBlock (docComment st)); [|done].
    by destruct (Hrem (mk_is_Some _ _ eq_refl) tag).
Qed.

(** A block tag opens a block of its kind, unless the comment holds
    the singleton of the kind. *)
Lemma open_block_keep k tag range (c : DocComment) st :
  target st = (block_target tag range c).1 ->
  block_tags_of k c ++ open_block k st = keep k (block_tags_of k c) tag.
Proof.
  intros Ht. unfold open_block, keep. rewrite Ht, block_target_kind.
  destruct k, (block_kind tag); cbn;
    try destruct (returnsBlock c); try destruct (remarksBlock c);
    by rewrite ?app_nil_r.
Qed.

Lemma parse_line_blocks k st line :
  state_ok st ->
  blocks_so_far k (parse_line configuration st line) =
  foldl (keep k) (blocks_so_far k st) (block_tags configuration [line]).
Proof.
  intros (_ & _ & _ & _ & Hg). unfold parse_line, block_tags. cbn [omap list_omap].
  pose proof (parse_tokens_target configuration st (Tokenizer.tokenize line)) as Ht.
  unfold blocks_so_far at 1. rewrite parse_tokens_docComment.
  destruct (classify configuration (Tokenizer.tokenize line))
    as [name toks|tag range rest|text range|tag rest|tag range rest|toks]; cbn [foldl];
    try (unfold blocks_so_far, open_block; rewrite Ht; by destruct k).
  - rewrite (commit_block_tags_of _ _ Hg). unfold open_block. rewrite Ht.
    by destruct k; rewrite app_nil_r.
  - rewrite <- (commit_block_tags_of _ _ Hg). by eapply open_block_keep.
Qed.

Lemma foldl_parse_line_blocks k st lines :
  state_ok st ->
  blocks_so_far k (foldl (parse_line configuration) st lines) =
  foldl (keep k) (blocks_so_far k st) (block_tags configuration lines).
Proof.
  revert st. induction lines as [|line lines IH]; intros st Hst; [done|].
  cbn [foldl]. rewrite IH, parse_line_blocks by (done || by apply parse_tokens_state_ok).
  change (line :: lines) with ([line] ++ lines).
  unfold block_tags. by rewrite omap_app, foldl_app.
Qed.

(** What is kept, in closed form. *)
Lemma foldl_keep k (acc tags : list DocBlockTag) :
  foldl (keep k) acc tags =
  if singleton k
  then match acc with
       | [] => take 1 (filter (fun tag => block_kind tag = k) tags)
       | _ => acc
       end
  else acc ++ filter (fun tag => block_kind tag = k) tags.
Proof.
  revert acc. induction tags as [|tag tags IH]; intros acc.
  { destruct (singleton k), acc; by rewrite ?app_nil_r. }
  cbn [foldl]. rewrite IH, filter_cons. unfold keep.
  case_decide; destruct (singleton k), acc; try done.
  all: by rewrite <- (assoc_L (++)).
Qed.

(** The blocks of a parsed comment: its block tags are those of the
    lines that open a block, in the order of the lines, and of the
    singletons the first alone. *)
Lemma parse_lines_blocks k lines :
  block_tags_of k (docComment (parse_lines configuration lines)) =
  kept k (block_tags configuration lines).
Proof.
  unfold parse_lines. rewrite commit_block_tags_of
    by apply foldl_parse_line_state_ok, init_state_ok.
  rewrite foldl_parse_line_blocks, foldl_keep by apply init_state_ok.
  unfold kept. by destruct k.
Qed.

End sections.

End NodeParser.
