(* ===== verification/Markup.v ===== *)
(** * The grammar of the text of a line

    The node parser takes the grammar of the text of a line as the
    interface [InlineGrammar] ([NodeParser]). [Module Markup] is the
    instance that the specification describes, for the part of the grammar
    that stays within a line and needs no second grammar:

    - a backslash followed by a punctuation character is an escape:
      both become one literal character; a backslash followed by a letter
      or a digit, by spacing, or at the end of the line, stays as it is.
      The specification says that a backslash before a character that is
      no letter and no digit is an escape; test 03 of
      [Tokenizer.test.ts] names the backslash before a space a negative
      example, and its test of [Tokenizer.isPunctuation] says that
      spacing is no punctuation. The model follows the test: the
      scanner asks [Tokenizer.isPunctuation] of the token after the
      backslash;
    - a code span is a run between two backticks of the line; a backtick
      without a second one is an error: the rest of the line becomes an
      error text, with a diagnostic;
    - an inline tag is [{@name ...}]: an opening brace, [@], the name, and
      the content up to the next closing brace, taken as it is written;
      without a closing brace the rest of the line is an error text, with
      a diagnostic;
    - every other token is plain text.

    The scanner, [scan], is a single forward pass over the tokens with a
    lookahead of two tokens; what it holds back is the opening of a code
    span or of a tag with the tokens since ([Pending]). It returns the
    elements of the line with the tokens each is made of ([Inline]);
    [inline_nodes] gives the nodes that the view reads, and the
    diagnostics. The class of an inline tag is [DocInlineTag] of the
    sources ([inline_tag]): the content that its getter [tagContent]
    returns for the tag of the scanner is the text after the spacing that
    follows the name, up to the brace.

    A tag whose name is that of [{@link}], whatever its case, is a link
    ([link_tag]): the target is the content up to the first [|], without
    the spacing around it, and the text is what follows the [|] as it is
    written. A target [word://...] without spacing is a URL; a target
    [word(.word)*] is a path of members ([member_path], whose grammar is
    also given as the rules [path]). A link without a target, and a link
    with any other target, is malformed: as the specification asks, the
    parse goes on, the tag becomes an error text that holds it as it is
    written, from brace to brace, with a diagnostic about its range, and
    the scan resumes behind the closing brace. The declaration
    references of the specification beyond a path of members (a package
    or an import path, a symbol in brackets, an overload selector) are
    named by the specification without their syntax and are not
    modelled, so the model reports a link with such a target.

    The specification leaves open, and the model decides: [{@inheritDoc}]
    is an inline tag as any other; the names of inline tags are not
    checked against the configuration; the content of a code span and of
    a tag is taken as written, a backslash in it is no escape; an empty
    code span is a code span; an opening brace that is not followed by
    [@] and a name is plain text; the error text of an element that is
    not closed runs to the end of the line.

    The grammar is also given as rules, [scans], and the scanner is shown
    to compute the one derivation of a line. The theorems, by induction on
    the rules: the elements hold the tokens of the line, each once and in
    order, so their texts give the text of the line back; the nodes are
    inline nodes; an error is the last element of its line; a line
    without backslash, backtick and opening brace is plain text, token by
    token; every diagnostic is an error about a valid range of the
    buffer within the line, and the nodes of the line hold the error text
    of this range; the diagnostic of an element that is not closed is the
    last of its line, its range ends where the line ends and its error
    text ends the nodes; a malformed link is reported where it stands and
    the rest of the line is read as it would be without it. About the
    classes of the sources: the excerpt of the content of an inline tag
    is a range of the line with the text that [tagContent] returns; the
    view shows of a line the texts of its elements ([item_text]: the
    escaped character, the code of a span, the text of a link, nothing
    for an inline tag, an element with a diagnostic as it is written),
    and of a link of a line its text, else the URL, else the last member
    of the path: the placeholder of the view is not reached. *)

From Stdlib Require Import ZArith String Ascii Lia.
From stdpp Require Import base tactics option list strings.
From S2P Require Import Prelude JsString Range Tokenizer Excerpt Configuration.
From S2P Require Import ParamCollection InlineTag React HtmlView HtmlTotal.
From S2P Require Import HtmlTyping Transforms.
From S2P Require Import ParserContext NodeParser.

#[local] Open Scope Z_scope.

Module Markup.
Import DocHtmlView DocHtmlViewTotal.
#[local] Existing Instance Tokenizer.TokenKind_eq_dec.

(** ** The elements of a line *)

(** What the scanner holds back: the backtick that opened a code span
    and the tokens since, or the tokens that opened an inline tag and the
    tokens since. *)
Inductive Pending : Type :=
| PCode (opening : Tokenizer.Token) (code : list Tokenizer.Token)
| PTag (brace at_sign name : Tokenizer.Token) (tagContent : list Tokenizer.Token).

(** An element of a line, with the tokens it is made of: a token of
    plain text; a backslash and the token whose first character it
    escapes; a code span between its backticks; an inline tag, from its
    opening [{@name] over its content to the closing brace; the tokens of
    an element that was not closed, from its opening to the end of the
    line, with what is missing. *)
Inductive Inline : Type :=
| IPlain (token : Tokenizer.Token)
| IEscaped (backslash next : Tokenizer.Token)
| ICodeSpan (opening : Tokenizer.Token) (code : list Tokenizer.Token)
            (closing : Tokenizer.Token)
| IInlineTag (brace at_sign name : Tokenizer.Token)
             (tagContent : list Tokenizer.Token) (closing : Tokenizer.Token)
| IError (first : Tokenizer.Token) (rest : list Tokenizer.Token) (message : string).

(** The scanner: a pass over the tokens of a line, from the state
    [pending]. *)
Fixpoint scan (pending : option Pending) (tokens : list Tokenizer.Token) :
    list Inline :=
  match tokens with
  | [] =>
      match pending with
      | None => []
      | Some (PCode opening code) =>
          [IError opening code "The code span is missing its closing backtick"]
      | Some (PTag brace at_sign name tagContent) =>
          [IError brace (at_sign :: name :: tagContent)
             "The inline tag is missing its closing brace"]
      end
  | token :: rest =>
      match pending with
      | Some (PCode opening code) =>
          if decide (Tokenizer.kind token = Tokenizer.Punctuation "`")
          then ICodeSpan opening code token :: scan None rest
          else scan (Some (PCode opening (code ++ [token]))) rest
      | Some (PTag brace at_sign name tagContent) =>
          if decide (Tokenizer.kind token = Tokenizer.Punctuation "}")
          then IInlineTag brace at_sign name tagContent token :: scan None rest
          else scan (Some (PTag brace at_sign name (tagContent ++ [token]))) rest
      | None =>
          if decide (Tokenizer.kind token = Tokenizer.Punctuation "`")
          then scan (Some (PCode token [])) rest
          else
            match rest with
            | next :: rest' =>
                if decide (Tokenizer.kind token = Tokenizer.Punctuation "\" /\
                           Tokenizer.isPunctuation (Tokenizer.kind next) = true)
                then IEscaped token next :: scan None rest'
                else
                  match rest' with
                  | word :: rest'' =>
                      if decide (Tokenizer.kind token = Tokenizer.Punctuation "{" /\
                                 Tokenizer.kind next = Tokenizer.Punctuation "@" /\
                                 Tokenizer.kind word = Tokenizer.AsciiWord)
                      then scan (Some (PTag token next word [])) rest''
                      else IPlain token :: scan None rest
                  | [] => IPlain token :: scan None rest
                  end
            | [] => [IPlain token]
            end
      end
  end.

(** A sequence of tokens is a token sequence: its text is the text of
    its tokens. *)
#[export] Instance tokens_TokenSequence : TokenSequence (list Tokenizer.Token) :=
  {| toString tokens := Js.join (NodeParser.token_text <$> tokens) |}.

(** ** Links *)

(** The member path of the target of a link: words separated by dots,
    each a reference to a member by its identifier. *)
Fixpoint member_path (tokens : list Tokenizer.Token) :
    option (list DocMemberReference) :=
  match tokens with
  | [] => None
  | word :: rest =>
      if decide (Tokenizer.kind word = Tokenizer.AsciiWord) then
        let reference :=
          {| memberIdentifier :=
               Some {| identifier := NodeParser.token_text word |} |} in
        match rest with
        | [] => Some [reference]
        | dot :: rest' =>
            if decide (Tokenizer.kind dot = Tokenizer.Punctuation ".")
            then cons reference <$> member_path rest'
            else None
        end
      else None
  end.

(** The target of a link and its display text: the content up to the
    first [|], without the spacing around it, and the text after the
    [|], as it is written. *)
Definition link_parts (tagContent : list Tokenizer.Token) :
    list Tokenizer.Token * option string :=
  let trim tokens :=
    reverse (NodeParser.skip_spacing (reverse (NodeParser.skip_spacing tokens))) in
  match list_find (fun token => Tokenizer.kind token = Tokenizer.Punctuation "|")
          tagContent with
  | Some (i, _) => (trim (take i tagContent), Some (toString (drop (S i) tagContent)))
  | None => (trim tagContent, None)
  end.

(** The name of the tag of a link, in any case of its letters. *)
Definition is_link (name : Tokenizer.Token) : Prop :=
  toUpperCase ("@" +:+ NodeParser.token_text name) =
  TSDocTagDefinition.tagNameWithUpperCase StandardTags.link.

(** The link of an element [{@link target|text}], for the targets that
    the grammar reads: a URL, which starts with a scheme, a colon and two
    slashes and holds no spacing; a member path. A link without a target,
    or with another target, is malformed, and another tag is no link. *)
Definition link_tag (name : Tokenizer.Token) (tagContent : list Tokenizer.Token) :
    option DocLinkTag :=
  if decide (is_link name)
  then
    let target := (link_parts tagContent).1 in
    let text := (link_parts tagContent).2 in
    match target with
    | [] => None
    | scheme :: colon :: slash :: slash' :: _ =>
        if decide (Tokenizer.kind scheme = Tokenizer.AsciiWord /\
                   Tokenizer.kind colon = Tokenizer.Punctuation ":" /\
                   Tokenizer.kind slash = Tokenizer.Punctuation "/" /\
                   Tokenizer.kind slash' = Tokenizer.Punctuation "/" /\
                   Forall (fun token => Tokenizer.kind token <> Tokenizer.Spacing)
                     target)
        then Some {| urlDestination := Some (toString target); linkText := text;
                     codeDestination := None |}
        else
          references ← member_path target;
          Some {| urlDestination := None; linkText := text;
                  codeDestination := Some {| memberReferences := references |} |}
    | _ =>
        references ← member_path target;
        Some {| urlDestination := None; linkText := text;
                codeDestination := Some {| memberReferences := references |} |}
    end
  else None.

(** ** The nodes *)

(** The nodes of an element, as the view reads them, and its
    diagnostics. An escape of the first character of a run gives the
    character and the rest of the run; a link is a link tag; a link that
    is malformed is an error text of the tag as it is written, from brace
    to brace, with a diagnostic about its range; and the view reads
    nothing of another inline tag. *)
Definition inline_nodes (item : Inline) : list DocNode * list ParserMessage :=
  match item with
  | IPlain token => ([NPlainText (NodeParser.token_text token)], [])
  | IEscaped _ next =>
      match NodeParser.token_text next with
      | String c "" => ([NEscapedText (String c "")], [])
      | String c rest => ([NEscapedText (String c ""); NPlainText rest], [])
      | "" => ([], [])
      end
  | ICodeSpan _ code _ => ([NCodeSpan (toString code)], [])
  | IInlineTag brace at_sign name tagContent closing =>
      match link_tag name tagContent with
      | Some linkTag => ([NLinkTag linkTag], [])
      | None =>
          if decide (is_link name) then
            let rest := at_sign :: name :: tagContent ++ [closing] in
            ([NErrorText (toString (brace :: rest))],
             [{| severity := SeverityError;
                 messageText :=
                   "The link has no target that is a URL or a path of members";
                 sourceRange := NodeParser.span brace rest |}])
          else ([NOther "InlineTag"], [])
      end
  | IError first rest message =>
      ([NErrorText (toString (first :: rest))],
       [{| severity := SeverityError; messageText := message;
           sourceRange := NodeParser.span first rest |}])
  end.

Lemma inline_nodes_inline (item : Inline) :
  forallb DocHtmlViewTyping.inline (inline_nodes item).1 = true.
Proof.
  destruct item as [token|backslash next| |brace at_sign name tagContent closing|];
    try done; cbn.
  - by destruct (NodeParser.token_text next) as [|c [|c' rest]].
  - destruct (link_tag name tagContent); [done|]. by case_decide.
Qed.

Lemma forallb_concat {A} (f : A -> bool) (ls : list (list A)) :
  forallb f (concat ls) = forallb (forallb f) ls.
Proof. induction ls as [|l ls IH]; [done|]. cbn. by rewrite forallb_app, IH. Qed.

Lemma inline_nodes_all_inline (items : list Inline) :
  forallb DocHtmlViewTyping.inline (concat (inline_nodes <$> items).*1) = true.
Proof.
  rewrite forallb_concat. induction items as [|item items IH]; [done|].
  cbn. by rewrite inline_nodes_inline, IH.
Qed.

(** The grammar: the nodes and the diagnostics of the elements of a
    line. *)
Definition markup : InlineGrammar :=
  {| parseLine tokens :=
       let results := inline_nodes <$> scan None tokens in
       (concat results.*1, concat results.*2);
     parseLine_inline tokens := inline_nodes_all_inline (scan None tokens) |}.

(** ** Specification *)

(** The tokens of an element, and the tokens that the scanner holds
    back. *)
Definition inline_tokens (item : Inline) : list Tokenizer.Token :=
  match item with
  | IPlain token => [token]
  | IEscaped backslash next => [backslash; next]
  | ICodeSpan opening code closing => opening :: code ++ [closing]
  | IInlineTag brace at_sign name tagContent closing =>
      brace :: at_sign :: name :: tagContent ++ [closing]
  | IError first rest _ => first :: rest
  end.

Definition pending_tokens (pending : option Pending) : list Tokenizer.Token :=
  match pending with
  | None => []
  | Some (PCode opening code) => opening :: code
  | Some (PTag brace at_sign name tagContent) => brace :: at_sign :: name :: tagContent
  end.

Definition is_error (item : Inline) : bool :=
  match item with
  | IError _ _ _ => true
  | _ => false
  end.

(** An element with a diagnostic: an element that is not closed, and a
    link that is malformed. *)
Definition malformed (item : Inline) : bool :=
  match item with
  | IError _ _ _ => true
  | IInlineTag _ _ name tagContent _ =>
      match link_tag name tagContent with
      | Some _ => false
      | None => bool_decide (is_link name)
      end
  | _ => false
  end.

(** A token of the character [c]. *)
Definition is_char (c : ascii) (token : Tokenizer.Token) : Prop :=
  Tokenizer.kind token = Tokenizer.Punctuation c.

(** A backslash that escapes, and a brace that opens a tag, by the
    tokens after them. *)
Definition escapes (token : Tokenizer.Token) (rest : list Tokenizer.Token) : Prop :=
  is_char "\" token /\
  exists next, head rest = Some next /\
    Tokenizer.isPunctuation (Tokenizer.kind next) = true.

Definition opens_tag (token : Tokenizer.Token) (rest : list Tokenizer.Token) : Prop :=
  is_char "{" token /\
  exists at_sign name rest', rest = at_sign :: name :: rest' /\
    is_char "@" at_sign /\ Tokenizer.kind name = Tokenizer.AsciiWord.

(** The grammar as rules: [scans pending tokens items] when the tokens,
    read from the state [pending], are the elements [items]. *)
Inductive scans : option Pending -> list Tokenizer.Token -> list Inline -> Prop :=
| scans_end : scans None [] []
| scans_plain token rest items :
    ~ is_char "`" token -> ~ escapes token rest -> ~ opens_tag token rest ->
    scans None rest items ->
    scans None (token :: rest) (IPlain token :: items)
| scans_escape token next rest items :
    is_char "\" token -> Tokenizer.isPunctuation (Tokenizer.kind next) = true ->
    scans None rest items ->
    scans None (token :: next :: rest) (IEscaped token next :: items)
| scans_code_open token rest items :
    is_char "`" token ->
    scans (Some (PCode token [])) rest items ->
    scans None (token :: rest) items
| scans_code_more opening code token rest items :
    ~ is_char "`" token ->
    scans (Some (PCode opening (code ++ [token]))) rest items ->
    scans (Some (PCode opening code)) (token :: rest) items
| scans_code_close opening code token rest items :
    is_char "`" token ->
    scans None rest items ->
    scans (Some (PCode opening code)) (token :: rest)
      (ICodeSpan opening code token :: items)
| scans_code_end opening code :
    scans (Some (PCode opening code)) []
      [IError opening code "The code span is missing its closing backtick"]
| scans_tag_open token at_sign name rest items :
    is_char "{" token -> is_char "@" at_sign ->
    Tokenizer.kind name = Tokenizer.AsciiWord ->
    scans (Some (PTag token at_sign name [])) rest items ->
    scans None (token :: at_sign :: name :: rest) items
| scans_tag_more brace at_sign name tagContent token rest items :
    ~ is_char "}" token ->
    scans (Some (PTag brace at_sign name (tagContent ++ [token]))) rest items ->
    scans (Some (PTag brace at_sign name tagContent)) (token :: rest) items
| scans_tag_close brace at_sign name tagContent token rest items :
    is_char "}" token ->
    scans None rest items ->
    scans (Some (PTag brace at_sign name tagContent)) (token :: rest)
      (IInlineTag brace at_sign name tagContent token :: items)
| scans_tag_end brace at_sign name tagContent :
    scans (Some (PTag brace at_sign name tagContent)) []
      [IError brace (at_sign :: name :: tagContent)
         "The inline tag is missing its closing brace"].

(** ** The scanner and the rules *)

Section rules.
Implicit Types (pending : option Pending) (token next : Tokenizer.Token).
Implicit Types (tokens rest : list Tokenizer.Token) (items : list Inline).

(** The scanner derives. *)
Lemma scan_scans pending tokens : scans pending tokens (scan pending tokens).
Proof.
  remember (length tokens) as n eqn:Hn. revert pending tokens Hn.
  induction n as [n IH] using lt_wf_ind. intros pending tokens ->.
  assert (forall p ts, (length ts < length tokens)%nat -> scans p ts (scan p ts))
    as Hrec by (intros p ts Hlt; by eapply IH).
  clear IH. destruct tokens as [|token rest].
  { destruct pending as [[]|]; constructor. }
  destruct pending as [[opening code|brace at_sign name tagContent]|]; cbn [scan].
  - case_decide; constructor; try done; apply Hrec; cbn; lia.
  - case_decide; constructor; try done; apply Hrec; cbn; lia.
  - case_decide as Hcode; [constructor; [done|apply Hrec; cbn; lia]|].
    destruct rest as [|next rest'].
    { constructor; [done| | |constructor]; unfold escapes, opens_tag; naive_solver. }
    case_decide as Hesc.
    { destruct Hesc. constructor; [done..|apply Hrec; cbn; lia]. }
    destruct rest' as [|word rest''].
    { constructor; [done| | |apply Hrec; cbn; lia];
        unfold escapes, opens_tag; naive_solver. }
    case_decide as Htag.
    { destruct Htag as (? & ? & ?). constructor; [done..|apply Hrec; cbn; lia]. }
    constructor; [done| | |apply Hrec; cbn; lia];
      unfold escapes, opens_tag; naive_solver.
Qed.

(** A line has one derivation: the one that the scanner computes. *)
Lemma scans_scan pending tokens items :
  scans pending tokens items -> items = scan pending tokens.
Proof.
  induction 1 as [|token rest items Hcode Hesc Htag _ IH
                  |token next rest items Hb Hn _ IH
                  |token rest items Hcode _ IH
                  |opening code token rest items Hcode _ IH
                  |opening code token rest items Hcode _ IH
                  |opening code
                  |token at_sign name rest items Hb Ha Hw _ IH
                  |brace at_sign name tagContent token rest items Hb _ IH
                  |brace at_sign name tagContent token rest items Hb _ IH
                  |brace at_sign name tagContent]; cbn [scan]; try done.
  - rewrite decide_False by done. destruct rest as [|next rest']; [by subst|].
    rewrite decide_False by (intros [? ?]; apply Hesc; split; [done|by exists next]).
    destruct rest' as [|word rest'']; [by subst|].
    rewrite decide_False; [by subst|].
    intros (? & ? & ?). apply Htag. split; [done|]. by exists next, word, rest''.
  - rewrite decide_False by (unfold is_char in *; congruence).
    rewrite decide_True by done. by subst.
  - by rewrite decide_True.
  - by rewrite decide_False.
  - rewrite decide_True by done. by subst.
  - rewrite decide_False by (unfold is_char in *; congruence).
    rewrite decide_False by (unfold is_char in *; intros [? ?]; congruence).
    by rewrite decide_True.
  - by rewrite decide_False.
  - rewrite decide_True by done. by subst.
Qed.

End rules.

(** ** The elements hold the tokens of the line *)

Section tokens.
Implicit Types (pending : option Pending) (token next : Tokenizer.Token).
Implicit Types (tokens rest : list Tokenizer.Token) (items : list Inline).
Implicit Types (item : Inline).

Lemma scans_tokens pending tokens items :
  scans pending tokens items ->
  concat (inline_tokens <$> items) = pending_tokens pending ++ tokens.
Proof.
  induction 1; cbn in *; rewrite ?IHscans; try done;
    by rewrite <- ?(assoc_L (++)), ?app_nil_r.
Qed.

(** The elements of a line hold its tokens, each once and in order. *)
Lemma scan_tokens tokens : concat (inline_tokens <$> scan None tokens) = tokens.
Proof. apply (scans_tokens None), scan_scans. Qed.

(** The tokens of an element are consecutive tokens of the line. *)
Lemma scan_infix item tokens :
  item ∈ scan None tokens ->
  exists pre post, tokens = pre ++ inline_tokens item ++ post.
Proof.
  intros (items1 & items2 & Heq)%list_elem_of_split.
  pose proof (scan_tokens tokens) as Htokens.
  rewrite Heq, fmap_app, concat_app in Htokens. cbn in Htokens. eauto.
Qed.

(** An error is the last element of its line: the scanner goes on at
    the next line. *)
Lemma scans_error_last pending tokens items (i : nat) item :
  scans pending tokens items ->
  items !! i = Some item -> is_error item = true -> S i = length items.
Proof.
  intros Hs. revert i.
  induction Hs; intros i Hi Herr; try (by eapply IHHs);
    destruct i as [|i]; simplify_eq/=; try done; f_equal; by eapply IHHs.
Qed.

(** An element that is not malformed has no diagnostic. *)
Lemma inline_nodes_messages item :
  malformed item = false -> (inline_nodes item).2 = [].
Proof.
  destruct item as [|backslash next| |brace at_sign name tagContent closing|];
    try done; cbn.
  - by destruct (NodeParser.token_text next) as [|c [|c' rest]].
  - destruct (link_tag name tagContent); [done|].
    intros ?%bool_decide_eq_false. by rewrite decide_False.
Qed.

(** The diagnostic of an element is an error about the range of its
    tokens, and its node is the error text of these tokens. *)
Lemma inline_nodes_diagnostic item m :
  m ∈ (inline_nodes item).2 ->
  exists first rest message,
    inline_tokens item = first :: rest /\
    m = {| severity := SeverityError; messageText := message;
           sourceRange := NodeParser.span first rest |} /\
    (inline_nodes item).1 = [NErrorText (toString (first :: rest))].
Proof.
  destruct (malformed item) eqn:Hmalformed;
    [|by rewrite inline_nodes_messages by done; intros ?%elem_of_nil].
  destruct item as [| | |brace at_sign name tagContent closing|first rest message];
    try done; cbn in *.
  - destruct (link_tag name tagContent); [done|].
    apply bool_decide_eq_true in Hmalformed. rewrite decide_True by done.
    intros ->%list_elem_of_singleton. by eexists _, _, _.
  - intros ->%list_elem_of_singleton. by eexists _, _, _.
Qed.

End tokens.

(** ** Plain text *)

Section plain.
Implicit Types (token : Tokenizer.Token) (tokens : list Tokenizer.Token).

(** A token that starts no markup. *)
Definition plain (token : Tokenizer.Token) : Prop :=
  ~ is_char "`" token /\ ~ is_char "\" token /\ ~ is_char "{" token.

Lemma scan_plain tokens :
  Forall plain tokens -> scan None tokens = IPlain <$> tokens.
Proof.
  intros Hplain. symmetry. apply scans_scan.
  induction Hplain as [|token tokens (? & ? & ?) _ IH]; constructor;
    unfold escapes, opens_tag; naive_solver.
Qed.

(** On a line without markup the grammar is the grammar of plain text:
    a plain text for every token, and no diagnostic. *)
Lemma markup_plain tokens :
  Forall plain tokens ->
  @parseLine markup tokens = @parseLine NodeParser.plain_text tokens.
Proof.
  intros Hplain. cbn. rewrite (scan_plain _ Hplain).
  clear Hplain. induction tokens as [|token tokens IH]; [done|].
  cbn in *. by injection IH as -> ->.
Qed.

End plain.

(** ** The elements, by their delimiters *)

Section elements.
Implicit Types (token opening closing : Tokenizer.Token).
Implicit Types (tokens pre rest code more : list Tokenizer.Token).

(** Plain tokens before the rest of a line. *)
Lemma scan_plain_app pre rest :
  Forall plain pre -> scan None (pre ++ rest) = (IPlain <$> pre) ++ scan None rest.
Proof.
  intros Hplain. symmetry. apply scans_scan.
  induction Hplain as [|token pre (? & ? & ?) _ IH]; cbn; [apply scan_scans|].
  constructor; unfold escapes, opens_tag; naive_solver.
Qed.

(** The tokens that an open element takes in: by induction on them, one
    rule for each. *)
#[local] Ltac takes_in Hmore content more_rule :=
  symmetry; apply scans_scan; revert content;
  induction Hmore as [|? more ? _ IH]; intros content; cbn;
    [rewrite app_nil_r
    |apply more_rule; [done|];
     rewrite (cons_middle _ content more), (assoc_L (++)); apply IH].

(** Within a code span: up to the next backtick, or to the end of the
    line. *)
Lemma scan_code_closed opening code more closing rest :
  Forall (fun token => ~ is_char "`" token) more -> is_char "`" closing ->
  scan (Some (PCode opening code)) (more ++ closing :: rest) =
  ICodeSpan opening (code ++ more) closing :: scan None rest.
Proof.
  intros Hmore Hclosing. takes_in Hmore code scans_code_more.
  apply scans_code_close; [done|apply scan_scans].
Qed.

Lemma scan_code_open opening code more :
  Forall (fun token => ~ is_char "`" token) more ->
  scan (Some (PCode opening code)) more =
  [IError opening (code ++ more) "The code span is missing its closing backtick"].
Proof.
  intros Hmore. takes_in Hmore code scans_code_more. apply scans_code_end.
Qed.

(** Within an inline tag: up to the next closing brace, or to the end
    of the line. *)
Lemma scan_tag_closed brace at_sign name tagContent more closing rest :
  Forall (fun token => ~ is_char "}" token) more -> is_char "}" closing ->
  scan (Some (PTag brace at_sign name tagContent)) (more ++ closing :: rest) =
  IInlineTag brace at_sign name (tagContent ++ more) closing :: scan None rest.
Proof.
  intros Hmore Hclosing. takes_in Hmore tagContent scans_tag_more.
  apply scans_tag_close; [done|apply scan_scans].
Qed.

Lemma scan_tag_open brace at_sign name tagContent more :
  Forall (fun token => ~ is_char "}" token) more ->
  scan (Some (PTag brace at_sign name tagContent)) more =
  [IError brace (at_sign :: name :: tagContent ++ more)
     "The inline tag is missing its closing brace"].
Proof.
  intros Hmore. takes_in Hmore tagContent scans_tag_more. apply scans_tag_end.
Qed.

(** A code span between its backticks, and a backtick without a second
    one. *)
Lemma scan_code_span opening code closing rest :
  is_char "`" opening -> Forall (fun token => ~ is_char "`" token) code ->
  is_char "`" closing ->
  scan None (opening :: code ++ closing :: rest) =
  ICodeSpan opening code closing :: scan None rest.
Proof.
  intros Hopening Hcode Hclosing. cbn [scan]. rewrite decide_True by done.
  by rewrite scan_code_closed.
Qed.

Lemma scan_code_unclosed opening code :
  is_char "`" opening -> Forall (fun token => ~ is_char "`" token) code ->
  scan None (opening :: code) =
  [IError opening code "The code span is missing its closing backtick"].
Proof.
  intros Hopening Hcode. cbn [scan]. rewrite decide_True by done.
  by rewrite scan_code_open.
Qed.

(** The opening of an inline tag. *)
Lemma scan_tag_start brace at_sign name rest :
  is_char "{" brace -> is_char "@" at_sign ->
  Tokenizer.kind name = Tokenizer.AsciiWord ->
  scan None (brace :: at_sign :: name :: rest) =
  scan (Some (PTag brace at_sign name [])) rest.
Proof.
  intros Hbrace Hat Hname. symmetry. apply scans_scan.
  apply scans_tag_open; [done..|apply scan_scans].
Qed.

(** An inline tag between its braces, and an opening without a closing
    brace. *)
Lemma scan_inline_tag brace at_sign name tagContent closing rest :
  is_char "{" brace -> is_char "@" at_sign ->
  Tokenizer.kind name = Tokenizer.AsciiWord ->
  Forall (fun token => ~ is_char "}" token) tagContent -> is_char "}" closing ->
  scan None (brace :: at_sign :: name :: tagContent ++ closing :: rest) =
  IInlineTag brace at_sign name tagContent closing :: scan None rest.
Proof. intros. by rewrite scan_tag_start, scan_tag_closed. Qed.

Lemma scan_tag_unclosed brace at_sign name tagContent :
  is_char "{" brace -> is_char "@" at_sign ->
  Tokenizer.kind name = Tokenizer.AsciiWord ->
  Forall (fun token => ~ is_char "}" token) tagContent ->
  scan None (brace :: at_sign :: name :: tagContent) =
  [IError brace (at_sign :: name :: tagContent)
     "The inline tag is missing its closing brace"].
Proof. intros. by rewrite scan_tag_start, scan_tag_open. Qed.

(** An escape, and a backslash that escapes nothing. *)
Lemma scan_escape token next rest :
  is_char "\" token -> Tokenizer.isPunctuation (Tokenizer.kind next) = true ->
  scan None (token :: next :: rest) = IEscaped token next :: scan None rest.
Proof.
  intros Htoken Hnext. symmetry. apply scans_scan.
  apply scans_escape; [done..|apply scan_scans].
Qed.

Lemma scan_backslash_plain token next rest :
  is_char "\" token -> Tokenizer.isPunctuation (Tokenizer.kind next) = false ->
  scan None (token :: next :: rest) = IPlain token :: scan None (next :: rest).
Proof.
  intros Htoken Hnext. symmetry. apply scans_scan.
  apply scans_plain; [| | |apply scan_scans];
    unfold escapes, opens_tag, is_char in *; naive_solver congruence.
Qed.

End elements.

(** ** The excerpts of the elements *)

Section excerpts.
Implicit Types (b : string) (from to : Z) (token first : Tokenizer.Token).
Implicit Types (tokens rest pre post : list Tokenizer.Token) (item : Inline).

(** The range that a chain of adjacent tokens covers. *)
Lemma span_adjacent b from first rest to :
  TextRange.adjacent b from (Tokenizer.range <$> first :: rest) to ->
  NodeParser.span first rest = TextRange.Build b from to.
Proof.
  unfold NodeParser.span. intros (Hb & Hp & _ & Hrest). rewrite Hb, Hp. f_equal.
  clear Hb Hp. revert first Hrest.
  induction rest as [|token rest IH]; intros first Hrest; [done|].
  destruct Hrest as (_ & _ & _ & Hrest). cbn [fmap list_fmap] in Hrest.
  rewrite <- (IH token Hrest). by rewrite last_cons_default.
Qed.

(** The text of a chain of adjacent tokens is the text of the buffer
    that the chain covers. *)
Lemma toString_adjacent_tokens b from tokens to :
  0 <= from -> to <= Js.length b ->
  TextRange.adjacent b from (Tokenizer.range <$> tokens) to ->
  toString tokens = TextRange.toString (TextRange.Build b from to).
Proof.
  intros Hfrom Hto Hadj. rewrite <- (TextRange.join_adjacent _ _ _ _ Hfrom Hto Hadj).
  cbn. by rewrite <- list_fmap_compose.
Qed.

(** A part of a chain is a chain, within the bounds of the whole. *)
Lemma adjacent_infix b from pre tokens post to :
  TextRange.adjacent b from (Tokenizer.range <$> pre ++ tokens ++ post) to ->
  exists lo hi, from <= lo /\ hi <= to /\
    TextRange.adjacent b lo (Tokenizer.range <$> tokens) hi.
Proof.
  rewrite !fmap_app. intros (lo & Hpre & (hi & Htokens & Hpost)%TextRange.adjacent_app)
    %TextRange.adjacent_app.
  exists lo, hi. split_and!; [by eapply TextRange.adjacent_le..|done].
Qed.

Section chain.
Context (b : string) (from to : Z) (tokens : list Tokenizer.Token).
Context (Hfrom : 0 <= from) (Hto : to <= Js.length b).
Context (Hadj : TextRange.adjacent b from (Tokenizer.range <$> tokens) to).

(** The tokens of a part of the chain: their range, with its text. *)
Lemma part_excerpt pre first rest post :
  tokens = pre ++ (first :: rest) ++ post ->
  let excerpt := NodeParser.span first rest in
  TextRange.wf excerpt /\ TextRange.buffer excerpt = b /\
  from <= TextRange.pos excerpt /\ TextRange.end_ excerpt <= to /\
  TextRange.toString excerpt = toString (first :: rest).
Proof.
  intros Heq. rewrite Heq in Hadj.
  apply adjacent_infix in Hadj as (lo & hi & Hlo & Hhi & Hpart).
  pose proof (TextRange.adjacent_le _ _ _ _ Hpart).
  cbn zeta. rewrite (span_adjacent _ _ _ _ _ Hpart).
  split_and!; [unfold TextRange.wf; cbn; lia|done..|].
  symmetry. apply toString_adjacent_tokens; [lia..|done].
Qed.

(** The elements of a line are backed by excerpts of the line: the
    tokens of each are a chain within the line. *)
Lemma item_excerpt item :
  item ∈ scan None tokens ->
  exists lo hi, from <= lo /\ hi <= to /\
    TextRange.adjacent b lo (Tokenizer.range <$> inline_tokens item) hi.
Proof.
  intros (pre & post & Heq)%scan_infix. rewrite Heq in Hadj.
  by apply adjacent_infix in Hadj.
Qed.

(** The diagnostic of an element that is not closed is about a valid
    range of the buffer, within the line, whose text is the error text of
    the element. *)
Lemma error_range first rest message :
  IError first rest message ∈ scan None tokens ->
  let range := NodeParser.span first rest in
  TextRange.wf range /\ TextRange.buffer range = b /\
  from <= TextRange.pos range /\ TextRange.end_ range <= to /\
  TextRange.toString range = toString (first :: rest).
Proof. intros (pre & post & Heq)%scan_infix. by eapply part_excerpt. Qed.

(** The content of an inline tag, after the spacing that follows the
    name: its range is a valid range of the buffer with the text of the
    tokens, the last spacing before the brace included. *)
Lemma tag_content_excerpt brace at_sign name tagContent closing first rest :
  IInlineTag brace at_sign name tagContent closing ∈ scan None tokens ->
  NodeParser.skip_spacing tagContent = first :: rest ->
  let excerpt := NodeParser.span first rest in
  TextRange.wf excerpt /\ TextRange.buffer excerpt = b /\
  from <= TextRange.pos excerpt /\ TextRange.end_ excerpt <= to /\
  TextRange.toString excerpt = toString (first :: rest).
Proof.
  intros (pre & post & Heq)%scan_infix Hskip.
  destruct (NodeParser.skip_spacing_suffix tagContent) as [spacing Hcontent].
  rewrite Hskip in Hcontent. cbn [inline_tokens] in Heq.
  apply (part_excerpt (pre ++ brace :: at_sign :: name :: spacing)
           first rest (closing :: post)).
  rewrite Heq, Hcontent. cbn [app]. by rewrite <- !app_assoc.
Qed.

End chain.

End excerpts.

(** ** The inline tag of an element *)

Section tags.
Context {Cfg Base CB : Type} `{!InlineTagBase Cfg Base CB string}.
Implicit Types (item : Inline) (this : DocInlineTag.t Cfg TextRange.t Base).

(** The tag that the parser makes of an element [{@name content}] that
    is no link: the base gets the name of the tag, and the
    tag the excerpt of its content, which starts after the spacing that
    follows the name; a tag without content has no excerpt. *)
Definition inline_tag (item : Inline) :
    option (result string (DocInlineTag.t Cfg TextRange.t Base)) :=
  match item with
  | IInlineTag _ at_sign name tagContent _ =>
      if decide (is_link name) then None
      else
        Some (DocInlineTag.new
                (Parsed
                   {| DocInlineTag.p_base := toString [at_sign; name];
                      DocInlineTag.p_tagContentExcerpt :=
                        match NodeParser.skip_spacing tagContent with
                        | first :: rest => Some (NodeParser.span first rest)
                        | [] => None
                        end |}))
  | _ => None
  end.

(** The excerpt of a tag is the range of the content after the
    spacing. *)
Lemma inline_tag_excerpt brace at_sign name tagContent closing this e :
  inline_tag (IInlineTag brace at_sign name tagContent closing) = Some (Ok this) ->
  DocInlineTag._tagContentExcerpt this = Some e ->
  exists first rest, NodeParser.skip_spacing tagContent = first :: rest /\
    DocExcerpt.content e = NodeParser.span first rest /\
    DocExcerpt.excerptKind e = InlineTag_TagContent.
Proof.
  unfold inline_tag. case_decide; [done|].
  intros Hnew%(inj Some) He. rewrite DocInlineTag.new_base in Hnew.
  apply res_bind_inv_Ok in Hnew as (super & _ & [= <-]). cbn in He.
  destruct (NodeParser.skip_spacing tagContent) as [|first rest]; [done|].
  injection He as <-. by exists first, rest.
Qed.

Section chain.
Context (b : string) (from to : Z) (tokens : list Tokenizer.Token).
Context (Hfrom : 0 <= from) (Hto : to <= Js.length b).
Context (Hadj : TextRange.adjacent b from (Tokenizer.range <$> tokens) to).

(** The content that the getter returns for a tag of the line. *)
Lemma inline_tag_tagContent brace at_sign name tagContent closing this :
  IInlineTag brace at_sign name tagContent closing ∈ scan None tokens ->
  inline_tag (IInlineTag brace at_sign name tagContent closing) = Some (Ok this) ->
  (DocInlineTag.tagContent this).1 = toString (NodeParser.skip_spacing tagContent).
Proof.
  unfold inline_tag. case_decide; [done|].
  intros Hin Hnew%(inj Some). rewrite DocInlineTag.tagContent_content_of.
  rewrite (DocInlineTag.new_content_of _ _ Hnew). cbn.
  destruct (NodeParser.skip_spacing tagContent) as [|first rest] eqn:Hskip; [done|].
  by destruct (tag_content_excerpt b from to tokens Hfrom Hto Hadj _ _ _ _ _ _ _
                 Hin Hskip) as (_ & _ & _ & _ & ->).
Qed.

Lemma inline_tag_chain item this :
  item ∈ scan None tokens -> inline_tag item = Some (Ok this) ->
  exists brace at_sign name tagContent closing,
    item = IInlineTag brace at_sign name tagContent closing /\
    (DocInlineTag.tagContent this).1 =
      toString (NodeParser.skip_spacing tagContent) /\
    forall e, DocInlineTag._tagContentExcerpt this = Some e ->
      DocExcerpt.excerptKind e = InlineTag_TagContent /\
      TextRange.wf (DocExcerpt.content e) /\
      TextRange.buffer (DocExcerpt.content e) = b /\
      from <= TextRange.pos (DocExcerpt.content e) /\
      TextRange.end_ (DocExcerpt.content e) <= to.
Proof.
  intros Hin Htag.
  destruct item as [| | |brace at_sign name tagContent closing|]; try done.
  exists brace, at_sign, name, tagContent, closing.
  split_and!; [done|by eapply inline_tag_tagContent|]. intros e He.
  destruct (inline_tag_excerpt _ _ _ _ _ _ _ Htag He)
    as (first & rest & Hskip & -> & Hkind).
  by destruct (tag_content_excerpt b from to tokens Hfrom Hto Hadj _ _ _ _ _ _ _
                 Hin Hskip) as (? & ? & ? & ? & _).
Qed.

End chain.

End tags.

(** ** What the view shows of a line *)

(** The text of an element that the view shows: not the backslash of
    an escape, not the backticks of a code span, the text of a link,
    nothing of another inline tag, and an element with a diagnostic as it
    is written. *)
Definition item_text (item : Inline) : string :=
  match item with
  | IPlain token => NodeParser.token_text token
  | IEscaped _ next => NodeParser.token_text next
  | ICodeSpan _ code _ => toString code
  | IInlineTag _ _ name tagContent _ =>
      match link_tag name tagContent with
      | Some linkTag => link_text linkTag
      | None => if malformed item then toString (inline_tokens item) else ""
      end
  | IError first rest _ => toString (first :: rest)
  end.

(** The text of an inline node. *)
Definition shown (node : DocNode) : string :=
  match node with
  | NCodeSpan text | NErrorText text | NEscapedText text | NPlainText text => text
  | NLinkTag linkTag => link_text linkTag
  | NSoftBreak => " "
  | _ => ""
  end.

Section view.
Context `{NodeTransforms}.
Implicit Types (node : DocNode) (section : list DocNode).
Implicit Types (item : Inline) (items : list Inline).

Lemma renderDocNode_total_shown node key :
  DocHtmlViewTyping.inline node = true ->
  React.text_content (renderDocNode_total node key) = shown node.
Proof.
  intros Hinline. rewrite renderDocNode_total_eq.
  destruct node as [| | | |linkTag| | | |]; try done; cbn;
    rewrite ?(proj1 (renderLinkTag_text linkTag key)); apply str_app_nil_r.
Qed.

(** The view of a section of such nodes: it returns with fuel 1, and
    its text is the texts of the nodes, in order. *)
Lemma renderContainer_shown section :
  forallb DocHtmlViewTyping.inline section = true ->
  exists r, _renderContainer 1 section = Some r /\
    React.text_content r = Js.join (shown <$> section).
Proof.
  intros Hflat. exists (renderContainer_total section).
  split; [by apply renderContainer_equiv, DocHtmlViewTyping.inline_nodes_depth|].
  unfold renderContainer_total. cbn -[imap]. rewrite str_app_nil_r, fmap_imap.
  f_equal. rewrite <- imap_const. apply imap_ext. intros i node Hi. cbn.
  apply renderDocNode_total_shown. rewrite forallb_forall in Hflat.
  by eapply Hflat, list_elem_of_In, list_elem_of_lookup_2.
Qed.

Lemma toString_app (tokens1 tokens2 : list Tokenizer.Token) :
  toString (tokens1 ++ tokens2) = toString tokens1 +:+ toString tokens2.
Proof. cbn. by rewrite fmap_app, join_app. Qed.

Lemma inline_nodes_shown item :
  Js.join (shown <$> (inline_nodes item).1) = item_text item.
Proof.
  destruct item as [token|backslash next| |brace at_sign name tagContent closing|];
    cbn; try apply str_app_nil_r.
  - by destruct (NodeParser.token_text next) as [|c [|c' rest]];
      cbn; rewrite ?str_app_nil_r.
  - destruct (link_tag name tagContent); cbn; [apply str_app_nil_r|].
    case_bool_decide; [rewrite decide_True by done|rewrite decide_False by done];
      cbn; [apply str_app_nil_r|done].
Qed.

Lemma item_text_plain (tokens : list Tokenizer.Token) :
  Js.join (item_text <$> (IPlain <$> tokens)) = toString tokens.
Proof.
  induction tokens as [|token tokens IH]; [done|].
  rewrite !fmap_cons. change (toString (token :: tokens)) with
    (NodeParser.token_text token +:+ toString tokens). by rewrite <- IH.
Qed.

Lemma items_shown items :
  Js.join (shown <$> concat (inline_nodes <$> items).*1) =
  Js.join (item_text <$> items).
Proof.
  induction items as [|item items IH]; [done|].
  rewrite !fmap_cons, !concat_cons, fmap_app, join_app.
  by rewrite inline_nodes_shown, IH.
Qed.

(** The nodes of an element are nodes of its line. *)
Lemma inline_nodes_elem_of node item items :
  item ∈ items -> node ∈ (inline_nodes item).1 ->
  node ∈ concat (inline_nodes <$> items).*1.
Proof.
  intros Hitem Hnode. induction Hitem as [item items|item' item items _ IH];
    cbn; apply elem_of_app; auto.
Qed.

(** The text of the view of a line is the text of its elements. *)
Lemma markup_shown (tokens : list Tokenizer.Token) :
  exists r, _renderContainer 1 (@parseLine markup tokens).1 = Some r /\
    React.text_content r = Js.join (item_text <$> scan None tokens).
Proof.
  destruct (renderContainer_shown (@parseLine markup tokens).1)
    as (r & Hr & Ht); [apply inline_nodes_all_inline|].
  exists r. split; [done|]. rewrite Ht. apply items_shown.
Qed.

End view.

(** ** The diagnostics of a line *)

Section diagnostics.
Implicit Types (tokens pre rest : list Tokenizer.Token) (first : Tokenizer.Token).
Implicit Types (item : Inline) (items : list Inline) (m : ParserMessage).

(** The element that is not closed is the last one, after elements that
    are no errors, and its tokens are the rest of the line. *)
Lemma scan_error_last tokens first rest message :
  IError first rest message ∈ scan None tokens ->
  exists items pre, scan None tokens = items ++ [IError first rest message] /\
    Forall (fun item => is_error item = false) items /\
    tokens = pre ++ first :: rest.
Proof.
  intros [i Hi]%list_elem_of_lookup. pose proof (scan_scans None tokens) as Hs.
  pose proof (scans_error_last _ _ _ _ _ Hs Hi eq_refl) as Hlen.
  assert (scan None tokens = take i (scan None tokens) ++ [IError first rest message])
    as Heq by (by rewrite <- (take_S_r _ _ _ Hi), take_ge by lia).
  exists (take i (scan None tokens)), (concat (inline_tokens <$> take i (scan None tokens))).
  split_and!; [done| |].
  - apply Forall_forall. intros item [j Hj]%list_elem_of_lookup.
    destruct (is_error item) eqn:Herr; [|done].
    apply lookup_take_Some in Hj as [Hj Hlt].
    pose proof (scans_error_last _ _ _ _ _ Hs Hj Herr). lia.
  - pose proof (scan_tokens tokens) as Htokens.
    rewrite Heq, fmap_app, concat_app in Htokens. cbn in Htokens.
    by rewrite app_nil_r in Htokens.
Qed.

(** Elements that are not malformed have no diagnostics. *)
Lemma items_messages items :
  Forall (fun item => malformed item = false) items ->
  concat (inline_nodes <$> items).*2 = [].
Proof.
  induction 1 as [|item items Hitem _ IH]; [done|].
  cbn. by rewrite inline_nodes_messages, IH.
Qed.

(** A diagnostic of a line is the diagnostic of one of its elements. *)
Lemma message_item items m :
  m ∈ concat (inline_nodes <$> items).*2 ->
  exists item, item ∈ items /\ m ∈ (inline_nodes item).2.
Proof.
  induction items as [|item items IH]; [by intros ?%elem_of_nil|].
  cbn. intros [Hm|(item' & ? & ?)%IH]%elem_of_app.
  - exists item. split; [by left|done].
  - exists item'. split; [by right|done].
Qed.

Section chain.
Context (b : string) (from to : Z) (tokens : list Tokenizer.Token).
Context (Hfrom : 0 <= from) (Hto : to <= Js.length b).
Context (Hadj : TextRange.adjacent b from (Tokenizer.range <$> tokens) to).

(** A diagnostic of a line is an error about a valid range of the
    buffer, within the line, and the nodes of the line hold the error
    text of this range: the offending part of the line as it is
    written. *)
Lemma markup_diagnostic m :
  m ∈ (@parseLine markup tokens).2 ->
  severity m = SeverityError /\
  TextRange.wf (sourceRange m) /\ TextRange.buffer (sourceRange m) = b /\
  from <= TextRange.pos (sourceRange m) /\ TextRange.end_ (sourceRange m) <= to /\
  NErrorText (TextRange.toString (sourceRange m)) ∈ (@parseLine markup tokens).1.
Proof.
  intros (item & Hitem & Hm)%message_item.
  destruct (inline_nodes_diagnostic _ _ Hm) as (first & rest & message & Htokens & -> & Hnodes).
  destruct (scan_infix _ _ Hitem) as (pre & post & Heq). rewrite Htokens in Heq.
  destruct (part_excerpt b from to tokens Hfrom Hto Hadj pre first rest post Heq)
    as (? & ? & ? & ? & Htext).
  cbn [severity sourceRange]. split_and!; try done. rewrite Htext.
  eapply inline_nodes_elem_of; [exact Hitem|]. rewrite Hnodes. by left.
Qed.

(** An element that is not closed is reported last: its range runs to
    the end of the line, its diagnostic is the last of the line, and its
    error text ends the nodes of the line. *)
Lemma unclosed_diagnostic first rest message :
  IError first rest message ∈ scan None tokens ->
  let m := {| severity := SeverityError; messageText := message;
              sourceRange := NodeParser.span first rest |} in
  TextRange.wf (sourceRange m) /\ TextRange.buffer (sourceRange m) = b /\
  from <= TextRange.pos (sourceRange m) /\ TextRange.end_ (sourceRange m) = to /\
  exists nodes messages,
    @parseLine markup tokens =
    (nodes ++ [NErrorText (TextRange.toString (sourceRange m))], messages ++ [m]).
Proof.
  intros Hin.
  destruct (scan_error_last _ _ _ _ Hin) as (items & pre & Hscan & _ & Heq).
  rewrite Heq, fmap_app in Hadj.
  apply TextRange.adjacent_app in Hadj as (mid & Hpre & Hpart).
  pose proof (TextRange.adjacent_le _ _ _ _ Hpre).
  pose proof (TextRange.adjacent_le _ _ _ _ Hpart).
  cbn [severity sourceRange]. rewrite (span_adjacent _ _ _ _ _ Hpart).
  split_and!; [unfold TextRange.wf; cbn; lia|done|done|done|].
  exists (concat (inline_nodes <$> items).*1), (concat (inline_nodes <$> items).*2).
  cbn [parseLine markup]. rewrite Hscan, !fmap_app, !concat_app.
  cbn [fmap list_fmap concat inline_nodes fst snd].
  rewrite !app_nil_r, (span_adjacent _ _ _ _ _ Hpart).
  by rewrite <- (toString_adjacent_tokens b mid (first :: rest) to) by (done || lia).
Qed.

End chain.

End diagnostics.

(** ** The links of a line *)

(** The reference to the member that a word names. *)
Definition member_of (word : Tokenizer.Token) : DocMemberReference :=
  {| memberIdentifier := Some {| identifier := NodeParser.token_text word |} |}.

(** The member paths, as rules: a word, or a word, a dot and a path. *)
Inductive path : list Tokenizer.Token -> list DocMemberReference -> Prop :=
| path_word word :
    Tokenizer.kind word = Tokenizer.AsciiWord -> path [word] [member_of word]
| path_dot word dot rest references :
    Tokenizer.kind word = Tokenizer.AsciiWord -> is_char "." dot ->
    path rest references ->
    path (word :: dot :: rest) (member_of word :: references).

Section links.
Implicit Types (tokens target : list Tokenizer.Token).
Implicit Types (references : list DocMemberReference) (linkTag : DocLinkTag).

Lemma member_path_path tokens references :
  member_path tokens = Some references <-> path tokens references.
Proof.
  split.
  - remember (length tokens) as n eqn:Hn. revert tokens references Hn.
    induction n as [n IH] using lt_wf_ind. intros tokens references -> Hpath.
    destruct tokens as [|word [|dot rest]]; [done|..]; cbn in Hpath;
      case_decide; simplify_eq; [by constructor|].
    case_decide; [|done].
    destruct (member_path rest) as [references'|] eqn:Hrest; simplify_eq/=.
    constructor; [done..|]. eapply IH; [|done..]. cbn. lia.
  - induction 1 as [word Hword|word dot rest references Hword Hdot _ IH]; cbn.
    + by rewrite decide_True.
    + rewrite !decide_True by done. by rewrite IH.
Qed.

(** The last member of a path is the one that the last word names. *)
Lemma path_last tokens references :
  path tokens references -> last references = member_of <$> last tokens.
Proof.
  induction 1 as [word Hword|word dot rest references Hword Hdot Hpath IH]; [done|].
  rewrite !last_cons, IH. destruct (last rest) as [token|] eqn:Hlast; [done|].
  apply last_None in Hlast as ->. inversion Hpath.
Qed.

Lemma path_identifier tokens references linkTag :
  path tokens references ->
  codeDestination linkTag = Some {| memberReferences := references |} ->
  link_identifier linkTag = default "" (NodeParser.token_text <$> last tokens).
Proof.
  intros Hpath Hcode. unfold link_identifier. rewrite Hcode. cbn.
  rewrite (path_last _ _ Hpath).
  destruct Hpath as [word Hword|word dot rest references Hword Hdot Hpath]; [done|].
  cbn [length Nat.ltb Nat.leb]. by destruct (last _).
Qed.

(** The link that the grammar makes: the tag has the name of a link,
    a target, and the display text as it is written; the target is the
    URL of the link, or the path of its members. *)
Lemma link_tag_Some name tagContent linkTag :
  link_tag name tagContent = Some linkTag ->
  let target := (link_parts tagContent).1 in
  is_link name /\ target <> [] /\
  linkText linkTag = (link_parts tagContent).2 /\
  (urlDestination linkTag = Some (toString target) /\
   codeDestination linkTag = None \/
   urlDestination linkTag = None /\
   exists references, path target references /\
     codeDestination linkTag = Some {| memberReferences := references |}).
Proof.
  unfold link_tag. case_decide; [|done].
  destruct (link_parts tagContent) as [target text]. cbn [fst snd].
  destruct target as [|scheme [|colon [|slash [|slash' rest]]]];
    try case_decide; try (by intros [= <-]; split_and!; try done; left);
    destruct (member_path _) as [references|] eqn:Hrefs; try done;
    intros [= <-]; (split_and!; try done); right; (split; [done|]);
    exists references; by rewrite <- member_path_path.
Qed.

(** A link without a target is malformed. *)
Lemma link_tag_no_target name tagContent :
  (link_parts tagContent).1 = [] -> link_tag name tagContent = None.
Proof. unfold link_tag. intros ->. by case_decide. Qed.

(** The target of a link is a part of its content. *)
Lemma skip_spacing_subseteq tokens : NodeParser.skip_spacing tokens ⊆ tokens.
Proof.
  destruct (NodeParser.skip_spacing_suffix tokens) as [pre Hpre].
  intros token Hin. rewrite Hpre. apply elem_of_app. by right.
Qed.

Lemma link_parts_subseteq (tagContent : list Tokenizer.Token) :
  (link_parts tagContent).1 ⊆ tagContent.
Proof.
  assert (forall tokens,
            reverse (NodeParser.skip_spacing (reverse (NodeParser.skip_spacing tokens)))
              ⊆ tokens) as Htrim.
  { intros tokens token Hin. rewrite elem_of_reverse in Hin.
    apply skip_spacing_subseteq in Hin. rewrite elem_of_reverse in Hin.
    exact (skip_spacing_subseteq _ _ Hin). }
  unfold link_parts. destruct (list_find _ tagContent) as [[i ?]|]; cbn [fst];
    [|apply Htrim].
  etrans; [apply Htrim|apply subseteq_take].
Qed.

(** The tokens of a valid line have a text. *)
Lemma token_text_nonempty line token :
  TextRange.wf line -> token ∈ Tokenizer.tokenize line ->
  NodeParser.token_text token <> "".
Proof.
  intros Hwf Hin Htext.
  pose proof (Tokenizer.scan_ok Tokenizer.Idle (chars (TextRange.toString line)) I)
    as Hok.
  change (Tokenizer.scan Tokenizer.Idle ?cs) with (Tokenizer.lexemes cs) in Hok.
  rewrite <- (Tokenizer.tokenize_lexemes line Hwf), Forall_fmap in Hok.
  unfold NodeParser.token_text in Htext.
  destruct (proj1 (Forall_forall _ _) Hok token Hin) as [[=]|(Hne & _)]; cbn in *;
    by rewrite Htext in *.
Qed.

Lemma or_nonempty (s s' : string) : s <> "" -> Js.or s s' = s.
Proof. by destruct s. Qed.

Lemma toString_nonempty tokens :
  tokens <> [] -> Forall (fun token => NodeParser.token_text token <> "") tokens ->
  toString tokens <> "".
Proof.
  destruct tokens as [|token tokens]; [done|]. intros _ [Htoken _]%Forall_cons. cbn.
  by destruct (NodeParser.token_text token).
Qed.

(** The text of a link, from its parts: the display text when there is
    one that is not empty; else the text of the target when it is a URL,
    and the last word of the target when it is a member path. When the
    tokens of the target have a text, the placeholder of the view is not
    shown. *)
Lemma link_tag_text name tagContent linkTag :
  Forall (fun token => NodeParser.token_text token <> "") tagContent ->
  link_tag name tagContent = Some linkTag ->
  let target := (link_parts tagContent).1 in
  link_text linkTag =
    Js.or_opt (link_parts tagContent).2
      (match urlDestination linkTag with
       | Some _ => toString target
       | None => default "" (NodeParser.token_text <$> last target)
       end).
Proof.
  intros Htexts (_ & Htarget & Htext & Hdestination)%link_tag_Some. cbn zeta.
  revert Htarget Hdestination. generalize (link_parts_subseteq tagContent).
  generalize (link_parts tagContent).1. intros target Hsub Htarget Hdestination.
  assert (Forall (fun token => NodeParser.token_text token <> "") target) as Hall.
  { apply Forall_forall. intros token Hin%Hsub.
    by apply (proj1 (Forall_forall _ _) Htexts). }
  unfold link_text. cbn [foldr]. rewrite Htext. f_equal.
  destruct Hdestination as [[-> _]|(-> & references & Hpath & Hcode)]; cbn.
  - by apply or_nonempty, toString_nonempty.
  - rewrite (path_identifier _ _ _ Hpath Hcode).
    destruct (last target) as [token|] eqn:Hlast;
      [|by apply last_None in Hlast].
    apply or_nonempty, (proj1 (Forall_forall _ _) Hall).
    by apply last_Some_elem_of.
Qed.

End links.

(** ** Correctness *)

Section correctness.
Context `{NodeTransforms}.
Context {Cfg Base CB : Type} `{!InlineTagBase Cfg Base CB string}.
Implicit Types (line : TextRange.t) (tokens : list Tokenizer.Token).
Implicit Types (item : Inline) (m : ParserMessage).

(** The scanner implements the grammar: the elements that the rules
    derive for a line, from any state, are the elements that the scanner
    returns, and no others. *)
Theorem scan_refines_grammar (pending : option Pending) tokens items :
  scans pending tokens items <-> items = scan pending tokens.
Proof. split; [apply scans_scan|intros ->; apply scan_scans]. Qed.

(** C27: the elements that the grammar finds in a valid line hold the
    tokens of the line, each once and in order, and the text of the
    tokens of the elements, delimiters included, is the text of the line:
    nothing of the line is lost or read twice. *)
Theorem markup_round_trip line :
  TextRange.wf line ->
  concat (inline_tokens <$> scan None (Tokenizer.tokenize line)) =
    Tokenizer.tokenize line /\
  toString (concat (inline_tokens <$> scan None (Tokenizer.tokenize line))) =
    TextRange.toString line.
Proof.
  intros Hwf. rewrite scan_tokens. split; [done|].
  pose proof (Tokenizer.tokenize_adjacent line Hwf). destruct Hwf as (? & ? & ?).
  rewrite (toString_adjacent_tokens (TextRange.buffer line) (TextRange.pos line)
             _ (TextRange.end_ line)) by done.
  by destruct line.
Qed.

(** C25: the inline tag that the parser makes of an element
    [{@name content}] of a valid line: the getter [tagContent] returns the
    text of the content as it is written, from after the spacing that
    follows the name up to the closing brace, the last spacing included;
    the excerpt of the content, when there is content, has the role of tag
    content and is a valid range of the buffer of the line, within the
    line. *)
Theorem inline_tag_content line item (this : DocInlineTag.t Cfg TextRange.t Base) :
  TextRange.wf line ->
  item ∈ scan None (Tokenizer.tokenize line) ->
  inline_tag item = Some (Ok this) ->
  exists brace at_sign name tagContent closing,
    item = IInlineTag brace at_sign name tagContent closing /\
    (DocInlineTag.tagContent this).1 =
      toString (NodeParser.skip_spacing tagContent) /\
    forall e, DocInlineTag._tagContentExcerpt this = Some e ->
      DocExcerpt.excerptKind e = InlineTag_TagContent /\
      TextRange.wf (DocExcerpt.content e) /\
      TextRange.buffer (DocExcerpt.content e) = TextRange.buffer line /\
      TextRange.pos line <= TextRange.pos (DocExcerpt.content e) /\
      TextRange.end_ (DocExcerpt.content e) <= TextRange.end_ line.
Proof.
  intros Hwf. pose proof (Tokenizer.tokenize_adjacent line Hwf).
  destruct Hwf as (? & ? & ?). by apply inline_tag_chain.
Qed.



(** C32: a code span or an inline tag of a valid line that is not
    closed is reported where the line ends: its diagnostic is the last of
    the line, about a valid range of the buffer that starts at the
    opening of the element and ends where the line ends, and the nodes of
    the line end with the error text of this range. *)
Theorem unclosed_reported line first rest message :
  TextRange.wf line ->
  IError first rest message ∈ scan None (Tokenizer.tokenize line) ->
  let m := {| severity := SeverityError; messageText := message;
              sourceRange := NodeParser.span first rest |} in
  TextRange.wf (sourceRange m) /\
  TextRange.buffer (sourceRange m) = TextRange.buffer line /\
  TextRange.pos line <= TextRange.pos (sourceRange m) /\
  TextRange.end_ (sourceRange m) = TextRange.end_ line /\
  exists nodes messages,
    @parseLine markup (Tokenizer.tokenize line) =
    (nodes ++ [NErrorText (TextRange.toString (sourceRange m))], messages ++ [m]).
Proof.
  intros Hwf. pose proof (Tokenizer.tokenize_adjacent line Hwf).
  destruct Hwf as (? & ? & ?). by apply unclosed_diagnostic.
Qed.


(** A code span between two backticks, after plain tokens: the
    nodes of the line are a plain text for each token before the span, a
    code span with the text between the backticks, and the nodes of the
    rest of the line; the diagnostics are the diagnostics of the rest; and
    the view shows the text before the span, the text of the span without
    its backticks, and what it shows of the rest. *)
Theorem code_span_shown (pre code rest : list Tokenizer.Token) opening closing :
  Forall plain pre -> is_char "`" opening ->
  Forall (fun token => ~ is_char "`" token) code -> is_char "`" closing ->
  let tokens := pre ++ opening :: code ++ closing :: rest in
  @parseLine markup tokens =
    ((NPlainText ∘ NodeParser.token_text <$> pre) ++
       NCodeSpan (toString code) :: (@parseLine markup rest).1,
     (@parseLine markup rest).2) /\
  exists r, _renderContainer 1 (@parseLine markup tokens).1 = Some r /\
    React.text_content r =
    toString pre +:+ toString code +:+
    Js.join (item_text <$> scan None rest).
Proof.
  intros Hpre Hopening Hcode Hclosing tokens.
  assert (scan None tokens =
          (IPlain <$> pre) ++ ICodeSpan opening code closing :: scan None rest)
    as Hscan by (unfold tokens; by rewrite scan_plain_app, scan_code_span).
  split.
  - cbn [parseLine markup]. rewrite Hscan, !fmap_app, !concat_app.
    rewrite <- (scan_plain pre Hpre). pose proof (markup_plain pre Hpre) as Hplain.
    cbn [parseLine markup NodeParser.plain_text] in Hplain.
    injection Hplain as -> ->. by cbn.
  - destruct (markup_shown tokens) as (r & Hr & Ht). exists r. split; [done|].
    by rewrite Ht, Hscan, fmap_app, join_app, item_text_plain.
Qed.

(** C30: a link [{@link target|text}] of a valid line whose target the
    grammar reads: the line has the link tag among its nodes; the view
    shows it as an anchor; and the text of the anchor is the display text
    when there is one that is not empty, else the target when it is a URL
    and the last word of the target when it is a member path. The
    placeholder of the view is not shown for a link of a line. *)
Theorem link_shown line brace at_sign name tagContent closing linkTag key :
  TextRange.wf line ->
  IInlineTag brace at_sign name tagContent closing ∈
    scan None (Tokenizer.tokenize line) ->
  link_tag name tagContent = Some linkTag ->
  let target := (link_parts tagContent).1 in
  NLinkTag linkTag ∈ (@parseLine markup (Tokenizer.tokenize line)).1 /\
  _renderDocNode 1 (NLinkTag linkTag) key = Some (anchor key (link_text linkTag)) /\
  target <> [] /\
  link_text linkTag =
    Js.or_opt (link_parts tagContent).2
      (match urlDestination linkTag with
       | Some _ => toString target
       | None => default "" (NodeParser.token_text <$> last target)
       end).
Proof.
  intros Hwf Hin Hlink target. split_and!.
  - eapply inline_nodes_elem_of; [exact Hin|]. cbn. rewrite Hlink. by left.
  - cbn. by rewrite (proj1 (renderLinkTag_text linkTag key)).
  - by apply link_tag_Some in Hlink as (_ & ? & _).
  - apply (link_tag_text name); [|done].
    apply Forall_forall. intros token Htoken. apply (token_text_nonempty line); [done|].
    destruct (scan_infix _ _ Hin) as (pre & post & ->). cbn [inline_tokens].
    rewrite !elem_of_app, !elem_of_cons, elem_of_app. auto 10.
Qed.

End correctness.

(** ** Examples *)

Section examples.
#[local] Existing Instance DocNodeTransforms.trim_spaces.

(** A line with a code span, an escape, an inline tag whose content
    follows two spaces, and a backtick without a second one. *)
Definition sample : string := "Use `x + y` or \{ see {@label  a b } and `more".

Definition sample_line : TextRange.t := TextRange.Build sample 0 46.

Definition sample_tokens : list Tokenizer.Token := Tokenizer.tokenize sample_line.

Definition sample_token (n : nat) : Tokenizer.Token :=
  default (Tokenizer.endOfInput []) (sample_tokens !! n).

Definition sample_message : ParserMessage :=
  {| severity := SeverityError;
     messageText := "The code span is missing its closing backtick";
     sourceRange := TextRange.Build sample 41 46 |}.

(** The tag [{@label  a b }] of the line, and the tag that the parser
    makes of it. *)
Definition sample_tag : Inline :=
  IInlineTag (sample_token 17) (sample_token 18) (sample_token 19)
    (take 5 (drop 20 sample_tokens)) (sample_token 25).

Definition label : DocInlineTag.t unit TextRange.t string :=
  DocInlineTag.Build "@label" None
    (Some (DocExcerpt.new tt InlineTag_TagContent (TextRange.Build sample 31 35))).

Lemma sample_line_wf : TextRange.wf sample_line.
Proof. by apply TextRange.wfb_spec. Qed.

Example sample_nodes :
  @parseLine markup sample_tokens =
  ([NPlainText "Use"; NPlainText " "; NCodeSpan "x + y"; NPlainText " ";
    NPlainText "or"; NPlainText " "; NEscapedText "{"; NPlainText " ";
    NPlainText "see"; NPlainText " "; NOther "InlineTag"; NPlainText " ";
    NPlainText "and"; NPlainText " "; NErrorText "`more"],
   [sample_message]).
Proof. by vm_compute. Qed.

Example sample_shown :
  React.text_content <$> _renderContainer 1 (@parseLine markup sample_tokens).1 =
  Some "Use x + y or { see  and `more".
Proof. by vm_compute. Qed.

Example sample_tagContent :
  res_map (fun this => (DocInlineTag.tagContent this).1) <$> inline_tag sample_tag =
  Some (Ok "a b ").
Proof. by vm_compute. Qed.

(** A backslash before a letter, before spacing and at the end of a
    line escapes nothing, as the negative examples of test 03 say; before
    a backslash or another punctuation character it escapes it. *)
Example sample_backslashes :
  (fun text => (@parseLine markup
                  (Tokenizer.tokenize (TextRange.Build text 0 (Js.length text)))).1)
    <$> ["\A"; "\ x"; "a\"; "\\"; "\$x"] =
  [[NPlainText "\"; NPlainText "A"];
   [NPlainText "\"; NPlainText " "; NPlainText "x"];
   [NPlainText "a"; NPlainText "\"];
   [NEscapedText "\"];
   [NEscapedText "$"; NPlainText "x"]].
Proof. by vm_compute. Qed.

Lemma markup_round_trip_witness :
  concat (inline_tokens <$> scan None (Tokenizer.tokenize sample_line)) =
    Tokenizer.tokenize sample_line /\
  toString (concat (inline_tokens <$> scan None (Tokenizer.tokenize sample_line))) =
    TextRange.toString sample_line.
Proof. exact (markup_round_trip sample_line sample_line_wf). Defined.

Lemma inline_tag_content_witness :
  exists brace at_sign name tagContent closing,
    sample_tag = IInlineTag brace at_sign name tagContent closing /\
    (DocInlineTag.tagContent label).1 =
      toString (NodeParser.skip_spacing tagContent) /\
    forall e, DocInlineTag._tagContentExcerpt label = Some e ->
      DocExcerpt.excerptKind e = InlineTag_TagContent /\
      TextRange.wf (DocExcerpt.content e) /\
      TextRange.buffer (DocExcerpt.content e) = TextRange.buffer sample_line /\
      TextRange.pos sample_line <= TextRange.pos (DocExcerpt.content e) /\
      TextRange.end_ (DocExcerpt.content e) <= TextRange.end_ sample_line.
Proof.
  apply (inline_tag_content sample_line sample_tag label sample_line_wf).
  - by apply (list_elem_of_lookup_2 _ 10).
  - reflexivity.
Defined.


Lemma unclosed_reported_witness :
  let m :=
    {| severity := SeverityError;
       messageText := "The code span is missing its closing backtick";
       sourceRange := NodeParser.span (sample_token 29) [sample_token 30] |} in
  TextRange.wf (sourceRange m) /\
  TextRange.buffer (sourceRange m) = TextRange.buffer sample_line /\
  TextRange.pos sample_line <= TextRange.pos (sourceRange m) /\
  TextRange.end_ (sourceRange m) = TextRange.end_ sample_line /\
  exists nodes messages,
    @parseLine markup (Tokenizer.tokenize sample_line) =
    (nodes ++ [NErrorText (TextRange.toString (sourceRange m))], messages ++ [m]).
Proof.
  apply (unclosed_reported sample_line (sample_token 29) [sample_token 30] _
           sample_line_wf).
  by apply (list_elem_of_lookup_2 _ 14).
Defined.

Lemma code_span_shown_witness :
  let tokens :=
    take 2 sample_tokens ++ sample_token 2 :: take 5 (drop 3 sample_tokens) ++
    sample_token 8 :: drop 9 sample_tokens in
  @parseLine markup tokens =
    ((NPlainText ∘ NodeParser.token_text <$> take 2 sample_tokens) ++
       NCodeSpan (toString (take 5 (drop 3 sample_tokens))) ::
       (@parseLine markup (drop 9 sample_tokens)).1,
     (@parseLine markup (drop 9 sample_tokens)).2) /\
  exists r, _renderContainer 1 (@parseLine markup tokens).1 = Some r /\
    React.text_content r =
    toString (take 2 sample_tokens) +:+
    toString (take 5 (drop 3 sample_tokens)) +:+
    Js.join (item_text <$> scan None (drop 9 sample_tokens)).
Proof.
  apply (code_span_shown (take 2 sample_tokens) (take 5 (drop 3 sample_tokens))
           (drop 9 sample_tokens) (sample_token 2) (sample_token 8));
    [vm_compute; by repeat constructor|reflexivity
    |vm_compute; by repeat constructor|reflexivity].
Defined.

(** A line of links: to a member path with a display text, to a URL,
    to a member path under another spelling of the tag name, without a
    target, and with a target that the grammar does not read: the last
    two are error texts of the tags as they are written, each with a
    diagnostic about its range. *)
Definition links : string :=
  "See {@link Foo.bar | the bar}, {@link https://tsdoc.org}, {@LINK  a.b }, {@link} and {@link Foo#bar}.".

Definition links_line : TextRange.t := TextRange.Build links 0 101.

Definition links_tokens : list Tokenizer.Token := Tokenizer.tokenize links_line.

Definition links_token (n : nat) : Tokenizer.Token :=
  default (Tokenizer.endOfInput []) (links_tokens !! n).

Definition member (identifier : string) : DocMemberReference :=
  {| memberIdentifier := Some {| identifier := identifier |} |}.

Definition link_to_bar : DocLinkTag :=
  {| urlDestination := None; linkText := Some " the bar";
     codeDestination := Some {| memberReferences := [member "Foo"; member "bar"] |} |}.

Definition no_target (pos end_ : Z) : ParserMessage :=
  {| severity := SeverityError;
     messageText := "The link has no target that is a URL or a path of members";
     sourceRange := TextRange.Build links pos end_ |}.

Lemma links_line_wf : TextRange.wf links_line.
Proof. by apply TextRange.wfb_spec. Qed.

Example links_nodes :
  @parseLine markup links_tokens =
  ([NPlainText "See"; NPlainText " "; NLinkTag link_to_bar;
    NPlainText ","; NPlainText " ";
    NLinkTag {| urlDestination := Some "https://tsdoc.org"; linkText := None;
                codeDestination := None |};
    NPlainText ","; NPlainText " ";
    NLinkTag {| urlDestination := None; linkText := None;
                codeDestination :=
                  Some {| memberReferences := [member "a"; member "b"] |} |};
    NPlainText ","; NPlainText " "; NErrorText "{@link}";
    NPlainText " "; NPlainText "and"; NPlainText " ";
    NErrorText "{@link Foo#bar}"; NPlainText "."],
   [no_target 73 80; no_target 85 100]).
Proof. by vm_compute. Qed.

Example links_shown :
  React.text_content <$> _renderContainer 1 (@parseLine markup links_tokens).1 =
  Some "See  the bar, https://tsdoc.org, b, {@link} and {@link Foo#bar}.".
Proof. by vm_compute. Qed.

Lemma link_shown_witness :
  let target := (link_parts (take 10 (drop 5 links_tokens))).1 in
  NLinkTag link_to_bar ∈ (@parseLine markup (Tokenizer.tokenize links_line)).1 /\
  _renderDocNode 1 (NLinkTag link_to_bar) "key_2" =
    Some (anchor "key_2" (link_text link_to_bar)) /\
  target <> [] /\
  link_text link_to_bar =
    Js.or_opt (link_parts (take 10 (drop 5 links_tokens))).2
      (match urlDestination link_to_bar with
       | Some _ => toString target
       | None => default "" (NodeParser.token_text <$> last target)
       end).
Proof.
  apply (link_shown links_line (links_token 2) (links_token 3) (links_token 4)
           (take 10 (drop 5 links_tokens)) (links_token 15) link_to_bar "key_2"
           links_line_wf).
  - by apply (list_elem_of_lookup_2 _ 2).
  - reflexivity.
Defined.


End examples.

End Markup.
