(* ===== verification/Fence.v ===== *)
(** * The node parser: fenced code

    A fenced code block spans lines, so it is no part of the grammar of
    the text of a line. [Module FencedCode] models it from the
    specification, over the grammar of the blocks of [NodeParser]:

    - a line that, after its spacing, starts with three or more backticks
      opens a fence; what follows the backticks on the line, the language
      of the code, is not read by the view and is not kept;
    - the lines after it are code, each as it is written, up to a line
      that holds the same number of backticks and nothing else but
      spacing, which closes the fence;
    - the code of the block is the text of its lines, each with a line
      feed after it; the block is a node of the section that is open,
      beside its paragraphs, and ends the paragraph before it;
    - a fence that is not closed runs to the end of the comment: it
      becomes an error text in the section that is open, whose text is the
      text of the buffer from the start of the opening line to the end of
      the last line, with a diagnostic about this range.

    [segments] cuts the lines of a comment into the lines outside fences
    and the fences, in one pass; [parse_segment] is the step of the
    parser on a segment, which for a line outside a fence is the step
    [parse_line] of [NodeParser]; [parse_comment] folds it over the
    segments.

    The specification leaves open, and the model decides: which line
    closes a fence (the same number of backticks, nothing else but
    spacing); that a block tag within a fence is code; that the code ends
    with a line feed after its last line.

    What a fence does to the rest of the parse is stated as a relation
    between states, [similar]: two states are similar when their comments
    have the same blocks by name and tag, whatever their content, and the
    same section is open. The steps of the parser respect it ([Proper]),
    and the state after a fence is similar to the state before it; so the
    comment of a parse is similar to the comment that the lines outside
    fences give without the fences ([parse_comment_similar]), and what
    [NodeParser] shows of the blocks of a comment holds of a comment with
    fences, for the lines outside of them. The theorems about the fences
    themselves: the segments hold the lines, each once and in order; a
    comment without a fence line is parsed as by [parse_lines]; the
    invariant of the pass holds; a closed fence adds its code to the
    section that is open, and the view shows it as preformatted code; a
    fence that is not closed is reported about a valid range. *)

From Stdlib Require Import ZArith String Ascii Lia.
From stdpp Require Import base tactics option list strings.
From S2P Require Import Prelude JsString Range Tokenizer LineExtractor.
From S2P Require Import Configuration ParamCollection React HtmlView Comment.
From S2P Require Import Transforms HtmlTotal HtmlTyping ParserContext NodeParser.

#[local] Open Scope Z_scope.

Module FencedCode.
Import DocHtmlView NodeParser.
#[local] Existing Instance Tokenizer.TokenKind_eq_dec.

(** ** The fences *)

(** The fence of a line: the number of the backticks that the line
    starts with after its spacing, when there are three or more, and the
    tokens after them. *)
Definition fence (line : TextRange.t) : option (nat * list Tokenizer.Token) :=
  let content := skip_spacing (Tokenizer.tokenize line) in
  let n :=
    match list_find (fun token => Tokenizer.kind token <> Tokenizer.Punctuation "`")
            content with
    | Some (i, _) => i
    | None => length content
    end in
  if decide (3 <= n)%nat then Some (n, drop n content) else None.

(** A segment of a comment: a line outside a fence, or a fence with its
    opening line, the lines of its code and the line that closes it, when
    there is one. *)
Inductive Segment : Type :=
| SLine (line : TextRange.t)
| SFence (opening : TextRange.t) (code : list TextRange.t)
         (closing : option TextRange.t).

(** The segments of the lines, in one pass; [pending] is the fence that
    is open: its opening line, the number of its backticks and the lines
    of code so far. *)
Fixpoint segments (pending : option (TextRange.t * nat * list TextRange.t))
    (lines : list TextRange.t) : list Segment :=
  match lines with
  | [] =>
      match pending with
      | Some (opening, _, code) => [SFence opening code None]
      | None => []
      end
  | line :: rest =>
      match pending with
      | Some (opening, n, code) =>
          match fence line with
          | Some (n', after) =>
              if decide (n' = n /\ is_blank after = true)
              then SFence opening code (Some line) :: segments None rest
              else segments (Some (opening, n, code ++ [line])) rest
          | None => segments (Some (opening, n, code ++ [line])) rest
          end
      | None =>
          match fence line with
          | Some (n, _) => segments (Some (line, n, [])) rest
          | None => SLine line :: segments None rest
          end
      end
  end.

Section parser.
Context `{InlineGrammar}.

(** The step of the parser on a segment. *)
Definition parse_segment (configuration : TSDocConfiguration.t)
    (st : State) (segment : Segment) : State :=
  match segment with
  | SLine line => parse_line configuration st line
  | SFence opening code (Some _) =>
      let st := close_paragraph st in
      {| docComment := docComment st; target := target st;
         paragraphs :=
           paragraphs st ++
           [NFencedCode
              (Js.join ((fun line => TextRange.toString line +:+ String LF "")
                          <$> code))];
         paragraph := paragraph st; log := log st |}
  | SFence opening code None =>
      let range :=
        TextRange.Build (TextRange.buffer opening) (TextRange.pos opening)
          (TextRange.end_ (List.last code opening)) in
      append_line [NErrorText (TextRange.toString range)]
        [{| severity := SeverityError;
            messageText := "The code fence is missing its closing fence";
            sourceRange := range |}] st
  end.

(** The lines of a comment, with its fences, from the first to the end
    of input. *)
Definition parse_comment (configuration : TSDocConfiguration.t)
    (lines : list TextRange.t) : State :=
  commit (foldl (parse_segment configuration) (init configuration)
            (segments None lines)).

End parser.

(** ** Specification *)

(** The lines of a segment, and the lines of the segments that are
    outside fences. *)
Definition segment_lines (segment : Segment) : list TextRange.t :=
  match segment with
  | SLine line => [line]
  | SFence opening code closing => opening :: code ++ option_list closing
  end.

Definition pending_lines (pending : option (TextRange.t * nat * list TextRange.t)) :
    list TextRange.t :=
  match pending with
  | Some (opening, _, code) => opening :: code
  | None => []
  end.

Definition outside (segment : Segment) : list TextRange.t :=
  match segment with
  | SLine line => [line]
  | SFence _ _ _ => []
  end.

(** The lines of a comment that are outside its fences. *)
Definition text_lines (lines : list TextRange.t) : list TextRange.t :=
  segments None lines ≫= outside.

(** A line that closes a fence of [n] backticks. *)
Definition closes (n : nat) (line : TextRange.t) : Prop :=
  exists after, fence line = Some (n, after) /\ is_blank after = true.

#[export] Instance closes_dec n line : Decision (closes n line).
Proof.
  unfold closes.
  destruct (fence line) as [[n' after]|] eqn:Hfence; [|right; by intros (? & ? & ?)].
  destruct (decide (n' = n /\ is_blank after = true)) as [[-> ?]|Hno].
  - left. by exists after.
  - right. intros (after' & [= -> ->] & ?). by apply Hno.
Defined.

(** ** The segments *)

Section segments.
Implicit Types (line opening closing : TextRange.t).
Implicit Types (lines code pre post : list TextRange.t) (n : nat).

(** The segments hold the lines of the comment, each once and in
    order. *)
Lemma segments_lines pending lines :
  segments pending lines ≫= segment_lines = pending_lines pending ++ lines.
Proof.
  revert pending. induction lines as [|line lines IH]; intros pending.
  { destruct pending as [[[opening n] code]|]; cbn; by rewrite ?app_nil_r. }
  destruct pending as [[[opening n] code]|]; cbn [segments].
  - destruct (fence line) as [[n' after]|]; [case_decide|];
      rewrite ?bind_cons, IH; cbn; by rewrite <- ?(assoc_L (++)).
  - destruct (fence line) as [[n after]|]; rewrite ?bind_cons, IH; by cbn.
Qed.

(** Lines without a fence are segments of their own. *)
Lemma segments_no_fence pre lines :
  Forall (fun line => fence line = None) pre ->
  segments None (pre ++ lines) = (SLine <$> pre) ++ segments None lines.
Proof.
  induction 1 as [|line pre Hline _ IH]; [done|]. cbn. by rewrite Hline, IH.
Qed.

Lemma segments_lines_only lines :
  Forall (fun line => fence line = None) lines -> segments None lines = SLine <$> lines.
Proof.
  intros Hlines. pose proof (segments_no_fence lines [] Hlines) as Heq.
  by rewrite !app_nil_r in Heq.
Qed.

(** Within a fence: up to the line that closes it, or to the end of
    the comment. *)
Lemma segments_closed opening n code more closing lines :
  Forall (fun line => ~ closes n line) more -> closes n closing ->
  segments (Some (opening, n, code)) (more ++ closing :: lines) =
  SFence opening (code ++ more) (Some closing) :: segments None lines.
Proof.
  intros Hmore (after & Hfence & Hblank). revert code.
  induction Hmore as [|line more Hline _ IH]; intros code; cbn [app segments].
  - by rewrite Hfence, decide_True, app_nil_r.
  - rewrite (cons_middle _ code more), (assoc_L (++)), <- IH.
    destruct (fence line) as [[n' after']|] eqn:Hl; [|done].
    rewrite decide_False; [done|]. intros [-> ?]. apply Hline. by exists after'.
Qed.

Lemma segments_open opening n code more :
  Forall (fun line => ~ closes n line) more ->
  segments (Some (opening, n, code)) more = [SFence opening (code ++ more) None].
Proof.
  intros Hmore. revert code.
  induction Hmore as [|line more Hline _ IH]; intros code; cbn [segments].
  - by rewrite app_nil_r.
  - rewrite (cons_middle _ code more), (assoc_L (++)), <- IH.
    destruct (fence line) as [[n' after']|] eqn:Hl; [|done].
    rewrite decide_False; [done|]. intros [-> ?]. apply Hline. by exists after'.
Qed.

(** A fence between its lines, after lines without a fence. *)
Lemma segments_fence pre opening n after code closing lines :
  Forall (fun line => fence line = None) pre ->
  fence opening = Some (n, after) ->
  Forall (fun line => ~ closes n line) code -> closes n closing ->
  segments None (pre ++ opening :: code ++ closing :: lines) =
  (SLine <$> pre) ++ SFence opening code (Some closing) :: segments None lines.
Proof.
  intros Hpre Hopening Hcode Hclosing. rewrite (segments_no_fence _ _ Hpre).
  cbn [segments]. by rewrite Hopening, segments_closed.
Qed.

Lemma segments_fence_open pre opening n after code :
  Forall (fun line => fence line = None) pre ->
  fence opening = Some (n, after) ->
  Forall (fun line => ~ closes n line) code ->
  segments None (pre ++ opening :: code) =
  (SLine <$> pre) ++ [SFence opening code None].
Proof.
  intros Hpre Hopening Hcode. rewrite (segments_no_fence _ _ Hpre).
  cbn [segments]. by rewrite Hopening, segments_open.
Qed.

(** The lines outside the fences of a comment without a fence are its
    lines. *)
Lemma text_lines_no_fence lines :
  Forall (fun line => fence line = None) lines -> text_lines lines = lines.
Proof.
  intros Hlines. unfold text_lines. rewrite (segments_lines_only _ Hlines).
  clear Hlines. induction lines as [|line lines IH]; [done|].
  cbn. by rewrite IH.
Qed.

End segments.

(** ** Similar states *)

(** The shape of a comment: the blocks it holds, by name and tag,
    without their content. *)
Record Shape : Type :=
  { has_summary : option unit;
    names : list string;
    returns_tag : option DocBlockTag;
    remarks_tag : option DocBlockTag;
    custom_tags : list DocBlockTag;
    see_tags : list DocBlockTag;
    modifiers : list DocBlockTag }.

Definition shape (c : DocComment) : Shape :=
  {| has_summary := const () <$> summarySection c;
     names := parameterName <$> DocParamCollection.blocks (params c);
     returns_tag := blockTag <$> returnsBlock c;
     remarks_tag := blockTag <$> remarksBlock c;
     custom_tags := blockTag <$> customBlocks c;
     see_tags := blockTag <$> seeBlocks c;
     modifiers := modifierTagSet c |}.

(** Two states are similar when their comments have the same shape and
    the same section is open. *)
Definition similar (st st' : State) : Prop :=
  shape (docComment st) = shape (docComment st') /\ target st = target st'.

#[export] Instance similar_equivalence : Equivalence similar.
Proof.
  split.
  - by intros st.
  - by intros st st' [? ?].
  - intros st1 st2 st3 [? ?] [? ?]. split; congruence.
Qed.

Section similar.
Context `{InlineGrammar} (configuration : TSDocConfiguration.t).
Implicit Types (st : State) (c : DocComment) (line : TextRange.t).
Implicit Types (segment : Segment) (lines : list TextRange.t).

(** A step within a section leaves a similar state. *)
Lemma within_similar st st' : within st st' -> similar st' st.
Proof. intros (Hc & Ht & _). split; congruence. Qed.

(** The section that a block tag opens depends on the shape of the
    comment alone. *)
Lemma block_target_shape tag range c c' :
  shape c = shape c' -> block_target tag range c = block_target tag range c'.
Proof.
  intros Hs. pose proof (f_equal returns_tag Hs) as Hreturns.
  pose proof (f_equal remarks_tag Hs) as Hremarks. cbn in *. unfold block_target.
  by destruct (returnsBlock c), (returnsBlock c'), (remarksBlock c), (remarksBlock c').
Qed.

(** The steps of the parser respect similarity. *)
#[export] Instance commit_proper : Proper (similar ==> similar) commit.
Proof.
  intros st st' [Hs Ht]. split; [|done]. unfold shape.
  rewrite !commit_summarySection, !commit_params, !commit_returnsBlock,
    !commit_remarksBlock, !commit_customBlocks, !commit_seeBlocks,
    !commit_modifierTagSet, <- Ht.
  injection Hs as Hsummary Hnames Hreturns Hremarks Hcustom Hsee Hmodifiers.
  destruct (target st); rewrite ?DocParamCollection.blocks_add, ?fmap_app;
    f_equal; try done; by f_equal.
Qed.

#[export] Instance parse_line_proper :
  Proper (similar ==> eq ==> similar) (parse_line configuration).
Proof.
  intros st st' Hst line _ <-. pose proof (commit_proper _ _ Hst) as [Hcommit _].
  destruct Hst as [Hs Ht]. unfold similar, parse_line.
  rewrite !parse_tokens_docComment, !parse_tokens_target.
  destruct (classify configuration (Tokenizer.tokenize line)); try done.
  - by rewrite (block_target_shape _ _ _ _ Hcommit).
  - split; [|done]. unfold shape in *. cbn.
    injection Hs as Hsummary Hnames Hreturns Hremarks Hcustom Hsee Hmodifiers.
    congruence.
Qed.

#[export] Instance foldl_parse_line_proper :
  Proper (similar ==> eq ==> similar) (foldl (parse_line configuration)).
Proof.
  intros st st' Hst lines _ <-. revert st st' Hst.
  induction lines as [|line lines IH]; intros st st' Hst; [done|].
  cbn. apply IH. by rewrite Hst.
Qed.

(** A fence is a step within the section that is open. *)
Lemma parse_fence_within st opening code closing :
  within st (parse_segment configuration st (SFence opening code closing)).
Proof.
  destruct closing as [closing|]; [|apply append_line_within].
  by destruct (close_paragraph_within st) as (? & ? & ?).
Qed.

(** The state after a segment is similar to the state after the lines
    of the segment that are outside fences. *)
Lemma parse_segment_similar st segment :
  similar (parse_segment configuration st segment)
    (foldl (parse_line configuration) st (outside segment)).
Proof.
  destruct segment as [line|opening code closing]; [done|].
  apply within_similar, parse_fence_within.
Qed.

Lemma foldl_parse_segment_similar st st' (segments : list Segment) :
  similar st st' ->
  similar (foldl (parse_segment configuration) st segments)
    (foldl (parse_line configuration) st' (segments ≫= outside)).
Proof.
  revert st st'. induction segments as [|segment segments IH]; intros st st' Hst;
    [done|].
  rewrite bind_cons, foldl_app. cbn [foldl]. apply IH.
  by rewrite parse_segment_similar, Hst.
Qed.

(** The parse of a comment is similar to the parse of its lines
    outside fences. *)
Lemma parse_comment_similar lines :
  similar (parse_comment configuration lines)
    (parse_lines configuration (text_lines lines)).
Proof.
  unfold parse_comment, parse_lines, text_lines.
  by rewrite (foldl_parse_segment_similar (init configuration) (init configuration)).
Qed.

End similar.

(** ** The invariant of the pass *)

Section invariant.
Context `{InlineGrammar} (configuration : TSDocConfiguration.t).
Implicit Types (st : State) (segment : Segment) (lines : list TextRange.t).

Lemma parse_fence_content_ok st opening code closing :
  content_ok st ->
  content_ok (parse_segment configuration st (SFence opening code closing)).
Proof.
  intros Hst. destruct closing as [closing|]; [|by apply append_line_content_ok].
  destruct (close_paragraph_content_ok st Hst) as [Hps Hp]. split; [|done].
  unfold section_ok in *. cbn. by rewrite forallb_app, Hps.
Qed.

Lemma parse_segment_state_ok st segment :
  state_ok st -> state_ok (parse_segment configuration st segment).
Proof.
  intros Hst. destruct segment as [line|opening code closing];
    [by apply parse_tokens_state_ok|].
  eapply within_state_ok; [apply parse_fence_within| |done].
  apply parse_fence_content_ok, Hst.
Qed.

(** The invariant of the pass holds after the lines of a comment with
    fences. *)
Lemma parse_comment_state_ok lines : state_ok (parse_comment configuration lines).
Proof.
  apply commit_state_ok. unfold parse_comment.
  generalize (segments None lines). intros segments.
  assert (state_ok (init configuration)) as Hinit by apply init_state_ok.
  revert Hinit. generalize (init configuration). intros st.
  revert st. induction segments as [|segment segments IH]; intros st Hst; [done|].
  by apply IH, parse_segment_state_ok.
Qed.

(** A comment without a fence is parsed as by [parse_lines]. *)
Lemma parse_comment_no_fence lines :
  Forall (fun line => fence line = None) lines ->
  parse_comment configuration lines = parse_lines configuration lines.
Proof.
  intros Hlines. unfold parse_comment, parse_lines.
  by rewrite (segments_lines_only _ Hlines), foldl_fmap.
Qed.

End invariant.

(** ** The blocks of a comment with fences *)

Section blocks.
Context `{InlineGrammar} (configuration : TSDocConfiguration.t).
Implicit Types (c : DocComment) (lines : list TextRange.t).

(** The outline of a comment depends on its shape alone. *)
Lemma outline_shape c c' : shape c = shape c' -> outline c = outline c'.
Proof.
  intros Hs. injection Hs as Hsummary Hnames Hreturns Hremarks Hcustom Hsee Hmodifiers.
  assert (DocParamCollection.count (params c) = DocParamCollection.count (params c'))
    as Hcount.
  { unfold DocParamCollection.count. f_equal.
    apply (f_equal length) in Hnames. by rewrite !length_fmap in Hnames. }
  assert (length (exampleBlocks c) = length (exampleBlocks c')) as Hexamples
    by (by rewrite !exampleBlocks_length, Hcustom).
  unfold outline. rewrite Hcount, Hexamples, Hmodifiers.
  by destruct (summarySection c), (summarySection c'), (returnsBlock c),
    (returnsBlock c'), (remarksBlock c), (remarksBlock c'), (seeBlocks c),
    (seeBlocks c').
Qed.

(** The collection of a comment with fences holds a block for every
    [@param] line outside a fence, in the order of the lines. *)
Lemma parse_comment_param_names lines :
  parameterName <$>
    DocParamCollection.blocks (params (docComment (parse_comment configuration lines))) =
  param_names configuration (text_lines lines).
Proof.
  destruct (parse_comment_similar configuration lines) as [Hs _].
  rewrite <- parse_lines_param_names. exact (f_equal names Hs).
Qed.

(** The set of the modifier tags holds the modifier tags of the lines
    outside fences. *)
Lemma parse_comment_modifierTagSet lines :
  modifierTagSet (docComment (parse_comment configuration lines)) =
  foldl ModifierTagSet.addTag [] (modifier_tags configuration (text_lines lines)).
Proof.
  destruct (parse_comment_similar configuration lines) as [Hs _].
  rewrite <- parse_lines_modifierTagSet. exact (f_equal modifiers Hs).
Qed.

(** The sections of the view of a comment with fences are those of its
    lines outside fences. *)
Lemma parse_comment_outline lines :
  outline (docComment (parse_comment configuration lines)) =
  outline (docComment (parse_lines configuration (text_lines lines))).
Proof. apply outline_shape, parse_comment_similar. Qed.

End blocks.

(** ** The fences *)

(** The code of a fence: the text of its lines, each with a line feed
    after it. *)
Definition code_of (code : list TextRange.t) : string :=
  Js.join ((fun line => TextRange.toString line +:+ String LF "") <$> code).

(** The range of a fence that is not closed: from the start of its
    opening line to the end of its last line. *)
Definition open_range (opening : TextRange.t) (code : list TextRange.t) :
    TextRange.t :=
  TextRange.Build (TextRange.buffer opening) (TextRange.pos opening)
    (TextRange.end_ (List.last code opening)).

Section fences.
Context `{InlineGrammar} `{NodeTransforms} (configuration : TSDocConfiguration.t).
Implicit Types (st : State) (opening closing line : TextRange.t).
Implicit Types (code : list TextRange.t).

(** A closed fence adds its code to the content of the section that
    is open, after the paragraph that was open, and nothing else. *)
Lemma parse_fence_closed st opening code closing :
  let st' := parse_segment configuration st (SFence opening code (Some closing)) in
  content_of st' = content_of st ++ [NFencedCode (code_of code)] /\
  docComment st' = docComment st /\ target st' = target st /\ log st' = log st.
Proof.
  cbn. destruct (paragraphs_close_paragraph st) as [Hps Hp].
  destruct (close_paragraph_within st) as (Hc & Ht & _).
  unfold content_of at 1. cbn. rewrite Hp, Hps. split_and!; try done.
  unfold close_paragraph. by destruct (paragraph st).
Qed.

(** The view of a fenced code block: the code, preformatted. *)
Lemma renderDocNode_fenced fuel text key :
  _renderDocNode (S fuel) (NFencedCode text) key =
    Some (RElement "pre" (Some key) [("className", "doc-fenced-code")]
            [RElement "code" (Some key) [] [RText text]]) /\
  React.text_content <$> _renderDocNode (S fuel) (NFencedCode text) key = Some text.
Proof. split; [done|]. cbn. by rewrite !str_app_nil_r. Qed.

(** Lines in order: the first starts before the last ends. *)
Lemma ordered_last from opening code :
  LineExtractor.ordered from (opening :: code) ->
  Forall TextRange.wf (opening :: code) ->
  TextRange.pos opening <= TextRange.end_ (List.last code opening).
Proof.
  revert from opening. induction code as [|line code IH];
    intros from opening [_ Hord] [Hwf Hcode]%Forall_cons.
  { cbn. unfold TextRange.wf in Hwf. lia. }
  rewrite last_cons_default. specialize (IH _ line Hord Hcode).
  destruct Hord as [? _]. unfold TextRange.wf in Hwf. lia.
Qed.

(** The range of a fence that is not closed is a valid range of the
    buffer of the comment, between its delimiters. *)
Lemma open_range_valid range from opening code :
  Forall (LineExtractor.line_of_comment range) (opening :: code) ->
  LineExtractor.ordered from (opening :: code) ->
  TextRange.wf (open_range opening code) /\
  TextRange.buffer (open_range opening code) = TextRange.buffer range /\
  TextRange.pos range + 3 <= TextRange.pos (open_range opening code) /\
  TextRange.end_ (open_range opening code) + 2 <= TextRange.end_ range.
Proof.
  intros Hlines Hord.
  assert (Forall TextRange.wf (opening :: code)) as Hwf
    by (eapply Forall_impl; [exact Hlines|by intros line [? _]]).
  pose proof (ordered_last _ _ _ Hord Hwf) as Hle.
  pose proof (proj1 (Forall_forall _ _) Hlines _ (last_elem_of_cons opening code))
    as (Hlast & Hb & _ & Hend & _).
  apply Forall_cons in Hlines as [(Hopening & Hb' & Hpos & _) _].
  unfold open_range, TextRange.wf in *. cbn. rewrite Hb', <- Hb at 1.
  split_and!; (done || lia).
Qed.

(** A fence that is not closed becomes an error text at the end of the
    paragraph that is open, with one diagnostic about its range, and
    nothing else changes. *)
Lemma parse_fence_open st opening code :
  let st' := parse_segment configuration st (SFence opening code None) in
  log st' =
    log st ++ [{| severity := SeverityError;
                  messageText := "The code fence is missing its closing fence";
                  sourceRange := open_range opening code |}] /\
  last (paragraph st') =
    Some (NErrorText (TextRange.toString (open_range opening code))) /\
  paragraphs st' = paragraphs st /\
  docComment st' = docComment st /\ target st' = target st.
Proof.
  split_and!; try done. unfold parse_segment, append_line. cbn [paragraph].
  destruct (paragraph st) as [|node nodes]; [done|].
  rewrite (cons_middle NSoftBreak), (assoc_L (++)). apply last_snoc.
Qed.

End fences.

(** ** A comment that ends within a fence *)

Section open_fence.
Context `{InlineGrammar} (configuration : TSDocConfiguration.t).
Implicit Types (range opening : TextRange.t) (lines code : list TextRange.t).

Lemma ordered_app from lines lines' :
  LineExtractor.ordered from (lines ++ lines') ->
  exists from', LineExtractor.ordered from' lines'.
Proof.
  revert from. induction lines as [|line lines IH]; intros from; [by exists from|].
  intros [_ Hord]. by eapply IH.
Qed.

(** When the last segment of a comment is a fence that is not closed,
    the last diagnostic of the parse is about the range of the fence, a
    valid range of the buffer of the comment between its delimiters. *)
Lemma parse_comment_open_fence range from lines (segs : list Segment) opening code :
  Forall (LineExtractor.line_of_comment range) lines ->
  LineExtractor.ordered from lines ->
  segments None lines = segs ++ [SFence opening code None] ->
  last (log (parse_comment configuration lines)) =
    Some {| severity := SeverityError;
            messageText := "The code fence is missing its closing fence";
            sourceRange := open_range opening code |} /\
  TextRange.wf (open_range opening code) /\
  TextRange.buffer (open_range opening code) = TextRange.buffer range /\
  TextRange.pos range + 3 <= TextRange.pos (open_range opening code) /\
  TextRange.end_ (open_range opening code) + 2 <= TextRange.end_ range.
Proof.
  intros Hlines Hord Hsegs. split.
  - unfold parse_comment. rewrite Hsegs, commit_log, foldl_app. cbn [foldl].
    destruct (parse_fence_open configuration
                (foldl (parse_segment configuration) (init configuration) segs)
                opening code) as (-> & _).
    apply last_snoc.
  - pose proof (segments_lines None lines) as Hall.
    rewrite Hsegs, bind_app in Hall. cbn in Hall. rewrite !app_nil_r in Hall.
    rewrite <- Hall in Hlines, Hord. apply Forall_app in Hlines as [_ Hlines].
    apply ordered_app in Hord as [from' Hord]. by eapply open_range_valid.
Qed.

End open_fence.

(** ** Correctness *)

Section correctness.
Context `{InlineGrammar} `{NodeTransforms} (configuration : TSDocConfiguration.t).
Implicit Types (st : State) (opening closing line : TextRange.t).
Implicit Types (pre code lines : list TextRange.t).

(** The segments of a comment hold its lines, each once and in order,
    and a comment without a fence has a segment for each line and is
    parsed as by the grammar of the blocks alone. *)
Theorem segments_round_trip lines :
  segments None lines ≫= segment_lines = lines /\
  (Forall (fun line => fence line = None) lines ->
   segments None lines = SLine <$> lines /\
   parse_comment configuration lines = parse_lines configuration lines).
Proof.
  split; [apply (segments_lines None)|]. intros Hlines.
  split; [by apply segments_lines_only|by apply parse_comment_no_fence].
Qed.

(** C31: a fence after lines without a fence: when a line opens a fence
    of [n] backticks and a later line is the first to close it, the lines
    between them are the code of a fenced code block, which is added to
    the content of the section that is open after these lines, behind the
    paragraph that was open; the comment, the target and the log are as
    the lines before the fence left them; and the view shows the block as
    preformatted code whose text is the text of the lines of the code,
    each with its line feed. *)
Theorem fenced_code_shown st pre opening n after code closing fuel key :
  Forall (fun line => fence line = None) pre ->
  fence opening = Some (n, after) ->
  Forall (fun line => ~ closes n line) code -> closes n closing ->
  let before := foldl (parse_line configuration) st pre in
  let st' :=
    foldl (parse_segment configuration) st
      (segments None (pre ++ opening :: code ++ [closing])) in
  content_of st' = content_of before ++ [NFencedCode (code_of code)] /\
  docComment st' = docComment before /\ target st' = target before /\
  log st' = log before /\
  _renderDocNode (S fuel) (NFencedCode (code_of code)) key =
    Some (RElement "pre" (Some key) [("className", "doc-fenced-code")]
            [RElement "code" (Some key) [] [RText (code_of code)]]) /\
  React.text_content <$> _renderDocNode (S fuel) (NFencedCode (code_of code)) key =
    Some (code_of code).
Proof.
  intros Hpre Hopening Hcode Hclosing before st'. unfold st'.
  rewrite (segments_fence _ _ _ _ _ _ _ Hpre Hopening Hcode Hclosing).
  rewrite foldl_app, foldl_fmap. cbn [segments foldl].
  destruct (parse_fence_closed configuration before opening code closing)
    as (? & ? & ? & ?).
  destruct (renderDocNode_fenced fuel (code_of code) key) as [? ?].
  by split_and!.
Qed.

End correctness.

(** ** Examples *)

Section examples.
#[local] Existing Instance NodeParser.plain_text.
#[local] Existing Instance DocNodeTransforms.trim_spaces.

(** Four lines: a line of text, a fence of three backticks with a
    language, a line of code, and the line that closes the fence. *)
Definition sample : string := TokenizerTest.join_lines ["a"; "```ts"; "x = 1"; "```"].

Definition sample_text : TextRange.t := TextRange.Build sample 0 1.
Definition sample_opening : TextRange.t := TextRange.Build sample 2 7.
Definition sample_code : TextRange.t := TextRange.Build sample 8 13.
Definition sample_closing : TextRange.t := TextRange.Build sample 14 17.

Example sample_segments :
  segments None [sample_text; sample_opening; sample_code; sample_closing] =
    [SLine sample_text; SFence sample_opening [sample_code] (Some sample_closing)] /\
  segments None [sample_text; sample_opening; sample_code] =
    [SLine sample_text; SFence sample_opening [sample_code] None] /\
  content_of
    (foldl (parse_segment (TSDocConfiguration.new false))
       (init (TSDocConfiguration.new false))
       (segments None [sample_text; sample_opening; sample_code; sample_closing])) =
    [NParagraph [NPlainText "a"];
     NFencedCode (TokenizerTest.join_lines ["x = 1"; ""])].
Proof. by vm_compute. Qed.

Lemma fenced_code_shown_witness :
  let st := init (TSDocConfiguration.new false) in
  let before := foldl (parse_line (TSDocConfiguration.new false)) st [sample_text] in
  let st' :=
    foldl (parse_segment (TSDocConfiguration.new false)) st
      (segments None ([sample_text] ++ sample_opening :: [sample_code] ++
                      [sample_closing])) in
  content_of st' = content_of before ++ [NFencedCode (code_of [sample_code])] /\
  docComment st' = docComment before /\ target st' = target before /\
  log st' = log before /\
  _renderDocNode 1 (NFencedCode (code_of [sample_code])) "key_1" =
    Some (RElement "pre" (Some "key_1") [("className", "doc-fenced-code")]
            [RElement "code" (Some "key_1") [] [RText (code_of [sample_code])]]) /\
  React.text_content <$>
    _renderDocNode 1 (NFencedCode (code_of [sample_code])) "key_1" =
    Some (code_of [sample_code]).
Proof.
  apply (fenced_code_shown (TSDocConfiguration.new false)
           (init (TSDocConfiguration.new false)) [sample_text] sample_opening 3
           (drop 3 (Tokenizer.tokenize sample_opening)) [sample_code] sample_closing
           0 "key_1").
  - by repeat constructor.
  - reflexivity.
  - apply (bool_decide_unpack _). by vm_compute.
  - apply (bool_decide_unpack _). by vm_compute.
Defined.

End examples.

End FencedCode.
