(* ===== verification/Log.v ===== *)
(** * The log of a parse: where the diagnostics point

    The specification asks of every diagnostic that it carries the range
    of the source it is about. The diagnostics of a parse come from four
    places: the grammar of the blocks ([NodeParser]: a malformed
    [@param], a second singleton block, a tag without a definition), the
    grammar of the text of a line (an instance of [InlineGrammar]), the
    code fences ([FencedCode]: a fence that is not closed) and the parser
    itself (a buffer without a comment, in [Parser]). Each of them makes
    the range of a diagnostic from the ranges of tokens or of lines, and
    none of them goes through the validating constructor of [TextRange].

    [Module ParserLog] shows that these ranges are valid all the same.
    [inside b from to r] says that [r] is a valid range of the buffer [b]
    between the offsets [from] and [to]. What the node parser needs of
    the grammar of the text of a line is the class [RangedGrammar]: the
    diagnostics of a chain of adjacent tokens are inside what the chain
    covers. The grammar without markup and the grammar of [Markup] are
    instances. For every such grammar, the log of a comment whose lines
    are lines of a range, in order, holds diagnostics inside the range
    and between its delimiters ([parse_comment_log_inside]): an invariant
    of the steps of [NodeParser] and of [FencedCode]. *)

From Stdlib Require Import ZArith String Ascii Lia.
From stdpp Require Import base tactics option list strings.
From S2P Require Import Prelude JsString Range Tokenizer LineExtractor.
From S2P Require Import Configuration HtmlView Comment ParserContext NodeParser.
From S2P Require Import Markup Fence.

#[local] Open Scope Z_scope.

Module ParserLog.
Import NodeParser FencedCode.

(** ** Specification *)

(** A valid range of the buffer [b] between [from] and [to]. *)
Definition inside (b : string) (from to : Z) (r : TextRange.t) : Prop :=
  TextRange.wf r /\ TextRange.buffer r = b /\
  from <= TextRange.pos r /\ TextRange.end_ r <= to.

#[export] Instance inside_dec b from to r : Decision (inside b from to r).
Proof. unfold inside. apply _. Defined.

(** The tokens are a chain of adjacent ranges of [b] between [lo] and
    [hi]: a line of the comment, or the rest of one. *)
Definition chain_within (b : string) (lo hi : Z)
    (tokens : list Tokenizer.Token) : Prop :=
  exists from to, lo <= from /\ to <= hi /\
    TextRange.adjacent b from (Tokenizer.range <$> tokens) to.

(** What the log of a parse needs of the grammar of the text of a line:
    its diagnostics are inside what the tokens cover. *)
Class RangedGrammar (G : InlineGrammar) : Prop :=
  parseLine_inside b from to tokens m :
    0 <= from -> to <= Js.length b ->
    TextRange.adjacent b from (Tokenizer.range <$> tokens) to ->
    m ∈ (@parseLine G tokens).2 -> inside b from to (sourceRange m).

(** The diagnostics of a state are inside [b] between [lo] and [hi]. *)
Definition log_inside (b : string) (lo hi : Z) (st : State) : Prop :=
  Forall (fun m => inside b lo hi (sourceRange m)) (log st).

(** The same for the comment of a range: between its delimiters. *)
Definition comment_inside (range : TextRange.t) (st : State) : Prop :=
  log_inside (TextRange.buffer range) (TextRange.pos range + 3)
    (TextRange.end_ range - 2) st.

(** The lines of a segment are lines of the comment, in order. *)
Definition segment_ok (range : TextRange.t) (segment : Segment) : Prop :=
  Forall (LineExtractor.line_of_comment range) (segment_lines segment) /\
  exists from, LineExtractor.ordered from (segment_lines segment).

(** ** The grammars *)

#[export] Instance plain_text_ranged : RangedGrammar plain_text.
Proof. by intros b from to tokens m _ _ _ ?%elem_of_nil. Qed.

#[export] Instance markup_ranged : RangedGrammar Markup.markup.
Proof.
  intros b from to tokens m Hfrom Hto Hadj Hm.
  destruct (Markup.markup_diagnostic b from to tokens Hfrom Hto Hadj m Hm)
    as (_ & ? & ? & ? & Hend & _).
  split_and!; (done || lia).
Qed.

(** ** Ranges *)

Section ranges.
Implicit Types (b : string) (from to lo hi : Z) (r : TextRange.t).
Implicit Types (tokens rest pre : list Tokenizer.Token).

Lemma inside_weaken b from to lo hi r :
  lo <= from -> to <= hi -> inside b from to r -> inside b lo hi r.
Proof. intros ? ? (? & ? & ? & ?). split_and!; (done || lia). Qed.

Lemma inside_Build b from to lo hi :
  0 <= lo -> hi <= Js.length b -> lo <= from -> from <= to -> to <= hi ->
  inside b lo hi (TextRange.Build b from to).
Proof. intros. unfold inside, TextRange.wf. cbn. split_and!; (done || lia). Qed.

Lemma chain_within_suffix b from to pre tokens :
  chain_within b from to (pre ++ tokens) -> chain_within b from to tokens.
Proof.
  intros (from' & to' & ? & ? & Hadj). rewrite fmap_app in Hadj.
  apply TextRange.adjacent_app in Hadj as (mid & Hpre & Hadj).
  pose proof (TextRange.adjacent_le _ _ _ _ Hpre).
  exists mid, to'. split_and!; (done || lia).
Qed.

Lemma chain_within_skip_spacing b from to tokens :
  chain_within b from to tokens -> chain_within b from to (skip_spacing tokens).
Proof.
  intros Hchain. destruct (skip_spacing_suffix tokens) as [pre Hpre].
  rewrite Hpre in Hchain. by eapply chain_within_suffix.
Qed.

(** The content of a [@param] line is the end of the line. *)
Lemma chain_within_param_name b from to rest name content :
  param_name rest = Some (name, content) ->
  chain_within b from to rest -> chain_within b from to content.
Proof.
  unfold param_name. intros Hp Hchain%chain_within_skip_spacing.
  destruct (skip_spacing rest) as [|word rest']; [done|].
  case_decide; [|done]. injection Hp as _ <-.
  apply (chain_within_suffix _ _ _ [word]), chain_within_skip_spacing in Hchain.
  destruct (skip_spacing rest') as [|hyphen rest'']; [done|].
  case_decide; [|done].
  by apply (chain_within_suffix _ _ _ [hyphen]), chain_within_skip_spacing in Hchain.
Qed.

(** The ranges that the grammar of the blocks makes of the tag of a
    line: the tag, and the tag with the rest of the line. *)
Lemma block_tag_ranges b from to tokens at_sign word rest :
  0 <= from -> to <= Js.length b ->
  block_tag tokens = Some (at_sign, word, rest) ->
  chain_within b from to tokens ->
  inside b from to (span at_sign [word]) /\
  inside b from to (span at_sign (word :: rest)) /\
  chain_within b from to rest.
Proof.
  intros Hfrom Hto (_ & pre & ->)%block_tag_Some Hchain.
  apply chain_within_suffix in Hchain as (from' & to' & ? & ? & Hadj).
  rewrite (Markup.span_adjacent _ _ _ _ _ Hadj).
  change (at_sign :: word :: rest) with ([at_sign; word] ++ rest) in Hadj.
  rewrite fmap_app in Hadj.
  apply TextRange.adjacent_app in Hadj as (mid & Htag & Hrest).
  rewrite (Markup.span_adjacent _ _ _ _ _ Htag).
  pose proof (TextRange.adjacent_le _ _ _ _ Htag).
  pose proof (TextRange.adjacent_le _ _ _ _ Hrest).
  split_and!; [apply inside_Build; lia..|].
  exists mid, to'. split_and!; (done || lia).
Qed.

Lemma ordered_app_l from (lines lines' : list TextRange.t) :
  LineExtractor.ordered from (lines ++ lines') -> LineExtractor.ordered from lines.
Proof.
  revert from. induction lines as [|line lines IH]; intros from; [done|].
  intros [? Hord]. split; [done|]. by apply IH.
Qed.

(** The segments of lines of a comment, in order. *)
Lemma segments_ok range from (segs : list Segment) :
  Forall (LineExtractor.line_of_comment range) (segs ≫= segment_lines) ->
  LineExtractor.ordered from (segs ≫= segment_lines) ->
  Forall (segment_ok range) segs.
Proof.
  revert from. induction segs as [|segment segs IH]; intros from; [done|].
  rewrite bind_cons. intros [Hlines Hrest]%Forall_app Hord.
  pose proof (ordered_app_l _ _ _ Hord) as Hsegment.
  apply ordered_app in Hord as [from' Hord].
  constructor; [by split; [|exists from]|by eapply IH].
Qed.

End ranges.

(** ** The steps of the parser *)

Section steps.
Context `{RangedGrammar} (configuration : TSDocConfiguration.t).
Implicit Types (b : string) (lo hi : Z) (st : State) (range : TextRange.t).
Implicit Types (tokens rest : list Tokenizer.Token).
Implicit Types (messages : list ParserMessage).

Lemma chain_within_messages b lo hi tokens :
  0 <= lo -> hi <= Js.length b -> chain_within b lo hi tokens ->
  Forall (fun m => inside b lo hi (sourceRange m)) (parseLine tokens).2.
Proof.
  intros Hlo Hhi (from & to & ? & ? & Hadj). apply Forall_forall. intros m Hm.
  apply (inside_weaken b from to); [done..|].
  apply (parseLine_inside b from to tokens m); (done || lia).
Qed.

Lemma append_line_log_inside b lo hi nodes messages st :
  Forall (fun m => inside b lo hi (sourceRange m)) messages ->
  log_inside b lo hi st -> log_inside b lo hi (append_line nodes messages st).
Proof. intros ? ?. by apply Forall_app. Qed.

Lemma open_section_log_inside b lo hi t messages st :
  Forall (fun m => inside b lo hi (sourceRange m)) messages ->
  log_inside b lo hi st ->
  log_inside b lo hi (open_section t messages (commit st)).
Proof.
  intros ? ?. unfold log_inside. cbn [log open_section]. rewrite commit_log.
  by apply Forall_app.
Qed.

Lemma content_line_log_inside b lo hi tokens st :
  0 <= lo -> hi <= Js.length b -> chain_within b lo hi tokens ->
  log_inside b lo hi st -> log_inside b lo hi (content_line tokens st).
Proof.
  intros Hlo Hhi Hchain Hst. unfold content_line. destruct (is_blank tokens).
  - unfold log_inside, close_paragraph. by destruct (paragraph st).
  - by apply append_line_log_inside; [apply chain_within_messages|].
Qed.

Lemma block_target_log_inside b lo hi tag range (c : DocHtmlView.DocComment) :
  inside b lo hi range ->
  Forall (fun m => inside b lo hi (sourceRange m)) (block_target tag range c).2.
Proof.
  intros Hrange. unfold block_target.
  repeat case_decide;
    destruct (DocHtmlView.returnsBlock c), (DocHtmlView.remarksBlock c);
    cbn [snd]; solve [by apply Forall_nil|by apply Forall_singleton].
Qed.

(** A line keeps the diagnostics inside, when its tokens are a part of
    what is inside. *)
Lemma parse_tokens_log_inside b lo hi st tokens :
  0 <= lo -> hi <= Js.length b -> chain_within b lo hi tokens ->
  log_inside b lo hi st ->
  log_inside b lo hi (parse_tokens configuration st tokens).
Proof.
  intros Hlo Hhi Hchain Hst. unfold parse_tokens, classify.
  destruct (block_tag tokens) as [[[at_sign word] rest]|] eqn:Hbt;
    [|by apply content_line_log_inside].
  destruct (block_tag_ranges _ _ _ _ _ _ _ Hlo Hhi Hbt Hchain)
    as (Htag & Hall & Hrest).
  assert (log_inside b lo hi
            (append_line
               (DocHtmlView.NOther "BlockTag" :: (parseLine rest).1)
               ((if TSDocConfiguration.strict configuration
                 then [{| severity := SeverityWarning;
                          messageText :=
                            "The tag " +:+
                            DocHtmlView.tagName
                              (DocBlockTag.new ("@" +:+ token_text word)) +:+
                            " is not defined";
                          sourceRange := span at_sign [word] |}]
                 else []) ++ (parseLine rest).2) st)) as Hunknown.
  { apply append_line_log_inside; [|done].
    apply Forall_app. split; [|by apply chain_within_messages].
    destruct (TSDocConfiguration.strict configuration);
      [by apply Forall_singleton|by apply Forall_nil]. }
  destruct (TSDocConfiguration.tryGetTagDefinition _ _) as [definition|];
    [|done].
  destruct (TSDocTagDefinition.syntaxKind definition); [done| |].
  - case_decide.
    + destruct (param_name rest) as [[name content]|] eqn:Hp.
      * apply content_line_log_inside; try done;
          [by eapply chain_within_param_name|by apply open_section_log_inside].
      * apply append_line_log_inside; [by apply Forall_singleton|done].
    + apply content_line_log_inside; try done.
      apply open_section_log_inside; [|done]. by apply block_target_log_inside.
  - destruct (is_blank rest); [done|]. by apply content_line_log_inside.
Qed.

Lemma parse_line_log_inside range st line :
  TextRange.wf range -> LineExtractor.line_of_comment range line ->
  comment_inside range st ->
  comment_inside range (parse_line configuration st line).
Proof.
  intros (? & ? & ?) (Hwf & Hb & ? & ? & _) Hst.
  apply parse_tokens_log_inside; [lia..| |done].
  exists (TextRange.pos line), (TextRange.end_ line). rewrite <- Hb.
  split_and!; [done|lia|by apply Tokenizer.tokenize_adjacent].
Qed.

(** A segment keeps the diagnostics inside: a fence that is closed logs
    nothing, and a fence that is open is reported from its opening to
    the end of its last line. *)
Lemma parse_segment_log_inside range st segment :
  TextRange.wf range -> segment_ok range segment ->
  comment_inside range st ->
  comment_inside range (parse_segment configuration st segment).
Proof.
  intros Hwf [Hlines [from Hord]] Hst.
  destruct segment as [line|opening code [closing|]].
  - apply parse_line_log_inside; [done| |done].
    by apply (Forall_singleton (LineExtractor.line_of_comment range) line).
  - unfold comment_inside, log_inside.
    by destruct (parse_fence_closed configuration st opening code closing)
      as (_ & _ & _ & ->).
  - cbn [segment_lines option_list] in Hlines, Hord. rewrite app_nil_r in Hlines, Hord.
    destruct (open_range_valid range from opening code Hlines Hord)
      as (? & ? & ? & ?).
    unfold comment_inside, log_inside.
    destruct (parse_fence_open configuration st opening code) as (-> & _).
    apply Forall_app. split; [done|]. apply Forall_singleton.
    cbn [sourceRange]. split_and!; (done || lia).
Qed.

Lemma foldl_parse_segment_log_inside range st (segs : list Segment) :
  TextRange.wf range -> Forall (segment_ok range) segs ->
  comment_inside range st ->
  comment_inside range (foldl (parse_segment configuration) st segs).
Proof.
  intros Hwf Hsegs. revert st.
  induction Hsegs as [|segment segs Hsegment _ IH]; intros st Hst; [done|].
  by apply IH, parse_segment_log_inside.
Qed.

(** The diagnostics of a comment are about valid ranges of its buffer,
    between its delimiters. *)
Lemma parse_comment_log_inside range from lines :
  TextRange.wf range ->
  Forall (LineExtractor.line_of_comment range) lines ->
  LineExtractor.ordered from lines ->
  comment_inside range (parse_comment configuration lines).
Proof.
  intros Hwf Hlines Hord. unfold parse_comment, comment_inside, log_inside.
  rewrite commit_log. apply foldl_parse_segment_log_inside; [done| |by constructor].
  apply (segments_ok range from); by rewrite (segments_lines None lines).
Qed.

End steps.

End ParserLog.
