(* ===== verification/Parser.v ===== *)
(** * The parser: from a buffer to a comment, its log and its view

    [Module TSDocParser] composes the components of a parse as the
    specification orders them: the range of the buffer ([TextRange]), the
    lines of the comment ([LineExtractor]), their tokens ([Tokenizer]),
    the code fences ([Fence]) and the blocks ([NodeParser]) under a
    configuration ([TSDocConfiguration]) and a grammar of the text of a
    line, into the context of the parse ([ParserContext]). A buffer that
    holds no comment gives a context without lines, an empty comment and
    one diagnostic. [Module TokenizerRun] is the test of the tokenizer of
    the sources on this parser: [matchSnapshot] from the buffer, and the
    tests [00] to [05].

    The theorems are about the composition. The parser returns a context
    for every buffer ([parseString_Ok]): the ranges of its lines are made
    by the validating constructor, which does not throw on them
    ([LineExtractor]), and the ranges of tokens and diagnostics are made
    without it. The view of the sources renders every
    parsed comment, with fuel for two levels, to valid HTML, under the
    headings that the tags at the start of the lines outside the code
    fences call for ([headings_of] of [FencedCode.text_lines]). The
    parameter collection of a parsed comment has a block for every
    [@param] line outside the fences in the order of the lines, and a
    lookup by name returns the first of them. A second [@returns] leaves
    the first block in place, and the log holds a diagnostic whose range
    is a valid range of the buffer with the text of the second tag. A
    fence that is open at the end of the comment is the last diagnostic
    of the log, about the range from the opening fence to the end of the
    last line, within the delimiters of the comment. Every diagnostic of
    a parse, whichever stage reports it, is about a valid range of the
    buffer that was parsed, for every grammar of the text of a line whose
    diagnostics lie within the tokens it is given ([Log]). The test helper
    makes an item of every token and ends with the end of input. The
    scenario of the specification is computed, with the plain grammar
    and, in [Section markup_examples], with the grammar of [Markup]:
    code spans, a link, an inline tag, a fence that is closed and one
    that is not. *)

From Stdlib Require Import ZArith String Ascii Lia.
From stdpp Require Import base tactics option list strings.
From S2P Require Import Prelude JsString Range Tokenizer LineExtractor Configuration.
From S2P Require Import ParamCollection React HtmlView Comment Transforms.
From S2P Require Import HtmlTotal HtmlTyping ParserContext NodeParser Markup.
From S2P Require Import Fence Log.

#[local] Open Scope Z_scope.

Module TSDocParser.
Import DocHtmlView.

Section parser.
Context `{InlineGrammar}.

(** The context of a parse, from what the extractor returns: the
    comment and the log of the lines, or an empty comment and one
    diagnostic when the range holds no comment. *)
Definition context_of (configuration : TSDocConfiguration.t)
    (range : TextRange.t) (o : option (list TextRange.t)) : ParserContext.t :=
  match o with
  | Some lines =>
      let st := FencedCode.parse_comment configuration lines in
      ParserContext.Build range lines (Tokenizer.readTokens lines)
        (NodeParser.docComment st) (NodeParser.log st)
  | None =>
      ParserContext.Build range [] (Tokenizer.readTokens [])
        (DocComment.new configuration)
        [{| severity := SeverityError;
            messageText := "Expecting a /** comment";
            sourceRange := range |}]
  end.

(** The parse of the range of a comment. *)
Definition parseRange (configuration : TSDocConfiguration.t)
    (range : TextRange.t) : result string ParserContext.t :=
  (o <- LineExtractor.extract range ;; Ok (context_of configuration range o))%result.

(** The parse of a buffer that holds a comment. *)
Definition parseString (configuration : TSDocConfiguration.t)
    (text : string) : result string ParserContext.t :=
  (range <- TextRange.fromString text ;; parseRange configuration range)%result.

End parser.

(** The range of a buffer. *)
Definition full_range (text : string) : TextRange.t :=
  TextRange.Build text 0 (Js.length text).

(** What the view is given: the comment of a context. *)
Definition props_of (style : option string) (parserContext : ParserContext.t) :
    IDocHtmlViewProps :=
  {| style := style; docComment := ParserContext.docComment parserContext |}.

(** The headings of the view of a comment, from the lines of the
    comment outside its fences alone: the summary is always there; the
    parameters when a line opens a parameter; the singletons and the see
    blocks when a line opens one; an example for every line that opens an
    example; the modifiers when a line holds one. *)
Definition headings_of (configuration : TSDocConfiguration.t)
    (lines : list TextRange.t) : list string :=
  let tags := NodeParser.block_tags configuration lines in
  ["Summary"] ++
  (if NodeParser.param_names configuration lines is [] then [] else ["Parameters"]) ++
  (if NodeParser.kept NodeParser.KReturns tags is [] then [] else ["Return Value"]) ++
  (if NodeParser.kept NodeParser.KRemarks tags is [] then [] else ["Remarks"]) ++
  example_titles
    (length (filter (fun tag => tagNameWithUpperCase tag = example_tagNameWithUpperCase)
               (NodeParser.kept NodeParser.KCustom tags))) ++
  (if NodeParser.kept NodeParser.KSee tags is [] then [] else ["See Also"]) ++
  (if NodeParser.modifier_tags configuration lines is [] then [] else ["Modifiers"]).

End TSDocParser.

(** ** The test of the tokenizer, on the parser *)

Module TokenizerRun.
Import TokenizerTest.

Section run.
Context `{TestHelpers}.
#[local] Existing Instance NodeParser.plain_text.

(** [matchSnapshot(buffer)]: the snapshot of the context that
    [new TSDocParser().parseString(buffer)] returns. *)
Definition matchSnapshot (buffer : string) : result string Snapshot :=
  (parserContext <- TSDocParser.parseString (TSDocConfiguration.new false) buffer ;;
   Ok (TokenizerTest.matchSnapshot buffer (ParserContext.test_view parserContext)))%result.

(** The tests [00] to [05]. *)
Definition test_00 : result string Snapshot := matchSnapshot buffer_00.

Definition test_01 : list (result string Snapshot) := matchSnapshot <$> buffers_01.

Definition test_02 : result string Snapshot := matchSnapshot buffer_02.

Definition test_03 : result string Snapshot := matchSnapshot buffer_03.

Definition test_04 : result string Snapshot := matchSnapshot buffer_04.

Definition test_05 : result string Snapshot := matchSnapshot buffer_05.

End run.

End TokenizerRun.

(** ** The view of a parsed comment *)

Section view.
Import DocHtmlView DocHtmlViewTyping NodeParser.
#[local] Existing Instance DocNodeTransforms.trim_spaces.
Implicit Types (node : DocNode) (nodes : list DocNode) (c : DocComment).

Lemma section_ok_depth nodes : section_ok nodes -> (nodes_depth nodes <= 2)%nat.
Proof.
  unfold nodes_depth, section_ok.
  induction nodes as [|node nodes IH]; cbn; [lia|].
  intros [Hn Hns]%andb_prop. specialize (IH Hns).
  destruct node; try done; [cbn [depth]; lia|].
  cbn in Hn. apply inline_nodes_depth in Hn.
  unfold nodes_depth in Hn. cbn [depth]. lia.
Qed.

Lemma section_ok_placed nodes : section_ok nodes -> forallb placed nodes = true.
Proof.
  unfold section_ok. induction nodes as [|node nodes IH]; [done|].
  cbn [forallb]. intros [Hn Hns]%andb_prop. rewrite IH, andb_true_r by done.
  rewrite placed_trim_spaces. by destruct node.
Qed.

(** The containers that the view renders are sections of the
    comment. *)
Lemma comment_ok_containers c (section : list DocNode) :
  comment_ok c -> section ∈ containers c -> section_ok section.
Proof.
  intros (Hs & Hp & Hr & Hm & Hc & He). rewrite containers_elem_of.
  intros [?|[(b & Hb & ->)|[(b & ? & ->)|[(b & ? & ->)|[(b & Hb & ->)|(b & Hb & ->)]]]]];
    auto.
  - by apply (proj1 (Forall_forall _ _) Hp).
  - apply (proj1 (Forall_forall _ _) Hc). unfold exampleBlocks in Hb.
    by apply list_elem_of_filter in Hb as [_ ?].
  - by apply (proj1 (Forall_forall _ _) He).
Qed.

Lemma comment_ok_depth c : comment_ok c -> (comment_depth c <= 2)%nat.
Proof.
  intros Hc. unfold comment_depth. apply max_list_le, Forall_fmap, Forall_forall.
  intros section Hin. by eapply section_ok_depth, comment_ok_containers.
Qed.

Lemma comment_ok_placed c : comment_ok c -> comment_placed c = true.
Proof.
  intros Hc. unfold comment_placed. apply forallb_forall.
  intros section Hin%list_elem_of_In.
  by eapply section_ok_placed, comment_ok_containers.
Qed.

End view.

(** ** The parse in closed form *)

Section closed_form.
Import TSDocParser.
Context `{InlineGrammar} (configuration : TSDocConfiguration.t).
Implicit Types (text : string) (range : TextRange.t).

Lemma parseString_extract text :
  parseString configuration text =
  res_map (context_of configuration (full_range text))
    (LineExtractor.extract (full_range text)).
Proof.
  unfold parseString, parseRange. rewrite TextRange.fromString_Ok. cbn [res_bind].
  by destruct (LineExtractor.extract _).
Qed.

(** The parser does not throw: the context of a buffer is the context
    of the lines that the extractor finds in it. *)
Lemma parseString_Ok text :
  exists o,
    LineExtractor.extract (full_range text) = Ok o /\
    parseString configuration text = Ok (context_of configuration (full_range text) o).
Proof.
  destruct (LineExtractor.extract_lines_valid_wf (full_range text))
    as (o & Ho & _); [apply TextRange.full_wf|].
  exists o. split; [done|]. by rewrite parseString_extract, Ho.
Qed.

Lemma parseString_never_throws_lines text :
  exists parserContext,
    parseString configuration text = Ok parserContext /\
    Forall (LineExtractor.line_of_comment (full_range text))
      (ParserContext.lines parserContext) /\
    ParserContext.tokens parserContext =
      Tokenizer.readTokens (ParserContext.lines parserContext).
Proof.
  destruct (LineExtractor.extract_lines_valid_wf (full_range text))
    as (o & Ho & Hlines); [apply TextRange.full_wf|].
  rewrite parseString_extract, Ho. eexists. split; [done|].
  destruct o as [lines|]; [|by split]. split; [|done]. by apply Hlines.
Qed.

(** The comment of a context holds paragraphs of inline nodes. *)
Lemma context_comment_ok range o :
  NodeParser.comment_ok
    (ParserContext.docComment (context_of configuration range o)).
Proof.
  destruct o as [lines|]; cbn.
  - apply FencedCode.parse_comment_state_ok.
  - apply NodeParser.init_state_ok.
Qed.

(** The outline of the comment of the lines, from the lines. *)
Lemma outline_parse_lines lines :
  snd <$> DocHtmlView.outline
            (NodeParser.docComment (NodeParser.parse_lines configuration lines)) =
  TSDocParser.headings_of configuration lines.
Proof.
  unfold DocHtmlView.outline, TSDocParser.headings_of.
  rewrite <- !NodeParser.parse_lines_blocks, <- NodeParser.parse_lines_param_names.
  pose proof (NodeParser.parse_lines_modifierTagSet configuration lines) as Hset.
  destruct (NodeParser.parse_lines_summary_Some configuration lines) as [s Hs].
  revert Hset Hs.
  generalize (NodeParser.docComment (NodeParser.parse_lines configuration lines)).
  intros c Hset ->. rewrite !fmap_app. repeat apply (f_equal2 app); cbn.
  - done.
  - unfold DocParamCollection.count, DocParamCollection.blocks.
    by destruct (DocParamCollection._blocks (DocHtmlView.params c)).
  - by destruct (DocHtmlView.returnsBlock c).
  - by destruct (DocHtmlView.remarksBlock c).
  - by rewrite <- DocHtmlView.exampleBlocks_length, <- list_fmap_compose, list_fmap_id.
  - by destruct (DocHtmlView.seeBlocks c).
  - destruct (NodeParser.modifier_tags configuration lines) as [|tag tags];
      [by rewrite Hset|].
    destruct (DocHtmlView.modifierTagSet c); [|done].
    symmetry in Hset.
    by apply (proj1 (ModifierTagSet.foldl_addTag_nil (tag :: tags))) in Hset.
Qed.

(** The outline of a comment with fences, from its lines outside
    fences. *)
Lemma outline_parse_comment lines :
  snd <$> DocHtmlView.outline
            (NodeParser.docComment (FencedCode.parse_comment configuration lines)) =
  TSDocParser.headings_of configuration (FencedCode.text_lines lines).
Proof. rewrite FencedCode.parse_comment_outline. apply outline_parse_lines. Qed.

End closed_form.

(** ** Correctness *)

Section correctness.
Import DocHtmlView TSDocParser.
Context `{InlineGrammar} (configuration : TSDocConfiguration.t).
#[local] Existing Instance DocNodeTransforms.trim_spaces.
Implicit Types (text name : string) (parserContext : ParserContext.t).
Implicit Types (line : TextRange.t) (lines : list TextRange.t).

(** The view of a parsed comment returns with fuel for two levels, a
    paragraph and its nodes. *)
Lemma parsed_render text parserContext style fuel :
  parseString configuration text = Ok parserContext -> (2 <= fuel)%nat ->
  NodeParser.comment_ok (ParserContext.docComment parserContext) /\
  render fuel (props_of style parserContext) =
    Some (DocHtmlViewTotal.render_total (props_of style parserContext)).
Proof.
  destruct (parseString_Ok configuration text) as (o & _ & ->).
  intros [= <-] Hfuel. pose proof (context_comment_ok configuration
    (full_range text) o) as Hok.
  split; [done|]. apply DocHtmlViewTotal.render_equiv. cbn.
  apply comment_ok_depth in Hok. lia.
Qed.

(** C17: the view renders every parsed comment to valid HTML: with fuel
    for two levels, a paragraph and its nodes, [render] returns a tree,
    and the tree is flow content in which every element holds what the
    content model of HTML allows. *)
Theorem parsed_view_valid text parserContext style fuel :
  parseString configuration text = Ok parserContext -> (2 <= fuel)%nat ->
  exists r, render fuel (props_of style parserContext) = Some r /\
    Html.valid Html.Flow r = true.
Proof.
  intros Hparse Hfuel.
  destruct (parsed_render _ _ style _ Hparse Hfuel) as [Hok Hr].
  eexists. split; [exact Hr|].
  rewrite DocHtmlViewTyping.valid_render_total. by apply comment_ok_placed.
Qed.

(** C24: the headings of the view of a parsed comment are those that
    the lines of the comment outside its fences call for: Summary, for
    every comment;
    Parameters, when a line opens a parameter; Return Value and Remarks,
    when a line opens such a block; an example for every line that opens
    one, numbered when there are more than one; See Also, when a line
    opens a see block; Modifiers, when a line holds a modifier tag. *)
Theorem parsed_headings text parserContext style fuel :
  parseString configuration text = Ok parserContext -> (2 <= fuel)%nat ->
  exists r, render fuel (props_of style parserContext) = Some r /\
    React.headings r =
      headings_of configuration
        (FencedCode.text_lines (ParserContext.lines parserContext)).
Proof.
  intros Hparse Hfuel.
  destruct (parsed_render _ _ style _ Hparse Hfuel) as [_ Hr].
  eexists. split; [exact Hr|].
  rewrite (render_outline_headings _ _ _ Hr).
  destruct (parseString_Ok configuration text) as (o & _ & Hparse').
  rewrite Hparse in Hparse'. injection Hparse' as ->.
  destruct o as [lines|]; [apply outline_parse_comment|].
  exact (outline_parse_lines configuration []).
Qed.

(** C23: the parameter collection of a parsed comment holds a block for
    every [@param] line of the comment outside its fences, in the order of
    the lines, and a lookup by name returns the first block of the
    name. *)
Theorem parsed_params_first_wins text parserContext name :
  parseString configuration text = Ok parserContext ->
  let collection := params (ParserContext.docComment parserContext) in
  parameterName <$> DocParamCollection.blocks collection =
    NodeParser.param_names configuration
      (FencedCode.text_lines (ParserContext.lines parserContext)) /\
  DocParamCollection.tryGetBlockByName name collection =
    DocParamCollection.first_by_name name (DocParamCollection.blocks collection).
Proof.
  destruct (parseString_Ok configuration text) as (o & _ & ->).
  intros [= <-]. destruct o as [lines|]; cbn.
  - split; [apply FencedCode.parse_comment_param_names|].
    apply DocParamCollection.lookup_wf, DocParamCollection.wf_reachable,
      FencedCode.parse_comment_state_ok.
  - done.
Qed.

(** C34: a second [@returns] does not replace the first: when a valid
    line opens a [@returns] block and the lines before it gave the comment
    a returns block, the comment of all the lines has that block, and the
    log holds an error whose range is a valid range of the buffer of the
    line and has the text of the tag of the second block. *)
Theorem second_returns_reported lines line lines' tag range rest b :
  TextRange.wf line ->
  returnsBlock (NodeParser.docComment (NodeParser.parse_lines configuration lines)) =
    Some b ->
  NodeParser.classify configuration (Tokenizer.tokenize line) =
    NodeParser.LBlock tag range rest ->
  tagNameWithUpperCase tag = "@RETURNS" ->
  let st := NodeParser.parse_lines configuration (lines ++ line :: lines') in
  returnsBlock (NodeParser.docComment st) = Some b /\
  exists message,
    message ∈ NodeParser.log st /\ severity message = SeverityError /\
    TextRange.wf (sourceRange message) /\
    TextRange.buffer (sourceRange message) = TextRange.buffer line /\
    TextRange.toString (sourceRange message) = tagName tag.
Proof.
  intros Hwf Hb Hc Htag.
  destruct (NodeParser.returns_first_kept configuration lines line lines'
              tag range rest b Hb Hc Htag) as [Hkept Hlog].
  split; [done|]. exists (NodeParser.duplicate_message tag range).
  destruct (NodeParser.tag_range_text configuration line tag range rest Hwf Hc)
    as (? & ? & ?).
  by split_and!.
Qed.

(** The tokens of a parsed comment give the text of the comment
    back: the texts of the tokens of each line of the context,
    concatenated, are the rows of the text of the buffer between [/**] and
    [*/] without their decoration, in order; and the context has no lines
    exactly when the buffer holds no comment. *)
Theorem parsed_tokens_round_trip text parserContext :
  parseString configuration text = Ok parserContext ->
  match LineExtractor.line_texts (chars text) with
  | Some rows =>
      (fun line => chars (Js.join (TextRange.toString ∘ Tokenizer.range <$>
                                     Tokenizer.tokenize line))) <$>
        ParserContext.lines parserContext = rows
  | None => ParserContext.lines parserContext = []
  end.
Proof.
  destruct (parseString_Ok configuration text) as (o & Ho & ->). intros [= <-].
  destruct (LineExtractor.extract_lines_valid_wf (full_range text))
    as (o' & Ho' & Hlines); [apply TextRange.full_wf|].
  rewrite Ho in Ho'. injection Ho' as <-.
  pose proof (LineExtractor.extract_texts_wf (full_range text)
                (TextRange.full_wf text)) as Htexts.
  rewrite Ho in Htexts. injection Htexts as Htexts.
  replace (TextRange.toString (full_range text)) with text in Htexts
    by (unfold TextRange.toString, full_range; cbn; by rewrite substring_full).
  rewrite <- Htexts. destruct o as [lines|]; [|done]. cbn.
  destruct (Hlines lines eq_refl) as [Hvalid _].
  apply list_fmap_ext. intros i line Hline. cbn. f_equal.
  apply Tokenizer.tokenize_join.
  by destruct (Forall_lookup_1 _ _ _ _ Hvalid Hline) as [? _].
Qed.

(** C33: a comment that ends within a fence is parsed to the end, and
    the fence is reported: when the last segment of the lines of a parsed
    comment is a fence that is not closed, the last diagnostic of the
    context is an error about the range from the start of the line that
    opens the fence to the end of the last line, which is a valid range of
    the buffer, between the delimiters of the comment. *)
Theorem unclosed_fence_reported text parserContext segs opening code :
  parseString configuration text = Ok parserContext ->
  FencedCode.segments None (ParserContext.lines parserContext) =
    segs ++ [FencedCode.SFence opening code None] ->
  exists message,
    last (ParserContext.log parserContext) = Some message /\
    severity message = SeverityError /\
    sourceRange message = FencedCode.open_range opening code /\
    TextRange.wf (sourceRange message) /\
    TextRange.buffer (sourceRange message) = text /\
    3 <= TextRange.pos (sourceRange message) /\
    TextRange.end_ (sourceRange message) + 2 <= Js.length text.
Proof.
  destruct (parseString_Ok configuration text) as (o & Ho & ->).
  intros [= <-] Hsegs. destruct o as [lines|]; [|by destruct segs].
  destruct (LineExtractor.extract_lines_valid_wf (full_range text))
    as (o' & Ho' & Hlines); [apply TextRange.full_wf|].
  rewrite Ho in Ho'. injection Ho' as <-.
  destruct (Hlines lines eq_refl) as [Hvalid Hord].
  destruct (FencedCode.parse_comment_open_fence configuration _ _ _ _ _ _
              Hvalid Hord Hsegs) as (Hlast & ? & ? & ? & ?).
  eexists. split; [exact Hlast|]. by split_and!.
Qed.

(** The set of the modifier tags of a parsed comment holds every
    modifier tag of the lines of the comment once, by its normalized
    name, in the order of the first occurrences. *)
Theorem parsed_modifiers lines :
  let set := modifierTagSet
               (NodeParser.docComment (NodeParser.parse_lines configuration lines)) in
  ModifierTagSet.names set =
    ModifierTagSet.first_occurrences
      (ModifierTagSet.names (NodeParser.modifier_tags configuration lines)) /\
  NoDup (ModifierTagSet.names set).
Proof.
  cbv zeta. rewrite NodeParser.parse_lines_modifierTagSet,
    ModifierTagSet.names_foldl_addTag.
  split; [done|apply ModifierTagSet.first_occurrences_NoDup].
Qed.

(** The summary of a parsed comment is the content of the lines before
    the first line that opens a section. *)
Theorem parsed_summary_kept lines line lines' :
  NodeParser.opens_section configuration line = true ->
  summarySection
    (NodeParser.docComment
       (NodeParser.parse_lines configuration (lines ++ line :: lines'))) =
  summarySection (NodeParser.docComment (NodeParser.parse_lines configuration lines)).
Proof. apply NodeParser.summary_before_first_section. Qed.

End correctness.

(** ** The log *)

Section log.
Import TSDocParser.
Context `{ParserLog.RangedGrammar} (configuration : TSDocConfiguration.t).

(** C18: every diagnostic of a parse is about a valid range of the buffer
    that was parsed, whichever stage reports it: the parser for a buffer
    without a comment, the grammar of the blocks, the grammar of the text
    of a line, or a code fence. When the comment has lines, the range
    lies between the delimiters of the comment. *)
Theorem parsed_log_valid text parserContext m :
  parseString configuration text = Ok parserContext ->
  m ∈ ParserContext.log parserContext ->
  TextRange.wf (sourceRange m) /\ TextRange.buffer (sourceRange m) = text /\
  (ParserContext.lines parserContext <> [] ->
   3 <= TextRange.pos (sourceRange m) /\
   TextRange.end_ (sourceRange m) + 2 <= Js.length text).
Proof.
  destruct (parseString_Ok configuration text) as (o & Ho & ->).
  intros [= <-] Hm. destruct o as [lines|]; cbn in Hm |- *.
  - destruct (LineExtractor.extract_lines _ (TextRange.full_wf text) _ Ho)
      as [Hvalid Hord].
    pose proof (ParserLog.parse_comment_log_inside configuration _ _ _
                  (TextRange.full_wf text) Hvalid Hord) as Hlog.
    destruct (proj1 (Forall_forall _ _) Hlog m Hm) as (? & ? & ? & ?).
    cbn in *. split_and!; [done|done|]. intros _. lia.
  - apply list_elem_of_singleton in Hm as ->.
    split_and!; [apply TextRange.full_wf|done|done].
Qed.

End log.

(** ** The test *)

Section test.
Import TokenizerTest.
Context `{TestHelpers}.
#[local] Existing Instance NodeParser.plain_text.

(** The test helper does not throw, whatever the buffer holds; its
    snapshot has one item for each token of the lines of the comment, in
    order, with the kind of the token; the last item is the only end of
    input; and the index of the line of every item is the index of the
    line of its token among the lines of the context. *)
Theorem matchSnapshot_parsed (buffer : string) :
  exists snapshot lines,
    TokenizerRun.matchSnapshot buffer = Ok snapshot /\
    Forall (LineExtractor.line_of_comment (TSDocParser.full_range buffer)) lines /\
    tokenKind <$> items snapshot = Tokenizer.kind <$> Tokenizer.readTokens lines /\
    last (tokenKind <$> items snapshot) = Some Tokenizer.EndOfInput /\
    (lines <> [] ->
     Forall2 (fun it t =>
                0 <= indexOfLine it /\
                lines !! Z.to_nat (indexOfLine it) = Some (Tokenizer.line t))
       (items snapshot) (Tokenizer.readTokens lines)).
Proof.
  unfold TokenizerRun.matchSnapshot.
  destruct (parseString_never_throws_lines (TSDocConfiguration.new false) buffer)
    as (parserContext & -> & Hlines & Htokens).
  cbn [res_bind]. eexists _, (ParserContext.lines parserContext).
  split; [done|]. split; [done|].
  replace (ParserContext.test_view parserContext)
    with {| lines := ParserContext.lines parserContext;
            tokens := Tokenizer.readTokens (ParserContext.lines parserContext) |}
    by (unfold ParserContext.test_view; by rewrite Htokens).
  destruct (matchSnapshot_items buffer (ParserContext.lines parserContext))
    as [Hkinds Hindex].
  split_and!; [done| |done]. rewrite Hkinds. unfold Tokenizer.readTokens.
  rewrite fmap_app. cbn [fmap list_fmap]. rewrite last_snoc.
  unfold Tokenizer.endOfInput. by destruct (last _).
Qed.

End test.

(** ** Examples *)

Section examples.
Import DocHtmlView TSDocParser TokenizerTest.
#[local] Existing Instance NodeParser.plain_text.
#[local] Existing Instance DocNodeTransforms.trim_spaces.

(** The text that the view shows for a section. *)
Definition shown_text (nodes : list DocNode) : option string :=
  React.text_content <$> _renderContainer 2 nodes.

(** The scenario of the specification: its lines and its context. *)
Definition scenario_lines : list TextRange.t :=
  [TextRange.Build LineExtractor.scenario 4 12;
   TextRange.Build LineExtractor.scenario 16 36;
   TextRange.Build LineExtractor.scenario 40 59;
   TextRange.Build LineExtractor.scenario 61 61].

Definition scenario_context : ParserContext.t :=
  TSDocParser.context_of (TSDocConfiguration.new false)
    (full_range LineExtractor.scenario) (Some scenario_lines).

Lemma scenario_parse :
  parseString (TSDocConfiguration.new false) LineExtractor.scenario =
  Ok scenario_context.
Proof. by vm_compute. Qed.

(** The scenario of the specification: the comment with a summary,
    a parameter and a returns block parses without a diagnostic, and the
    view shows the summary [Summary.], one parameter [x] with the text
    [the value], and the returns block with the text [the result], under
    the headings of these three sections. *)
Example scenario_parsed :
  let c := ParserContext.docComment scenario_context in
  parseString (TSDocConfiguration.new false) LineExtractor.scenario =
    Ok scenario_context /\
  ParserContext.log scenario_context = [] /\
  shown_text <$> summarySection c = Some (Some "Summary.") /\
  (fun b => (parameterName b, shown_text (blockContent b))) <$>
    DocParamCollection.blocks (params c) = [("x", Some "the value")] /\
  shown_text ∘ content <$> returnsBlock c = Some (Some "the result") /\
  React.headings <$> render 2 (props_of None scenario_context) =
    Some ["Summary"; "Parameters"; "Return Value"].
Proof. by vm_compute. Qed.

Lemma parsed_view_valid_witness :
  exists r, render 2 (props_of None scenario_context) = Some r /\
    Html.valid Html.Flow r = true.
Proof.
  apply (parsed_view_valid (TSDocConfiguration.new false) LineExtractor.scenario
           scenario_context None 2); [exact scenario_parse|lia].
Defined.

Lemma parsed_headings_witness :
  exists r, render 2 (props_of None scenario_context) = Some r /\
    React.headings r =
      headings_of (TSDocConfiguration.new false)
        (FencedCode.text_lines (ParserContext.lines scenario_context)).
Proof.
  apply (parsed_headings (TSDocConfiguration.new false) LineExtractor.scenario
           scenario_context None 2); [exact scenario_parse|lia].
Defined.

Lemma parsed_params_first_wins_witness :
  let collection := params (ParserContext.docComment scenario_context) in
  parameterName <$> DocParamCollection.blocks collection =
    NodeParser.param_names (TSDocConfiguration.new false)
      (FencedCode.text_lines (ParserContext.lines scenario_context)) /\
  DocParamCollection.tryGetBlockByName "x" collection =
    DocParamCollection.first_by_name "x" (DocParamCollection.blocks collection).
Proof.
  exact (parsed_params_first_wins (TSDocConfiguration.new false)
           LineExtractor.scenario scenario_context "x" scenario_parse).
Defined.

Lemma parsed_tokens_round_trip_witness :
  match LineExtractor.line_texts (chars LineExtractor.scenario) with
  | Some rows =>
      (fun line => chars (Js.join (TextRange.toString ∘ Tokenizer.range <$>
                                     Tokenizer.tokenize line))) <$>
        ParserContext.lines scenario_context = rows
  | None => ParserContext.lines scenario_context = []
  end.
Proof.
  exact (parsed_tokens_round_trip (TSDocConfiguration.new false)
           LineExtractor.scenario scenario_context scenario_parse).
Defined.

(** A comment with two [@returns] blocks. *)
Definition two_returns : string :=
  join_lines ["/** Adds."; " * @returns the sum"; " * @returns again"; " */"].

Definition second_returns : TextRange.t := TextRange.Build two_returns 33 47.

Definition first_returns_block : DocBlock :=
  {| blockTag := DocBlockTag.new "@returns";
     content := [NParagraph [NPlainText " "; NPlainText "the"; NPlainText " ";
                             NPlainText "sum"]] |}.

Lemma second_returns_reported_witness :
  let st := NodeParser.parse_lines (TSDocConfiguration.new false)
              ([TextRange.Build two_returns 4 9; TextRange.Build two_returns 13 29] ++
               second_returns :: [TextRange.Build two_returns 49 49]) in
  returnsBlock (NodeParser.docComment st) = Some first_returns_block /\
  exists message,
    message ∈ NodeParser.log st /\ severity message = SeverityError /\
    TextRange.wf (sourceRange message) /\
    TextRange.buffer (sourceRange message) = TextRange.buffer second_returns /\
    TextRange.toString (sourceRange message) = tagName (DocBlockTag.new "@returns").
Proof.
  apply (second_returns_reported (TSDocConfiguration.new false)
           [TextRange.Build two_returns 4 9; TextRange.Build two_returns 13 29]
           second_returns [TextRange.Build two_returns 49 49]
           (DocBlockTag.new "@returns") (TextRange.Build two_returns 33 41)
           (drop 2 (Tokenizer.tokenize second_returns)) first_returns_block);
    by vm_compute.
Defined.

(** The second [@returns] of the comment: the first block stays, and
    the log points at the tag of the second. *)
Example example_two_returns :
  res_map (fun c => (returnsBlock (ParserContext.docComment c),
                     (fun m => TextRange.toString (sourceRange m)) <$>
                       ParserContext.log c))
    (parseString (TSDocConfiguration.new false) two_returns) =
  Ok (Some first_returns_block, ["@returns"]).
Proof. by vm_compute. Qed.

(** A comment with modifier tags in two cases of their letters, a tag
    without a definition and a [@param] without a name, under a strict
    configuration: the set holds each modifier once, the unknown tag is
    reported as a warning and the malformed tag as an error, and both
    stay in the summary. *)
Definition messy : string :=
  join_lines ["/**"; " * @public"; " * Summary"; " * @foo bar"; " * @Public";
              " * @param - oops"; " * @beta"; " */"].

Example example_messy :
  res_map (fun c =>
             (tagName <$> modifierTagSet (ParserContext.docComment c),
              severity <$> ParserContext.log c,
              (fun m => TextRange.toString (sourceRange m)) <$> ParserContext.log c,
              summarySection (ParserContext.docComment c)))
    (parseString (TSDocConfiguration.new true) messy) =
  Ok (["@public"; "@beta"], [SeverityWarning; SeverityError],
      ["@foo"; "@param - oops"],
      Some [NParagraph [NPlainText "Summary"; NSoftBreak; NOther "BlockTag";
                        NPlainText " "; NPlainText "bar"; NSoftBreak;
                        NErrorText "@param - oops"]]).
Proof. by vm_compute. Qed.

(** A buffer that holds no comment: no lines, one token, the end of
    input, and one diagnostic. *)
Example example_no_comment :
  res_map (fun c => (ParserContext.lines c,
                     Tokenizer.kind <$> ParserContext.tokens c,
                     messageText <$> ParserContext.log c))
    (parseString (TSDocConfiguration.new false) "// a line comment") =
  Ok ([], [Tokenizer.EndOfInput], ["Expecting a /** comment"]).
Proof. by vm_compute. Qed.

(** The buffer of test 00 of the tokenizer: the rows of the opening and
    of the closing give an empty line each, and the space at the end of
    the second row stays in its line. *)
Example example_test_00 :
  res_map (fun c => (TextRange.toString <$> ParserContext.lines c,
                     (fun t => TextRange.toString (Tokenizer.range t)) <$>
                       ParserContext.tokens c))
    (parseString (TSDocConfiguration.new false) TokenizerTest.buffer_00) =
  Ok ([""; "line 1 "; "line 2"; ""],
      ["line"; " "; "1"; " "; "line"; " "; "2"; ""]).
Proof. by vm_compute. Qed.

(** A comment with every kind of block: two blocks of remarks, of
    which the view shows one, two examples, numbered, a see block and a
    modifier. *)
Definition every_block : string :=
  join_lines ["/**"; " * Summary"; " * @remarks one"; " * @example a";
              " * @see b"; " * @remarks two"; " * @Example c"; " * @beta";
              " * @returns d"; " * @param x - e"; " */"].

Example example_headings :
  res_map (fun c => (headings_of (TSDocConfiguration.new false) (ParserContext.lines c),
                     React.headings <$> render 2 (props_of None c)))
    (parseString (TSDocConfiguration.new false) every_block) =
  Ok (["Summary"; "Parameters"; "Return Value"; "Remarks"; "Example 1";
       "Example 2"; "See Also"; "Modifiers"],
      Some ["Summary"; "Parameters"; "Return Value"; "Remarks"; "Example 1";
            "Example 2"; "See Also"; "Modifiers"]).
Proof. by vm_compute. Qed.

End examples.

(** ** Examples with the grammar of [Markup] *)

Section markup_examples.
Import DocHtmlView TSDocParser TokenizerTest.
#[local] Existing Instance Markup.markup.
#[local] Existing Instance DocNodeTransforms.trim_spaces.

(** A comment with a code span, escapes, an inline tag, a backtick
    without a second one, and a code span that would run over two lines:
    the sections hold the nodes of the elements, every element that is
    not closed is an error text at the end of its line with a diagnostic
    about its range, and the view shows the text without the delimiters
    and, for the link, the identifier of the last member of its target. *)
Definition marked : string :=
  join_lines ["/**"; " * Adds `x` to \{y\}.";
              " * @param x - see {@link  Foo.bar } and `open";
              " * @returns the `sum"; " * of both`"; " */"].

Example example_marked :
  res_map (fun c =>
             (summarySection (ParserContext.docComment c),
              (fun b => (parameterName b, blockContent b)) <$>
                DocParamCollection.blocks (params (ParserContext.docComment c)),
              content <$> returnsBlock (ParserContext.docComment c),
              (fun m => TextRange.toString (sourceRange m)) <$> ParserContext.log c,
              React.text_content <$> render 2 (props_of None c)))
    (parseString (TSDocConfiguration.new false) marked) =
  Ok (Some [NParagraph
              [NPlainText "Adds"; NPlainText " "; NCodeSpan "x"; NPlainText " ";
               NPlainText "to"; NPlainText " "; NEscapedText "{"; NPlainText "y";
               NEscapedText "}"; NPlainText "."]],
      [("x", [NParagraph
                [NPlainText "see"; NPlainText " ";
                 NLinkTag
                   {| urlDestination := None; linkText := None;
                      codeDestination :=
                        Some {| memberReferences :=
                                  [{| memberIdentifier :=
                                        Some {| identifier := "Foo" |} |};
                                   {| memberIdentifier :=
                                        Some {| identifier := "bar" |} |}] |} |};
                 NPlainText " "; NPlainText "and"; NPlainText " ";
                 NErrorText "`open"]])],
      Some [NParagraph
              [NPlainText " "; NPlainText "the"; NPlainText " ";
               NErrorText "`sum"; NSoftBreak; NPlainText "of"; NPlainText " ";
               NPlainText "both"; NErrorText "`"]],
      ["`open"; "`sum"; "`"],
      Some " SummaryAdds x to {y}.ParametersNameDescriptionxsee bar and `openReturn Valuethe `sum of both` ").
Proof. by vm_compute. Qed.

(** The buffers of the tests 02 and 03 of the tokenizer, parsed: the
    backslashes before [$], [@] and a backslash are escapes; the backslash
    before the letter, the one before the two spaces and the one at the
    end of the line stay as they are, the negative examples of the
    test. *)
Example example_test_02 :
  res_map (fun c => (summarySection (ParserContext.docComment c), ParserContext.log c))
    (parseString (TSDocConfiguration.new false) buffer_02) =
  Ok (Some [NParagraph
              [NEscapedText "$"; NEscapedText "@"; NPlainText "param"; NSoftBreak;
               NPlainText "double"; NPlainText "-"; NPlainText "backslash";
               NPlainText ":"; NPlainText " "; NEscapedText "\"]],
      []).
Proof. by vm_compute. Qed.

Example example_test_03 :
  res_map (fun c => (summarySection (ParserContext.docComment c), ParserContext.log c))
    (parseString (TSDocConfiguration.new false) buffer_03) =
  Ok (Some [NParagraph
              [NPlainText "letter"; NPlainText ":"; NPlainText " ";
               NPlainText "\"; NPlainText "A"; NPlainText " "; NPlainText "space";
               NPlainText ":"; NPlainText " "; NPlainText "\"; NPlainText "  ";
               NPlainText "end"; NPlainText " "; NPlainText "of"; NPlainText " ";
               NPlainText "line"; NPlainText ":"; NPlainText " "; NPlainText "\"]],
      []).
Proof. by vm_compute. Qed.

(** A comment with a link without a target: the tag becomes an error
    text where it stands, the log holds a diagnostic about its range, and
    the parse goes on behind it, to the end of the line and to the block
    after it. *)
Definition untargeted : string :=
  join_lines ["/** See {@link} and more."; " * @returns x"; " */"].

Example example_untargeted :
  res_map (fun c =>
             (summarySection (ParserContext.docComment c),
              content <$> returnsBlock (ParserContext.docComment c),
              (fun m => (severity m, TextRange.pos (sourceRange m),
                         TextRange.toString (sourceRange m))) <$>
                ParserContext.log c))
    (parseString (TSDocConfiguration.new false) untargeted) =
  Ok (Some [NParagraph
              [NPlainText "See"; NPlainText " "; NErrorText "{@link}";
               NPlainText " "; NPlainText "and"; NPlainText " ";
               NPlainText "more"; NPlainText "."]],
      Some [NParagraph [NPlainText " "; NPlainText "x"]],
      [(SeverityError, 8, "{@link}")]).
Proof. by vm_compute. Qed.

(** A comment with two fences. The first is closed: its lines are
    code, the [@param] among them too, and the block stands between two
    paragraphs of the summary. The second opens with four backticks, so
    the line of three does not close it: it runs to the end of the
    comment and becomes an error text of the example, with a diagnostic.
    The view shows the code preformatted, and its tree is valid HTML. *)
Definition fenced : string :=
  join_lines ["/**"; " * Adds."; " * ```ts"; " * @param inside - code";
              " * const x = `a`;"; " * ```"; " * After."; " * @example";
              " * ````"; " * open"; " * ```"; " */"].

Definition fenced_context : ParserContext.t :=
  TSDocParser.context_of (TSDocConfiguration.new false) (full_range fenced)
    (Some [TextRange.Build fenced 3 3; TextRange.Build fenced 7 12;
           TextRange.Build fenced 16 21; TextRange.Build fenced 25 45;
           TextRange.Build fenced 49 63; TextRange.Build fenced 67 70;
           TextRange.Build fenced 74 80; TextRange.Build fenced 84 92;
           TextRange.Build fenced 96 100; TextRange.Build fenced 104 108;
           TextRange.Build fenced 112 115; TextRange.Build fenced 117 117]).

Lemma fenced_parse :
  parseString (TSDocConfiguration.new false) fenced = Ok fenced_context.
Proof. by vm_compute. Qed.

Example example_fenced :
  let c := ParserContext.docComment fenced_context in
  summarySection c =
    Some [NParagraph [NPlainText "Adds"; NPlainText "."];
          NFencedCode (join_lines ["@param inside - code"; "const x = `a`;"; ""]);
          NParagraph [NPlainText "After"; NPlainText "."]] /\
  DocParamCollection.blocks (params c) = [] /\
  content <$> customBlocks c =
    [[NParagraph [NErrorText (join_lines ["````"; " * open"; " * ```"; " "])]]] /\
  TextRange.toString <$> FencedCode.text_lines (ParserContext.lines fenced_context) =
    [""; "Adds."; "After."; "@example"] /\
  (fun r => (React.headings r, Html.valid Html.Flow r)) <$>
    render 2 (props_of None fenced_context) = Some (["Summary"; "Example"], true).
Proof. by vm_compute. Qed.

Lemma unclosed_fence_reported_witness :
  exists message,
    last (ParserContext.log fenced_context) = Some message /\
    severity message = SeverityError /\
    sourceRange message =
      FencedCode.open_range (TextRange.Build fenced 96 100)
        [TextRange.Build fenced 104 108; TextRange.Build fenced 112 115;
         TextRange.Build fenced 117 117] /\
    TextRange.wf (sourceRange message) /\
    TextRange.buffer (sourceRange message) = fenced /\
    3 <= TextRange.pos (sourceRange message) /\
    TextRange.end_ (sourceRange message) + 2 <= Js.length fenced.
Proof.
  apply (unclosed_fence_reported (TSDocConfiguration.new false) fenced fenced_context
           (take 5 (FencedCode.segments None (ParserContext.lines fenced_context))));
    [exact fenced_parse|reflexivity].
Defined.

Lemma parsed_log_valid_witness :
  let m :=
    {| severity := SeverityError;
       messageText := "The code fence is missing its closing fence";
       sourceRange := TextRange.Build fenced 96 117 |} in
  TextRange.wf (sourceRange m) /\ TextRange.buffer (sourceRange m) = fenced /\
  (ParserContext.lines fenced_context <> [] ->
   3 <= TextRange.pos (sourceRange m) /\
   TextRange.end_ (sourceRange m) + 2 <= Js.length fenced).
Proof.
  apply (parsed_log_valid (H := ParserLog.markup_ranged)
           (TSDocConfiguration.new false) fenced fenced_context);
    [exact fenced_parse|].
  by apply (list_elem_of_lookup_2 _ 0%nat).
Defined.

End markup_examples.
